(* ===== verification/_CoqProject ===== *)
-Q . S2P
Prelude.v
Logger.v
Allocator.v
PrioQueue.v
PageAlloc.v
RingBuf.v
RingConc.v
RingClient.v
Memory.v
Libktsn.v
Packet.v
Daemon.v
Init.v
LibStart.v
System.v
BurstEnd.v
DaemonMain.v
Timing.v
Waiting.v
ConcModel.v
ConcInv.v
ConcSystem.v
ConcSeq.v
ConcFinish.v
SocketDaemon.v
TsnPerf.v
PerfMain.v
OpcUaSub.v
OpcUaPub.v
