(* ===== verification/Prelude.v ===== *)
(** * KuberneTSN: a verification library

    KuberneTSN gives containers time-sensitive networking in user space.  An
    unmodified application is started with a preloaded library (src/libktsn.c)
    that takes over [socket], [setsockopt], [sendmsg] and [close].  A datagram with
    a transmission time ([SO_TXTIME]/[SCM_TXTIME]) is copied into a buffer of a
    shared memory; the index of the buffer travels through rings (src/src/kt_ringbuf.c)
    to a daemon (src/ktsnd.c), which keeps the packets in a priority queue
    (src/src/kt_queue.c) ordered by time and sends each one with DPDK shortly before
    it is due.  Rings and buffers live in pages that a page allocator
    (src/src/kt_alloc.c) takes from the shared memory (src/src/kt_memory.c).  A
    variant of the daemon without DPDK (src/ktsnd_socket.c), a benchmark
    (src/apps/tsn_perf.c) and two OPC UA programs (src/apps/opcua_pub.c,
    opcua_sub.c) come with it.

    ** How the code is modelled

    The C code is embedded shallowly: a function is a Rocq function with the
    source's name, its state is passed explicitly, and its outcome is a value of
    the type [res] of this file: a return, undefined behaviour, a failed assertion
    or [exit], or a loop that does not end.  Integers are Z with the wrap-around of
    their width written out ([u32], [u64], [i32], ...); signed overflow is undefined
    ([int_op], [i64_op]).  Arrays are lists with bounds-checked access ([znth],
    [zset]).  What the program gets from outside is an argument of the model: the
    answers of system calls, the clock, the memory [malloc] returns, DPDK's buffers
    and its checksum routine, the C library's own socket functions, the functions of
    open62541.  A function whose calls to the outside matter gives them as a list; a
    loop that runs until a signal takes one value of what happens around each test
    of its flag ([tick], [rx_tick], [sub_tick]), the last of which brings the signal.

    ** Files

    - Prelude.v (this file): outcomes, machine integers, arrays, tactics and hints.
    - Logger.v: src/src/kt_logger.c and the macros of kt_logger.h.
    - Allocator.v: the table of allocator operations ([struct kt_allocator]) as the
      class [AllocOps], and what its clients rely on as the class [AllocLaws];
      the memory pool declared on top of it (src/src/kt_mempool.c).
    - PrioQueue.v: src/src/kt_queue.c.  State [kt_prio_queue]; invariant [pq_wf],
      order [heap_ordered], contents [nodes].
    - PageAlloc.v: src/src/kt_alloc.c.  State [kt_page_allocator]; invariant
      [alloc_wf]; the instances of [AllocOps] and [AllocLaws].
    - RingBuf.v: src/src/kt_ringbuf.c.  State [kt_ringbuf] with its two pairs of
      wrapping counters; invariant [ring_wf], contents [contents]; the specification
      is the bounded queue [fifo_enqueue]/[fifo_dequeue].  [kt_ringbuf_create] is
      stated over any [AllocOps].
    - RingConc.v: the same code executed by several threads.  A [thread] is at a
      [program_counter] between two accesses to the shared ring, [thread_step] is
      one access, [machine_run] a schedule; the specification is a queue with
      reservations ([fifo_step]).
    - RingClient.v: what those who call a shared ring rely on ([ring_ok], [put_step],
      [get_step]), as consequences of the invariant of RingConc.v.
    - Memory.v: src/src/kt_memory.c and the shared structures of kt_memory.h; each
      function gives the list of system calls it makes.
    - Libktsn.v: src/libktsn.c.  State [kt_lib]: the tables of sockets and
      interfaces and the shared memory [kt_shared], whose invariant is [shared_wf].
    - Packet.v: [prepare_packet] of src/ktsnd.c on the bytes of the DPDK buffer; the
      specification is the receiver's parser [parse_udp_frame].
    - Daemon.v: the main loop of src/ktsnd.c.  State [kt_daemon]; invariant
      [daemon_wf]: every buffer index is in the free ring, the transmission ring,
      the queue or among the lost ones, and in one place only.
    - Init.v: the start of src/ktsnd.c, from the shared memories to the first
      iteration.
    - LibStart.v: [__libc_start_main] of src/libktsn.c.
    - System.v: applications and daemon together, as a step relation [sys_step]
      whose steps are calls of [sendmsg] and iterations of the daemon.
    - BurstEnd.v: iterations whose burst crosses the end of the transmission ring.
    - DaemonMain.v: [port_init], the loop until [SIGINT] and [main] of src/ktsnd.c, and
      the clock of src/src/kt_common.c.
    - Timing.v: a message from [sendmsg] to the wire, and when it leaves, by how often
      the loop comes round; Waiting.v: the same for packets that wait behind others.
    - ConcModel.v: applications and daemon in parallel.  State [csys]: the two rings
      as machines of RingConc.v, the pools, where each thread is ([app_pc],
      [daemon_pc]) and the queue; a step ([cstep]) is one access to a ring, one copy,
      or the handling of the packet at the root.
    - ConcInv.v: the invariant [core] of its runs: every buffer is in one of the two
      queues, held by one thread, in the priority queue or lost.
    - ConcSystem.v: what follows for every run; ConcSeq.v: threads that are not
      interrupted against the functions of Libktsn.v and Daemon.v; ConcFinish.v: every
      run can be brought to rest, by the measure [work_left].
    - SocketDaemon.v: the start, the loop and [main] of src/ktsnd_socket.c.
    - TsnPerf.v: the command line and the talker of src/apps/tsn_perf.c.
    - PerfMain.v: its sockets, its listener and its [main].
    - OpcUaSub.v: src/apps/opcua_sub.c over the types of
      src/apps/ua_pubsub_networkmessage.h.
    - OpcUaPub.v: src/apps/opcua_pub.c as the calls it makes; what a server promises
      is the class [ServerLaws].

    ** What the theorems show

    End to end (Timing.v, System.v): a timed message to a known network, of at most
    2006 bytes and sent any time in advance while the system is empty, leaves inside
    the 50 microseconds before its time, as a frame that parses to its addresses, port
    and bytes, if the loop comes round at least every 50 microseconds, and is dropped
    if the loop first sees it after its time ([message_reaches_the_wire]); one
    nanosecond more between two iterations may be too much
    ([slow_loop_drops_the_packet]).  However calls and iterations interleave, every
    buffer stays in exactly one place, except those of late packets, which are lost
    for good ([buffers_conserved], [late_packets_exhaust]; for messages that fit a
    frame and bursts that do not cross the end of the ring).

    Daemon (Daemon.v, Init.v): one iteration on every branch, for a burst that does not
    cross the end of the ring and with a DPDK buffer
    ([loop_body_correct]); a burst that does cross it loses the packets in the first slots and
    queues the words behind the ring instead, which ordinary operation leads to
    ([burst_across_end_corrupts], BurstEnd.v); the start establishes the invariant and the
    layout that the library finds again ([ktsnd_start_correct],
    [library_finds_objects]); a run of the whole program is a run of the system and
    gives everything back ([ktsnd_main_runs_and_cleans_up]), its error paths do not
    ([ktsnd_main_error_paths]); the port is set up in order or not at all
    ([port_init_stops_at_first_error]); due packets leave the queue one per iteration
    ([queue_drains]) (DaemonMain.v).  Several packets leave inside their windows if they
    are close enough to each other
    ([waiting_packets_are_punctual]); one that the queue has put behind a much later
    one is never sent and its buffer is lost, unless new messages change the
    queue ([overtaken_packet_is_never_sent], Waiting.v).

    Parallel runs (ConcSystem.v, ConcSeq.v, ConcFinish.v): any number of application threads and the
    daemon, interleaved at every access to the rings and to the buffers, as long as bursts do
    not cross the end of the ring, messages fit a frame, clock, counter and DPDK buffers are in
    range, and the 32-bit counters do not wrap around completely.  Each step
    returns and no two threads use the same buffer ([parallel_steps_are_safe]); every
    message is published once and unchanged, then transmitted in its window or
    dropped late, a call that got a buffer succeeds, and at rest the state is one of
    Daemon.v again ([parallel_messages_are_kept]); a thread that is not interrupted
    computes what the sequential function computes
    ([uninterrupted_threads_are_sequential]); what is under way can always be completed,
    within a bound on the steps ([parallel_calls_can_finish]), and every fair schedule
    completes it, without spurious failures of the compare-and-exchange
    ([fair_runs_come_to_rest]).  They apply to the daemon
    as it starts ([started_daemon_is_ready]).

    Concurrent ring (RingConc.v): however producers of single words and consumers
    interleave, the ring is a FIFO queue, whose words a consumer gets as far as they
    lie before the end of the ring ([concurrent_ring_is_fifo]), no two threads hold
    the same slot ([held_slots_are_disjoint]), calls in progress can always be
    completed ([concurrent_calls_can_finish]), and an undisturbed call is the
    sequential one of RingBuf.v ([uninterrupted_call_is_sequential]).

    Library (Libktsn.v): [sendmsg] on every branch, for both kinds of socket
    ([sendmsg_inet_correct], [sendmsg_packet_correct], [sendmsg_preserves]); the
    table of sockets under every sequence of calls ([socket_table_invariant],
    [close_correct], [setsockopt_txtime_correct]); the choice of the interface
    ([interface_by_net_correct]); every outcome of starting a program (LibStart.v); with an IPv4
    interface it never starts, since [socket] returns no value
    ([libc_start_main_outcomes]).

    Frames (Packet.v): round trip ([udp_frame_roundtrip]), checksum
    ([udp_frame_checksum]), and both transports in every size, those that overrun the
    buffer included ([prepare_packet_outcomes]).

    Data structures: the rings refine a bounded FIFO queue as long as a burst does
    not cross the end of the ring, with the exact result when it does (RingBuf.v);
    insertion keeps the heap order and extraction returns the minimum but may leave
    one node out of order, with the exact condition and a reachable inversion
    (PrioQueue.v); the page allocator is first fit, complete and reversible, never
    returns for a request of zero bytes, and hands out addresses behind its region
    (PageAlloc.v); shared memory is released completely by [kt_memory_destroy], and
    not on the error path of a failed creation (Memory.v).

    Variants and tools: the socket daemon does not serve its queue while no message
    arrives ([socket_loop_stalls]), and starts with rings whose number of slots is not
    a power of two ([socket_start_loses_buffers]) (SocketDaemon.v); the talker's
    schedule, and that it sends one message less than asked for (TsnPerf.v); its
    messages are within what the daemon needs, and the listener prints the counters
    that the talker wrote (PerfMain.v); the subscriber prints the known fields of key
    frames, undefined exactly when a decoded array is too short (OpcUaSub.v); the
    publisher's objects hang together, and failures of its set-up are not noticed
    (OpcUaPub.v).

    ** Fuel and bounds

    The sifting loops of the queue get one round per level they can visit at most
    (the index, the size); the search of the allocator gets one round per page plus
    one ([find_loop_spec]); the copy loops one round per word plus one.  The lemmas
    named after the functions show that this is enough, so no theorem about a result
    depends on the fuel; divergence theorems hold for every fuel.  A thread alone gets
    40 steps: a send takes at most 18, an iteration at most 24.  What [K] applications
    and the daemon have under way takes at most [work K] = 6 (K + 1) (2 K + 17) steps,
    by the measure [work_left] of ConcFinish.v.  The capacity of a
    queue is below 2^30 (its indices are [int]), rings have a power of two of slots
    and less than 2^31 words.

    ** What is not modelled

    Weak memory: the threads of RingConc.v and ConcModel.v interleave sequentially
    consistent accesses; that acquire, release and relaxed accesses of the source
    allow no more is not shown.  Counters that wrap around completely during one call:
    the theorems bound the words asked for in a run by 2^32 (in a parallel run: 8 per
    step), so that a compare-and-exchange cannot succeed on an old value.  Producers
    that add more than one word at a time while others run (the program has none).

    The clock is read in every iteration of the loop ([daemon_loop]); the source reads it
    only when its queue is not empty, and uses it nowhere else.  Whether [malloc] succeeds
    is one answer per call of a function.  DPDK is taken to transmit what it is handed:
    the result of [rte_eth_tx_burst] is ignored as in the source.

    [print_interface], [page_alloc_print_stats] and the log lines of the components
    only print.  The part of ua_pubsub_networkmessage.h that describes precomputed
    buffers, and its function declarations, belong to open62541 and are not used by
    the programs here.

    Next: the accesses of the ring under a release/acquire memory model; punctuality
    while new messages keep arriving. *)

From Stdlib Require Export ZArith Lia.
From stdpp Require Export base tactics numbers list sorting strings relations.

#[export] Set Default Goal Selector "!".

Declare Scope kt_scope.
Delimit Scope kt_scope with kt.
Global Open Scope Z_scope.

(** ** Outcomes of C code

    [Ret a] is a normal return.  [UB] is undefined behaviour (an access outside
    the object, a signed overflow, the use of a value that was never written).
    [Abort] is a failed [assert] or
    [exit(EXIT_FAILURE)].  [Diverge] is a loop that does not end within
    its fuel, or a spin loop whose condition nobody is left to change. *)
Inductive res (A : Type) : Type :=
  | Ret (a : A)
  | UB
  | Abort
  | Diverge.
Arguments Ret {A} a.
Arguments UB {A}.
Arguments Abort {A}.
Arguments Diverge {A}.

Definition bind {A B} (m : res A) (f : A -> res B) : res B :=
  match m with
  | Ret a => f a
  | UB => UB
  | Abort => Abort
  | Diverge => Diverge
  end.

Notation "x <- m ;; k" := (bind m (fun x => k))
  (at level 100, m at level 95, right associativity) : kt_scope.
Notation "'let*' p := m 'in' k" := (bind m (fun x => match x with p => k end))
  (at level 10, p pattern, m at level 200, k at level 200) : kt_scope.
Global Open Scope kt_scope.

(** [guard_ub b k] continues with [k] when the side condition [b] of the C
    standard holds, and is undefined otherwise. *)
Definition guard_ub {A} (b : bool) (k : res A) : res A := if b then k else UB.

(** ** Machine integers *)

Definition u8 (x : Z) : Z := x mod 256.
Definition u16 (x : Z) : Z := x mod 65536.
Definition u32 (x : Z) : Z := x mod 4294967296.
Definition u64 (x : Z) : Z := x mod 18446744073709551616.

(** Conversion to a signed type (two's complement, as every supported
    compiler does it). *)
Definition i32 (x : Z) : Z := (x + 2147483648) mod 4294967296 - 2147483648.
Definition i64 (x : Z) : Z :=
  (x + 9223372036854775808) mod 18446744073709551616 - 9223372036854775808.

Definition INT32_MIN : Z := -2147483648.
Definition INT32_MAX : Z := 2147483647.
Definition INT64_MIN : Z := -9223372036854775808.
Definition INT64_MAX : Z := 9223372036854775807.

Definition in_u32 (x : Z) : bool := (0 <=? x) && (x <? 4294967296).
Definition in_i32 (x : Z) : bool := (INT32_MIN <=? x) && (x <=? INT32_MAX).
Definition in_i64 (x : Z) : bool := (INT64_MIN <=? x) && (x <=? INT64_MAX).

(** kt_common.h *)
Definition NSEC_PER_SEC : Z := 1000000000.

(** Signed arithmetic: an overflow is undefined. *)
Definition int_op (x : Z) : res Z := guard_ub (in_i32 x) (Ret x).
Definition i64_op (x : Z) : res Z := guard_ub (in_i64 x) (Ret x).

Lemma u16_id x : 0 <= x < 2 ^ 16 -> u16 x = x.
Proof. intros. unfold u16. apply Z.mod_small. lia. Qed.

Lemma u32_id x : 0 <= x < 2 ^ 32 -> u32 x = x.
Proof. intros. unfold u32. apply Z.mod_small. lia. Qed.

Lemma i32_id x : INT32_MIN <= x <= INT32_MAX -> i32 x = x.
Proof. unfold i32, INT32_MIN, INT32_MAX. intros. rewrite Z.mod_small; lia. Qed.

Lemma u64_id x : 0 <= x < 2 ^ 64 -> u64 x = x.
Proof. intros. unfold u64. apply Z.mod_small. lia. Qed.

Lemma i64_range x : i64 x <= INT64_MAX.
Proof. unfold i64, INT64_MAX. pose proof (Z.mod_pos_bound (x + 9223372036854775808) 18446744073709551616). lia. Qed.

Lemma i64_id x : INT64_MIN <= x <= INT64_MAX -> i64 x = x.
Proof. unfold i64, INT64_MIN, INT64_MAX. intros. rewrite Z.mod_small; lia. Qed.

Lemma i64_op_id x : INT64_MIN <= x <= INT64_MAX -> i64_op x = Ret x.
Proof.
  intros. unfold i64_op, guard_ub, in_i64.
  by rewrite (proj2 (Z.leb_le _ _)), (proj2 (Z.leb_le x _)) by lia.
Qed.

Lemma int_op_id x : INT32_MIN <= x <= INT32_MAX -> int_op x = Ret x.
Proof.
  intros. unfold int_op, guard_ub, in_i32.
  by rewrite (proj2 (Z.leb_le _ _)), (proj2 (Z.leb_le x _)) by lia.
Qed.

(** ** Sums over lists *)

Definition sum_by {A} (w : A -> Z) (l : list A) : Z := foldr (fun x s => w x + s) 0 l.

Lemma sum_by_insert {A} (w : A -> Z) (l : list A) i x y :
  l !! i = Some x -> sum_by w (<[i := y]> l) = sum_by w l - w x + w y.
Proof.
  unfold sum_by. revert i. induction l as [|z l IH]; intros [|i] H; try done.
  - injection H as ->. cbn. lia.
  - specialize (IH i H). change (<[S i := y]> (z :: l)) with (z :: <[i := y]> l). cbn [foldr]. lia.
Qed.

Lemma sum_by_le {A} (w w' : A -> Z) (l : list A) :
  (forall x, x ∈ l -> w x <= w' x) -> sum_by w l <= sum_by w' l.
Proof.
  induction l as [|z l IH]; intros H; cbn; [lia|]. specialize (IH ltac:(intros; apply H; by right)).
  specialize (H z ltac:(left)). unfold sum_by in *. lia.
Qed.

Lemma sum_by_imap {A} (w : nat -> Z) (l : list A) k :
  sum_by id (imap (fun j _ => w (k + j)%nat) l) = sum_by w (seq k (length l)).
Proof.
  unfold sum_by. revert k. induction l as [|x l IH]; intros k; [done|]. cbn [imap foldr length seq].
  rewrite Nat.add_0_r. f_equal. rewrite <- IH. f_equal. apply imap_ext. intros j y _. cbn.
  by rewrite Nat.add_succ_r.
Qed.

Lemma sum_by_less {A} (w w' : A -> Z) (l : list A) k :
  k ∈ l -> (forall j, w' j <= w j) -> w' k + 1 <= w k -> sum_by w' l + 1 <= sum_by w l.
Proof.
  intros Hk Hle Hlt. unfold sum_by. induction l as [|j l IH]; cbn [foldr].
  { by apply not_elem_of_nil in Hk. }
  pose proof (sum_by_le w' w l ltac:(auto)). unfold sum_by in *. specialize (Hle j).
  apply elem_of_cons in Hk as [->|Hk]; [lia|]. specialize (IH Hk). lia.
Qed.

(** ** Arrays indexed by Z

    [znth] and [zset] are the C accesses [a[i]] and [a[i] = x]: out of bounds
    they are undefined.  [zget] and [zupd] are their total versions, which the
    proofs use once the bounds are known. *)
Section Arrays.
Context {A : Type}.

Definition in_bounds (l : list A) (i : Z) : bool :=
  (0 <=? i) && (i <? Z.of_nat (length l)).

Definition znth (l : list A) (i : Z) : res A :=
  if in_bounds l i then
    match l !! Z.to_nat i with Some x => Ret x | None => UB end
  else UB.

Definition zset (l : list A) (i : Z) (x : A) : res (list A) :=
  if in_bounds l i then Ret (<[Z.to_nat i := x]> l) else UB.

Definition zupd (l : list A) (i : Z) (x : A) : list A := <[Z.to_nat i := x]> l.

Definition zget `{Inhabited A} (l : list A) (i : Z) : A := l !!! Z.to_nat i.

Definition zlen (l : list A) : Z := Z.of_nat (length l).

Lemma in_bounds_true (l : list A) i : in_bounds l i = true <-> 0 <= i < zlen l.
Proof. unfold in_bounds, zlen. rewrite andb_true_iff, Z.leb_le, Z.ltb_lt. done. Qed.

Lemma in_bounds_false (l : list A) i : in_bounds l i = false <-> ~ (0 <= i < zlen l).
Proof. rewrite <- in_bounds_true. by destruct (in_bounds l i). Qed.

Lemma znth_get `{Inhabited A} (l : list A) i :
  0 <= i < zlen l -> znth l i = Ret (zget l i).
Proof.
  intros Hi. unfold znth. rewrite (proj2 (in_bounds_true l i) Hi).
  destruct (l !! Z.to_nat i) eqn:E.
  - unfold zget. by rewrite (list_lookup_total_correct l _ a).
  - apply lookup_ge_None in E. unfold zlen in Hi. lia.
Qed.

Lemma znth_head (x : A) l : znth (x :: l) 0 = Ret x.
Proof. done. Qed.

Lemma znth_middle (l k : list A) x : znth (l ++ x :: k) (zlen l) = Ret x.
Proof.
  unfold znth. rewrite (proj2 (in_bounds_true _ _)).
  - unfold zlen. by rewrite Nat2Z.id, list_lookup_middle.
  - unfold zlen. rewrite length_app. cbn [length]. lia.
Qed.

Lemma znth_oob (l : list A) i : ~ (0 <= i < zlen l) -> znth l i = UB.
Proof. intros Hi. unfold znth. by rewrite (proj2 (in_bounds_false l i) Hi). Qed.

Lemma zset_upd (l : list A) i x : 0 <= i < zlen l -> zset l i x = Ret (zupd l i x).
Proof. intros Hi. unfold zset. by rewrite (proj2 (in_bounds_true l i) Hi). Qed.

Lemma zset_oob (l : list A) i x : ~ (0 <= i < zlen l) -> zset l i x = UB.
Proof. intros Hi. unfold zset. by rewrite (proj2 (in_bounds_false l i) Hi). Qed.

Lemma zlen_zupd (l : list A) i x : zlen (zupd l i x) = zlen l.
Proof. unfold zlen, zupd. by rewrite length_insert. Qed.

Lemma zget_zupd `{Inhabited A} (l : list A) i j x :
  0 <= i < zlen l -> 0 <= j ->
  zget (zupd l i x) j = if i =? j then x else zget l j.
Proof.
  intros Hi Hj. unfold zget, zupd, zlen in *.
  destruct (Z.eqb_spec i j) as [->|Hne].
  - apply list_lookup_total_insert_eq. lia.
  - apply list_lookup_total_insert_ne. lia.
Qed.

Lemma zget_zupd_eq `{Inhabited A} (l : list A) i x :
  0 <= i < zlen l -> zget (zupd l i x) i = x.
Proof. intros Hi. rewrite zget_zupd by lia. by rewrite Z.eqb_refl. Qed.

Lemma zget_zupd_ne `{Inhabited A} (l : list A) i j x :
  0 <= i < zlen l -> 0 <= j -> i <> j -> zget (zupd l i x) j = zget l j.
Proof.
  intros Hi Hj Hne. rewrite zget_zupd by lia.
  by rewrite (proj2 (Z.eqb_neq i j) Hne).
Qed.

Lemma zlen_nonneg (l : list A) : 0 <= zlen l.
Proof. unfold zlen. lia. Qed.

Lemma zupd_same `{Inhabited A} (l : list A) i :
  0 <= i < zlen l -> zupd l i (zget l i) = l.
Proof.
  intros Hi. unfold zupd, zget, zlen in *.
  apply list_insert_id, list_lookup_lookup_total_lt. lia.
Qed.

Lemma zget_ext `{Inhabited A} (l k : list A) :
  zlen l = zlen k -> (forall i, 0 <= i < zlen l -> zget l i = zget k i) -> l = k.
Proof.
  unfold zlen, zget. intros Hlen Hi. apply list_eq. intros i.
  destruct (decide (i < length l)%nat) as [Hlt|Hge].
  - rewrite !list_lookup_lookup_total_lt by lia. f_equal.
    specialize (Hi (Z.of_nat i)). rewrite Nat2Z.id in Hi. apply Hi. lia.
  - rewrite !lookup_ge_None_2 by lia. done.
Qed.

Lemma elem_of_zget `{Inhabited A} (l : list A) i : 0 <= i < zlen l -> zget l i ∈ l.
Proof.
  unfold zlen, zget. intros Hi. apply list_elem_of_lookup. exists (Z.to_nat i).
  apply list_lookup_lookup_total_lt. lia.
Qed.

(** A slice of [n] elements from index [i]. *)
Definition zslice (l : list A) (i n : Z) : list A := take (Z.to_nat n) (drop (Z.to_nat i) l).

Lemma zlen_zslice (l : list A) i n :
  0 <= i -> 0 <= n -> i + n <= zlen l -> zlen (zslice l i n) = n.
Proof. unfold zlen, zslice. intros. rewrite length_take, length_drop. lia. Qed.

Lemma zget_zslice `{Inhabited A} (l : list A) i n j :
  0 <= i -> 0 <= j < n -> i + n <= zlen l -> zget (zslice l i n) j = zget l (i + j).
Proof.
  unfold zget, zslice, zlen. intros.
  rewrite lookup_total_take_lt by lia. rewrite !list_lookup_total_alt, lookup_drop.
  do 2 f_equal. lia.
Qed.

Lemma elem_of_zslice (l : list A) i n x : x ∈ zslice l i n -> x ∈ l.
Proof. unfold zslice. intros Hx. eapply subseteq_drop, subseteq_take, Hx. Qed.

Lemma zslice_cons `{Inhabited A} (l : list A) i n :
  0 <= i -> 0 < n -> i + n <= zlen l -> zslice l i n = zget l i :: zslice l (i + 1) (n - 1).
Proof.
  unfold zslice, zget, zlen. intros.
  rewrite (drop_S l (l !!! Z.to_nat i)) by (apply list_lookup_lookup_total_lt; lia).
  replace (Z.to_nat n) with (S (Z.to_nat (n - 1))) by lia.
  replace (Z.to_nat (i + 1)) with (S (Z.to_nat i)) by lia. done.
Qed.
End Arrays.

Lemma zlen_app {A} (l k : list A) : zlen (l ++ k) = zlen l + zlen k.
Proof. unfold zlen. rewrite length_app. lia. Qed.

Lemma zlen_cons {A} (x : A) l : zlen (x :: l) = 1 + zlen l.
Proof. unfold zlen. cbn [length]. lia. Qed.

Lemma zlen_nil {A} : zlen (@nil A) = 0.
Proof. done. Qed.

Lemma zlen_fmap {A B} (f : A -> B) l : zlen (f <$> l) = zlen l.
Proof. unfold zlen. by rewrite length_fmap. Qed.

Lemma zlen_replicate {A} n (x : A) : zlen (replicate n x) = Z.of_nat n.
Proof. unfold zlen. by rewrite length_replicate. Qed.

Lemma zlen_concat {A B} (f : A -> list B) (l : list A) : zlen (concat (f <$> l)) = sum_by (zlen ∘ f) l.
Proof. induction l as [|x l IH]; [done|]. rewrite fmap_cons. cbn [concat]. rewrite zlen_app, IH. done. Qed.

Lemma zslice_split {A} (l : list A) k :
  0 <= k <= zlen l -> l = zslice l 0 k ++ zslice l k (zlen l - k).
Proof.
  unfold zslice, zlen. intros Hk. change (Z.to_nat 0) with 0%nat. rewrite drop_0.
  rewrite (take_ge (drop _ _)) by (rewrite length_drop; lia). symmetry. apply take_drop.
Qed.

Lemma zget_app_l {A} `{Inhabited A} (l k : list A) i :
  0 <= i < zlen l -> zget (l ++ k) i = zget l i.
Proof. unfold zget, zlen. intros. rewrite !list_lookup_total_alt, lookup_app_l by lia. done. Qed.

Lemma zget_app_r {A} `{Inhabited A} (l k : list A) i :
  zlen l <= i -> zget (l ++ k) i = zget k (i - zlen l).
Proof.
  unfold zget, zlen. intros. rewrite !list_lookup_total_alt, lookup_app_r by lia.
  do 2 f_equal. lia.
Qed.

Lemma insert_nth_perm {A} (l : list A) i x y :
  l !! i = Some y -> <[i := x]> l ≡ₚ x :: delete i l.
Proof.
  intros Hi. apply lookup_lt_Some in Hi.
  rewrite insert_take_drop, delete_take_drop by done. symmetry. apply Permutation_middle.
Qed.

(** Lengths of arrays, for [autorewrite with zlen].  [zbounds] closes the side
    conditions of array accesses; [zlia] is [lia] knowing that lengths are not
    negative. *)
Create Rewrite HintDb zlen.
#[export] Hint Rewrite @zlen_app @zlen_cons @zlen_nil @zlen_zupd @zlen_fmap @zlen_replicate : zlen.

Ltac zbounds := autorewrite with zlen; lia.

Ltac zlens :=
  repeat match goal with
  | _ : context [zlen ?l] |- _ =>
      lazymatch goal with
      | _ : 0 <= zlen l |- _ => fail
      | _ => pose proof (zlen_nonneg l)
      end
  | |- context [zlen ?l] =>
      lazymatch goal with
      | _ : 0 <= zlen l |- _ => fail
      | _ => pose proof (zlen_nonneg l)
      end
  end.
Ltac zlia := zlens; lia.

(** The hints of the development: each component adds the parts of its
    invariant that its clients ask for. *)
Create HintDb kt.
#[export] Hint Resolve zlen_nonneg elem_of_zget : kt.

(** ** Inverting a sequence of C statements *)

Lemma bind_Ret {A B} (m : res A) (f : A -> res B) b :
  bind m f = Ret b <-> exists a, m = Ret a /\ f a = Ret b.
Proof.
  split; [|by intros (a & -> & Hf)].
  destruct m; cbn; [eauto| | |]; discriminate.
Qed.

Lemma guard_ub_Ret {A} b (k : res A) r : guard_ub b k = Ret r <-> b = true /\ k = Ret r.
Proof. split; [|by intros [-> ->]]. by destruct b; cbn; [auto|]. Qed.

Lemma bind_ret_l {A B} (a : A) (f : A -> res B) : bind (Ret a) f = f a.
Proof. done. Qed.

Lemma bind_assoc {A B C} (m : res A) (f : A -> res B) (g : B -> res C) :
  bind (bind m f) g = bind m (fun a => bind (f a) g).
Proof. by destruct m. Qed.

(** [inv_res] splits every hypothesis [c1 ; c2 = Ret r] into its steps. *)
Ltac inv_res :=
  repeat match goal with
  | H : bind _ _ = Ret _ |- _ => apply bind_Ret in H; destruct H as (? & ? & H)
  | H : guard_ub _ _ = Ret _ |- _ => apply guard_ub_Ret in H; destruct H as [? H]
  | H : Ret _ = Ret _ |- _ => injection H as H
  | H : UB = Ret _ |- _ => discriminate H
  | H : Abort = Ret _ |- _ => discriminate H
  | H : Diverge = Ret _ |- _ => discriminate H
  end; simplify_eq.

(** [zb] turns boolean tests of the code into propositions of Z. *)
Ltac zb :=
  repeat match goal with
  | H : andb _ _ = true |- _ => apply andb_true_iff in H; destruct H
  | H : orb _ _ = false |- _ => apply orb_false_iff in H; destruct H
  | H : andb _ _ = false |- _ => apply andb_false_iff in H; destruct H as [H|H]
  | H : orb _ _ = true |- _ => apply orb_true_iff in H; destruct H as [H|H]
  | H : negb _ = true |- _ => apply negb_true_iff in H
  | H : negb _ = false |- _ => apply negb_false_iff in H
  | H : (_ <? _) = true |- _ => apply Z.ltb_lt in H
  | H : (_ <? _) = false |- _ => apply Z.ltb_ge in H
  | H : (_ <=? _) = true |- _ => apply Z.leb_le in H
  | H : (_ <=? _) = false |- _ => apply Z.leb_gt in H
  | H : (_ =? _) = true |- _ => apply Z.eqb_eq in H
  | H : (_ =? _) = false |- _ => apply Z.eqb_neq in H
  end.

(** [step_if] decides the next boolean test of the goal. *)
Ltac step_if :=
  match goal with
  | |- context [if ?b then _ else _] =>
      lazymatch b with
      | context [if _ then _ else _] => fail
      | _ => let E := fresh "E" in destruct b eqn:E; zb
      end
  end.

(** Linear arithmetic with quotients and remainders by constants. *)
Ltac dlia := Z.div_mod_to_equations; lia.

(** Opens conjunctions and existentials among the hypotheses. *)
Ltac split_hyps :=
  repeat match goal with H : _ /\ _ |- _ => destruct H | H : exists _, _ |- _ => destruct H end.

(** Closes a conjunction of comparisons between closed terms. *)
Ltac zcompute := vm_compute; repeat split; intros; (reflexivity || discriminate || congruence).

(** A bounded quantifier over Z as a test. *)
Definition zforall (lo hi : Z) (f : Z -> bool) : bool :=
  forallb f ((fun k => lo + Z.of_nat k) <$> seq 0 (Z.to_nat (hi - lo))).

Lemma zforall_spec lo hi f :
  zforall lo hi f = true <-> forall i, lo <= i < hi -> f i = true.
Proof.
  unfold zforall. rewrite forallb_forall. split.
  - intros H i Hi. apply H. apply list_elem_of_In, list_elem_of_fmap.
    exists (Z.to_nat (i - lo)). rewrite elem_of_seq. lia.
  - intros H i (k & -> & Hk)%list_elem_of_In%list_elem_of_fmap.
    apply elem_of_seq in Hk. apply H. lia.
Qed.

(** Distinct indices below a bound are at most that many. *)
Lemma NoDup_bounded (l : list Z) n :
  0 <= n -> NoDup l -> Forall (fun x => 0 <= x < n) l -> zlen l <= n.
Proof.
  intros Hn Hnd Hall.
  assert (Hsub : l ⊆+ (Z.of_nat <$> seq 0 (Z.to_nat n))).
  { apply NoDup_submseteq; [done|]. intros x Hx. rewrite Forall_forall in Hall.
    specialize (Hall x Hx). apply list_elem_of_fmap. exists (Z.to_nat x).
    rewrite elem_of_seq. lia. }
  apply submseteq_length in Hsub. rewrite length_fmap, length_seq in Hsub. unfold zlen. lia.
Qed.
