(* ===== verification/Logger.v ===== *)
(** * The logger (src/src/kt_logger.c, kt_logger.h)

    A log function builds a format in a buffer of 512 bytes, a coloured level in
    front of the caller's format, and hands it to [vfprintf].  What [vfprintf]
    makes of a format and its arguments is an argument of the model. *)

From S2P Require Import Prelude.
From stdpp Require Import strings.
Local Open Scope string_scope.
Local Open Scope Z_scope.

Definition ESC : string := String (Ascii.ascii_of_nat 27) EmptyString.
Definition ASCII_CYAN : string := ESC +:+ "[36m".
Definition ASCII_YELLOW : string := ESC +:+ "[33m".
Definition ASCII_BLUE : string := ESC +:+ "[34m".
Definition ASCII_RED : string := ESC +:+ "[31m".
Definition ASCII_GREEN : string := ESC +:+ "[32m".
Definition ASCII_NONE : string := ESC +:+ "[0m".

(** [snprintf(buff, n, ...)] of a text: at most [n - 1] bytes are kept. *)
Definition snprintf (n : nat) (text : string) : string := String.substring 0 (n - 1) text.

(** What a [va_list *] points to.  On x86-64 a [va_list] is an array; as a
    parameter it is a pointer, so that its address is not that of a [va_list]. *)
Inductive va_object (A : Type) :=
  | VaList (args : A)
  | VaPointer (args : A).
Arguments VaList {A} args.
Arguments VaPointer {A} args.

Section Logger.
Context {A : Type} (vfprintf : string -> A -> string).

Definition do_log (fmt level color : string) (ap : va_object A) : res string :=
  let buff := snprintf 512 (color +:+ "[" +:+ level +:+ "]" +:+ ASCII_NONE +:+ " " +:+ fmt) in
  match ap with
  | VaList args => Ret (vfprintf buff args)
  | VaPointer _ => UB
  end.

Definition do_vlog (fmt level color : string) (ap : va_object A) : res string :=
  let buff := snprintf 512 (color +:+ "[" +:+ level +:+ "]" +:+ ASCII_NONE +:+ " " +:+ fmt) in
  match ap with
  | VaList args => Ret (vfprintf buff args)
  | VaPointer _ => UB
  end.

Definition log_error (fmt : string) (args : A) : res string := do_log fmt "error" ASCII_RED (VaList args).
Definition log_warn (fmt : string) (args : A) : res string := do_log fmt "warn" ASCII_YELLOW (VaList args).
Definition log_info (fmt : string) (args : A) : res string := do_log fmt "info" ASCII_GREEN (VaList args).
Definition log_debug (fmt : string) (args : A) : res string := do_log fmt "debug" ASCII_BLUE (VaList args).
Definition log_trace (fmt : string) (args : A) : res string := do_log fmt "trace" ASCII_CYAN (VaList args).
Definition vlog_trace (fmt : string) (ap : A) : res string := do_vlog fmt "trace" ASCII_CYAN (VaPointer ap).

(** The macros of kt_logger.h, which compile to nothing below their level. *)
Inductive log_macro := LOG_ERROR | LOG_WARN | LOG_INFO | LOG_DEBUG | LOG_TRACE | VLOG_TRACE.

Definition expand (LOG_LEVEL : Z) (m : log_macro) (fmt : string) (args : A) : res string :=
  match m with
  | LOG_ERROR => if 100 <=? LOG_LEVEL then log_error fmt args else Ret ""
  | LOG_WARN => if 200 <=? LOG_LEVEL then log_warn fmt args else Ret ""
  | LOG_INFO => if 300 <=? LOG_LEVEL then log_info fmt args else Ret ""
  | LOG_DEBUG => if 400 <=? LOG_LEVEL then log_debug fmt args else Ret ""
  | LOG_TRACE => if 500 <=? LOG_LEVEL then log_trace fmt args else Ret ""
  | VLOG_TRACE => if 500 <=? LOG_LEVEL then vlog_trace fmt args else Ret ""
  end.

(** ** Properties *)

Lemma substring_whole (s : string) n : (String.length s <= n)%nat -> String.substring 0 n s = s.
Proof.
  revert n. induction s as [|c s IH]; intros [|n] Hn; cbn in *; [done|done|lia|].
  f_equal. apply IH. lia.
Qed.

Lemma length_substring (s : string) n : (String.length (String.substring 0 n s) <= n)%nat.
Proof. revert n. induction s as [|c s IH]; intros [|n]; cbn; [lia..|]. specialize (IH n). lia. Qed.

Lemma length_append (s t : string) : String.length (s +:+ t) = (String.length s + String.length t)%nat.
Proof. induction s as [|c s IH]; [done|]. change (String c s +:+ t) with (String c (s +:+ t)). cbn [String.length]. lia. Qed.

(** The level and the colour of a macro, and the text in front of a message. *)
Definition level_of (m : log_macro) : Z :=
  match m with
  | LOG_ERROR => 100 | LOG_WARN => 200 | LOG_INFO => 300 | LOG_DEBUG => 400 | LOG_TRACE | VLOG_TRACE => 500
  end.

Definition prefix_of (m : log_macro) : string :=
  match m with
  | LOG_ERROR => ASCII_RED +:+ "[error]" | LOG_WARN => ASCII_YELLOW +:+ "[warn]"
  | LOG_INFO => ASCII_GREEN +:+ "[info]" | LOG_DEBUG => ASCII_BLUE +:+ "[debug]"
  | LOG_TRACE | VLOG_TRACE => ASCII_CYAN +:+ "[trace]"
  end +:+ ASCII_NONE +:+ " ".

Lemma expand_spec lvl m fmt args :
  m <> VLOG_TRACE -> level_of m <= lvl ->
  expand lvl m fmt args = Ret (vfprintf (snprintf 512 (prefix_of m +:+ fmt)) args).
Proof.
  intros Hm Hl. destruct m; try done; cbn [expand level_of] in *;
    by rewrite (proj2 (Z.leb_le _ _)) by lia.
Qed.

(** A log macro below its level prints nothing; at its level it prints the
    coloured level and the message, whole when the message format has at most 494
    characters, and never with a format of 512 characters or more.  The one macro
    that takes a [va_list] passes the address of its parameter and is undefined
    where it is compiled in. *)
Theorem log_output lvl m fmt args :
  (lvl < level_of m -> expand lvl m fmt args = Ret "") /\
  (level_of m <= lvl -> m <> VLOG_TRACE ->
   exists f, expand lvl m fmt args = Ret (vfprintf f args) /\ (String.length f < 512)%nat /\
     ((String.length fmt <= 494)%nat -> f = prefix_of m +:+ fmt)) /\
  (500 <= lvl -> expand lvl VLOG_TRACE fmt args = UB).
Proof.
  split_and!.
  - intros Hl. destruct m; cbn [expand level_of] in *; by rewrite (proj2 (Z.leb_gt _ _)) by lia.
  - intros Hl Hm. rewrite expand_spec by done. eexists. split; [done|]. split.
    + unfold snprintf. pose proof (length_substring (prefix_of m +:+ fmt) (512 - 1)). lia.
    + intros Hf. assert (String.length (prefix_of m) <= 17)%nat by (by destruct m; apply Nat.leb_le).
      apply substring_whole. rewrite length_append. lia.
  - intros Hl. cbn [expand]. by rewrite (proj2 (Z.leb_le _ _)) by lia.
Qed.
End Logger.

Lemma log_output_witness :
  expand (fun f (_ : Z) => f) 100 LOG_ERROR "port" 0 = Ret (ASCII_RED +:+ "[error]" +:+ ASCII_NONE +:+ " port") /\
  expand (fun f (_ : Z) => f) 100 LOG_WARN "port" 0 = Ret "".
Proof.
  destruct (log_output (fun f (_ : Z) => f) 100 LOG_ERROR "port" 0) as (_ & H & _).
  destruct (H ltac:(cbn; lia) ltac:(discriminate)) as (f & E & _ & Ef). split.
  - rewrite E, Ef by (apply Nat.leb_le; reflexivity). reflexivity.
  - destruct (log_output (fun f (_ : Z) => f) 100 LOG_WARN "port" 0) as (H' & _). apply H'. cbn; lia.
Defined.
