(* ===== verification/Allocator.v ===== *)
(** * The allocator interface (src/src/kt_alloc.h, struct kt_allocator)

    The rings and the daemons use an allocator only through the function
    pointers of [struct kt_allocator].  [AllocOps] is that table, [AllocLaws]
    is what its clients rely on; PageAlloc.v discharges the laws for the page
    allocator. *)

From S2P Require Import Prelude.

(** [alloc] and [free] of [struct kt_allocator], over the state [data] points
    to.  [NULL] is [None]. *)
Class AllocOps (St : Type) := {
  al_alloc : St -> Z -> res (St * option Z);
  al_free : St -> Z -> res St
}.

(** [al_live s p n]: the [n] bytes at address [p] are a block in use. *)
Class AllocLaws (St : Type) `{AllocOps St} := {
  al_inv : St -> Prop;
  al_live : St -> Z -> Z -> Prop;
  al_alloc_total s sz :
    al_inv s -> 0 < sz < 2 ^ 32 ->
    exists s' r, al_alloc s sz = Ret (s', r) /\ al_inv s' /\ (r = None -> s' = s);
  al_alloc_fresh s sz s' p :
    al_inv s -> 0 < sz < 2 ^ 32 -> al_alloc s sz = Ret (s', Some p) ->
    exists n, sz <= n /\ al_live s' p n /\
      forall p' n', al_live s p' n' -> al_live s' p' n' /\ (p' + n' <= p \/ p + n <= p')
}.

(** ** The memory pool (src/src/kt_mempool.c, kt_mempool.h)

    Pools are declared on top of the allocator but not implemented: creating one
    fails an assertion. *)
Record kt_mempool := mk_mempool {
  pool_name : string;
  pool_buf : Z;
  pool_alloc : Z;
  pool_esize : Z;
  pool_count : Z;
  pool_size : Z;
  pool_capacity : Z
}.

Definition kt_mempool_create {St} `{AllocOps St} (al : St) (name : string) (esize count : Z)
    : res (option kt_mempool) := Abort.
