(* ===== verification/PrioQueue.v ===== *)
(** * The priority queue of the scheduler (src/src/kt_queue.c, kt_queue.h)

    A binary min-heap in a fixed array of nodes.  The daemons key it by the
    transmission time of a packet and store the packet's buffer index.
    The first part translates the code, the second proves what each operation
    does to the heap order, to the multiset of stored nodes and to memory. *)

From S2P Require Import Prelude.

(** ** Data *)

(** [struct kt_pq_node]; the [void *data] member is kept as the 64-bit word
    the callers store in it. *)
Record kt_pq_node := mk_pq_node { prio : Z; data : Z }.

#[export] Instance kt_pq_node_eq_dec : EqDecision kt_pq_node.
Proof. solve_decision. Defined.
#[export] Instance kt_pq_node_inhabited : Inhabited kt_pq_node := populate (mk_pq_node 0 0).

(** [struct kt_prio_queue]: [elems] is the block [malloc] returned, so its
    length is the number of nodes that may be accessed. *)
Record kt_prio_queue := mk_prio_queue {
  elems : list kt_pq_node;
  cap : Z;
  size : Z
}.

Definition set_elems (q : kt_prio_queue) (l : list kt_pq_node) : kt_prio_queue :=
  mk_prio_queue l (cap q) (size q).
Definition set_size (q : kt_prio_queue) (n : Z) : kt_prio_queue :=
  mk_prio_queue (elems q) (cap q) n.

(** ** Operations *)

(** [blk] is what [malloc(sizeof(struct kt_pq_node) * cap)] returns: [None] is
    [NULL], and the contents of a block are arbitrary. *)
Definition kt_prio_queue_init (blk : option (list kt_pq_node)) (cap : Z) : kt_prio_queue :=
  mk_prio_queue (default [] blk) cap 0.

Definition kt_prio_queue_is_empty (q : kt_prio_queue) : bool := size q =? 0.

Definition _kt_prio_queue_swap (l : list kt_pq_node) (x y : Z) : res (list kt_pq_node) :=
  tmp <- znth l x;;
  vy <- znth l y;;
  l <- zset l x vy;;
  zset l y tmp.

(** The index helpers take an [int]; C division truncates, so the parent of 0
    is 0. *)
Definition _kt_prio_queue_parent (i : Z) : res Z :=
  d <- int_op (i - 1);;
  Ret (u64 (Z.quot d 2)).

Definition _kt_prio_queue_left (i : Z) : res Z :=
  d <- int_op (2 * i);;
  d <- int_op (d + 1);;
  Ret (u64 d).

Definition _kt_prio_queue_right (i : Z) : res Z :=
  d <- int_op (2 * i);;
  d <- int_op (d + 2);;
  Ret (u64 d).

Definition kt_prio_queue_getmin (q : kt_prio_queue) : res Z :=
  n <- znth (elems q) 0;;
  Ret (prio n).

(** The loop of [_kt_prio_queue_reorder]: [i] is the current index, [parent]
    the index [parent] points to. *)
Fixpoint reorder_loop (fuel : nat) (l : list kt_pq_node) (i parent : Z) : res (list kt_pq_node) :=
  match fuel with
  | O => Diverge
  | S fuel =>
      go <- (if 0 <? i then
              meta <- znth l i;;
              par <- znth l parent;;
              Ret (prio meta <? prio par)
            else Ret false : res bool);;
      if go then
        l <- _kt_prio_queue_swap l i parent;;
        i' <- _kt_prio_queue_parent i;;
        let i := i32 i' in
        parent <- _kt_prio_queue_parent i;;
        reorder_loop fuel l i parent
      else Ret l
  end.

Definition _kt_prio_queue_reorder (q : kt_prio_queue) (i : Z) : res kt_prio_queue :=
  parent <- _kt_prio_queue_parent i;;
  l <- reorder_loop (S (Z.to_nat i)) (elems q) i parent;;
  Ret (set_elems q l).

Definition kt_prio_queue_decrease_key (q : kt_prio_queue) (i new_val : Z) : res kt_prio_queue :=
  n <- znth (elems q) i;;
  if prio n <? new_val then Ret q
  else
    l <- zset (elems q) i (mk_pq_node new_val (data n));;
    _kt_prio_queue_reorder (set_elems q l) (i32 i).

Definition kt_prio_queue_insert (q : kt_prio_queue) (p : Z) (d : Z) : res (Z * kt_prio_queue) :=
  if size q =? cap q then Ret (-1, q)
  else
    l <- zset (elems q) (size q) (mk_pq_node INT64_MAX d);;
    let q := mk_prio_queue l (cap q) (u64 (size q + 1)) in
    q <- kt_prio_queue_decrease_key q (u64 (size q - 1)) p;;
    Ret (0, q).

Fixpoint _kt_prio_queue_heapify (fuel : nat) (q : kt_prio_queue) (i : Z) : res kt_prio_queue :=
  match fuel with
  | O => Diverge
  | S fuel =>
      left <- _kt_prio_queue_left (i32 i);;
      right <- _kt_prio_queue_right (i32 i);;
      min_idx <- (if left <? size q then
                   a <- znth (elems q) left;;
                   b <- znth (elems q) i;;
                   Ret (if prio a <? prio b then left else i)
                 else Ret i : res Z);;
      min_idx <- (if right <? size q then
                   a <- znth (elems q) right;;
                   b <- znth (elems q) min_idx;;
                   Ret (if prio a <? prio b then right else i)
                 else Ret i : res Z);;
      if negb (min_idx =? i) then
        l <- _kt_prio_queue_swap (elems q) i min_idx;;
        _kt_prio_queue_heapify fuel (set_elems q l) min_idx
      else Ret q
  end.

(** [out] says whether the [data] argument is a non-null pointer; the last
    component is the word written through it. *)
Definition kt_prio_queue_extract_min (q : kt_prio_queue) (out : bool)
    : res (Z * kt_prio_queue * option Z) :=
  if size q <=? 0 then Ret (-1, q, None)
  else
    min <- znth (elems q) 0;;
    let written := if out then Some (data min) else None in
    last <- znth (elems q) (u64 (size q - 1));;
    l <- zset (elems q) 0 last;;
    let q := mk_prio_queue l (cap q) (u64 (size q - 1)) in
    q <- _kt_prio_queue_heapify (S (Z.to_nat (size q))) q 0;;
    Ret (0, q, written).

Definition kt_prio_queue_delete_key (q : kt_prio_queue) (i : Z) : res kt_prio_queue :=
  q <- kt_prio_queue_decrease_key q i INT32_MIN;;
  r <- kt_prio_queue_extract_min q true;;
  Ret (r.1.2).

(** ** Well-formedness, contents and heap order *)

(** The index arithmetic is done in [int], which bounds the capacity. *)
Definition pq_wf (q : kt_prio_queue) : Prop :=
  0 <= size q <= cap q /\ cap q <= zlen (elems q) /\ cap q < 2 ^ 30.

(** The nodes stored in the queue, in array order. *)
Definition nodes (q : kt_prio_queue) : list kt_pq_node := take (Z.to_nat (size q)) (elems q).

(** The priority at index [i], and the index of its parent. *)
Definition key (l : list kt_pq_node) (i : Z) : Z := prio (zget l i).
Definition parent_of (i : Z) : Z := (i - 1) / 2.

Definition edge_ok (l : list kt_pq_node) (i : Z) : Prop := key l (parent_of i) <= key l i.

Definition heap_ordered (q : kt_prio_queue) : Prop :=
  forall i, 1 <= i < size q -> edge_ok (elems q) i.

(** Heap order except above [i]: what sifting up restores. *)
Definition heap_up (l : list kt_pq_node) (n i : Z) : Prop :=
  (forall j, 1 <= j < n -> j <> i -> edge_ok l j) /\
  (forall j, 1 <= i -> 1 <= j < n -> parent_of j = i -> key l (parent_of i) <= key l j).

(** Heap order except below [i]: what sifting down works on. *)
Definition heap_down (l : list kt_pq_node) (n i : Z) : Prop :=
  (forall j, 1 <= j < n -> parent_of j <> i -> edge_ok l j) /\
  (forall j, 1 <= i -> 1 <= j < n -> parent_of j = i -> key l (parent_of i) <= key l j).

(** [l'] is a rearrangement of the first [n] nodes of [l]. *)
Definition rearranges (n : Z) (l l' : list kt_pq_node) : Prop :=
  zlen l' = zlen l /\
  take (Z.to_nat n) l' ≡ₚ take (Z.to_nat n) l /\
  (forall j, n <= j -> zget l' j = zget l j).

(** The array after exchanging nodes [i] and [j]. *)
Definition exchange (l : list kt_pq_node) (i j : Z) : list kt_pq_node :=
  zupd (zupd l i (zget l j)) j (zget l i).

(** ** Array lemmas *)

Ltac bounds := unfold INT32_MIN, INT32_MAX, parent_of in *; dlia.

Lemma swap_exchange l i j :
  0 <= i < zlen l -> 0 <= j < zlen l -> _kt_prio_queue_swap l i j = Ret (exchange l i j).
Proof.
  intros. unfold _kt_prio_queue_swap. rewrite !znth_get by done. cbn [bind].
  rewrite zset_upd by done. cbn [bind]. by rewrite zset_upd by zbounds.
Qed.

Lemma zget_exchange l i j k :
  0 <= i < zlen l -> 0 <= j < zlen l -> 0 <= k ->
  zget (exchange l i j) k =
    if j =? k then zget l i else if i =? k then zget l j else zget l k.
Proof.
  intros. unfold exchange. rewrite zget_zupd by zbounds.
  destruct (j =? k); [done|]. by rewrite zget_zupd by lia.
Qed.

Lemma key_exchange l i j k :
  0 <= i < zlen l -> 0 <= j < zlen l -> 0 <= k ->
  key (exchange l i j) k = if j =? k then key l i else if i =? k then key l j else key l k.
Proof. intros. unfold key. rewrite zget_exchange by lia. by repeat case_match. Qed.

Lemma exchange_rearranges n l i j :
  0 <= i < n -> 0 <= j < n -> n <= zlen l -> rearranges n l (exchange l i j).
Proof.
  intros Hi Hj Hn. unfold rearranges. split_and!.
  - unfold exchange. by rewrite !zlen_zupd.
  - unfold exchange, zupd, zget, zlen in *.
    rewrite !take_insert_lt by lia.
    apply Permutation_insert_swap; rewrite lookup_take_lt by lia;
      apply list_lookup_lookup_total_lt; lia.
  - intros k Hk. rewrite zget_exchange by lia.
    by rewrite (proj2 (Z.eqb_neq j k)), (proj2 (Z.eqb_neq i k)) by lia.
Qed.

Lemma rearranges_refl n l : rearranges n l l.
Proof. by unfold rearranges. Qed.

Lemma rearranges_trans n l1 l2 l3 :
  rearranges n l1 l2 -> rearranges n l2 l3 -> rearranges n l1 l3.
Proof.
  intros (A1 & A2 & A3) (B1 & B2 & B3). split_and!; [congruence|by rewrite B2|].
  intros j Hj. rewrite B3; auto.
Qed.

#[export] Instance rearranges_preorder n : PreOrder (rearranges n).
Proof. split; [intros l; apply rearranges_refl|intros ???; apply rearranges_trans]. Qed.

(** ** Index helpers *)

Lemma parent_pos i : 1 <= i <= INT32_MAX -> _kt_prio_queue_parent i = Ret (parent_of i).
Proof.
  intros. unfold _kt_prio_queue_parent. rewrite int_op_id by bounds. cbn [bind].
  rewrite Z.quot_div_nonneg by lia. f_equal. apply u64_id. bounds.
Qed.

Lemma parent_zero : _kt_prio_queue_parent 0 = Ret 0.
Proof. done. Qed.

Lemma left_ok i : 0 <= i < 2 ^ 30 - 1 -> _kt_prio_queue_left (i32 i) = Ret (2 * i + 1).
Proof.
  intros. unfold _kt_prio_queue_left. rewrite i32_id by bounds.
  rewrite int_op_id by bounds. cbn [bind]. rewrite int_op_id by bounds. cbn [bind].
  f_equal. apply u64_id. lia.
Qed.

Lemma right_ok i : 0 <= i < 2 ^ 30 - 1 -> _kt_prio_queue_right (i32 i) = Ret (2 * i + 2).
Proof.
  intros. unfold _kt_prio_queue_right. rewrite i32_id by bounds.
  rewrite int_op_id by bounds. cbn [bind]. rewrite int_op_id by bounds. cbn [bind].
  f_equal. apply u64_id. lia.
Qed.

(** ** Sifting up *)

Lemma sift_up_step l n i :
  1 <= i < n -> n <= zlen l -> heap_up l n i -> key l i < key l (parent_of i) ->
  heap_up (exchange l i (parent_of i)) n (parent_of i).
Proof.
  intros Hi Hn [H1 H2] Hlt.
  assert (Hp : 0 <= parent_of i < i) by bounds.
  split.
  - intros j Hj Hne. unfold edge_ok.
    assert (0 <= parent_of j < j) by bounds.
    rewrite !key_exchange by lia.
    pose proof (H1 j Hj) as H1j. pose proof (H2 j) as H2j. unfold edge_ok in H1j.
    destruct (Z.eqb_spec (parent_of i) j), (Z.eqb_spec i j),
      (Z.eqb_spec (parent_of i) (parent_of j)), (Z.eqb_spec i (parent_of j));
      try lia; subst; try lia.
    specialize (H1j ltac:(lia)). rewrite <- e in H1j. lia.
  - intros j Hp1 Hj Hpj.
    assert (0 <= parent_of (parent_of i) < parent_of i) by bounds.
    pose proof (H1 (parent_of i) ltac:(lia) ltac:(lia)) as Hg. unfold edge_ok in Hg.
    rewrite !key_exchange by lia.
    destruct (Z.eqb_spec (parent_of i) (parent_of (parent_of i))); [lia|].
    destruct (Z.eqb_spec i (parent_of (parent_of i))); [lia|].
    destruct (Z.eqb_spec (parent_of i) j); [subst j; bounds|].
    destruct (Z.eqb_spec i j); [lia|].
    pose proof (H1 j Hj ltac:(lia)) as Hj'. unfold edge_ok in Hj'. rewrite Hpj in Hj'. lia.
Qed.

Lemma heap_up_done l n i :
  0 <= i -> heap_up l n i -> (1 <= i -> edge_ok l i) -> forall j, 1 <= j < n -> edge_ok l j.
Proof.
  intros Hi [H1 _] He j Hj. destruct (decide (j = i)) as [->|]; [apply He; lia|by apply H1].
Qed.

(** The loop needs at most [i + 1] rounds: every round moves to a smaller
    index. *)
Lemma reorder_loop_spec fuel : forall l n i,
  0 <= i < n -> n <= zlen l -> n < 2 ^ 30 -> (Z.to_nat i < fuel)%nat ->
  exists l', reorder_loop fuel l i (Z.max 0 (parent_of i)) = Ret l' /\
    rearranges n l l' /\
    (heap_up l n i -> forall j, 1 <= j < n -> edge_ok l' j).
Proof.
  induction fuel as [|fuel IH]; intros l n i Hi Hn Hmax Hf; [lia|].
  cbn [reorder_loop]. destruct (Z.ltb_spec 0 i) as [Hpos|Hz].
  2:{ exists l. split_and!; [done|apply rearranges_refl|].
      intros Hu j Hj. eapply heap_up_done; eauto; lia. }
  assert (Hp : 0 <= parent_of i < i) by bounds.
  rewrite Z.max_r by lia. rewrite !znth_get by lia. cbn [bind].
  change (prio (zget l i)) with (key l i).
  change (prio (zget l (parent_of i))) with (key l (parent_of i)).
  destruct (Z.ltb_spec (key l i) (key l (parent_of i))) as [Hlt|Hge].
  2:{ exists l. split_and!; [done|apply rearranges_refl|].
      intros Hu j Hj. eapply heap_up_done; eauto; lia. }
  rewrite swap_exchange by lia. cbn [bind]. rewrite parent_pos by bounds. cbn [bind].
  rewrite i32_id by bounds.
  pose proof (exchange_rearranges n l i (parent_of i) ltac:(lia) ltac:(lia) Hn) as Hr.
  assert (Hlen : zlen (exchange l i (parent_of i)) = zlen l) by apply Hr.
  destruct (IH (exchange l i (parent_of i)) n (parent_of i)) as (l' & Hl' & Hr' & Hh'); [lia..|].
  exists l'. split_and!.
  - destruct (decide (parent_of i = 0)) as [E|].
    + rewrite E in *. rewrite parent_zero. exact Hl'.
    + rewrite parent_pos by bounds. cbn [bind].
      assert (0 <= parent_of (parent_of i)) by bounds.
      rewrite Z.max_r in Hl' by lia. exact Hl'.
  - by etransitivity.
  - intros Hu. apply Hh'. apply sift_up_step; auto; lia.
Qed.

Lemma reorder_spec q i :
  pq_wf q -> 0 <= i < size q ->
  exists q', _kt_prio_queue_reorder q i = Ret q' /\ cap q' = cap q /\ size q' = size q /\
    rearranges (size q) (elems q) (elems q') /\
    (heap_up (elems q) (size q) i -> heap_ordered q').
Proof.
  intros (Hs & Hc & Hm) Hi. unfold _kt_prio_queue_reorder.
  destruct (reorder_loop_spec (S (Z.to_nat i)) (elems q) (size q) i)
    as (l' & Hl' & Hr & Hh); [lia..|].
  exists (set_elems q l'). split_and!; try done.
  destruct (decide (i = 0)) as [->|].
  - rewrite parent_zero. cbn [bind]. change (Z.max 0 (parent_of 0)) with 0 in Hl'.
    by rewrite Hl'.
  - rewrite parent_pos by bounds. cbn [bind].
    assert (0 <= parent_of i) by bounds. rewrite Z.max_r in Hl' by lia. by rewrite Hl'.
Qed.

Lemma rearranges_wf q q' :
  pq_wf q -> cap q' = cap q -> size q' = size q ->
  rearranges (size q) (elems q) (elems q') -> pq_wf q'.
Proof. unfold pq_wf. intros H -> -> [-> _]. done. Qed.

Lemma rearranges_nodes q q' :
  size q' = size q -> rearranges (size q) (elems q) (elems q') -> nodes q' ≡ₚ nodes q.
Proof. unfold nodes. by intros -> (_ & -> & _). Qed.

Lemma key_zupd l i j n :
  0 <= i < zlen l -> 0 <= j -> key (zupd l i n) j = if i =? j then prio n else key l j.
Proof. intros. unfold key. rewrite zget_zupd by lia. by case_match. Qed.

(** Lowering a key leaves heap order except above it. *)
Lemma heap_lower l n i p d :
  0 <= i < n -> n <= zlen l -> p <= key l i ->
  (forall j, 1 <= j < n -> edge_ok l j) -> heap_up (zupd l i (mk_pq_node p d)) n i.
Proof.
  intros Hi Hn Hp Hh. unfold heap_up, edge_ok. split; intros j.
  - intros Hj Hne. assert (0 <= parent_of j < j) by bounds.
    rewrite !key_zupd by lia. cbn [prio]. pose proof (Hh j Hj) as H'. unfold edge_ok in H'.
    repeat case_match; zb; subst; lia.
  - intros Hi1 Hj Hpj. assert (0 <= parent_of i < i) by bounds. assert (i < j) by bounds.
    rewrite !key_zupd by lia. cbn [prio].
    pose proof (Hh j Hj) as H1. pose proof (Hh i ltac:(lia)) as H2. unfold edge_ok in *.
    rewrite Hpj in H1. repeat case_match; zb; subst; lia.
Qed.

Lemma decrease_key_refused q i v :
  0 <= i < zlen (elems q) -> key (elems q) i < v -> kt_prio_queue_decrease_key q i v = Ret q.
Proof.
  intros Hi Hv. unfold kt_prio_queue_decrease_key. rewrite znth_get by done. cbn [bind].
  fold (key (elems q) i). by rewrite (proj2 (Z.ltb_lt _ _) Hv).
Qed.

Lemma decrease_key_lower q i v :
  pq_wf q -> 0 <= i < size q -> v <= key (elems q) i ->
  exists q', kt_prio_queue_decrease_key q i v = Ret q' /\
    pq_wf q' /\ cap q' = cap q /\ size q' = size q /\
    nodes q' ≡ₚ <[Z.to_nat i := mk_pq_node v (data (zget (elems q) i))]> (nodes q) /\
    (heap_up (zupd (elems q) i (mk_pq_node v (data (zget (elems q) i)))) (size q) i ->
     heap_ordered q').
Proof.
  intros Hwf Hi Hv. pose proof Hwf as (Hs & Hc & Hm). unfold kt_prio_queue_decrease_key.
  rewrite znth_get by lia. cbn [bind]. fold (key (elems q) i).
  rewrite (proj2 (Z.ltb_ge _ _) Hv). rewrite zset_upd by lia. cbn [bind].
  rewrite i32_id by bounds.
  set (l1 := zupd _ _ _). set (q1 := set_elems q l1).
  assert (Hwf1 : pq_wf q1).
  { unfold pq_wf, q1, l1. cbn. rewrite zlen_zupd. done. }
  destruct (reorder_spec q1 i Hwf1 Hi) as (q' & Hq' & Hcap & Hsz & Hr & Hh).
  exists q'. rewrite Hcap, Hsz. split_and!; try done.
  - by apply rearranges_wf with q1.
  - rewrite (rearranges_nodes q1 q' Hsz Hr). unfold nodes, q1, l1, zupd. cbn.
    by rewrite take_insert_lt by lia.
Qed.

Lemma nodes_snoc q l d :
  pq_wf q -> size q < cap q -> l = zupd (elems q) (size q) d ->
  take (Z.to_nat (size q + 1)) l = nodes q ++ [d].
Proof.
  intros (Hs & Hc & _) Hlt ->. unfold nodes, zupd, zlen in *.
  rewrite Z2Nat.inj_add by lia. rewrite Nat.add_1_r.
  rewrite (take_S_r _ _ d) by (apply list_lookup_insert_eq; lia).
  by rewrite take_insert_ge by lia.
Qed.

(** ** Insertion *)

Lemma insert_full q p d : size q = cap q -> kt_prio_queue_insert q p d = Ret (-1, q).
Proof. intros E. unfold kt_prio_queue_insert. by rewrite E, Z.eqb_refl. Qed.

Lemma insert_room q p d :
  pq_wf q -> size q < cap q -> p <= INT64_MAX ->
  exists q', kt_prio_queue_insert q p d = Ret (0, q') /\
    pq_wf q' /\ cap q' = cap q /\ size q' = size q + 1 /\
    nodes q' ≡ₚ mk_pq_node p d :: nodes q /\
    (heap_ordered q -> heap_ordered q').
Proof.
  intros Hwf Hlt Hp. pose proof Hwf as (Hs & Hc & Hm). unfold kt_prio_queue_insert.
  rewrite (proj2 (Z.eqb_neq _ _)) by lia. rewrite zset_upd by lia. cbn [bind].
  rewrite u64_id by lia. cbn [size]. rewrite u64_id by lia.
  set (l1 := zupd _ _ _). set (q1 := mk_prio_queue _ _ _).
  assert (Hlen : zlen l1 = zlen (elems q)) by apply zlen_zupd.
  assert (Hwf1 : pq_wf q1) by (unfold pq_wf, q1; cbn; lia).
  assert (Hget : zget l1 (size q) = mk_pq_node INT64_MAX d) by (apply zget_zupd_eq; lia).
  destruct (decrease_key_lower q1 (size q) p) as (q' & Hq' & Hwf' & Hcap & Hsz & Hn & Hh);
    [done|cbn; lia|unfold key, q1; cbn [elems]; rewrite Hget; cbn; lia|].
  replace (size q + 1 - 1) with (size q) by lia. rewrite Hq'. cbn [bind].
  exists q'. split_and!; try done.
  - rewrite Hn. unfold q1. cbn [elems]. rewrite Hget. cbn [data].
    unfold nodes at 1. cbn [elems size]. rewrite (nodes_snoc q l1 (mk_pq_node INT64_MAX d)) by done.
    assert (Hl : Z.to_nat (size q) = length (nodes q)).
    { unfold nodes. rewrite length_take. unfold zlen in *. lia. }
    rewrite Hl, insert_app_r_alt, Nat.sub_diag by lia. cbn. by rewrite Permutation_app_comm.
  - intros Hho. apply Hh. unfold q1. cbn [elems size]. rewrite Hget.
    unfold l1. split; intros j.
    + intros Hj Hne. unfold edge_ok. assert (0 <= parent_of j < j) by bounds.
      rewrite !key_zupd by zbounds.
      repeat case_match; zb; try lia. apply Hho. lia.
    + intros. bounds.
Qed.

(** ** Sifting down *)

(** [_kt_prio_queue_heapify] descends only to right children: when the left
    child is the smaller one its choice is overwritten by the second [else].
    [goes_right l n i] is the condition under which it descends at all. *)
Definition goes_right (l : list kt_pq_node) (n i : Z) : bool :=
  (2 * i + 2 <? n) &&
  (key l (2 * i + 2) <? (if key l (2 * i + 1) <? key l i then key l (2 * i + 1) else key l i)).

(** The indices reached from [i] by going to right children. *)
Definition right_spine (i s : Z) : Prop := exists k : nat, s + 2 = (i + 2) * 2 ^ Z.of_nat k.

Lemma right_spine_refl i : right_spine i i.
Proof. exists 0%nat. lia. Qed.

Lemma right_spine_step i s : right_spine (2 * i + 2) s -> right_spine i s.
Proof.
  intros [k Hk]. exists (S k). rewrite Nat2Z.inj_succ, Z.pow_succ_r by lia. lia.
Qed.

Lemma sift_down_step l n i :
  0 <= i -> n <= zlen l -> goes_right l n i = true -> heap_down l n i ->
  heap_down (exchange l i (2 * i + 2)) n (2 * i + 2).
Proof.
  intros Hi Hn Hg [H1 H2]. unfold goes_right in Hg. zb.
  assert (Hr : key l (2 * i + 2) < key l i /\ key l (2 * i + 2) <= key l (2 * i + 1)).
  { case_match; zb; lia. }
  split; intros j.
  - intros Hj Hne. unfold edge_ok. assert (0 <= parent_of j < j) by bounds.
    rewrite !key_exchange by lia. pose proof (H1 j Hj) as H1j. unfold edge_ok in H1j.
    pose proof (H2 j) as H2j.
    destruct (decide (j = 2 * i + 2)) as [->|Hjr].
    { replace (parent_of (2 * i + 2)) with i by bounds. repeat case_match; zb; lia. }
    destruct (decide (parent_of j = i)) as [E|Hpi].
    { assert (j = 2 * i + 1) as -> by bounds. rewrite E. repeat case_match; zb; lia. }
    specialize (H1j Hpi). destruct (decide (j = i)) as [->|Hji].
    { specialize (H2 (2 * i + 2) ltac:(lia) ltac:(lia) ltac:(bounds)).
      repeat case_match; zb; lia. }
    repeat case_match; zb; lia.
  - intros _ Hj Hpj. assert (0 <= parent_of (2 * i + 2) < j) by bounds.
    assert (Hji : j <> i /\ j <> 2 * i + 2) by bounds.
    rewrite !key_exchange by lia. replace (parent_of (2 * i + 2)) with i by bounds.
    pose proof (H1 j Hj ltac:(lia)) as H1j. unfold edge_ok in H1j. rewrite Hpj in H1j.
    repeat case_match; zb; lia.
Qed.

(** One round of the code, with the tests evaluated. *)
Lemma heapify_round fuel q i :
  pq_wf q -> 0 <= i < 2 ^ 30 - 1 ->
  _kt_prio_queue_heapify (S fuel) q i =
    if goes_right (elems q) (size q) i then
      _kt_prio_queue_heapify fuel (set_elems q (exchange (elems q) i (2 * i + 2))) (2 * i + 2)
    else Ret q.
Proof.
  intros (Hs & Hc & Hm) Hi. cbn [_kt_prio_queue_heapify].
  rewrite left_ok, right_ok by lia. cbn [bind]. unfold goes_right.
  destruct (Z.ltb_spec (2 * i + 2) (size q)) as [Hr|Hr].
  - rewrite (proj2 (Z.ltb_lt (2 * i + 1) _)) by lia. rewrite !znth_get by lia. cbn [bind].
    fold (key (elems q) (2 * i + 1)) (key (elems q) (2 * i + 2)) (key (elems q) i).
    rewrite znth_get by (case_match; lia). cbn [bind andb].
    destruct (key (elems q) (2 * i + 1) <? key (elems q) i);
      fold (key (elems q) (2 * i + 1)) (key (elems q) i);
      (destruct (key (elems q) (2 * i + 2) <? _); [|by rewrite Z.eqb_refl]);
      rewrite (proj2 (Z.eqb_neq _ _)) by lia; cbn [negb]; by rewrite swap_exchange by lia.
  - destruct (2 * i + 1 <? size q) eqn:El; zb; [rewrite !znth_get by lia|]; cbn [bind];
      by rewrite Z.eqb_refl.
Qed.

Lemma heapify_spec fuel : forall q i,
  pq_wf q -> 0 <= i < 2 ^ 30 - 1 -> (Z.to_nat (size q - i) < fuel)%nat ->
  exists q' s, _kt_prio_queue_heapify fuel q i = Ret q' /\ cap q' = cap q /\ size q' = size q /\
    rearranges (size q) (elems q) (elems q') /\ right_spine i s /\ 0 <= s /\
    goes_right (elems q') (size q) s = false /\
    (heap_down (elems q) (size q) i -> heap_down (elems q') (size q) s).
Proof.
  induction fuel as [|fuel IH]; intros q i Hwf Hi Hf; [lia|].
  rewrite heapify_round by done. destruct (goes_right _ _ _) eqn:Hg.
  2:{ exists q, i. split_and!; try done; [apply right_spine_refl|lia]. }
  pose proof Hwf as (Hs & Hc & Hm).
  assert (Hr : 2 * i + 2 < size q) by (unfold goes_right in Hg; zb; lia).
  set (q1 := set_elems q _).
  assert (Hre : rearranges (size q) (elems q) (elems q1)) by (apply exchange_rearranges; lia).
  assert (Hwf1 : pq_wf q1) by (by apply rearranges_wf with q).
  destruct (IH q1 (2 * i + 2)) as (q' & s & Hq & Hcap & Hsz & Hr' & Hsp & H0 & Hst & Hh);
    [done|lia|cbn; lia|].
  exists q', s. split_and!; try done.
  - by etransitivity.
  - by apply right_spine_step.
  - intros Hd. apply Hh. apply (sift_down_step (elems q) (size q)); auto; lia.
Qed.

(** ** The root is the minimum *)

Lemma nodes_lookup q n :
  pq_wf q -> n ∈ nodes q <-> exists i, 0 <= i < size q /\ zget (elems q) i = n.
Proof.
  intros (Hs & Hc & _). unfold nodes, zget, zlen in *. split.
  - intros (i & Hi)%list_elem_of_lookup. apply lookup_take_Some in Hi as [Hi Hlt].
    exists (Z.of_nat i). rewrite Nat2Z.id. split; [lia|]. by apply list_lookup_total_correct.
  - intros (i & Hi & <-). apply list_elem_of_lookup. exists (Z.to_nat i).
    rewrite lookup_take_lt by lia. apply list_lookup_lookup_total_lt. lia.
Qed.

Lemma root_le q : heap_ordered q -> forall i, 0 <= i < size q -> key (elems q) 0 <= key (elems q) i.
Proof.
  intros Hh i. induction i as [i IH] using (well_founded_induction (Z.lt_wf 0)).
  intros Hi. destruct (decide (i = 0)) as [->|]; [lia|].
  assert (0 <= parent_of i < i) by bounds.
  pose proof (Hh i ltac:(lia)) as He. unfold edge_ok in He.
  specialize (IH (parent_of i) ltac:(lia) ltac:(lia)). lia.
Qed.

Lemma getmin_ret q :
  pq_wf q -> 0 < size q -> kt_prio_queue_getmin q = Ret (key (elems q) 0).
Proof. intros (Hs & Hc & _) Hp. unfold kt_prio_queue_getmin. by rewrite znth_get by lia. Qed.

(** ** Extraction *)

Lemma extract_nodes q :
  pq_wf q -> 0 < size q ->
  nodes q ≡ₚ zget (elems q) 0 ::
    take (Z.to_nat (size q - 1)) (zupd (elems q) 0 (zget (elems q) (size q - 1))).
Proof.
  intros (Hs & Hc & _) Hp. unfold nodes, zget, zupd, zlen in *.
  destruct (elems q) as [|x l]; [cbn in *; lia|].
  change (Z.to_nat 0) with 0%nat. cbn [length] in *.
  change ((x :: l) !!! 0%nat) with x.
  destruct (Z.to_nat (size q)) as [|n] eqn:En; [lia|].
  replace (Z.to_nat (size q - 1)) with n by lia. cbn [take]. f_equiv.
  destruct n as [|n]; [done|]. cbn.
  rewrite (take_S_r l n (l !!! n)) by (apply list_lookup_lookup_total_lt; lia).
  by rewrite Permutation_app_comm.
Qed.

Lemma extract_order q l :
  pq_wf q -> 0 < size q -> heap_ordered q -> l = zupd (elems q) 0 (zget (elems q) (size q - 1)) ->
  heap_down l (size q - 1) 0.
Proof.
  intros (Hs & Hc & _) Hp Hh ->. split; intros j; [|lia].
  intros Hj Hne. unfold edge_ok. assert (0 <= parent_of j < j) by bounds.
  rewrite !key_zupd by lia. repeat case_match; zb; try lia. apply Hh. lia.
Qed.

Lemma extract_min_empty q out :
  size q = 0 -> kt_prio_queue_extract_min q out = Ret (-1, q, None).
Proof. intros E. unfold kt_prio_queue_extract_min. by rewrite E. Qed.

(** Everything [kt_prio_queue_extract_min] does to a non-empty queue.  [s] is
    the index where sifting stopped. *)
Lemma extract_min_spec q out :
  pq_wf q -> 0 < size q ->
  exists q' s,
    kt_prio_queue_extract_min q out =
      Ret (0, q', if out then Some (data (zget (elems q) 0)) else None) /\
    pq_wf q' /\ cap q' = cap q /\ size q' = size q - 1 /\
    nodes q ≡ₚ zget (elems q) 0 :: nodes q' /\
    right_spine 0 s /\ 0 <= s /\
    goes_right (elems q') (size q') s = false /\
    (heap_ordered q -> heap_down (elems q') (size q') s).
Proof.
  intros Hwf Hp. pose proof Hwf as (Hs & Hc & Hm). unfold kt_prio_queue_extract_min.
  rewrite (proj2 (Z.leb_gt _ _)) by lia.
  rewrite u64_id by lia. rewrite !znth_get by lia. cbn [bind].
  rewrite zset_upd by lia. cbn [bind].
  set (l1 := zupd _ _ _). set (q1 := mk_prio_queue l1 (cap q) (size q - 1)).
  assert (Hwf1 : pq_wf q1) by (unfold pq_wf, q1, l1; cbn; rewrite zlen_zupd; lia).
  destruct (heapify_spec (S (Z.to_nat (size q1))) q1 0)
    as (q' & s & Hq' & Hcap & Hsz & Hr & Hsp & H0 & Hst & Hh); [done|lia|lia|].
  rewrite Hq'. cbn [bind]. exists q', s. rewrite Hsz. split_and!; try done.
  - by apply rearranges_wf with q1.
  - rewrite (rearranges_nodes q1 q' Hsz Hr). by apply extract_nodes.
  - intros Ho. by apply Hh, (extract_order q).
Qed.

(** Where sifting stopped, only the left child can still be smaller. *)
Lemma stop_heap_iff q' s :
  0 <= s -> heap_down (elems q') (size q') s -> goes_right (elems q') (size q') s = false ->
  heap_ordered q' <->
  (2 * s + 1 < size q' -> key (elems q') s <= key (elems q') (2 * s + 1)).
Proof.
  intros Hs [H1 _] Hg. split.
  - intros Hh Hl. pose proof (Hh (2 * s + 1) ltac:(lia)) as He. unfold edge_ok in He.
    by replace (parent_of (2 * s + 1)) with s in He by bounds.
  - intros Hl j Hj. destruct (decide (parent_of j = s)) as [E|]; [|by apply H1].
    unfold edge_ok. rewrite E. unfold goes_right in Hg.
    assert (j = 2 * s + 1 \/ j = 2 * s + 2) as [->| ->] by bounds; [apply Hl; lia|].
    specialize (Hl ltac:(lia)). apply andb_false_iff in Hg as [Hg|Hg]; zb; [lia|].
    case_match; zb; lia.
Qed.

(** Heap order as a test. *)
Definition heap_orderedb (q : kt_prio_queue) : bool :=
  zforall 1 (size q) (fun i => key (elems q) (parent_of i) <=? key (elems q) i).

Lemma heap_orderedb_spec q : heap_orderedb q = true <-> heap_ordered q.
Proof.
  unfold heap_orderedb, heap_ordered, edge_ok. rewrite zforall_spec.
  split; intros H i Hi; specialize (H i Hi); by apply Z.leb_le.
Qed.

#[export] Instance heap_ordered_dec q : Decision (heap_ordered q).
Proof.
  refine (match heap_orderedb q as b return heap_orderedb q = b -> _ with
          | true => fun E => left _ | false => fun E => right _ end eq_refl).
  - by apply heap_orderedb_spec.
  - rewrite <- heap_orderedb_spec, E. done.
Defined.

(** ** Deletion *)

(** A node lowered strictly below all others is the root afterwards. *)
Lemma lowered_root q q1 i new :
  pq_wf q -> pq_wf q1 -> heap_ordered q1 -> 0 < size q1 -> 0 <= i < size q ->
  (forall j, 0 <= j < size q -> j <> i -> prio new < key (elems q) j) ->
  nodes q1 ≡ₚ <[Z.to_nat i := new]> (nodes q) -> zget (elems q1) 0 = new.
Proof.
  intros Hwf Hwf1 Ho1 Hp Hi Hoth Hn1. pose proof Hwf as (Hs & Hc & _).
  assert (Hli : (Z.to_nat i < length (nodes q))%nat).
  { unfold nodes, zlen in *. rewrite length_take. lia. }
  assert (Hin : zget (elems q1) 0 ∈ nodes q1) by (apply nodes_lookup; [done|]; exists 0; split; [lia|done]).
  assert (Hnew : new ∈ nodes q1).
  { rewrite Hn1. apply list_elem_of_lookup. exists (Z.to_nat i). by apply list_lookup_insert_eq. }
  apply (nodes_lookup q1) in Hnew as (k & Hk1 & Hk2); [|done].
  pose proof (root_le q1 Ho1 k Hk1) as Hle. unfold key in Hle. rewrite Hk2 in Hle.
  rewrite Hn1 in Hin. apply list_elem_of_lookup in Hin as (j & Hj).
  destruct (decide (Z.to_nat i = j)) as [<-|Hne].
  - rewrite list_lookup_insert_eq in Hj by done. by simplify_eq.
  - rewrite list_lookup_insert_ne in Hj by done. unfold nodes in Hj.
    apply lookup_take_Some in Hj as [Hj Hjlt].
    specialize (Hoth (Z.of_nat j) ltac:(lia) ltac:(lia)). unfold key, zget in Hoth.
    rewrite Nat2Z.id, (list_lookup_total_correct _ _ _ Hj) in Hoth. lia.
Qed.

Lemma delete_key_spec q i :
  pq_wf q -> heap_ordered q -> 0 <= i < size q ->
  INT32_MIN <= key (elems q) i ->
  (forall j, 0 <= j < size q -> j <> i -> INT32_MIN < key (elems q) j) ->
  exists q', kt_prio_queue_delete_key q i = Ret q' /\ pq_wf q' /\ size q' = size q - 1 /\
    nodes q ≡ₚ zget (elems q) i :: nodes q'.
Proof.
  intros Hwf Hh Hi Hk Hoth. pose proof Hwf as (Hs & Hc & _).
  unfold kt_prio_queue_delete_key.
  destruct (decrease_key_lower q i INT32_MIN) as (q1 & -> & Hwf1 & _ & Hsz1 & Hn1 & Ho1);
    [done..|]. cbn [bind].
  specialize (Ho1 ltac:(apply heap_lower; auto; lia)).
  destruct (extract_min_spec q1 true) as (q' & s & -> & Hwf' & _ & Hsz' & Hn' & _);
    [done|lia|]. cbn.
  assert (Hli : nodes q !! Z.to_nat i = Some (zget (elems q) i)).
  { unfold nodes, zget, zlen in *. rewrite lookup_take_lt by lia.
    apply list_lookup_lookup_total_lt. lia. }
  set (new := mk_pq_node INT32_MIN (data (zget (elems q) i))) in *.
  assert (Hroot : zget (elems q1) 0 = new).
  { apply (lowered_root q q1 i); auto; lia. }
  exists q'. split_and!; [done..|lia|].
  rewrite (delete_Permutation _ _ _ Hli). f_equiv.
  apply (Permutation_cons_inv (a := new)).
  rewrite <- Hroot at 2. rewrite <- Hn', Hn1. by rewrite (insert_nth_perm _ _ _ _ Hli).
Qed.

(** ** Properties *)

(** C12: [kt_prio_queue_insert] is correct on every branch.  On a full queue it
    returns -1 and changes nothing.  Otherwise it returns 0 without undefined
    behaviour, keeps the queue well formed, adds exactly the new node to the
    stored nodes and preserves the heap order. *)
Theorem insert_correct q p d :
  pq_wf q -> heap_ordered q -> INT64_MIN <= p <= INT64_MAX ->
  (size q = cap q /\ kt_prio_queue_insert q p d = Ret (-1, q)) \/
  (size q < cap q /\ exists q',
     kt_prio_queue_insert q p d = Ret (0, q') /\ pq_wf q' /\ heap_ordered q' /\
     cap q' = cap q /\ size q' = size q + 1 /\ nodes q' ≡ₚ mk_pq_node p d :: nodes q).
Proof.
  intros Hwf Hh Hp. pose proof Hwf as (Hs & _). destruct (decide (size q = cap q)) as [E|].
  - left. auto using insert_full.
  - right. destruct (insert_room q p d) as (q' & ? & ? & ? & ? & ? & ?); [done|lia|lia|].
    split; [lia|]. eauto 10.
Qed.

(** A heap-ordered queue with room, used by the witnesses. *)
Definition pq_demo : kt_prio_queue :=
  mk_prio_queue [mk_pq_node 1 10; mk_pq_node 2 20; mk_pq_node 3 30; mk_pq_node 0 0] 4 3.

Lemma insert_correct_witness :
  exists q', kt_prio_queue_insert pq_demo 0 40 = Ret (0, q') /\ heap_ordered q' /\
    nodes q' ≡ₚ mk_pq_node 0 40 :: nodes pq_demo.
Proof.
  destruct (insert_correct pq_demo 0 40) as [[H _]|(_ & q' & ? & _ & ? & _ & _ & ?)].
  - zcompute.
  - apply heap_orderedb_spec. reflexivity.
  - zcompute.
  - discriminate H.
  - exists q'. auto.
Defined.

(** On a heap-ordered non-empty queue [kt_prio_queue_getmin] returns the
    least priority of the stored nodes, and it is the priority of one of
    them. *)
Theorem getmin_correct q :
  pq_wf q -> heap_ordered q -> kt_prio_queue_is_empty q = false ->
  exists m, kt_prio_queue_getmin q = Ret m /\
    (exists n, n ∈ nodes q /\ prio n = m) /\ (forall n, n ∈ nodes q -> m <= prio n).
Proof.
  intros Hwf Hh He. unfold kt_prio_queue_is_empty in He. zb. pose proof Hwf as (Hs & _).
  exists (key (elems q) 0). split_and!.
  - apply getmin_ret; [done|lia].
  - exists (zget (elems q) 0). split; [|done]. apply nodes_lookup; [done|]. exists 0. split; [lia|done].
  - intros n (i & Hi & <-)%nodes_lookup; [|done]. by apply root_le.
Qed.

Lemma getmin_correct_witness :
  exists m, kt_prio_queue_getmin pq_demo = Ret m /\ (forall n, n ∈ nodes pq_demo -> m <= prio n).
Proof.
  destruct (getmin_correct pq_demo) as (m & H1 & _ & H2).
  - zcompute.
  - apply heap_orderedb_spec. reflexivity.
  - reflexivity.
  - exists m. auto.
Defined.

(** C13: [kt_prio_queue_extract_min] on a non-empty heap-ordered queue returns 0,
    hands out the data of a node of least priority and removes exactly that
    node.  Afterwards the queue is well formed and heap-ordered except possibly
    below one index [s] on the right spine of the tree; it is heap-ordered
    exactly when the left child of [s] is not smaller than [s]. *)
Theorem extract_min_correct q :
  pq_wf q -> heap_ordered q -> 0 < size q ->
  exists n q' s,
    kt_prio_queue_extract_min q true = Ret (0, q', Some (data n)) /\
    nodes q ≡ₚ n :: nodes q' /\ (forall m, m ∈ nodes q -> prio n <= prio m) /\
    pq_wf q' /\ cap q' = cap q /\ size q' = size q - 1 /\
    right_spine 0 s /\
    (forall j, 1 <= j < size q' -> parent_of j <> s -> edge_ok (elems q') j) /\
    (heap_ordered q' <->
      (2 * s + 1 < size q' -> key (elems q') s <= key (elems q') (2 * s + 1))).
Proof.
  intros Hwf Hh Hp.
  destruct (extract_min_spec q true) as (q' & s & ? & ? & ? & ? & ? & ? & ? & ? & Hd); [done..|].
  exists (zget (elems q) 0), q', s. split_and!; try done.
  - intros m (i & Hi & <-)%nodes_lookup; [|done]. by apply root_le.
  - apply Hd, Hh.
  - apply stop_heap_iff; auto.
Qed.

Lemma extract_min_correct_witness :
  exists n q', kt_prio_queue_extract_min pq_demo true = Ret (0, q', Some (data n)) /\
    nodes pq_demo ≡ₚ n :: nodes q'.
Proof.
  destruct (extract_min_correct pq_demo) as (n & q' & s & ? & ? & _).
  - zcompute.
  - apply heap_orderedb_spec. reflexivity.
  - zcompute.
  - exists n, q'. auto.
Defined.

(** The empty queue is reported: [kt_prio_queue_extract_min] returns -1,
    writes nothing and leaves the queue as it is; and a non-empty queue never
    takes that branch. *)
Theorem extract_min_error q out :
  pq_wf q ->
  kt_prio_queue_extract_min q out = Ret (-1, q, None) <-> kt_prio_queue_is_empty q = true.
Proof.
  intros Hwf. pose proof Hwf as (Hs & _). unfold kt_prio_queue_is_empty.
  destruct (Z.eqb_spec (size q) 0) as [E|].
  - split; [done|]. intros _. by apply extract_min_empty.
  - destruct (extract_min_spec q out) as (q' & s & -> & _); [done|lia|]. split; discriminate.
Qed.

Lemma extract_min_error_witness :
  kt_prio_queue_extract_min pq_demo false <> Ret (-1, pq_demo, None).
Proof.
  intros H. apply (extract_min_error pq_demo false) in H; [discriminate H|]. zcompute.
Defined.

(** C33: a priority inversion is reachable: after inserting the priorities 1, 2
    and 3 into an empty queue and extracting the minimum, the queue still holds
    a node of priority 2 but [kt_prio_queue_getmin] answers 3. *)
Theorem extract_min_inversion (blk : list kt_pq_node) :
  length blk = 3%nat ->
  exists q1 q2 q3 q,
    kt_prio_queue_insert (kt_prio_queue_init (Some blk) 3) 1 10 = Ret (0, q1) /\
    kt_prio_queue_insert q1 2 20 = Ret (0, q2) /\
    kt_prio_queue_insert q2 3 30 = Ret (0, q3) /\
    heap_ordered q3 /\
    kt_prio_queue_extract_min q3 true = Ret (0, q, Some 10) /\
    mk_pq_node 2 20 ∈ nodes q /\ kt_prio_queue_getmin q = Ret 3.
Proof.
  intros Hl. destruct blk as [|a [|b [|c [|]]]]; try discriminate Hl.
  set (n1 := mk_pq_node 1 10). set (n2 := mk_pq_node 2 20). set (n3 := mk_pq_node 3 30).
  exists (mk_prio_queue [n1; b; c] 3 1), (mk_prio_queue [n1; n2; c] 3 2),
    (mk_prio_queue [n1; n2; n3] 3 3), (mk_prio_queue [n3; n2; n3] 3 2).
  split; [vm_compute; reflexivity|]. split; [vm_compute; reflexivity|].
  split; [vm_compute; reflexivity|].
  split; [apply heap_orderedb_spec; vm_compute; reflexivity|].
  split; [vm_compute; reflexivity|]. split; [|vm_compute; reflexivity].
  apply list_elem_of_In. right. left. reflexivity.
Qed.

Lemma extract_min_inversion_witness :
  exists q, kt_prio_queue_getmin q = Ret 3 /\ mk_pq_node 2 20 ∈ nodes q.
Proof.
  destruct (extract_min_inversion (replicate 3 (mk_pq_node 0 0)))
    as (q1 & q2 & q3 & q & _ & _ & _ & _ & _ & H1 & H2); [reflexivity|].
  exists q. auto.
Defined.

(** [kt_prio_queue_delete_key] removes exactly the node at index [i], provided
    no priority is below [INT32_MIN] and no other one equals it. *)
Theorem delete_key_correct q i :
  pq_wf q -> heap_ordered q -> 0 <= i < size q ->
  INT32_MIN <= key (elems q) i ->
  (forall j, 0 <= j < size q -> j <> i -> INT32_MIN < key (elems q) j) ->
  exists q', kt_prio_queue_delete_key q i = Ret q' /\ pq_wf q' /\ size q' = size q - 1 /\
    nodes q ≡ₚ zget (elems q) i :: nodes q'.
Proof. apply delete_key_spec. Qed.

Lemma delete_key_correct_witness :
  exists q', kt_prio_queue_delete_key pq_demo 1 = Ret q' /\
    nodes pq_demo ≡ₚ mk_pq_node 2 20 :: nodes q'.
Proof.
  destruct (delete_key_correct pq_demo 1) as (q' & ? & _ & _ & ?).
  - zcompute.
  - apply heap_orderedb_spec. reflexivity.
  - zcompute.
  - zcompute.
  - cbn [size pq_demo]. intros j Hj Hne.
    assert (j = 0 \/ j = 2) as [->| ->] by lia; reflexivity.
  - exists q'. auto.
Defined.
