(* ===== verification/PageAlloc.v ===== *)
(** * The page allocator (src/src/kt_alloc.c, kt_alloc.h)

    The daemons carve the rings and the packet pools out of one shared region.
    The allocator keeps its metadata at the start of the region: a header, an
    array of page descriptors and a byte mask of the free pages.  A pointer to
    a descriptor is modelled by its index, a pointer into the region by its
    address. *)

From S2P Require Import Prelude Allocator.

(** ** Data *)

(** [struct kt_page]; [next] points into [page_list]. *)
Record kt_page := mk_page { next : Z; free : Z; offset : Z; reserved : Z }.

#[export] Instance kt_page_inhabited : Inhabited kt_page := populate (mk_page 0 0 0 0).

Definition set_free (p : kt_page) (v : Z) : kt_page :=
  mk_page (next p) v (offset p) (reserved p).
Definition set_reserved (p : kt_page) (v : Z) : kt_page :=
  mk_page (next p) (free p) (offset p) v.

(** [struct kt_page_allocator], with the two arrays it points to. *)
Record kt_page_allocator := mk_page_allocator {
  page_size : Z;
  page_count : Z;
  page_free : Z;
  page_list_addr : Z;
  page_list : list kt_page;
  free_pages_mask_addr : Z;
  free_pages_mask : list Z;
  data : Z
}.

(** [sizeof] on LP64: three [u32] and three pointers; one pointer and three
    [u32], padded to 8. *)
Definition sizeof_kt_page_allocator : Z := 40.
Definition sizeof_kt_page : Z := 24.

(** ** Initialisation *)

(** The [do]/[while] loop that looks for a page count whose metadata fits.
    [None] is the early [return -1]; otherwise the loop leaves the (already
    decremented) page count and the two sizes of its last round. *)
Fixpoint metadata_loop (fuel : nat) (size page_count : Z) : res (option (Z * Z * Z)) :=
  match fuel with
  | O => Diverge
  | S fuel =>
      let page_list_size := u32 (page_count * sizeof_kt_page) in
      let free_pages_mask_size := u32 (page_count * 1) in
      let total_metadata_size :=
        u32 (sizeof_kt_page_allocator + page_list_size + free_pages_mask_size) in
      let page_count := u32 (page_count - 1) in
      if page_count =? 0 then Ret None
      else if size <? total_metadata_size then metadata_loop fuel size page_count
      else Ret (Some (page_count, page_list_size, free_pages_mask_size))
  end.

(** The descriptor of page [i] after the initialisation loop and the store
    that closes the ring of [next] pointers. *)
Definition init_page (page_size page_count i : Z) : kt_page :=
  mk_page (if i =? page_count - 1 then 0 else i + 1) 1 (u32 (i * page_size)) 0.

Definition is_pow2_test (x : Z) : bool := Z.land x (u32 (x - 1)) =? 0.

(** [None] is the result -1.  A store outside the [size] bytes at [addr] is
    undefined.  The fuel is enough whenever the region has at least one page
    ([metadata_loop_total]). *)
Definition kt_page_allocator_init (addr size page_size : Z) : res (option kt_page_allocator) :=
  if negb (is_pow2_test size) || negb (is_pow2_test page_size) then Ret None
  else
    guard_ub (negb (page_size =? 0))
    (let count := size / page_size in
     r <- metadata_loop (S (S (Z.to_nat count))) size count;;
     match r with
     | None => Ret None
     | Some (page_count, page_list_size, free_pages_mask_size) =>
         let page_list_offset := addr + sizeof_kt_page_allocator in
         let free_pages_mask_offset := page_list_offset + page_list_size * sizeof_kt_page in
         let data_offset := free_pages_mask_offset + free_pages_mask_size * 1 in
         let data_offset := u64 (data_offset + page_size - 1) / page_size * page_size in
         if (sizeof_kt_page_allocator <=? size) &&
            (page_list_offset + page_count * sizeof_kt_page <=? addr + size) &&
            (free_pages_mask_offset + page_count <=? addr + size)
         then
           Ret (Some (mk_page_allocator page_size page_count page_count
             page_list_offset
             (init_page page_size page_count <$> (Z.of_nat <$> seq 0 (Z.to_nat page_count)))
             free_pages_mask_offset (replicate (Z.to_nat page_count) 1)
             data_offset))
         else UB
     end).

(** ** Searching *)

Fixpoint search_loop (n : nat) (mask : list Z) (i : Z) : res (option Z) :=
  match n with
  | O => Ret None
  | S n =>
      m <- znth mask i;;
      if negb (m =? 0) then Ret (Some i) else search_loop n mask (i + 1)
  end.

(** The index of the page found; [NULL] is [None]. *)
Definition page_alloc_search_first_free_page_from (alloc : kt_page_allocator) (start : Z)
    : res (option Z) :=
  if page_count alloc <=? start then Ret None
  else search_loop (Z.to_nat (page_count alloc - start)) (free_pages_mask alloc) start.

Definition page_alloc_search_first_free_page (alloc : kt_page_allocator) : res (option Z) :=
  page_alloc_search_first_free_page_from alloc 0.

(** How the inner [for] loop of [page_alloc_find_aligned_pages] is left. *)
Inductive run_exit :=
  | RunFound
  | RunBreak (index : Z)
  | RunEnd.

Fixpoint run_loop (n : nat) (alloc : kt_page_allocator) (pages_needed index page_found : Z)
    : res run_exit :=
  match n with
  | O => Ret RunEnd
  | S n =>
      let k := u32 (index + page_found) in
      is_free <- (if k <? page_count alloc then
                    m <- znth (free_pages_mask alloc) k;; Ret (negb (m =? 0))
                  else Ret false);;
      if is_free : bool then
        if u32 (page_found + 1) =? pages_needed then Ret RunFound
        else run_loop n alloc pages_needed index (page_found + 1)
      else Ret (RunBreak k)
  end.

Fixpoint find_loop (fuel : nat) (alloc : kt_page_allocator) (pages_needed index : Z)
    : res (option Z) :=
  match fuel with
  | O => Diverge
  | S fuel =>
      page <- page_alloc_search_first_free_page_from alloc index;;
      match page with
      | None => Ret None
      | Some index =>
          if pages_needed =? 1 then Ret (Some index)
          else
            r <- run_loop (Z.to_nat (pages_needed - 1)) alloc pages_needed index 1;;
            match r with
            | RunFound => Ret (Some index)
            | RunBreak k => find_loop fuel alloc pages_needed k
            | RunEnd => find_loop fuel alloc pages_needed index
            end
      end
  end.

Definition page_alloc_find_aligned_pages (fuel : nat) (alloc : kt_page_allocator)
    (pages_needed : Z) : res (option Z) :=
  find_loop fuel alloc pages_needed 0.

(** ** Allocation and release *)

(** [tmp->free = v; tmp = tmp->next;] repeated [n] times. *)
Fixpoint mark_pages (n : nat) (pages : list kt_page) (tmp v : Z) : res (list kt_page) :=
  match n with
  | O => Ret pages
  | S n =>
      p <- znth pages tmp;;
      pages <- zset pages tmp (set_free p v);;
      mark_pages n pages (next p) v
  end.

(** [free_pages_mask[i] = v] for [n] successive indices from [i]. *)
Fixpoint mark_mask (n : nat) (mask : list Z) (i v : Z) : res (list Z) :=
  match n with
  | O => Ret mask
  | S n => mask <- zset mask i v;; mark_mask n mask (i + 1) v
  end.

Definition pages_for (alloc : kt_page_allocator) (size : Z) : Z :=
  u32 (size / page_size alloc + (if size mod page_size alloc =? 0 then 0 else 1)).

(** The result is the address handed out, [None] for [NULL]. *)
Definition page_alloc_alloc (fuel : nat) (alloc : kt_page_allocator) (size : Z)
    : res (kt_page_allocator * option Z) :=
  guard_ub (negb (page_size alloc =? 0))
  (let pages_needed := pages_for alloc size in
   if page_free alloc <? pages_needed then Ret (alloc, None)
   else
     page <- page_alloc_find_aligned_pages fuel alloc pages_needed;;
     match page with
     | None => Ret (alloc, None)
     | Some index =>
         p <- znth (page_list alloc) index;;
         pages <- zset (page_list alloc) index (set_reserved p pages_needed);;
         pages <- mark_pages (Z.to_nat pages_needed) pages index 0;;
         mask <- mark_mask (Z.to_nat pages_needed) (free_pages_mask alloc) index 0;;
         Ret (mk_page_allocator (page_size alloc) (page_count alloc)
                (u32 (page_free alloc - pages_needed)) (page_list_addr alloc) pages
                (free_pages_mask_addr alloc) mask (data alloc),
              Some (data alloc + offset p))
     end).

Definition page_alloc_free (alloc : kt_page_allocator) (ptr : Z) : res kt_page_allocator :=
  guard_ub (negb (page_size alloc =? 0))
  (let index := u32 (Z.quot (ptr - data alloc) (page_size alloc)) in
   p <- znth (page_list alloc) index;;
   if negb (free p =? 0) then Ret alloc
   else
     pages <- zset (page_list alloc) index (set_free p 1);;
     pages <- mark_pages (Z.to_nat (reserved p)) pages index 1;;
     mask <- mark_mask (Z.to_nat (reserved p)) (free_pages_mask alloc) index 1;;
     p <- znth pages index;;
     pages <- zset pages index (set_reserved p 0);;
     Ret (mk_page_allocator (page_size alloc) (page_count alloc)
            (u32 (page_free alloc + reserved p)) (page_list_addr alloc) pages
            (free_pages_mask_addr alloc) mask (data alloc))).

(** ** The allocator invariant *)

Definition page (a : kt_page_allocator) (i : Z) : kt_page := zget (page_list a) i.
Definition bit (a : kt_page_allocator) (i : Z) : Z := zget (free_pages_mask a) i.

(** The sum of the mask, which counts the free pages. *)
Definition zsum (l : list Z) : Z := foldr Z.add 0 l.

(** Page [j] belongs to the block that starts at page [i]. *)
Definition in_block (a : kt_page_allocator) (i j : Z) : Prop :=
  i <= j < i + reserved (page a i).

Record alloc_wf (a : kt_page_allocator) : Prop := {
  wf_page_size : 0 < page_size a;
  wf_count : 1 <= page_count a < 2 ^ 31;
  wf_span : page_count a * page_size a <= 2 ^ 32;
  wf_pages : zlen (page_list a) = page_count a;
  wf_mask : zlen (free_pages_mask a) = page_count a;
  (* the descriptors form a ring and know their offset *)
  wf_next : forall i, 0 <= i < page_count a ->
    next (page a i) = if i =? page_count a - 1 then 0 else i + 1;
  wf_offset : forall i, 0 <= i < page_count a -> offset (page a i) = i * page_size a;
  (* the mask and the [free] members agree *)
  wf_bit : forall i, 0 <= i < page_count a -> bit a i = 0 \/ bit a i = 1;
  wf_free : forall i, 0 <= i < page_count a -> free (page a i) = bit a i;
  (* the pages in use are the disjoint union of the reserved blocks *)
  wf_reserved : forall i, 0 <= i < page_count a -> 0 <= reserved (page a i);
  wf_idle : forall i, 0 <= i < page_count a -> bit a i = 1 -> reserved (page a i) = 0;
  wf_block : forall i j, 0 <= i < page_count a -> in_block a i j ->
    j < page_count a /\ bit a j = 0;
  wf_disjoint : forall i i' j, 0 <= i < page_count a -> 0 <= i' < page_count a ->
    in_block a i j -> in_block a i' j -> i = i';
  wf_cover : forall j, 0 <= j < page_count a -> bit a j = 0 ->
    exists i, 0 <= i < page_count a /\ in_block a i j;
  wf_page_free : page_free a = zsum (free_pages_mask a)
}.

(** [n] consecutive free pages from page [i]. *)
Definition fits (a : kt_page_allocator) (n i : Z) : Prop :=
  0 <= i /\ i + n <= page_count a /\ forall j, i <= j < i + n -> bit a j <> 0.

(** ** First fit *)

Lemma search_loop_spec n : forall mask i,
  0 <= i -> i + Z.of_nat n <= zlen mask ->
  match search_loop n mask i with
  | Ret (Some j) => i <= j < i + Z.of_nat n /\ zget mask j <> 0 /\
                    forall k, i <= k < j -> zget mask k = 0
  | Ret None => forall k, i <= k < i + Z.of_nat n -> zget mask k = 0
  | _ => False
  end.
Proof.
  induction n as [|n IH]; intros mask i Hi Hn; cbn [search_loop]; [lia|].
  rewrite znth_get by lia. cbn [bind].
  destruct (Z.eqb_spec (zget mask i) 0) as [E|E]; cbn [negb]; [|split_and!; [lia..|done|lia]].
  specialize (IH mask (i + 1) ltac:(lia) ltac:(lia)).
  destruct (search_loop n mask (i + 1)) as [[j|]| | |]; try done.
  - destruct IH as (H1 & H2 & H3). split_and!; [lia..|done|].
    intros k Hk. destruct (decide (k = i)) as [->|]; [done|]. apply H3. lia.
  - intros k Hk. destruct (decide (k = i)) as [->|]; [done|]. apply IH. lia.
Qed.

Lemma search_spec a start :
  alloc_wf a -> 0 <= start ->
  match page_alloc_search_first_free_page_from a start with
  | Ret (Some j) => start <= j < page_count a /\ bit a j <> 0 /\
                    forall k, start <= k < j -> bit a k = 0
  | Ret None => forall k, start <= k < page_count a -> bit a k = 0
  | _ => False
  end.
Proof.
  intros Hwf Hs. unfold page_alloc_search_first_free_page_from.
  destruct (Z.leb_spec (page_count a) start) as [H|H]; [lia|].
  pose proof (search_loop_spec (Z.to_nat (page_count a - start)) (free_pages_mask a) start)
    as Hsp. rewrite (wf_mask a Hwf) in Hsp. specialize (Hsp ltac:(lia) ltac:(lia)).
  destruct (search_loop _ _ _) as [[j|]| | |]; try done.
  - destruct Hsp as (H1 & H2 & H3). split_and!; [lia..|done|done].
  - intros k Hk. apply Hsp. lia.
Qed.

Lemma run_loop_spec a pn index n : forall pf,
  alloc_wf a -> 0 <= index < page_count a -> pn <= page_count a ->
  1 <= pf -> pf + Z.of_nat n = pn -> (0 < n)%nat ->
  (forall j, index <= j < index + pf -> bit a j <> 0) ->
  match run_loop n a pn index pf with
  | Ret RunFound => fits a pn index
  | Ret (RunBreak k) => index + pf <= k < index + pn /\ ~ (k < page_count a /\ bit a k <> 0)
  | _ => False
  end.
Proof.
  induction n as [|n IH]; intros pf Hwf Hi Hpn Hpf Hn Hpos Hfree; [lia|].
  cbn [run_loop]. pose proof (wf_count a Hwf). rewrite !u32_id by lia.
  destruct (Z.ltb_spec (index + pf) (page_count a)) as [Hk|Hk]; [|cbn; lia].
  rewrite znth_get by (rewrite (wf_mask a Hwf); lia). cbn [bind]. fold (bit a (index + pf)).
  destruct (Z.eqb_spec (bit a (index + pf)) 0) as [E|E]; cbn [negb]; [lia|].
  assert (Hfree' : forall j, index <= j < index + (pf + 1) -> bit a j <> 0).
  { intros j Hj. destruct (decide (j = index + pf)) as [->|]; [done|]. apply Hfree. lia. }
  destruct (Z.eqb_spec (pf + 1) pn) as [E2|E2].
  - unfold fits. split_and!; [lia..|]. intros j Hj. apply Hfree'. lia.
  - specialize (IH (pf + 1) Hwf Hi Hpn ltac:(lia) ltac:(lia) ltac:(lia) Hfree').
    destruct (run_loop n a pn index (pf + 1)) as [[|k|]| | |]; try done. lia.
Qed.

(** The outer loop ends: each round that goes on moves past a page that is
    taken or past the last page. *)
Lemma find_loop_spec a pn fuel : forall idx,
  alloc_wf a -> 1 <= pn <= page_count a -> 0 <= idx ->
  (Z.to_nat (page_count a - idx) < fuel)%nat ->
  match find_loop fuel a pn idx with
  | Ret (Some i) => idx <= i /\ fits a pn i /\ forall i', idx <= i' < i -> ~ fits a pn i'
  | Ret None => forall i', idx <= i' -> ~ fits a pn i'
  | _ => False
  end.
Proof.
  induction fuel as [|fuel IH]; intros idx Hwf Hpn Hidx Hf; [lia|]. cbn [find_loop].
  pose proof (search_spec a idx Hwf Hidx) as Hs.
  assert (Hskip : forall i' j, (forall k, idx <= k < j -> bit a k = 0) ->
                    idx <= i' < j -> ~ fits a pn i').
  { intros i' j Hz Hi' (_ & _ & Hb). apply (Hb i'); [lia|]. apply Hz. lia. }
  destruct (page_alloc_search_first_free_page_from a idx) as [[j|]| | |]; cbn [bind]; try done.
  2:{ intros i' Hi' (H1 & H2 & Hb). apply (Hb i'); [lia|]. apply Hs. lia. }
  destruct Hs as (Hj & Hbj & Hz).
  destruct (Z.eqb_spec pn 1) as [->|Hne].
  { split_and!; [lia| |by eauto]. unfold fits. split_and!; [lia..|].
    intros k Hk. by assert (k = j) as -> by lia. }
  pose proof (run_loop_spec a pn j (Z.to_nat (pn - 1)) 1 Hwf ltac:(lia) ltac:(lia) ltac:(lia)
    ltac:(lia) ltac:(lia)) as Hrun.
  specialize (Hrun ltac:(intros k Hk; by assert (k = j) as -> by lia)).
  destruct (run_loop _ _ _ _ _) as [[|k|]| | |]; cbn [bind]; try done.
  { split_and!; [lia|done|by eauto]. }
  destruct Hrun as [Hk Hnk].
  assert (Hskip2 : forall i', idx <= i' < k -> ~ fits a pn i').
  { intros i' Hi' Hfit. destruct (decide (i' < j)); [exact (Hskip i' j Hz ltac:(lia) Hfit)|].
    destruct Hfit as (_ & H2 & Hb). apply Hnk. split; [lia|]. apply Hb. lia. }
  specialize (IH k Hwf Hpn ltac:(lia) ltac:(lia)).
  destruct (find_loop fuel a pn k) as [[i|]| | |]; try done.
  - destruct IH as (H1 & H2 & H3). split_and!; [lia|done|].
    intros i' Hi'. destruct (decide (i' < k)); [apply Hskip2; lia|apply H3; lia].
  - intros i' Hi'. destruct (decide (i' < k)); [apply Hskip2; lia|apply IH; lia].
Qed.

(** ** Marking pages *)

Lemma zsum_zupd (l : list Z) i v :
  0 <= i < zlen l -> zsum (zupd l i v) = zsum l - zget l i + v.
Proof.
  unfold zupd, zget, zlen. intros Hi.
  assert (Hlt : (Z.to_nat i < length l)%nat) by lia. clear Hi.
  revert Hlt. generalize (Z.to_nat i) as k. intros k. revert k.
  induction l as [|x l IH]; intros k Hlt; [cbn in Hlt; lia|].
  destruct k as [|k]; [cbn; lia|]. cbn in Hlt.
  specialize (IH k ltac:(lia)).
  change ((x :: l) !!! S k) with (l !!! k).
  change (zsum (<[S k := v]> (x :: l))) with (x + zsum (<[k := v]> l)).
  change (zsum (x :: l)) with (x + zsum l). lia.
Qed.

Lemma mark_mask_spec n : forall mask i v,
  0 <= i -> i + Z.of_nat n <= zlen mask ->
  exists mask', mark_mask n mask i v = Ret mask' /\ zlen mask' = zlen mask /\
    (forall j, 0 <= j -> zget mask' j =
       if (i <=? j) && (j <? i + Z.of_nat n) then v else zget mask j) /\
    (forall w, (forall j, i <= j < i + Z.of_nat n -> zget mask j = w) ->
       zsum mask' = zsum mask + Z.of_nat n * (v - w)).
Proof.
  induction n as [|n IH]; intros mask i v Hi Hn; cbn [mark_mask].
  - exists mask. split_and!; [done|done| |].
    + intros j Hj. case_match; [zb; lia|done].
    + intros w _. lia.
  - rewrite zset_upd by lia. cbn [bind].
    destruct (IH (zupd mask i v) (i + 1) v) as (mask' & -> & Hl & Hg & Hs);
      [lia|rewrite zlen_zupd; lia|].
    exists mask'. rewrite zlen_zupd in Hl. split_and!; [done..| |].
    + intros j Hj. rewrite Hg, zget_zupd by lia. repeat case_match; zb; try done; try lia.
    + intros w Hw. rewrite (Hs w).
      * rewrite zsum_zupd by lia. rewrite (Hw i) by lia. lia.
      * intros j Hj. rewrite zget_zupd_ne by lia. apply Hw. lia.
Qed.

(** Walking the [next] pointers visits consecutive descriptors. *)
Lemma mark_pages_spec n : forall pages i v,
  0 <= i -> i + Z.of_nat n <= zlen pages ->
  (forall j, i <= j < zlen pages - 1 -> next (zget pages j) = j + 1) ->
  exists pages', mark_pages n pages i v = Ret pages' /\ zlen pages' = zlen pages /\
    (forall j, 0 <= j -> zget pages' j =
       if (i <=? j) && (j <? i + Z.of_nat n) then set_free (zget pages j) v else zget pages j).
Proof.
  induction n as [|n IH]; intros pages i v Hi Hn Hnext; cbn [mark_pages].
  - exists pages. split_and!; [done..|]. intros j Hj. case_match; [zb; lia|done].
  - rewrite znth_get by lia. cbn [bind]. rewrite zset_upd by lia. cbn [bind].
    set (pages1 := zupd pages i _).
    assert (Hl1 : zlen pages1 = zlen pages) by apply zlen_zupd.
    destruct n as [|n].
    { exists pages1. split_and!; [done..|]. intros j Hj. unfold pages1.
      rewrite zget_zupd by lia. repeat case_match; zb; try lia; by subst. }
    rewrite Hnext by lia.
    destruct (IH pages1 (i + 1) v) as (pages' & -> & Hl & Hg); [lia|lia| |].
    { intros j Hj. unfold pages1. rewrite zget_zupd_ne by lia. apply Hnext. lia. }
    exists pages'. split_and!; [done|lia|]. intros j Hj. rewrite Hg by lia.
    unfold pages1. rewrite !zget_zupd by lia. repeat case_match; zb; try lia; by subst.
Qed.

(** ** Allocation *)

(** Both loops over the pages [i] to [i + n - 1], after page [i] has been set to
    [p]. *)
Lemma mark_block a i n v p :
  alloc_wf a -> next p = next (page a i) -> 0 <= i /\ 0 <= n -> i < page_count a /\ i + n <= page_count a ->
  exists pages mask,
    mark_pages (Z.to_nat n) (zupd (page_list a) i p) i v = Ret pages /\
    mark_mask (Z.to_nat n) (free_pages_mask a) i v = Ret mask /\ zlen pages = zlen (page_list a) /\
    (forall j, 0 <= j -> zget pages j =
       let q := if j =? i then p else page a j in if (i <=? j) && (j <? i + n) then set_free q v else q) /\
    zlen mask = zlen (free_pages_mask a) /\
    (forall j, 0 <= j -> zget mask j = if (i <=? j) && (j <? i + n) then v else zget (free_pages_mask a) j) /\
    (forall w, (forall j, i <= j < i + n -> zget (free_pages_mask a) j = w) ->
       zsum mask = zsum (free_pages_mask a) + n * (v - w)).
Proof.
  intros W Hp Hi Hn. set (pages1 := zupd (page_list a) i p).
  assert (Hl1 : zlen pages1 = page_count a) by (unfold pages1; rewrite zlen_zupd; apply W).
  assert (Hg1 : forall j, 0 <= j -> zget pages1 j = if j =? i then p else page a j).
  { intros j Hj. unfold pages1. rewrite zget_zupd, Z.eqb_sym by (rewrite ?(wf_pages a W); lia). done. }
  destruct (mark_pages_spec (Z.to_nat n) pages1 i v) as (pages & Ep & Hlp & Hgp); [lia|lia| |].
  { intros j Hj. rewrite Hg1 by lia.
    pose proof (wf_next a W j ltac:(lia)) as Hnx. destruct (Z.eqb_spec j (page_count a - 1)); [lia|].
    destruct (Z.eqb_spec j i); [congruence|done]. }
  destruct (mark_mask_spec (Z.to_nat n) (free_pages_mask a) i v) as (mask & Em & Hlm & Hgm & Hsm);
    [lia|rewrite (wf_mask a W); lia|].
  rewrite Z2Nat.id in * by lia. exists pages, mask. split_and!; try done.
  - by rewrite Hlp, Hl1, (wf_pages a W).
  - intros j Hj. by rewrite Hgp, Hg1 by done.
Qed.

(** The state after the pages [i .. i+n-1] were reserved as one block. *)
Definition reserve_rel (a a' : kt_page_allocator) (i n : Z) : Prop :=
  page_size a' = page_size a /\ page_count a' = page_count a /\ data a' = data a /\
  page_list_addr a' = page_list_addr a /\ free_pages_mask_addr a' = free_pages_mask_addr a /\
  zlen (page_list a') = zlen (page_list a) /\
  zlen (free_pages_mask a') = zlen (free_pages_mask a) /\
  page_free a' = page_free a - n /\ page_free a' = zsum (free_pages_mask a') /\
  (forall j, 0 <= j < page_count a -> bit a' j = if (i <=? j) && (j <? i + n) then 0 else bit a j) /\
  (forall j, 0 <= j < page_count a -> page a' j =
     mk_page (next (page a j)) (if (i <=? j) && (j <? i + n) then 0 else free (page a j))
       (offset (page a j)) (if j =? i then n else reserved (page a j))).

Lemma reserve_wf a a' i n :
  alloc_wf a -> 1 <= n -> fits a n i -> reserve_rel a a' i n -> alloc_wf a'.
Proof.
  intros W Hn (Hi & Hin & Hb) (E1 & E2 & E3 & E4 & E5 & E6 & E7 & E8 & E9 & Ebit & Epage).
  pose proof (wf_count a W) as Hc.
  assert (Hfree : forall j, i <= j < i + n -> bit a j = 1).
  { intros j Hj. destruct (wf_bit a W j) as [H|H]; [lia|by destruct (Hb j Hj)|done]. }
  assert (Hidle : forall j, i <= j < i + n -> reserved (page a j) = 0).
  { intros j Hj. apply (wf_idle a W); [lia|auto]. }
  assert (Hblk : forall k j, 0 <= k < page_count a ->
            in_block a' k j <-> (k = i /\ i <= j < i + n) \/ (k <> i /\ in_block a k j)).
  { intros k j Hk. unfold in_block. rewrite Epage by lia. cbn [reserved].
    case_match; zb; lia. }
  assert (Hout : forall k j, 0 <= k < page_count a -> in_block a k j -> ~ (i <= j < i + n)).
  { intros k j Hk Hkj Hj. apply (wf_block a W k j Hk) in Hkj. rewrite Hfree in Hkj; lia. }
  split; rewrite ?E1, ?E2; try apply W; try congruence.
  - rewrite E6. apply W.
  - rewrite E7. apply W.
  - intros j Hj. rewrite Epage by lia. by apply W.
  - intros j Hj. rewrite Epage by lia. by apply W.
  - intros j Hj. rewrite Ebit by lia. case_match; [auto|by apply W].
  - intros j Hj. rewrite Ebit, Epage by lia. cbn [free]. case_match; [done|by apply W].
  - intros j Hj. rewrite Epage by lia. cbn [reserved]. case_match; [lia|by apply W].
  - intros j Hj. rewrite Ebit, Epage by lia. cbn [reserved]. case_match; [done|].
    intros Hj1. case_match; [|by apply W]. zb; lia.
  - intros k j Hk Hkj. apply Hblk in Hkj as [[-> Hj]|[Hne Hkj]]; [|..|done].
    + split; [lia|]. rewrite Ebit by lia. case_match; [done|]. zb; lia.
    + pose proof (wf_block a W k j Hk Hkj) as [H1 H2]. split; [done|].
      rewrite Ebit by (unfold in_block in Hkj; lia). by case_match.
  - intros k k' j Hk Hk' Hj Hj'. apply Hblk in Hj, Hj'; [|lia..].
    destruct Hj as [[-> ?]|[? Hj]], Hj' as [[-> ?]|[? Hj']]; [done| | |].
    + by destruct (Hout k' j Hk' Hj').
    + by destruct (Hout k j Hk Hj).
    + by apply (wf_disjoint a W k k' j).
  - intros j Hj Hbj. rewrite Ebit in Hbj by lia. case_match eqn:E; [zb|clear E].
    + exists i. split; [lia|]. apply Hblk; [lia|]. left. lia.
    + destruct (wf_cover a W j Hj Hbj) as (k & Hk & Hkj). exists k. split; [done|].
      apply Hblk; [done|]. right. split; [|done]. intros ->.
      unfold in_block in Hkj. rewrite Hidle in Hkj; lia.
Qed.

Lemma zsum_bound (l : list Z) :
  (forall i, 0 <= i < zlen l -> zget l i = 0 \/ zget l i = 1) -> 0 <= zsum l <= zlen l.
Proof.
  induction l as [|x l IH]; intros H; [done|]. rewrite zlen_cons in *.
  change (zsum (x :: l)) with (x + zsum l).
  destruct (IH) as [? ?].
  { intros i Hi. specialize (H (i + 1) ltac:(lia)). unfold zget in *.
    replace (Z.to_nat (i + 1)) with (S (Z.to_nat i)) in H by lia. exact H. }
  pose proof (zlen_nonneg l). specialize (H 0 ltac:(lia)). change (zget (x :: l) 0) with x in H. lia.
Qed.

Lemma page_free_bound a : alloc_wf a -> 0 <= page_free a <= page_count a.
Proof.
  intros W. rewrite (wf_page_free a W), <- (wf_mask a W). apply zsum_bound.
  rewrite (wf_mask a W). intros i Hi. by apply (wf_bit a W).
Qed.

Lemma fits_bits a n i :
  alloc_wf a -> fits a n i -> forall j, i <= j < i + n -> bit a j = 1.
Proof.
  intros W (Hi & Hn & Hb) j Hj. destruct (wf_bit a W j) as [H|H]; [lia|by destruct (Hb j Hj)|done].
Qed.

(** A run of free pages is never larger than the free count, so the early
    [page_free < pages_needed] test refuses nothing that would fit. *)
Lemma fits_page_free a n i : alloc_wf a -> 1 <= n -> fits a n i -> n <= page_free a.
Proof.
  intros W Hn Hfit. pose proof (fits_bits a n i W Hfit) as Hb. destruct Hfit as (Hi & Hin & _).
  destruct (mark_mask_spec (Z.to_nat n) (free_pages_mask a) i 0) as (m & _ & Hl & Hg & Hs);
    [lia|rewrite (wf_mask a W); lia|].
  specialize (Hs 1 ltac:(intros j Hj; apply Hb; lia)).
  destruct (zsum_bound m) as [H0 _]; [|rewrite (wf_page_free a W); lia].
  rewrite Hl, (wf_mask a W). intros j Hj. rewrite Hg by lia.
  case_match; [auto|by apply (wf_bit a W)].
Qed.

Lemma pages_for_bounds a size :
  0 < page_size a -> 0 <= size < 2 ^ 32 ->
  size <= pages_for a size * page_size a < size + page_size a.
Proof.
  intros Hp Hs. unfold pages_for.
  pose proof (Z.div_mod size (page_size a) ltac:(lia)) as Hdm.
  pose proof (Z.mod_pos_bound size (page_size a) Hp).
  pose proof (Z.div_pos size (page_size a) ltac:(lia) Hp).
  assert (size / page_size a <= size) by (apply Z.div_le_upper_bound; nia).
  destruct (Z.eqb_spec (size mod page_size a) 0) as [E|E]; [rewrite u32_id by lia; lia|].
  rewrite u32_id; [lia|]. split; [lia|].
  assert (page_size a <> 1) by (intros E1; rewrite E1, Z.mod_1_r in E; lia).
  assert (size / page_size a < 2 ^ 31) by (apply Z.div_lt_upper_bound; nia). lia.
Qed.

Lemma alloc_spec fuel a size :
  alloc_wf a -> 0 < size < 2 ^ 32 -> (Z.to_nat (page_count a) < fuel)%nat ->
  let n := pages_for a size in
  (page_alloc_alloc fuel a size = Ret (a, None) /\ forall i, ~ fits a n i) \/
  (exists i a', page_alloc_alloc fuel a size = Ret (a', Some (data a + i * page_size a)) /\
     fits a n i /\ (forall i', i' < i -> ~ fits a n i') /\ reserve_rel a a' i n).
Proof.
  intros W Hs Hf n. pose proof (pages_for_bounds a size (wf_page_size a W) ltac:(lia)) as Hpf.
  pose proof (wf_page_size a W). pose proof (wf_count a W). pose proof (page_free_bound a W).
  assert (Hn : 1 <= n) by (unfold n; nia). fold n in Hpf.
  unfold page_alloc_alloc. rewrite (proj2 (Z.eqb_neq _ _)) by lia. cbn [negb guard_ub]. fold n.
  destruct (Z.ltb_spec (page_free a) n) as [Hlt|Hge].
  { left. split; [done|]. intros i Hfit. pose proof (fits_page_free a n i W Hn Hfit). lia. }
  pose proof (find_loop_spec a n fuel 0 W ltac:(lia) ltac:(lia) ltac:(lia)) as Hfind.
  unfold page_alloc_find_aligned_pages.
  destruct (find_loop fuel a n 0) as [[i|]| | |]; try done; cbn [bind].
  2:{ left. split; [done|]. intros i Hfit. apply (Hfind i); [apply Hfit|done]. }
  right. destruct Hfind as (_ & Hfit & Hfirst). pose proof Hfit as (Hi & Hin & _).
  pose proof (fits_bits a n i W Hfit) as Hb.
  rewrite znth_get by (rewrite (wf_pages a W); lia). cbn [bind].
  rewrite zset_upd by (rewrite (wf_pages a W); lia). cbn [bind].
  fold (page a i).
  destruct (mark_block a i n 0 (set_reserved (page a i) n) W) as (pages & mask & -> & -> & Hlp & Hgp & Hlm & Hgm & Hsm);
    [done|lia|lia|]. cbn [bind]. specialize (Hsm 1 ltac:(intros j Hj; apply Hb; lia)). eexists i, _. split.
  { fold (page a i). rewrite (wf_offset a W) by lia. reflexivity. }
  split_and!; [done| |].
  { intros i' Hi'. destruct (decide (0 <= i')); [apply Hfirst; lia|]. intros [? _]. lia. }
  rewrite u32_id by lia. unfold reserve_rel.
  cbn [page_size page_count page_free page_list page_list_addr free_pages_mask
       free_pages_mask_addr data].
  split_and!; try done.
  - rewrite (wf_page_free a W). lia.
  - intros j Hj. unfold bit. cbn [free_pages_mask]. by rewrite Hgm by lia.
  - intros j Hj. unfold page at 1. cbn [page_list]. rewrite Hgp by lia.
    destruct (Z.eqb_spec j i) as [->|]; case_match; try done. by destruct (page a j).
Qed.

(** ** Release *)

(** The state after the block that starts at page [i] was given back. *)
Definition release_rel (a a' : kt_page_allocator) (i : Z) : Prop :=
  let n := reserved (page a i) in
  page_size a' = page_size a /\ page_count a' = page_count a /\ data a' = data a /\
  page_list_addr a' = page_list_addr a /\ free_pages_mask_addr a' = free_pages_mask_addr a /\
  zlen (page_list a') = zlen (page_list a) /\
  zlen (free_pages_mask a') = zlen (free_pages_mask a) /\
  page_free a' = page_free a + n /\ page_free a' = zsum (free_pages_mask a') /\
  (forall j, 0 <= j < page_count a -> bit a' j = if (i <=? j) && (j <? i + n) then 1 else bit a j) /\
  (forall j, 0 <= j < page_count a -> page a' j =
     mk_page (next (page a j)) (if (i <=? j) && (j <? i + n) then 1 else free (page a j))
       (offset (page a j)) (if j =? i then 0 else reserved (page a j))).

Lemma page_index a i :
  alloc_wf a -> 0 <= i < page_count a ->
  u32 (Z.quot (data a + i * page_size a - data a) (page_size a)) = i.
Proof.
  intros W Hi. pose proof (wf_page_size a W). pose proof (wf_count a W).
  replace (data a + i * page_size a - data a) with (i * page_size a) by lia.
  rewrite Z.quot_mul by lia. apply u32_id. lia.
Qed.

(** Releasing an address inside a free page does nothing: a double free is
    harmless. *)
Lemma free_idle a i :
  alloc_wf a -> 0 <= i < page_count a -> bit a i = 1 ->
  page_alloc_free a (data a + i * page_size a) = Ret a.
Proof.
  intros W Hi Hb. unfold page_alloc_free. pose proof (wf_page_size a W).
  rewrite (proj2 (Z.eqb_neq _ _)) by lia. cbn [negb guard_ub].
  rewrite page_index by done. rewrite znth_get by (rewrite (wf_pages a W); lia). cbn [bind].
  fold (page a i). rewrite (wf_free a W i Hi), Hb. done.
Qed.

Lemma free_spec a i :
  alloc_wf a -> 0 <= i < page_count a -> 0 < reserved (page a i) ->
  exists a', page_alloc_free a (data a + i * page_size a) = Ret a' /\ release_rel a a' i.
Proof.
  intros W Hi Hr. pose proof (wf_page_size a W). pose proof (wf_count a W).
  pose proof (wf_pages a W).
  set (n := reserved (page a i)) in *.
  assert (Hblk : forall j, i <= j < i + n -> j < page_count a /\ bit a j = 0).
  { intros j Hj. by apply (wf_block a W i j Hi). }
  assert (Hend : i + n <= page_count a) by (pose proof (Hblk (i + n - 1)); lia).
  unfold page_alloc_free. rewrite (proj2 (Z.eqb_neq _ _)) by lia. cbn [negb guard_ub].
  rewrite page_index by done. rewrite znth_get by (rewrite (wf_pages a W); lia). cbn [bind].
  fold (page a i). rewrite (wf_free a W i Hi). rewrite (proj2 (Hblk i ltac:(lia))).
  cbn [negb Z.eqb]. rewrite zset_upd by (rewrite (wf_pages a W); lia). cbn [bind]. fold n.
  destruct (mark_block a i n 1 (set_free (page a i) 1) W) as (pages & mask & -> & -> & Hlp & Hgp & Hlm & Hgm & Hsm);
    [done|lia|lia|]. cbn [bind]. specialize (Hsm 0 ltac:(intros j Hj; apply Hblk; lia)). rewrite znth_get by lia. cbn [bind].
  rewrite zset_upd by lia. cbn [bind].
  assert (Hpi : reserved (zget pages i) = n).
  { rewrite Hgp, Z.eqb_refl by lia. by case_match. }
  eexists. split; [reflexivity|]. rewrite Hpi.
  assert (0 <= zsum mask <= page_count a).
  { rewrite <- (wf_mask a W), <- Hlm. apply zsum_bound. rewrite Hlm, (wf_mask a W).
    intros j Hj. rewrite Hgm by lia. case_match; [auto|by apply (wf_bit a W)]. }
  pose proof (wf_page_free a W). rewrite u32_id by lia. unfold release_rel. fold n.
  cbn [page_size page_count page_free page_list page_list_addr free_pages_mask
       free_pages_mask_addr data].
  split_and!; try done.
  - by rewrite zlen_zupd, Hlp.
  - lia.
  - intros j Hj. unfold bit. cbn [free_pages_mask]. by rewrite Hgm by lia.
  - intros j Hj. unfold page at 1. cbn [page_list]. rewrite zget_zupd by lia.
    rewrite !Hgp by lia. rewrite Z.eqb_refl.
    destruct (Z.eqb_spec i j) as [->|].
    + rewrite Z.eqb_refl. case_match; [done|zb; lia].
    + rewrite (proj2 (Z.eqb_neq j i)) by lia. case_match; [done|by destruct (page a j)].
Qed.

Lemma release_wf a a' i :
  alloc_wf a -> 0 <= i < page_count a -> 0 < reserved (page a i) ->
  release_rel a a' i -> alloc_wf a'.
Proof.
  intros W Hi Hr (E1 & E2 & E3 & E4 & E5 & E6 & E7 & E8 & E9 & Ebit & Epage).
  set (n := reserved (page a i)) in *. pose proof (wf_count a W) as Hc.
  assert (Hin : forall j, i <= j < i + n -> j < page_count a /\ bit a j = 0).
  { intros j Hj. by apply (wf_block a W i j Hi). }
  assert (Hblk : forall k j, 0 <= k < page_count a ->
            in_block a' k j <-> k <> i /\ in_block a k j).
  { intros k j Hk. unfold in_block. rewrite Epage by lia. cbn [reserved].
    case_match; zb; lia. }
  assert (Hout : forall k j, 0 <= k < page_count a -> k <> i -> in_block a k j -> ~ (i <= j < i + n)).
  { intros k j Hk Hne Hkj Hj. apply Hne. by apply (wf_disjoint a W k i j). }
  split; rewrite ?E1, ?E2; try apply W; try congruence.
  - rewrite E6. apply W.
  - rewrite E7. apply W.
  - intros j Hj. rewrite Epage by lia. by apply W.
  - intros j Hj. rewrite Epage by lia. by apply W.
  - intros j Hj. rewrite Ebit by lia. case_match; [auto|by apply W].
  - intros j Hj. rewrite Ebit, Epage by lia. cbn [free]. case_match; [done|by apply W].
  - intros j Hj. rewrite Epage by lia. cbn [reserved]. case_match; [lia|by apply W].
  - intros j Hj. rewrite Ebit, Epage by lia. cbn [reserved].
    intros Hj1. destruct (Z.eqb_spec j i) as [|Eji]; [done|].
    destruct (decide (i <= j < i + n)) as [Hjn|Hjn].
    + destruct (decide (0 < reserved (page a j))) as [Hrj|]; [|pose proof (wf_reserved a W j Hj); lia].
      destruct (Hout j j Hj Eji); [unfold in_block; lia|done].
    + apply (wf_idle a W); [done|]. revert Hj1. case_match; zb; [lia|done..].
  - intros k j Hk Hkj. apply Hblk in Hkj as [Hne Hkj]; [|done].
    pose proof (wf_block a W k j Hk Hkj) as [H1 H2]. split; [done|].
    rewrite Ebit by (unfold in_block in Hkj; lia). case_match; [|done]. zb.
    destruct (Hout k j Hk Hne Hkj); lia.
  - intros k k' j Hk Hk' Hj Hj'. apply Hblk in Hj as [_ Hj], Hj' as [_ Hj']; [|lia..].
    by apply (wf_disjoint a W k k' j).
  - intros j Hj Hbj. rewrite Ebit in Hbj by lia. case_match eqn:E; [done|].
    destruct (wf_cover a W j Hj Hbj) as (k & Hk & Hkj). exists k. split; [done|].
    apply Hblk; [done|]. split; [|done]. intros ->. unfold in_block in Hkj. zb; lia.
Qed.

(** Giving a block back undoes its allocation. *)
Lemma release_reserve a a' a'' i n :
  alloc_wf a -> 1 <= n -> fits a n i -> reserve_rel a a' i n -> release_rel a' a'' i -> a'' = a.
Proof.
  intros W Hn Hfit (E1 & E2 & E3 & E4 & E5 & E6 & E7 & E8 & E9 & Ebit & Epage)
    (F1 & F2 & F3 & F4 & F5 & F6 & F7 & F8 & F9 & Fbit & Fpage).
  pose proof (fits_bits a n i W Hfit) as Hb. destruct Hfit as (Hi & Hin & _).
  assert (Hr : reserved (page a' i) = n) by (rewrite Epage, Z.eqb_refl by lia; done).
  rewrite Hr, E2 in *. pose proof (wf_pages a W) as Hlp. pose proof (wf_mask a W) as Hlm.
  assert (Hmask : free_pages_mask a'' = free_pages_mask a).
  { apply zget_ext; [lia|]. intros j Hj. fold (bit a'' j) (bit a j).
    rewrite Fbit, Ebit by lia. case_match; [|done]. zb. symmetry. apply Hb. lia. }
  assert (Hlist : page_list a'' = page_list a).
  { apply zget_ext; [lia|]. intros j Hj. fold (page a'' j) (page a j).
    rewrite Fpage, Epage by lia. cbn [next free offset reserved].
    pose proof (wf_free a W j ltac:(lia)) as Hf. pose proof (wf_idle a W j ltac:(lia)) as Hid.
    destruct (page a j) as [nx fr off rs] eqn:Ep. cbn [next free offset reserved] in *.
    assert (Hjr : i <= j < i + n -> fr = 1 /\ rs = 0).
    { intros Hj'. specialize (Hb j Hj'). rewrite Hf, Hb. auto. }
    destruct (Z.eqb_spec j i), ((i <=? j) && (j <? i + n)) eqn:E; zb; f_equal; try done; try lia;
      destruct Hjr; try lia; done. }
  destruct a, a'', a'. cbn in *. subst. f_equal. lia.
Qed.

(** ** Initialisation *)

(** The search for a page count ends for every region of at least one page
    and at most 128 MiB, where the 32-bit sizes do not wrap.  The count it
    leaves is one less than the largest one whose metadata fits. *)
Lemma metadata_loop_total size : forall fuel count,
  1 <= count <= 2 ^ 27 -> (Z.to_nat count < fuel)%nat ->
  match metadata_loop fuel size count with
  | Ret None => True
  | Ret (Some (pc, pls, fms)) =>
      1 <= pc < count /\ pls = 24 * (pc + 1) /\ fms = pc + 1 /\ 40 + 25 * (pc + 1) <= size /\
      (pc + 1 < count -> size < 40 + 25 * (pc + 2))
  | _ => False
  end.
Proof.
  induction fuel as [|fuel IH]; intros count Hc Hf; [lia|]. cbn [metadata_loop].
  unfold sizeof_kt_page, sizeof_kt_page_allocator in *. rewrite !u32_id by (rewrite ?u32_id; lia).
  destruct (Z.eqb_spec (count - 1) 0); [done|].
  destruct (Z.ltb_spec size (40 + count * 24 + count * 1)) as [Hlt|Hge].
  - specialize (IH (count - 1) ltac:(lia) ltac:(lia)).
    destruct (metadata_loop fuel size (count - 1)) as [[[[pc pls] fms]|]| | |]; try done.
    destruct IH as (H1 & H2 & H3 & H4 & H5). split_and!; try lia.
  - split_and!; lia.
Qed.

Lemma zget_seq_fmap {A} `{Inhabited A} (f : Z -> A) n i :
  0 <= i < Z.of_nat n -> zget (f <$> (Z.of_nat <$> seq 0 n)) i = f i.
Proof.
  intros Hi. unfold zget. rewrite <- list_fmap_compose.
  apply list_lookup_total_correct. rewrite list_lookup_fmap, lookup_seq_lt by lia.
  cbn. do 2 f_equal. lia.
Qed.

Lemma zget_replicate {A} `{Inhabited A} (x : A) n i :
  0 <= i < Z.of_nat n -> zget (replicate n x) i = x.
Proof. intros Hi. unfold zget. apply lookup_total_replicate_2. lia. Qed.

Lemma zsum_replicate n : zsum (replicate n 1) = Z.of_nat n.
Proof.
  induction n as [|n IH]; [done|]. rewrite replicate_S.
  change (zsum (1 :: replicate n 1)) with (1 + zsum (replicate n 1)). lia.
Qed.

(** A freshly initialised allocator is well formed and all its pages are
    free. *)
Lemma fresh_wf ps pc pla mka d :
  0 < ps -> 1 <= pc < 2 ^ 31 -> pc * ps <= 2 ^ 32 ->
  let a := mk_page_allocator ps pc pc pla
    (init_page ps pc <$> (Z.of_nat <$> seq 0 (Z.to_nat pc))) mka (replicate (Z.to_nat pc) 1) d in
  alloc_wf a /\ forall i, 0 <= i < pc -> bit a i = 1.
Proof.
  intros Hps Hpc Hspan a.
  assert (Hbit : forall i, 0 <= i < pc -> bit a i = 1).
  { intros i Hi. apply zget_replicate. lia. }
  assert (Hpage : forall i, 0 <= i < pc -> page a i = init_page ps pc i).
  { intros i Hi. apply zget_seq_fmap. lia. }
  assert (Hempty : forall i j, 0 <= i < pc -> ~ in_block a i j).
  { intros i j Hi. unfold in_block. rewrite Hpage by done. cbn. lia. }
  split; [|done]. split; cbn [page_size page_count page_list free_pages_mask a]; try done.
  - rewrite !zlen_fmap. unfold zlen. rewrite length_seq. lia.
  - rewrite zlen_replicate. lia.
  - intros i Hi. by rewrite Hpage by done.
  - intros i Hi. rewrite Hpage by done. cbn. apply u32_id. nia.
  - intros i Hi. right. auto.
  - intros i Hi. by rewrite Hpage, Hbit by done.
  - intros i Hi. by rewrite Hpage by done.
  - intros i Hi _. by rewrite Hpage by done.
  - intros i j Hi Hj. by destruct (Hempty i j Hi).
  - intros i i' j Hi _ Hj. by destruct (Hempty i j Hi).
  - intros j Hj Hb. rewrite Hbit in Hb by done. done.
  - unfold a. cbn [page_free free_pages_mask]. rewrite zsum_replicate. lia.
Qed.

Lemma init_spec addr size ps :
  0 < ps <= size -> size <= 2 ^ 27 ->
  match kt_page_allocator_init addr size ps with
  | Ret (Some a) => alloc_wf a /\ page_size a = ps /\ (forall i, 0 <= i < page_count a -> bit a i = 1) /\
      page_free a = page_count a /\
      page_list_addr a + 24 * page_count a <= free_pages_mask_addr a /\
      free_pages_mask_addr a + page_count a <= addr + size
  | Ret None => True
  | UB => True
  | _ => False
  end.
Proof.
  intros Hps Hs. unfold kt_page_allocator_init.
  destruct (negb (is_pow2_test size) || _); [done|].
  rewrite (proj2 (Z.eqb_neq _ _)) by lia. cbn [negb guard_ub].
  assert (Hc : 1 <= size / ps <= size).
  { split; [apply Z.div_le_lower_bound; lia|apply Z.div_le_upper_bound; nia]. }
  pose proof (metadata_loop_total size (S (S (Z.to_nat (size / ps)))) (size / ps)
    ltac:(lia) ltac:(lia)) as Hm.
  destruct (metadata_loop _ _ _) as [[[[pc pls] fms]|]| | |]; try done. cbn [bind].
  destruct Hm as (H1 & -> & -> & H4 & _). match goal with |- context [if ?b then Ret _ else UB] => destruct b eqn:E; [|done] end. zb.
  assert (pc * ps <= size).
  { pose proof (Z.mul_div_le size ps ltac:(lia)). nia. }
  destruct (fresh_wf ps pc (addr + sizeof_kt_page_allocator)
    (addr + sizeof_kt_page_allocator + 24 * (pc + 1) * sizeof_kt_page)
    (u64 (addr + sizeof_kt_page_allocator + 24 * (pc + 1) * sizeof_kt_page
      + (pc + 1) * 1 + ps - 1) / ps * ps)) as [Hwf Hbit]; [lia..|].
  unfold sizeof_kt_page, sizeof_kt_page_allocator in *.
  cbn [page_size page_count page_free page_list_addr free_pages_mask_addr] in *.
  split_and!; try done; lia.
Qed.

(** ** Allocating from a fresh region

    While nothing has been released, the pages below some index [b] are taken
    and the others are free; first fit then hands out pages in order. *)
Definition bump (a : kt_page_allocator) (b : Z) : Prop :=
  alloc_wf a /\ 0 <= b <= page_count a /\
  forall j, 0 <= j < page_count a -> bit a j = if j <? b then 0 else 1.

Lemma bump_fits a b n i : bump a b -> 1 <= n -> fits a n i <-> b <= i /\ i + n <= page_count a.
Proof.
  intros (W & Hb & Hbit) Hn. unfold fits. split.
  - intros (Hi & Hin & Hf). split; [|done]. specialize (Hf i ltac:(lia)).
    rewrite Hbit in Hf by lia. case_match; zb; lia.
  - intros [Hi Hin]. split_and!; [lia..|]. intros j Hj. rewrite Hbit by lia. case_match; zb; lia.
Qed.

Lemma alloc_bump fuel a b size :
  bump a b -> 0 < size < 2 ^ 32 -> (Z.to_nat (page_count a) < fuel)%nat ->
  let n := pages_for a size in
  if b + n <=? page_count a then
    exists a', page_alloc_alloc fuel a size = Ret (a', Some (data a + b * page_size a)) /\
      bump a' (b + n) /\
      page_size a' = page_size a /\ page_count a' = page_count a /\ data a' = data a
  else page_alloc_alloc fuel a size = Ret (a, None).
Proof.
  intros Hb Hs Hf n. pose proof Hb as (W & Hb0 & Hbit).
  pose proof (wf_page_size a W). pose proof (pages_for_bounds a size ltac:(lia) ltac:(lia)) as Hp.
  assert (Hn : 1 <= n) by (unfold n; nia).
  destruct (alloc_spec fuel a size W Hs Hf) as [[E Hno]|(i & a' & E & Hfit & Hfirst & Hrel)];
    [fold n in Hno|fold n in Hfit, Hfirst, Hrel].
  - destruct (Z.leb_spec (b + n) (page_count a)); [|done].
    destruct (Hno b). apply (bump_fits a b n); [done..|lia].
  - pose proof Hfit as Hfit'. apply (bump_fits a b n) in Hfit'; [|done..].
    assert (i = b) as ->.
    { destruct (decide (b < i)); [|lia]. destruct (Hfirst b); [lia|].
      apply (bump_fits a b n); [done..|lia]. }
    rewrite (proj2 (Z.leb_le _ _)) by lia. exists a'.
    pose proof (reserve_wf a a' b n W Hn Hfit Hrel) as W'.
    destruct Hrel as (E1 & E2 & E3 & _ & _ & _ & _ & _ & _ & Ebit & _).
    split; [done|]. split; [|done]. unfold bump. rewrite E2. split; [done|]. split; [lia|].
    intros j Hj. rewrite Ebit, Hbit by lia. repeat case_match; zb; lia.
Qed.

(** The configuration of the daemons: a region of 1 MiB at a page-aligned
    address and pages of 4 KiB.  The numbers are what the code computes: the
    mask starts at byte 147496 because the size of the descriptor array, which
    is already in bytes, is multiplied by the size of a descriptor again. *)
Lemma init_1MiB addr :
  0 <= addr < 2 ^ 62 -> addr mod 4096 = 0 ->
  exists a, kt_page_allocator_init addr (1024 * 1024) 4096 = Ret (Some a) /\
    bump a 0 /\ page_size a = 4096 /\ page_count a = 255 /\
    page_list_addr a = addr + 40 /\ free_pages_mask_addr a = addr + 147496 /\
    data a = addr + 37 * 4096.
Proof.
  intros Ha Hal. unfold kt_page_allocator_init.
  change (metadata_loop _ _ _) with (Ret (Some (255, 6144, 256))) at 1.
  change (is_pow2_test (1024 * 1024)) with true. change (is_pow2_test 4096) with true.
  change (4096 =? 0) with false. cbn [negb orb guard_ub bind].
  unfold sizeof_kt_page, sizeof_kt_page_allocator.
  rewrite !(proj2 (Z.leb_le _ _)) by lia. cbn [andb].
  eexists. split; [reflexivity|]. cbn [page_size page_count page_list_addr free_pages_mask_addr data].
  edestruct (fresh_wf 4096 255) as [W Hbit]; [lia..|].
  split_and!; try lia.
  - split_and!; [exact W|cbn; lia|cbn; lia|]. cbn [page_count]. intros j Hj.
    rewrite Hbit by done. case_match; zb; lia.
  - unfold u64. dlia.
Qed.

(** [kt_page_allocator_make]: [malloc_ok] says whether [malloc] returns the
    table of operations, which is written unchecked.  The result of the
    initialisation is not looked at; a refused region stays unwritten, and the
    first use of the allocator reads what happens to be there. *)
Definition kt_page_allocator_make (malloc_ok : bool) (addr size page_size : Z)
    : res kt_page_allocator :=
  guard_ub malloc_ok
  (r <- kt_page_allocator_init addr size page_size;;
   match r with Some a => Ret a | None => UB end).

(** ** The allocator interface

    [kt_page_allocator_make] installs these two operations.  The search is
    given as many rounds as it can need ([find_loop_spec]). *)
#[export] Instance page_alloc_ops : AllocOps kt_page_allocator := {
  al_alloc := fun a sz => page_alloc_alloc (S (Z.to_nat (page_count a))) a sz;
  al_free := page_alloc_free
}.

Definition live_block (a : kt_page_allocator) (p n : Z) : Prop :=
  exists i, 0 <= i < page_count a /\ 0 < reserved (page a i) /\
    p = data a + i * page_size a /\ n = reserved (page a i) * page_size a.

Lemma live_reserve a a' i n :
  alloc_wf a -> 1 <= n -> fits a n i -> reserve_rel a a' i n ->
  live_block a' (data a + i * page_size a) (n * page_size a) /\
  forall p' n', live_block a p' n' -> live_block a' p' n' /\
    (p' + n' <= data a + i * page_size a \/
     data a + i * page_size a + n * page_size a <= p').
Proof.
  intros W Hn Hfit Hrel. pose proof (fits_bits a n i W Hfit) as Hb.
  pose proof Hfit as (Hi & Hin & _). pose proof (wf_page_size a W).
  destruct Hrel as (E1 & E2 & E3 & _ & _ & _ & _ & _ & _ & _ & Epage). unfold live_block.
  rewrite E1, E2, E3. split.
  - exists i. rewrite Epage by lia. cbn. rewrite Z.eqb_refl. split_and!; try done; lia.
  - intros p' n' (k & Hk & Hr & -> & ->).
    assert (Hki : k <> i).
    { intros ->. rewrite (wf_idle a W) in Hr; [lia|lia|apply Hb; lia]. }
    split.
    + exists k. rewrite Epage by lia. cbn. by rewrite (proj2 (Z.eqb_neq _ _) Hki).
    + assert (Hout : forall j, in_block a k j -> ~ (i <= j < i + n)).
      { intros j Hj Hj'. apply (wf_block a W k j Hk) in Hj. rewrite Hb in Hj by done. lia. }
      unfold in_block in Hout. set (r := reserved (page a k)) in *.
      assert (k + r <= i \/ i + n <= k) as [Hd|Hd]; [|left; nia|right; nia].
      destruct (decide (k + r <= i)); [by left|]. right.
      destruct (decide (i + n <= k)); [done|]. exfalso.
      destruct (decide (k <= i)); [apply (Hout i)|apply (Hout k)]; lia.
Qed.

#[export] Instance page_alloc_laws : AllocLaws kt_page_allocator.
Proof.
  refine {| al_inv := alloc_wf; al_live := live_block |}.
  - intros a sz W Hs. cbn [al_alloc page_alloc_ops].
    destruct (alloc_spec (S (Z.to_nat (page_count a))) a sz W Hs ltac:(lia))
      as [[E _]|(i & a' & E & Hfit & _ & Hrel)].
    + exists a, None. auto.
    + exists a', (Some (data a + i * page_size a)). split_and!; try done.
      pose proof (pages_for_bounds a sz (wf_page_size a W) ltac:(lia)).
      pose proof (wf_page_size a W).
      apply (reserve_wf a a' i (pages_for a sz)); try done; nia.
  - intros a sz a' p W Hs E. cbn [al_alloc page_alloc_ops] in E.
    pose proof (pages_for_bounds a sz (wf_page_size a W) ltac:(lia)).
    pose proof (wf_page_size a W). assert (1 <= pages_for a sz) by nia.
    destruct (alloc_spec (S (Z.to_nat (page_count a))) a sz W Hs ltac:(lia))
      as [[E' _]|(i & a1 & E' & Hfit & _ & Hrel)]; rewrite E in E'; simplify_eq.
    exists (pages_for a sz * page_size a). split; [lia|].
    by apply (live_reserve a a1 i (pages_for a sz)).
Defined.

(** ** Properties *)

(** C11: [page_alloc_alloc] is a first-fit allocator.  For a non-zero request it
    always returns.  It returns [NULL], changing nothing, exactly when no run of
    enough consecutive free pages exists.  Otherwise it returns the address of
    the lowest such run, the run is large enough for the request, it becomes
    one block, every other block stays as it was, and the invariant (blocks
    disjoint, mask and descriptors in agreement, free count right) holds
    again. *)
Theorem alloc_first_fit fuel a size :
  alloc_wf a -> 0 < size < 2 ^ 32 -> (Z.to_nat (page_count a) < fuel)%nat ->
  let n := pages_for a size in
  (page_alloc_alloc fuel a size = Ret (a, None) /\ forall i, ~ fits a n i) \/
  (exists i a',
     page_alloc_alloc fuel a size = Ret (a', Some (data a + i * page_size a)) /\
     fits a n i /\ (forall i', i' < i -> ~ fits a n i') /\
     size <= n * page_size a /\ alloc_wf a' /\
     page_free a' = page_free a - n /\ reserved (page a' i) = n /\
     forall k, 0 <= k < page_count a -> k <> i -> reserved (page a' k) = reserved (page a k)).
Proof.
  intros W Hs Hf n. pose proof (wf_page_size a W).
  pose proof (pages_for_bounds a size ltac:(lia) ltac:(lia)) as Hp.
  assert (Hn : 1 <= n) by (unfold n; nia).
  destruct (alloc_spec fuel a size W Hs Hf) as [H1|(i & a' & E & Hfit & Hfirst & Hrel)]; [by left|].
  right. fold n in Hfit, Hfirst, Hrel, Hp. exists i, a'.
  pose proof (reserve_wf a a' i n W Hn Hfit Hrel) as W'. pose proof Hfit as (Hi & Hin & _).
  destruct Hrel as (_ & _ & _ & _ & _ & _ & _ & E8 & _ & _ & Epage).
  split_and!; try done; [lia| |].
  - rewrite Epage by lia. cbn. by rewrite Z.eqb_refl.
  - intros k Hk Hne. rewrite Epage by lia. cbn. by rewrite (proj2 (Z.eqb_neq _ _)) by done.
Qed.

(** Four free pages of 4 KiB. *)
Definition alloc_demo : kt_page_allocator :=
  mk_page_allocator 4096 4 4 40 (init_page 4096 4 <$> (Z.of_nat <$> seq 0 (Z.to_nat 4)))
    160 (replicate (Z.to_nat 4) 1) 4096.

Lemma alloc_demo_wf : alloc_wf alloc_demo.
Proof. apply (fresh_wf 4096 4); lia. Qed.

Lemma alloc_first_fit_witness :
  (page_alloc_alloc 5 alloc_demo 5000 = Ret (alloc_demo, None) /\ forall i, ~ fits alloc_demo 2 i) \/
  (exists i a', page_alloc_alloc 5 alloc_demo 5000 = Ret (a', Some (4096 + i * 4096)) /\
     fits alloc_demo 2 i).
Proof.
  destruct (alloc_first_fit 5 alloc_demo 5000 alloc_demo_wf) as [[H1 H2]|(i & a' & H1 & H2 & _)].
  - lia.
  - cbn. lia.
  - left. split; [exact H1|exact H2].
  - right. exists i, a'. split; [exact H1|exact H2].
Defined.

(** C27: [page_alloc_free] applied to the address of a block frees exactly the
    pages of that block, leaves the other blocks alone and preserves the
    invariant; applied to the address of a free page it changes nothing. *)
Theorem free_correct a i :
  alloc_wf a -> 0 <= i < page_count a ->
  (bit a i = 1 -> page_alloc_free a (data a + i * page_size a) = Ret a) /\
  (0 < reserved (page a i) ->
   exists a', page_alloc_free a (data a + i * page_size a) = Ret a' /\ alloc_wf a' /\
     page_free a' = page_free a + reserved (page a i) /\
     (forall j, 0 <= j < page_count a -> in_block a i j -> bit a' j = 1) /\
     (forall j, 0 <= j < page_count a -> ~ in_block a i j -> bit a' j = bit a j) /\
     (forall k, 0 <= k < page_count a -> k <> i -> reserved (page a' k) = reserved (page a k))).
Proof.
  intros W Hi. split; [by apply free_idle|]. intros Hr.
  destruct (free_spec a i W Hi Hr) as (a' & E & Hrel). exists a'.
  pose proof (release_wf a a' i W Hi Hr Hrel) as W'.
  destruct Hrel as (_ & _ & _ & _ & _ & _ & _ & E8 & _ & Ebit & Epage).
  split_and!; try done; unfold in_block.
  - intros j Hj Hin. rewrite Ebit by lia. case_match; [done|zb; lia].
  - intros j Hj Hin. rewrite Ebit by lia. case_match; [zb; lia|done].
  - intros k Hk Hne. rewrite Epage by lia. cbn. by rewrite (proj2 (Z.eqb_neq _ _)) by done.
Qed.

Lemma free_correct_witness :
  page_alloc_free alloc_demo (4096 + 2 * 4096) = Ret alloc_demo.
Proof.
  apply (free_correct alloc_demo 2 alloc_demo_wf); [cbn; lia|reflexivity].
Defined.

(** C28: allocating a block and releasing its address restores the allocator to
    exactly the state it was in. *)
Theorem alloc_free_roundtrip fuel a size a' ptr :
  alloc_wf a -> 0 < size < 2 ^ 32 -> (Z.to_nat (page_count a) < fuel)%nat ->
  page_alloc_alloc fuel a size = Ret (a', Some ptr) -> page_alloc_free a' ptr = Ret a.
Proof.
  intros W Hs Hf E. pose proof (wf_page_size a W).
  pose proof (pages_for_bounds a size ltac:(lia) ltac:(lia)) as Hp.
  destruct (alloc_spec fuel a size W Hs Hf) as [[E' _]|(i & a1 & E' & Hfit & _ & Hrel)];
    rewrite E in E'; simplify_eq.
  set (n := pages_for a size) in *. assert (Hn : 1 <= n) by (unfold n; nia).
  pose proof (reserve_wf a a1 i n W Hn Hfit Hrel) as W'. pose proof Hfit as (Hi & Hin & _).
  pose proof Hrel as (E1 & E2 & E3 & _ & _ & _ & _ & _ & _ & _ & Epage).
  destruct (free_spec a1 i W') as (a2 & Ef & Hrel2).
  - rewrite E2. lia.
  - rewrite Epage by lia. cbn. rewrite Z.eqb_refl. lia.
  - rewrite E1, E3 in Ef. rewrite Ef. f_equal. by eapply (release_reserve a a1 a2 i n).
Qed.

Lemma alloc_free_roundtrip_witness :
  exists a' ptr, page_alloc_alloc 5 alloc_demo 5000 = Ret (a', Some ptr) /\
    page_alloc_free a' ptr = Ret alloc_demo.
Proof.
  assert (E : exists a' ptr, page_alloc_alloc 5 alloc_demo 5000 = Ret (a', Some ptr)).
  { eexists _, _. vm_compute. reflexivity. }
  destruct E as (a' & ptr & E). exists a', ptr. split; [exact E|].
  apply (alloc_free_roundtrip 5 alloc_demo 5000 a' ptr alloc_demo_wf); [lia|cbn; lia|exact E].
Defined.

(** C40: a request of zero bytes never returns while some page is free: the
    search needs zero pages, its inner loop has no iteration and the outer loop
    repeats with the same index, whatever the number of rounds allowed. *)
Theorem alloc_zero_diverges fuel a i :
  alloc_wf a -> 0 <= i < page_count a -> bit a i = 1 ->
  page_alloc_alloc fuel a 0 = Diverge.
Proof.
  intros W Hi Hb. pose proof (wf_page_size a W). pose proof (page_free_bound a W).
  unfold page_alloc_alloc. rewrite (proj2 (Z.eqb_neq _ _)) by lia. cbn [negb guard_ub].
  assert (Hz : pages_for a 0 = 0).
  { unfold pages_for. rewrite Z.div_0_l, Z.mod_0_l by lia. done. }
  rewrite Hz, (proj2 (Z.ltb_ge _ _)) by lia. unfold page_alloc_find_aligned_pages.
  assert (Hloop : forall fuel idx, 0 <= idx -> idx <= i -> find_loop fuel a 0 idx = Diverge).
  { clear fuel. induction fuel as [|fuel IH]; intros idx Hx0 Hle; [done|]. cbn [find_loop].
    pose proof (search_spec a idx W Hx0) as Hs.
    destruct (page_alloc_search_first_free_page_from a idx) as [[j|]| | |]; try done; cbn.
    - apply IH; [lia|]. destruct Hs as (? & ? & Hz'). destruct (decide (j <= i)); [done|].
      rewrite (Hz' i) in Hb; lia.
    - rewrite (Hs i) in Hb; lia. }
  by rewrite Hloop by lia.
Qed.

Lemma alloc_zero_diverges_witness : page_alloc_alloc 100 alloc_demo 0 = Diverge.
Proof.
  apply (alloc_zero_diverges 100 alloc_demo 0 alloc_demo_wf); [cbn; lia|reflexivity].
Defined.

(** On the daemons' region (1 MiB at a page-aligned address, 4 KiB pages)
    initialisation succeeds, establishes the allocator invariant with 255 free
    pages, and places the page data at 37 pages from the start. *)
Theorem init_daemon_region addr :
  0 <= addr < 2 ^ 62 -> addr mod 4096 = 0 ->
  exists a, kt_page_allocator_init addr (1024 * 1024) 4096 = Ret (Some a) /\ alloc_wf a /\
    page_free a = 255 /\ page_count a = 255 /\ data a = addr + 37 * 4096 /\
    (forall i, 0 <= i < page_count a -> bit a i = 1) /\
    page_list_addr a + sizeof_kt_page * page_count a <= free_pages_mask_addr a /\
    free_pages_mask_addr a + page_count a <= data a.
Proof.
  intros Ha Hal. destruct (init_1MiB addr Ha Hal) as (a & E & (W & _ & Hb) & E1 & E2 & E3 & E4 & E5).
  pose proof (init_spec addr (1024 * 1024) 4096 ltac:(lia) ltac:(lia)) as Hs. rewrite E in Hs.
  destruct Hs as (_ & _ & Hbit & Hpf & _).
  exists a. unfold sizeof_kt_page. split_and!; try done; lia.
Qed.

Lemma init_daemon_region_witness :
  exists a, kt_page_allocator_init 4096 (1024 * 1024) 4096 = Ret (Some a) /\ alloc_wf a.
Proof.
  destruct (init_daemon_region 4096) as (a & H1 & H2 & _); [lia|reflexivity|].
  exists a. auto.
Defined.

(** C39: the page data of the daemons' region does not fit in the region.  After
    the first 219 pages were handed out, the allocator still reports free pages
    and the next request gets an address at or beyond the end of the 1 MiB. *)
Theorem alloc_outside_region fuel addr :
  0 <= addr < 2 ^ 62 -> addr mod 4096 = 0 -> (255 < fuel)%nat ->
  exists a a1 a2 p1 p2,
    kt_page_allocator_init addr (1024 * 1024) 4096 = Ret (Some a) /\
    page_alloc_alloc fuel a (219 * 4096) = Ret (a1, Some p1) /\
    p1 + 219 * 4096 <= addr + 1024 * 1024 /\
    page_alloc_alloc fuel a1 4096 = Ret (a2, Some p2) /\
    addr + 1024 * 1024 <= p2.
Proof.
  intros Ha Hal Hf. destruct (init_1MiB addr Ha Hal) as (a & E & Hb & E1 & E2 & _ & _ & E5).
  pose proof (alloc_bump fuel a 0 (219 * 4096) Hb ltac:(lia) ltac:(rewrite E2; lia)) as H1.
  cbn zeta in H1. unfold pages_for in H1. rewrite E1, E2, E5 in H1.
  destruct H1 as (a1 & H1 & Hb1 & F1 & F2 & F5).
  pose proof (alloc_bump fuel a1 219 4096 Hb1 ltac:(lia) ltac:(rewrite F2; lia)) as H2.
  cbn zeta in H2. unfold pages_for in H2. rewrite F1, F2, F5 in H2.
  destruct H2 as (a2 & H2 & _). exists a, a1, a2, (addr + 37 * 4096 + 0 * 4096),
    (addr + 37 * 4096 + 219 * 4096).
  split_and!; try done; lia.
Qed.

Lemma alloc_outside_region_witness :
  exists a a1 a2 p1 p2, kt_page_allocator_init 4096 (1024 * 1024) 4096 = Ret (Some a) /\
    page_alloc_alloc 256 a (219 * 4096) = Ret (a1, Some p1) /\
    page_alloc_alloc 256 a1 4096 = Ret (a2, Some p2) /\ 4096 + 1024 * 1024 <= p2.
Proof.
  destruct (alloc_outside_region 256 4096) as (a & a1 & a2 & p1 & p2 & H1 & H2 & _ & H3 & H4);
    [lia|reflexivity|lia|].
  exists a, a1, a2, p1, p2. auto.
Defined.
