(* ===== verification/RingBuf.v ===== *)
(** * The ring buffers (src/src/kt_ringbuf.c, kt_ringbuf.h)

    Lock-free rings of 64-bit words carry buffer indices between the
    applications and the daemon.  This file translates the operations as one
    thread runs them, and proves that they implement a bounded FIFO queue.  The
    words of a ring follow its header in memory; [ring] holds every word that
    may be accessed there, which can be more than [size]. *)

From S2P Require Import Prelude Allocator.

(** ** Data *)

(** [struct kt_headtail] *)
Record kt_headtail := mk_headtail { head : Z; tail : Z }.

(** [struct kt_ringbuf]; [addr] is where the structure lies, [ring] is the
    array of words at [rb + 1]. *)
Record kt_ringbuf := mk_ringbuf {
  addr : Z;
  name : string;
  size : Z;
  esize : Z;
  mask : Z;
  capacity : Z;
  prod : kt_headtail;
  cons : kt_headtail;
  ring : list Z
}.

Inductive kt_ringbuf_behavior := KT_RB_BEHAVIOR_FIXED | KT_RB_BEHAVIOR_VARIABLE.

(** [sizeof(struct kt_ringbuf)]: 72 bytes of members, padded to the 64-byte
    alignment of [name]. *)
Definition sizeof_kt_ringbuf : Z := 128.
Definition INSANE_QUEUE_NAMESIZE : nat := 32.

Definition set_prod (rb : kt_ringbuf) (p : kt_headtail) : kt_ringbuf :=
  mk_ringbuf (addr rb) (name rb) (size rb) (esize rb) (mask rb) (capacity rb) p (cons rb) (ring rb).
Definition set_cons (rb : kt_ringbuf) (c : kt_headtail) : kt_ringbuf :=
  mk_ringbuf (addr rb) (name rb) (size rb) (esize rb) (mask rb) (capacity rb) (prod rb) c (ring rb).
Definition set_ring (rb : kt_ringbuf) (l : list Z) : kt_ringbuf :=
  mk_ringbuf (addr rb) (name rb) (size rb) (esize rb) (mask rb) (capacity rb) (prod rb) (cons rb) l.

(** ** Creation *)

Section Create.
Context {St : Type} `{AllocOps St}.

(** [words p] is what lies behind a header at address [p]. *)
Definition kt_ringbuf_create (words : Z -> list Z) (al : St) (nm : string) (count esize : Z)
    : res (St * option kt_ringbuf) :=
  let qsize := u32 (sizeof_kt_ringbuf + u32 (count * esize)) in
  let* (al, p) := al_alloc al qsize in
  match p with
  | None => Ret (al, None)
  | Some p =>
      Ret (al, Some (mk_ringbuf p (String.substring 0 (INSANE_QUEUE_NAMESIZE - 1) nm)
        count esize (u32 (count - 1)) (u32 (count - 1))
        (mk_headtail 0 0) (mk_headtail 0 0) (words p)))
  end.
End Create.

Definition kt_ringbuf_get_capacity (rb : kt_ringbuf) : Z := capacity rb.

Definition kt_ringbuf_count (rb : kt_ringbuf) : Z :=
  let prod_tail := tail (prod rb) in
  let cons_tail := tail (cons rb) in
  let count := Z.land (u32 (prod_tail - cons_tail)) (mask rb) in
  if capacity rb <? count then capacity rb else count.

(** ** Copying

    The loops of [__kt_ringbuf_enqueue_elems] and [__kt_ringbuf_dequeue_elems]
    copy [src[si++]] to [dst[di++]]; their counter [i] is the index on the side
    of the caller's table. *)
Definition copy1 (dst src : list Z) (di si : Z) : res (list Z) :=
  x <- znth src si;; zset dst di x.

(** The unrolled loop: four words per round, while [i < bound]. *)
Fixpoint copy_loop4 (fuel : nat) (bound : Z) (dst src : list Z) (di si i : Z)
    : res (list Z * Z * Z) :=
  match fuel with
  | O => Diverge
  | S fuel =>
      if i <? bound then
        dst <- copy1 dst src di si;;
        dst <- copy1 dst src (u32 (di + 1)) (u32 (si + 1));;
        dst <- copy1 dst src (u32 (di + 2)) (u32 (si + 2));;
        dst <- copy1 dst src (u32 (di + 3)) (u32 (si + 3));;
        copy_loop4 fuel bound dst src (u32 (di + 4)) (u32 (si + 4)) (u32 (i + 4))
      else Ret (dst, di, si)
  end.

(** One [dst[di++] = src[si++]] of the [switch], done when [b] holds. *)
Definition copy_case (b : bool) (s : list Z * Z * Z) (src : list Z) : res (list Z * Z * Z) :=
  if b then
    let '(dst, di, si) := s in
    dst <- copy1 dst src di si;;
    Ret (dst, u32 (di + 1), u32 (si + 1))
  else Ret s.

(** The [switch (n & 0x3)]: every case falls through to the next one. *)
Definition copy_switch (k : Z) (s : list Z * Z * Z) (src : list Z) : res (list Z * Z * Z) :=
  s <- copy_case (k =? 3) s src;;
  s <- copy_case ((k =? 3) || (k =? 2)) s src;;
  copy_case ((k =? 3) || (k =? 2) || (k =? 1)) s src.

(** [for (; i < n; i++, idx++)], one word per round. *)
Fixpoint copy_loop (fuel : nat) (n : Z) (dst src : list Z) (di si i : Z)
    : res (list Z * Z * Z * Z) :=
  match fuel with
  | O => Diverge
  | S fuel =>
      if i <? n then
        dst <- copy1 dst src di si;;
        copy_loop fuel n dst src (u32 (di + 1)) (u32 (si + 1)) (u32 (i + 1))
      else Ret (dst, di, si, i)
  end.

(** [n & ~0x3] *)
Definition round4 (n : Z) : Z := Z.land n 4294967292.

(** ** Enqueue *)

(** [spurious] is the number of times the weak compare-and-exchange fails
    although nobody else moved the head.  The result is the number of entries
    reserved, the old and the new head and the free entries. *)
Fixpoint __kt_ringbuf_move_prod_head (spurious : nat) (rb : kt_ringbuf) (max : Z)
    (behavior : kt_ringbuf_behavior) : Z * Z * Z * Z * kt_ringbuf :=
  let old_head := head (prod rb) in
  let cons_tail := tail (cons rb) in
  let free_entries := u32 (capacity rb - u32 (old_head - cons_tail)) in
  let n := if free_entries <? max then
             match behavior with
             | KT_RB_BEHAVIOR_FIXED => 0
             | KT_RB_BEHAVIOR_VARIABLE => free_entries
             end
           else max in
  if n =? 0 then (0, old_head, old_head, free_entries, rb)
  else
    let new_head := u32 (old_head + n) in
    match spurious with
    | S spurious => __kt_ringbuf_move_prod_head spurious rb max behavior
    | O => (n, old_head, new_head, free_entries,
            set_prod rb (mk_headtail new_head (tail (prod rb))))
    end.

Definition __kt_ringbuf_enqueue_elems (rb : kt_ringbuf) (prod_head : Z) (obj_table : list Z)
    (esz n : Z) : res kt_ringbuf :=
  if esz =? 8 then
    let idx := Z.land prod_head (mask rb) in
    if u32 (idx + n) <=? size rb then
      s <- copy_loop4 (S (Z.to_nat n)) (round4 n) (ring rb) obj_table idx 0 0;;
      s <- copy_switch (Z.land n 3) s obj_table;;
      Ret (set_ring rb s.1.1)
    else
      s <- copy_loop (S (Z.to_nat n)) n (ring rb) obj_table idx 0 0;;
      let '(l, _, i, _) := s in
      s <- copy_loop (S (Z.to_nat n)) n l obj_table 0 i i;;
      Ret (set_ring rb s.1.1.1)
  else Abort.

(** The result is the number of entries, the value for [*free_space] and the
    ring.  A producer waits until the tail reaches its reservation; alone, it
    waits for ever when it does not start there. *)
Definition __kt_ringbuf_do_enqueue_elems (spurious : nat) (rb : kt_ringbuf) (obj_table : list Z)
    (esz n : Z) (behavior : kt_ringbuf_behavior) : res (Z * Z * kt_ringbuf) :=
  let '(n, prod_head, prod_next, free_entries, rb) :=
    __kt_ringbuf_move_prod_head spurious rb n behavior in
  if n =? 0 then Ret (n, u32 (free_entries - n), rb)
  else
    rb <- __kt_ringbuf_enqueue_elems rb prod_head obj_table esz n;;
    if tail (prod rb) =? prod_head then
      Ret (n, u32 (free_entries - n), set_prod rb (mk_headtail (head (prod rb)) prod_next))
    else Diverge.

Definition kt_ringbuf_enqueue_burst (rb : kt_ringbuf) (obj_table : list Z) (esz n : Z)
    : res (Z * Z * kt_ringbuf) :=
  __kt_ringbuf_do_enqueue_elems 0 rb obj_table esz n KT_RB_BEHAVIOR_VARIABLE.

(** ** Dequeue *)

Fixpoint __kt_ringbuf_move_cons_head (spurious : nat) (rb : kt_ringbuf) (max : Z)
    (behavior : kt_ringbuf_behavior) : Z * Z * Z * Z * kt_ringbuf :=
  let old_head := head (cons rb) in
  let prod_tail := tail (prod rb) in
  let entries := u32 (prod_tail - old_head) in
  let n := if entries <? max then
             match behavior with
             | KT_RB_BEHAVIOR_FIXED => 0
             | KT_RB_BEHAVIOR_VARIABLE => entries
             end
           else max in
  if n =? 0 then (0, old_head, old_head, entries, rb)
  else
    let new_head := u32 (old_head + n) in
    match spurious with
    | S spurious => __kt_ringbuf_move_cons_head spurious rb max behavior
    | O => (n, old_head, new_head, entries,
            set_cons rb (mk_headtail new_head (tail (cons rb))))
    end.

(** The result is the caller's table with the words written to it. *)
Definition __kt_ringbuf_dequeue_elems (rb : kt_ringbuf) (cons_head : Z) (obj_table : list Z)
    (esz n : Z) : res (list Z) :=
  if esz =? 8 then
    let idx := Z.land cons_head (u32 (size rb - 1)) in
    if u32 (idx + n) <=? size rb then
      s <- copy_loop4 (S (Z.to_nat n)) (round4 n) obj_table (ring rb) 0 idx 0;;
      s <- copy_switch (Z.land n 3) s (ring rb);;
      Ret s.1.1
    else
      s <- copy_loop (S (Z.to_nat n)) n obj_table (ring rb) 0 idx 0;;
      let '(l, i, _, _) := s in
      s <- copy_loop (S (Z.to_nat n)) n l (ring rb) i 0 i;;
      Ret s.1.1.1
  else Abort.

(** The result is the number of entries, the value for [*available], the
    caller's table and the ring. *)
Definition __kt_ringbuf_do_dequeue_elems (spurious : nat) (rb : kt_ringbuf) (obj_table : list Z)
    (esz n : Z) (behavior : kt_ringbuf_behavior) : res (Z * Z * list Z * kt_ringbuf) :=
  let '(n, cons_head, cons_next, entries, rb) :=
    __kt_ringbuf_move_cons_head spurious rb n behavior in
  if n =? 0 then Ret (n, u32 (entries - n), obj_table, rb)
  else
    tbl <- __kt_ringbuf_dequeue_elems rb cons_head obj_table esz n;;
    if tail (cons rb) =? cons_head then
      Ret (n, u32 (entries - n), tbl, set_cons rb (mk_headtail (head (cons rb)) cons_next))
    else Diverge.

Definition kt_ringbuf_dequeue_burst (rb : kt_ringbuf) (obj_table : list Z) (esz n : Z)
    : res (Z * Z * list Z * kt_ringbuf) :=
  __kt_ringbuf_do_dequeue_elems 0 rb obj_table esz n KT_RB_BEHAVIOR_VARIABLE.

(** ** The copy loops against a reference

    [blit n dst di src si] copies [n] words one after the other. *)
Fixpoint blit (n : nat) (dst : list Z) (di : Z) (src : list Z) (si : Z) : list Z :=
  match n with
  | O => dst
  | S n => blit n (zupd dst di (zget src si)) (di + 1) src (si + 1)
  end.

(** Compares results built from the same copies at equal indices. *)
Ltac ret_eq :=
  repeat match goal with
  | |- Ret _ = Ret _ => f_equal
  | |- (_, _) = (_, _) => f_equal
  | |- blit _ _ _ _ _ = blit _ _ _ _ _ => f_equal
  | |- zupd _ _ _ = zupd _ _ _ => f_equal
  end; try lia.

Definition blit_ok (n : Z) (dst : list Z) (di : Z) (src : list Z) (si : Z) : Prop :=
  0 <= di /\ di + n <= zlen dst /\ 0 <= si /\ si + n <= zlen src /\
  zlen dst < 2 ^ 31 /\ zlen src < 2 ^ 31.

Lemma zlen_blit n : forall dst di src si, zlen (blit n dst di src si) = zlen dst.
Proof. induction n; intros; cbn [blit]; [done|]. rewrite IHn. apply zlen_zupd. Qed.

Lemma zget_blit n : forall dst di src si j,
  0 <= di -> di + Z.of_nat n <= zlen dst -> 0 <= j ->
  zget (blit n dst di src si) j =
    if (di <=? j) && (j <? di + Z.of_nat n) then zget src (si + (j - di)) else zget dst j.
Proof.
  induction n as [|n IH]; intros dst di src si j Hd Hn Hj; cbn [blit].
  - case_match; [zb; lia|done].
  - rewrite IH by zbounds. rewrite zget_zupd by lia.
    repeat case_match; zb; try lia; f_equal; lia.
Qed.

Lemma blit_add n m : forall dst di src si,
  blit (n + m) dst di src si = blit m (blit n dst di src si) (di + Z.of_nat n) src (si + Z.of_nat n).
Proof.
  induction n as [|n IH]; intros dst di src si; cbn [blit Nat.add].
  - f_equal; lia.
  - rewrite IH. f_equal; lia.
Qed.

Lemma blit_S n dst di src si :
  blit (S n) dst di src si =
    zupd (blit n dst di src si) (di + Z.of_nat n) (zget src (si + Z.of_nat n)).
Proof. replace (S n) with (n + 1)%nat by lia. by rewrite blit_add. Qed.

Lemma copy1_upd dst src di si :
  0 <= di < zlen dst -> 0 <= si < zlen src ->
  copy1 dst src di si = Ret (zupd dst di (zget src si)).
Proof. intros. unfold copy1. rewrite znth_get by done. cbn [bind]. by apply zset_upd. Qed.

Lemma copy_loop_blit fuel : forall n dst src di si i m,
  blit_ok (Z.of_nat m) dst di src si -> 0 <= i -> i + Z.of_nat m = n -> n < 2 ^ 31 -> (m < fuel)%nat ->
  copy_loop fuel n dst src di si i =
    Ret (blit m dst di src si, di + Z.of_nat m, si + Z.of_nat m, n).
Proof.
  induction fuel as [|fuel IH]; intros n dst src di si i m (H1 & H2 & H3 & H4 & H5 & H6) Hi Hn Hmax Hf;
    [lia|]. cbn [copy_loop].
  destruct m as [|m].
  - rewrite (proj2 (Z.ltb_ge _ _)) by lia. cbn [blit]. ret_eq.
  - rewrite (proj2 (Z.ltb_lt _ _)) by lia. rewrite copy1_upd by lia. cbn [bind].
    rewrite !u32_id by lia. rewrite (IH _ _ _ _ _ _ m).
    + cbn [blit]. ret_eq.
    + unfold blit_ok. rewrite zlen_zupd. lia.
    + lia.
    + lia.
    + lia.
    + lia.
Qed.

Lemma copy_loop4_blit fuel : forall bound dst src di si i m,
  blit_ok (4 * Z.of_nat m) dst di src si -> 0 <= i -> i + 4 * Z.of_nat m = bound ->
  bound < 2 ^ 31 -> (m < fuel)%nat ->
  copy_loop4 fuel bound dst src di si i =
    Ret (blit (4 * m) dst di src si, di + 4 * Z.of_nat m, si + 4 * Z.of_nat m).
Proof.
  induction fuel as [|fuel IH]; intros bound dst src di si i m (H1 & H2 & H3 & H4 & H5 & H6) Hi Hn
    Hmax Hf; [lia|]. cbn [copy_loop4].
  destruct m as [|m].
  - rewrite (proj2 (Z.ltb_ge _ _)) by lia. cbn [blit Nat.mul]. ret_eq.
  - rewrite (proj2 (Z.ltb_lt _ _)) by lia. rewrite !u32_id by lia.
    do 4 (rewrite copy1_upd by zbounds; cbn [bind]).
    rewrite (IH _ _ _ _ _ _ m); try lia.
    + replace (4 * S m)%nat with (S (S (S (S (4 * m))))) by lia. cbn [blit].
      replace (di + 1 + 1) with (di + 2) by lia. replace (di + 2 + 1) with (di + 3) by lia.
      replace (di + 3 + 1) with (di + 4) by lia. replace (si + 1 + 1) with (si + 2) by lia.
      replace (si + 2 + 1) with (si + 3) by lia. replace (si + 3 + 1) with (si + 4) by lia.
      ret_eq.
    + unfold blit_ok. rewrite !zlen_zupd. lia.
Qed.

Lemma copy_case_blit dst src di si :
  blit_ok 1 dst di src si ->
  copy_case true (dst, di, si) src = Ret (blit 1 dst di src si, di + 1, si + 1).
Proof.
  intros (H1 & H2 & H3 & H4 & H5 & H6). unfold copy_case. rewrite copy1_upd by lia. cbn [bind].
  by rewrite !u32_id by lia.
Qed.

Lemma copy_case_skip s src : copy_case false s src = Ret s.
Proof. done. Qed.

Lemma copy_switch_blit k dst src di si :
  (k < 4)%nat -> blit_ok (Z.of_nat k) dst di src si ->
  copy_switch (Z.of_nat k) (dst, di, si) src =
    Ret (blit k dst di src si, di + Z.of_nat k, si + Z.of_nat k).
Proof.
  intros Hk (H1 & H2 & H3 & H4 & H5 & H6). unfold copy_switch.
  destruct k as [|[|[|[|]]]]; try lia;
    [change (Z.of_nat 0) with 0 in *|change (Z.of_nat 1) with 1 in *
    |change (Z.of_nat 2) with 2 in *|change (Z.of_nat 3) with 3 in *];
    cbn [Z.eqb Pos.eqb orb].
  - cbn [copy_case bind]. ret_eq.
  - rewrite copy_case_skip. cbn [bind].
    rewrite copy_case_skip. cbn [bind].
    by rewrite copy_case_blit by (unfold blit_ok; lia).
  - rewrite copy_case_skip. cbn [bind].
    rewrite copy_case_blit by (unfold blit_ok; lia). cbn [bind].
    rewrite copy_case_blit by (unfold blit_ok; rewrite zlen_blit; lia). cbn [blit]. ret_eq.
  - rewrite copy_case_blit by (unfold blit_ok; lia). cbn [bind].
    rewrite copy_case_blit by (unfold blit_ok; rewrite zlen_blit; lia). cbn [bind].
    rewrite copy_case_blit by (unfold blit_ok; rewrite !zlen_blit; lia). cbn [blit].
    replace (di + 1 + 1) with (di + 2) by lia. replace (si + 1 + 1) with (si + 2) by lia. ret_eq.
Qed.

Lemma round4_eq n : 0 <= n < 2 ^ 32 -> round4 n = 4 * (n / 4).
Proof.
  intros Hn. unfold round4.
  change 4294967292 with (Z.ldiff (Z.ones 32) (Z.ones 2)).
  replace (Z.land n (Z.ldiff (Z.ones 32) (Z.ones 2))) with (Z.ldiff (Z.land n (Z.ones 32)) (Z.ones 2)).
  - rewrite Z.land_ones by lia. rewrite Z.mod_small by lia.
    rewrite Z.ldiff_ones_r by lia. rewrite Z.shiftl_mul_pow2, Z.shiftr_div_pow2 by lia. change (2 ^ 2) with 4. lia.
  - apply Z.bits_inj'. intros b Hb. rewrite !Z.land_spec, !Z.ldiff_spec, Z.land_spec.
    by rewrite andb_assoc.
Qed.

Lemma land3 n : Z.land n 3 = n mod 4.
Proof. change 3 with (Z.ones 2). by rewrite Z.land_ones by lia. Qed.

(** The unrolled copy with its [switch] is the plain copy. *)
Lemma unrolled_blit n dst src di si :
  0 <= n -> blit_ok n dst di src si ->
  (s <- copy_loop4 (S (Z.to_nat n)) (round4 n) dst src di si 0;;
   copy_switch (Z.land n 3) s src) = Ret (blit (Z.to_nat n) dst di src si, di + n, si + n).
Proof.
  intros Hn (H1 & H2 & H3 & H4 & H5 & H6). rewrite round4_eq, land3 by lia.
  pose proof (Z.div_mod n 4 ltac:(lia)) as Hdm. pose proof (Z.mod_pos_bound n 4 ltac:(lia)).
  rewrite (copy_loop4_blit _ _ _ _ _ _ _ (Z.to_nat (n / 4))); unfold blit_ok; try lia. cbn [bind].
  replace (n mod 4) with (Z.of_nat (Z.to_nat (n mod 4))) by lia.
  rewrite copy_switch_blit by (unfold blit_ok; rewrite ?zlen_blit; lia).
  replace (Z.to_nat n) with (4 * Z.to_nat (n / 4) + Z.to_nat (n mod 4))%nat by lia.
  rewrite blit_add. ret_eq.
Qed.

(** Both branches of the copy routines do the same: they copy [n] words from
    or to consecutive positions, without returning to the start of the ring. *)
Lemma enqueue_elems_blit rb h tbl n :
  0 <= n -> blit_ok n (ring rb) (Z.land h (mask rb)) tbl 0 ->
  __kt_ringbuf_enqueue_elems rb h tbl 8 n =
    Ret (set_ring rb (blit (Z.to_nat n) (ring rb) (Z.land h (mask rb)) tbl 0)).
Proof.
  intros Hn Hok. unfold __kt_ringbuf_enqueue_elems. rewrite Z.eqb_refl.
  set (idx := Z.land h (mask rb)) in *. pose proof Hok as (H1 & H2 & H3 & H4 & H5 & H6).
  case_match eqn:E.
  - pose proof (unrolled_blit n _ _ _ _ Hn Hok) as Hu.
    apply bind_Ret in Hu as (s & -> & Hs). cbn [bind]. by rewrite Hs.
  - rewrite (copy_loop_blit _ _ _ _ _ _ _ (Z.to_nat n)) by (rewrite ?Z2Nat.id by lia; (done || lia)).
    cbn [bind]. rewrite (copy_loop_blit _ _ _ _ _ _ _ 0); [done|..]; try lia.
    unfold blit_ok. rewrite zlen_blit. lia.
Qed.

Lemma dequeue_elems_blit rb h tbl n :
  0 <= n -> blit_ok n tbl 0 (ring rb) (Z.land h (u32 (size rb - 1))) ->
  __kt_ringbuf_dequeue_elems rb h tbl 8 n =
    Ret (blit (Z.to_nat n) tbl 0 (ring rb) (Z.land h (u32 (size rb - 1)))).
Proof.
  intros Hn Hok. unfold __kt_ringbuf_dequeue_elems. rewrite Z.eqb_refl.
  set (idx := Z.land h _) in *. pose proof Hok as (H1 & H2 & H3 & H4 & H5 & H6).
  case_match eqn:E.
  - pose proof (unrolled_blit n _ _ _ _ Hn Hok) as Hu.
    apply bind_Ret in Hu as (s & -> & Hs). cbn [bind]. by rewrite Hs.
  - rewrite (copy_loop_blit _ _ _ _ _ _ _ (Z.to_nat n)) by (rewrite ?Z2Nat.id by lia; (done || lia)).
    cbn [bind]. rewrite (copy_loop_blit _ _ _ _ _ _ _ 0); [done|..]; try lia.
    unfold blit_ok. rewrite zlen_blit. lia.
Qed.

(** ** The queue a ring stands for *)

Definition pow2_size (s : Z) : Prop := exists k, 0 <= k <= 30 /\ s = 2 ^ k.

(** A ring at rest: nobody has a reservation in progress. *)
Definition ring_wf (rb : kt_ringbuf) : Prop :=
  pow2_size (size rb) /\ mask rb = size rb - 1 /\ capacity rb = size rb - 1 /\
  size rb <= zlen (ring rb) < 2 ^ 31 /\
  0 <= head (prod rb) < 2 ^ 32 /\ 0 <= head (cons rb) < 2 ^ 32 /\
  tail (prod rb) = head (prod rb) /\ tail (cons rb) = head (cons rb) /\
  u32 (head (prod rb) - head (cons rb)) <= capacity rb.

(** The number of stored words, from the wrapping counters. *)
Definition used (rb : kt_ringbuf) : Z := u32 (head (prod rb) - head (cons rb)).

(** The stored words, oldest first. *)
Definition contents (rb : kt_ringbuf) : list Z :=
  (fun j => zget (ring rb) ((head (cons rb) + Z.of_nat j) mod size rb)) <$> seq 0 (Z.to_nat (used rb)).

Lemma pow2_size_pos s : pow2_size s -> 1 <= s <= 2 ^ 30.
Proof.
  intros (k & Hk & ->). split.
  - pose proof (Z.pow_pos_nonneg 2 k). lia.
  - by apply Z.pow_le_mono_r; lia.
Qed.

Lemma u32_mod_size s x : pow2_size s -> u32 x mod s = x mod s.
Proof.
  intros (k & Hk & ->). unfold u32. change 4294967296 with (2 ^ 32).
  replace (2 ^ 32) with (2 ^ k * 2 ^ (32 - k)) by (rewrite <- Z.pow_add_r by lia; f_equal; lia).
  assert (0 < 2 ^ k) by (apply Z.pow_pos_nonneg; lia).
  assert (0 < 2 ^ (32 - k)) by (apply Z.pow_pos_nonneg; lia).
  rewrite Z.rem_mul_r by lia. rewrite Z.mul_comm, Z.mod_add by lia. by apply Z.mod_mod; lia.
Qed.

Lemma land_mask s x : pow2_size s -> Z.land x (s - 1) = x mod s.
Proof.
  intros (k & Hk & ->). rewrite <- Z.land_ones by lia. by rewrite Z.ones_equiv.
Qed.

(** Two positions less than [s] apart use the same slot only if they are the
    same. *)
Lemma slot_inj s x d e :
  0 < s -> 0 <= d < s -> 0 <= e < s -> (x + d) mod s = (x + e) mod s -> d = e.
Proof.
  intros Hs Hd He Heq. pose proof (Z.div_mod (x + d) s ltac:(lia)).
  pose proof (Z.div_mod (x + e) s ltac:(lia)).
  assert ((x + d) / s = (x + e) / s) by nia. nia.
Qed.

Lemma zget_fmap_seq {A} `{Inhabited A} (f : nat -> A) n j :
  0 <= j < Z.of_nat n -> zget (f <$> seq 0 n) j = f (Z.to_nat j).
Proof.
  intros Hj. unfold zget. apply list_lookup_total_correct.
  by rewrite list_lookup_fmap, lookup_seq_lt by lia.
Qed.

Lemma used_nonneg rb : 0 <= used rb < 2 ^ 32.
Proof. unfold used, u32. apply Z.mod_pos_bound. lia. Qed.

Lemma zlen_contents rb : zlen (contents rb) = used rb.
Proof.
  unfold contents. rewrite zlen_fmap. unfold zlen. rewrite length_seq.
  pose proof (used_nonneg rb). lia.
Qed.

Lemma zget_contents rb j :
  0 <= j < used rb -> zget (contents rb) j = zget (ring rb) ((head (cons rb) + j) mod size rb).
Proof.
  intros Hj. unfold contents. rewrite zget_fmap_seq by lia. by rewrite Z2Nat.id by lia.
Qed.

(** ** Reservations *)

(** How many entries are granted when [avail] are possible. *)
Definition granted (behavior : kt_ringbuf_behavior) (n avail : Z) : Z :=
  if avail <? n then match behavior with KT_RB_BEHAVIOR_FIXED => 0 | KT_RB_BEHAVIOR_VARIABLE => avail end
  else n.

Lemma granted_bounds b n avail : 0 <= n -> 0 <= avail -> 0 <= granted b n avail <= Z.min n avail.
Proof. intros. unfold granted. destruct b; case_match; zb; lia. Qed.

(** Spurious failures of the weak compare-and-exchange do not matter. *)
Lemma move_prod_head_spec sp rb n b :
  ring_wf rb -> 0 <= n ->
  let free_entries := capacity rb - used rb in
  let k := granted b n free_entries in
  __kt_ringbuf_move_prod_head sp rb n b =
    (k, head (prod rb), if k =? 0 then head (prod rb) else u32 (head (prod rb) + k), free_entries,
     if k =? 0 then rb else set_prod rb (mk_headtail (u32 (head (prod rb) + k)) (tail (prod rb)))).
Proof.
  intros Hwf Hn fr k. pose proof Hwf as (Hp & _ & Hc & _ & _ & _ & _ & Ht & Hu).
  pose proof (pow2_size_pos _ Hp). pose proof (used_nonneg rb). fold (used rb) in Hu.
  assert (Hfr : u32 (capacity rb - u32 (head (prod rb) - tail (cons rb))) = fr).
  { rewrite Ht. fold (used rb). rewrite u32_id by lia. done. }
  induction sp as [|sp IH]; cbn [__kt_ringbuf_move_prod_head]; rewrite Hfr; fold (granted b n fr);
    fold k; (destruct (Z.eqb_spec k 0) as [E|E]; [by rewrite E|]); [done|apply IH].
Qed.

Lemma move_cons_head_spec sp rb n b :
  ring_wf rb -> 0 <= n ->
  let k := granted b n (used rb) in
  __kt_ringbuf_move_cons_head sp rb n b =
    (k, head (cons rb), if k =? 0 then head (cons rb) else u32 (head (cons rb) + k), used rb,
     if k =? 0 then rb else set_cons rb (mk_headtail (u32 (head (cons rb) + k)) (tail (cons rb)))).
Proof.
  intros Hwf Hn k. pose proof Hwf as (_ & _ & _ & _ & _ & _ & Ht & _).
  assert (Hfr : u32 (tail (prod rb) - head (cons rb)) = used rb) by (by rewrite Ht).
  induction sp as [|sp IH]; cbn [__kt_ringbuf_move_cons_head]; rewrite Hfr;
    fold (granted b n (used rb)); fold k;
    (destruct (Z.eqb_spec k 0) as [E|E]; [by rewrite E|]); [done|apply IH].
Qed.

(** ** Enqueue *)

(** The ring after [k] words of [tbl] were written at consecutive positions. *)
Definition enqueued (rb : kt_ringbuf) (tbl : list Z) (k : Z) : kt_ringbuf :=
  let h := u32 (head (prod rb) + k) in
  set_prod (set_ring rb (blit (Z.to_nat k) (ring rb) (head (prod rb) mod size rb) tbl 0))
    (mk_headtail h h).

Lemma do_enqueue_spec sp rb tbl n b :
  ring_wf rb -> 0 <= n ->
  let fr := capacity rb - used rb in
  let k := granted b n fr in
  k <= zlen tbl < 2 ^ 31 -> head (prod rb) mod size rb + k <= zlen (ring rb) ->
  __kt_ringbuf_do_enqueue_elems sp rb tbl 8 n b =
    Ret (k, fr - k, if k =? 0 then rb else enqueued rb tbl k).
Proof.
  intros Hwf Hn fr k Htbl Hroom.
  pose proof Hwf as (Hp & Hm & Hc & Hl & Hph & Hch & Htp & Htc & Hu). fold (used rb) in Hu.
  pose proof (pow2_size_pos _ Hp). pose proof (used_nonneg rb).
  assert (Hk : 0 <= k <= Z.min n fr) by (apply granted_bounds; lia).
  assert (Hidx : Z.land (head (prod rb)) (mask rb) = head (prod rb) mod size rb).
  { rewrite Hm. by apply land_mask. }
  pose proof (Z.mod_pos_bound (head (prod rb)) (size rb) ltac:(lia)).
  unfold __kt_ringbuf_do_enqueue_elems. rewrite move_prod_head_spec by done. fold fr. fold k.
  destruct (Z.eqb_spec k 0) as [E|E]; [by rewrite E, Z.sub_0_r, u32_id by lia|].
  rewrite enqueue_elems_blit; cbn [mask ring set_prod].
  - cbn [bind prod set_prod set_ring tail head]. rewrite Htp, Z.eqb_refl, Hidx.
    by rewrite (u32_id (fr - k)) by lia.
  - lia.
  - rewrite Hidx. unfold blit_ok. lia.
Qed.

Lemma enqueued_used rb tbl k :
  ring_wf rb -> 0 <= k <= capacity rb - used rb -> used (enqueued rb tbl k) = used rb + k.
Proof.
  intros Hwf Hk. pose proof Hwf as (Hp & _ & Hc & _ & Hph & Hch & _).
  pose proof (pow2_size_pos _ Hp). pose proof (used_nonneg rb).
  unfold used at 1, enqueued. cbn [prod cons set_prod set_ring head].
  unfold used, u32 in *. rewrite Zminus_mod_idemp_l.
  replace (head (prod rb) + k - head (cons rb)) with (head (prod rb) - head (cons rb) + k) by lia.
  rewrite <- Zplus_mod_idemp_l. apply Z.mod_small. lia.
Qed.

Lemma enqueued_wf rb tbl k :
  ring_wf rb -> 0 <= k <= capacity rb - used rb -> ring_wf (enqueued rb tbl k).
Proof.
  intros Hwf Hk. pose proof (enqueued_used rb tbl k Hwf Hk) as Hu'.
  pose proof Hwf as (Hp & Hm & Hc & Hl & Hph & Hch & Htp & Htc & Hu).
  unfold ring_wf. fold (used (enqueued rb tbl k)). rewrite Hu'.
  unfold enqueued. cbn [prod cons set_prod set_ring head tail size mask capacity ring].
  rewrite zlen_blit. split_and!; try done; try lia; unfold u32; apply Z.mod_pos_bound; lia.
Qed.

(** A write that does not cross the end of the ring appends to the queue. *)
Lemma enqueued_contents rb tbl k :
  ring_wf rb -> 0 <= k <= capacity rb - used rb -> k <= zlen tbl ->
  head (prod rb) mod size rb + k <= size rb ->
  contents (enqueued rb tbl k) = contents rb ++ zslice tbl 0 k.
Proof.
  intros Hwf Hk Ht Hcross. pose proof (enqueued_used rb tbl k Hwf Hk) as Hu'.
  pose proof Hwf as (Hp & Hm & Hc & Hl & Hph & Hch & Htp & Htc & Hu). fold (used rb) in Hu.
  pose proof (pow2_size_pos _ Hp) as Hs. pose proof (used_nonneg rb) as Hun.
  set (S := size rb) in *. set (c := head (cons rb)) in *.
  assert (Hprod : head (prod rb) mod S = (c + used rb) mod S).
  { unfold used. fold c. rewrite Zplus_mod, u32_mod_size, <- Zplus_mod by done. f_equal. lia. }
  apply zget_ext.
  { rewrite zlen_app, !zlen_contents, Hu', zlen_zslice; lia. }
  rewrite zlen_contents, Hu'. intros j Hj.
  rewrite zget_contents by lia. unfold enqueued. cbn [cons set_prod set_ring ring head size].
  fold S c. pose proof (Z.mod_pos_bound (head (prod rb)) S ltac:(lia)).
  pose proof (Z.mod_pos_bound (c + j) S ltac:(lia)).
  rewrite zget_blit by lia. rewrite Hprod in *.
  destruct (decide (j < used rb)) as [Hlt|Hge].
  - rewrite zget_app_l by (rewrite zlen_contents; lia). rewrite zget_contents by lia. fold S c.
    case_match eqn:E; [|done]. zb. exfalso.
    set (t := (c + j) mod S - (c + used rb) mod S) in *.
    assert (Heq : (c + j) mod S = (c + (used rb + t)) mod S).
    { replace (c + (used rb + t)) with (c + used rb + t) by lia.
      rewrite <- (Zplus_mod_idemp_l (c + used rb)). rewrite (Z.mod_small (_ + t)); lia. }
    apply slot_inj in Heq; lia.
  - rewrite zget_app_r by (rewrite zlen_contents; lia). rewrite zlen_contents.
    rewrite zget_zslice by lia.
    assert (Heq : (c + j) mod S = (c + used rb) mod S + (j - used rb)).
    { replace (c + j) with (c + used rb + (j - used rb)) by lia.
      rewrite <- (Zplus_mod_idemp_l (c + used rb)). apply Z.mod_small. lia. }
    rewrite Heq. case_match eqn:E; [|zb; lia]. f_equal. lia.
Qed.

(** ** Dequeue *)

(** The ring after [k] words were taken. *)
Definition dequeued (rb : kt_ringbuf) (k : Z) : kt_ringbuf :=
  let h := u32 (head (cons rb) + k) in set_cons rb (mk_headtail h h).

Lemma do_dequeue_spec sp rb tbl n b :
  ring_wf rb -> 0 <= n ->
  let k := granted b n (used rb) in
  k <= zlen tbl < 2 ^ 31 -> head (cons rb) mod size rb + k <= zlen (ring rb) ->
  __kt_ringbuf_do_dequeue_elems sp rb tbl 8 n b =
    Ret (k, used rb - k, blit (Z.to_nat k) tbl 0 (ring rb) (head (cons rb) mod size rb),
         if k =? 0 then rb else dequeued rb k).
Proof.
  intros Hwf Hn k Htbl Hroom.
  pose proof Hwf as (Hp & Hm & Hc & Hl & Hph & Hch & Htp & Htc & Hu). fold (used rb) in Hu.
  pose proof (pow2_size_pos _ Hp). pose proof (used_nonneg rb).
  assert (Hk : 0 <= k <= Z.min n (used rb)) by (apply granted_bounds; lia).
  assert (Hidx : Z.land (head (cons rb)) (u32 (size rb - 1)) = head (cons rb) mod size rb).
  { rewrite u32_id by lia. by apply land_mask. }
  pose proof (Z.mod_pos_bound (head (cons rb)) (size rb) ltac:(lia)).
  unfold __kt_ringbuf_do_dequeue_elems. rewrite move_cons_head_spec by done. fold k.
  destruct (Z.eqb_spec k 0) as [E|E]; [by rewrite E, Z.sub_0_r, u32_id by lia|].
  rewrite dequeue_elems_blit; cbn [size ring set_cons].
  - cbn [bind cons set_cons tail head]. rewrite Htc, Z.eqb_refl, Hidx.
    by rewrite (u32_id (used rb - k)) by lia.
  - lia.
  - rewrite Hidx. unfold blit_ok. lia.
Qed.

Lemma dequeued_used rb k :
  ring_wf rb -> 0 <= k <= used rb -> used (dequeued rb k) = used rb - k.
Proof.
  intros Hwf Hk. pose proof Hwf as (Hp & _ & Hc & _ & Hph & Hch & _ & _ & Hu).
  fold (used rb) in Hu. pose proof (pow2_size_pos _ Hp). pose proof (used_nonneg rb).
  unfold used at 1, dequeued. cbn [prod cons set_cons head].
  unfold used, u32 in *. rewrite Zminus_mod_idemp_r.
  replace (head (prod rb) - (head (cons rb) + k)) with (head (prod rb) - head (cons rb) - k) by lia.
  rewrite <- Zminus_mod_idemp_l. apply Z.mod_small. lia.
Qed.

Lemma dequeued_wf rb k : ring_wf rb -> 0 <= k <= used rb -> ring_wf (dequeued rb k).
Proof.
  intros Hwf Hk. pose proof (dequeued_used rb k Hwf Hk) as Hu'.
  pose proof Hwf as (Hp & Hm & Hc & Hl & Hph & Hch & Htp & Htc & Hu). fold (used rb) in Hu.
  unfold ring_wf. fold (used (dequeued rb k)). rewrite Hu'.
  unfold dequeued. cbn [prod cons set_cons head tail size mask capacity ring].
  split_and!; try done; try lia; unfold u32; apply Z.mod_pos_bound; lia.
Qed.

Lemma dequeued_contents rb k :
  ring_wf rb -> 0 <= k <= used rb ->
  contents (dequeued rb k) = zslice (contents rb) k (used rb - k).
Proof.
  intros Hwf Hk. pose proof (dequeued_used rb k Hwf Hk) as Hu'.
  pose proof Hwf as (Hp & _). pose proof (pow2_size_pos _ Hp).
  apply zget_ext.
  { rewrite zlen_zslice by (rewrite ?zlen_contents; lia). rewrite zlen_contents. lia. }
  rewrite zlen_contents, Hu'. intros j Hj.
  rewrite zget_zslice by (rewrite ?zlen_contents; lia). rewrite !zget_contents by lia.
  unfold dequeued. cbn [cons set_cons ring head size]. f_equal.
  rewrite <- (Zplus_mod_idemp_l (u32 _)), u32_mod_size, Zplus_mod_idemp_l by done. f_equal. lia.
Qed.

(** The words a dequeue hands out: the positions from the head on, without
    returning to the start of the ring. *)
Lemma dequeue_table rb tbl k :
  ring_wf rb -> 0 <= k <= used rb -> k <= zlen tbl ->
  head (cons rb) mod size rb + k <= size rb ->
  blit (Z.to_nat k) tbl 0 (ring rb) (head (cons rb) mod size rb) =
    zslice (contents rb) 0 k ++ zslice tbl k (zlen tbl - k).
Proof.
  intros Hwf Hk Ht Hcross. pose proof Hwf as (Hp & _). pose proof (pow2_size_pos _ Hp).
  pose proof (zlen_contents rb). pose proof (zlen_nonneg tbl).
  apply zget_ext.
  { rewrite zlen_blit, zlen_app, !zlen_zslice; lia. }
  rewrite zlen_blit. intros j Hj. rewrite zget_blit by lia.
  destruct (decide (j < k)) as [Hlt|Hge].
  - rewrite zget_app_l by (rewrite zlen_zslice; lia). rewrite zget_zslice by lia.
    rewrite zget_contents by lia. case_match; [|zb; lia]. f_equal.
    set (c := head (cons rb)) in *. pose proof (Z.mod_pos_bound c (size rb) ltac:(lia)).
    rewrite Z.add_0_l, <- (Zplus_mod_idemp_l c), (Z.mod_small (c mod size rb + j)) by lia. lia.
  - rewrite zget_app_r, zlen_zslice by (rewrite ?zlen_zslice; lia).
    rewrite zget_zslice by lia. case_match; [zb; lia|]. f_equal. lia.
Qed.

(** ** The specification: a bounded FIFO queue *)

Definition fifo_enqueue (cap : Z) (q xs : list Z) (n : Z) : Z * list Z :=
  let k := Z.min n (cap - zlen q) in (k, q ++ zslice xs 0 k).

Definition fifo_dequeue (q : list Z) (n : Z) : Z * list Z * list Z :=
  let k := Z.min n (zlen q) in (k, zslice q 0 k, zslice q k (zlen q - k)).

(** The fields that no operation changes. *)
Definition same_ring (rb rb' : kt_ringbuf) : Prop :=
  addr rb' = addr rb /\ name rb' = name rb /\ size rb' = size rb /\ esize rb' = esize rb /\
  mask rb' = mask rb /\ capacity rb' = capacity rb /\ zlen (ring rb') = zlen (ring rb).

#[export] Instance same_ring_preorder : PreOrder same_ring.
Proof.
  split; [intros rb; by unfold same_ring|].
  intros r1 r2 r3 (? & ? & ? & ? & ? & ? & ?) (? & ? & ? & ? & ? & ? & ?).
  unfold same_ring. split_and!; congruence.
Qed.

Lemma granted_variable n avail : granted KT_RB_BEHAVIOR_VARIABLE n avail = Z.min n avail.
Proof. unfold granted. case_match; zb; lia. Qed.

Lemma enqueue_burst_spec sp rb tbl n :
  ring_wf rb -> 0 <= n ->
  let k := Z.min n (capacity rb - used rb) in
  k <= zlen tbl < 2 ^ 31 -> head (prod rb) mod size rb + k <= size rb ->
  exists rb', __kt_ringbuf_do_enqueue_elems sp rb tbl 8 n KT_RB_BEHAVIOR_VARIABLE =
      Ret (k, capacity rb - used rb - k, rb') /\
    ring_wf rb' /\ same_ring rb rb' /\ contents rb' = contents rb ++ zslice tbl 0 k.
Proof.
  intros Hwf Hn k Htbl Hcross. pose proof Hwf as (_ & _ & _ & Hl & _ & _ & _ & _ & Hu).
  fold (used rb) in Hu. pose proof (used_nonneg rb).
  rewrite do_enqueue_spec; rewrite ?granted_variable; fold k; try done; try lia.
  destruct (Z.eqb_spec k 0) as [E|E].
  - exists rb. rewrite E. split_and!; try done. unfold zslice. cbn. by rewrite app_nil_r.
  - exists (enqueued rb tbl k). split_and!; try done.
    + apply enqueued_wf; [done|lia].
    + unfold same_ring, enqueued, set_prod, set_ring. cbn [addr name size esize mask capacity ring].
      by rewrite zlen_blit.
    + apply enqueued_contents; try done; lia.
Qed.

Lemma dequeue_burst_spec sp rb tbl n :
  ring_wf rb -> 0 <= n ->
  let k := Z.min n (used rb) in
  k <= zlen tbl < 2 ^ 31 -> head (cons rb) mod size rb + k <= size rb ->
  exists rb', __kt_ringbuf_do_dequeue_elems sp rb tbl 8 n KT_RB_BEHAVIOR_VARIABLE =
      Ret (k, used rb - k, zslice (contents rb) 0 k ++ zslice tbl k (zlen tbl - k), rb') /\
    ring_wf rb' /\ same_ring rb rb' /\ contents rb' = zslice (contents rb) k (used rb - k).
Proof.
  intros Hwf Hn k Htbl Hcross. pose proof Hwf as (_ & _ & _ & Hl & _).
  pose proof (used_nonneg rb).
  rewrite do_dequeue_spec; rewrite ?granted_variable; fold k; try done; try lia.
  rewrite dequeue_table by (done || lia).
  destruct (Z.eqb_spec k 0) as [E|E].
  - exists rb. split_and!; try done. rewrite E, Z.sub_0_r. unfold zslice. change (Z.to_nat 0) with 0%nat.
    rewrite drop_0, take_ge; [done|]. pose proof (zlen_contents rb). unfold zlen in *. lia.
  - exists (dequeued rb k). split_and!; try done.
    + apply dequeued_wf; [done|lia].
    + apply dequeued_contents; [done|lia].
Qed.

(** One word never crosses the end of the ring. *)
Lemma one_slot_fits rb h : ring_wf rb -> h mod size rb + 1 <= size rb.
Proof.
  intros (Hp & _). pose proof (pow2_size_pos _ Hp).
  pose proof (Z.mod_pos_bound h (size rb) ltac:(lia)). lia.
Qed.

Lemma enqueue_one rb x :
  ring_wf rb -> used rb < capacity rb ->
  exists rb', kt_ringbuf_enqueue_burst rb [x] 8 1 = Ret (1, capacity rb - used rb - 1, rb') /\
    ring_wf rb' /\ same_ring rb rb' /\ contents rb' = contents rb ++ [x].
Proof.
  intros Hwf Hlt. pose proof (one_slot_fits rb (head (prod rb)) Hwf).
  destruct (enqueue_burst_spec 0 rb [x] 1) as (rb' & E & H1 & H2 & H3); try done; try lia.
  - change (zlen [x]) with 1. lia.
  - rewrite Z.min_l in * by lia. exists rb'. auto.
Qed.

Lemma enqueue_one_full rb x :
  ring_wf rb -> used rb = capacity rb -> kt_ringbuf_enqueue_burst rb [x] 8 1 = Ret (0, 0, rb).
Proof.
  intros Hwf Hfull. unfold kt_ringbuf_enqueue_burst, __kt_ringbuf_do_enqueue_elems.
  rewrite move_prod_head_spec by (done || lia). rewrite granted_variable, Hfull, Z.sub_diag. done.
Qed.

Lemma dequeue_one rb x q y :
  ring_wf rb -> contents rb = x :: q ->
  exists rb', kt_ringbuf_dequeue_burst rb [y] 8 1 = Ret (1, zlen q, [x], rb') /\
    ring_wf rb' /\ same_ring rb rb' /\ contents rb' = q.
Proof.
  intros Hwf Hc. pose proof (one_slot_fits rb (head (cons rb)) Hwf).
  pose proof (zlen_contents rb) as Hlen. rewrite Hc, zlen_cons in Hlen. pose proof (zlen_nonneg q).
  destruct (dequeue_burst_spec 0 rb [y] 1) as (rb' & E & H1 & H2 & H3); try done; try lia.
  - change (zlen [y]) with 1. lia.
  - rewrite Z.min_l in * by lia. rewrite Hc in *. exists rb'. split_and!; try done.
    + unfold kt_ringbuf_dequeue_burst. rewrite E. rewrite <- Hlen.
      replace (1 + zlen q - 1) with (zlen q) by lia. done.
    + rewrite H3, <- Hlen. unfold zslice, zlen. change (Z.to_nat 1) with 1%nat. cbn [drop].
      apply take_ge. lia.
Qed.

Lemma dequeue_one_empty rb tbl :
  ring_wf rb -> contents rb = [] -> forall n, 0 <= n ->
  kt_ringbuf_dequeue_burst rb tbl 8 n = Ret (0, 0, tbl, rb).
Proof.
  intros Hwf Hc n Hn. unfold kt_ringbuf_dequeue_burst, __kt_ringbuf_do_dequeue_elems.
  assert (Hu : used rb = 0) by (rewrite <- zlen_contents, Hc; done).
  rewrite move_cons_head_spec by (done || lia). rewrite granted_variable, Hu, Z.min_r by lia. done.
Qed.

(** ** Fresh rings *)

(** The ring [kt_ringbuf_create] builds at address [p]. *)
Definition fresh_ring (p : Z) (nm : string) (count esz : Z) (ws : list Z) : kt_ringbuf :=
  mk_ringbuf p (String.substring 0 (INSANE_QUEUE_NAMESIZE - 1) nm) count esz
    (u32 (count - 1)) (u32 (count - 1)) (mk_headtail 0 0) (mk_headtail 0 0) ws.

Lemma fresh_ring_wf p nm count esz ws :
  pow2_size count -> count <= zlen ws < 2 ^ 31 ->
  ring_wf (fresh_ring p nm count esz ws) /\ contents (fresh_ring p nm count esz ws) = [] /\
  capacity (fresh_ring p nm count esz ws) = count - 1.
Proof.
  intros Hp Hl. pose proof (pow2_size_pos _ Hp).
  unfold ring_wf, fresh_ring. cbn [size mask capacity ring prod cons head tail].
  rewrite u32_id by lia. split_and!; try done; try lia. change (u32 (0 - 0)) with 0. lia.
Qed.

(** A ring of [n] words holding [q], for the witnesses. *)
Definition ring_demo : kt_ringbuf :=
  mk_ringbuf 0 "demo" 8 8 7 7 (mk_headtail 3 3) (mk_headtail 4294967294 4294967294)
    [3; 4; 5; 0; 0; 0; 1; 2; 0; 0].

Lemma ring_demo_wf : ring_wf ring_demo.
Proof.
  unfold ring_wf, pow2_size, ring_demo. cbn [size mask capacity ring prod cons head tail].
  split; [exists 3; lia|]. zcompute.
Qed.

(** ** Properties *)

(** The unrolled copy loop together with its fall-through [switch] is the
    plain word-by-word copy, for every count and every pair of positions in
    range. *)
Theorem unrolled_copy_is_blit n dst src di si :
  0 <= n -> blit_ok n dst di src si ->
  (s <- copy_loop4 (S (Z.to_nat n)) (round4 n) dst src di si 0;;
   copy_switch (Z.land n 3) s src) = Ret (blit (Z.to_nat n) dst di src si, di + n, si + n).
Proof. apply unrolled_blit. Qed.

Lemma unrolled_copy_is_blit_witness :
  (s <- copy_loop4 8 (round4 7) (replicate 10 0) [1; 2; 3; 4; 5; 6; 7; 8] 2 1 0;;
   copy_switch (Z.land 7 3) s [1; 2; 3; 4; 5; 6; 7; 8]) =
  Ret ([0; 0; 2; 3; 4; 5; 6; 7; 8; 0], 9, 8).
Proof.
  apply (unrolled_copy_is_blit 7 (replicate 10 0) [1; 2; 3; 4; 5; 6; 7; 8] 2 1); [lia|].
  unfold blit_ok. zcompute.
Defined.

(** C9: [kt_ringbuf_enqueue_burst] refines the enqueue of a bounded FIFO queue
    whenever the words written do not cross the end of the ring: it returns the
    number of words the queue accepts, appends exactly these, reports the space
    left and keeps the ring well formed.  Spurious failures of the
    compare-and-exchange make no difference. *)
Theorem enqueue_burst_refines rb tbl n :
  ring_wf rb -> 0 <= n -> n <= zlen tbl < 2 ^ 31 ->
  let '(k, q') := fifo_enqueue (capacity rb) (contents rb) tbl n in
  head (prod rb) mod size rb + k <= size rb ->
  exists rb', kt_ringbuf_enqueue_burst rb tbl 8 n = Ret (k, capacity rb - zlen q', rb') /\
    ring_wf rb' /\ same_ring rb rb' /\ contents rb' = q' /\
    forall sp, __kt_ringbuf_do_enqueue_elems sp rb tbl 8 n KT_RB_BEHAVIOR_VARIABLE =
               kt_ringbuf_enqueue_burst rb tbl 8 n.
Proof.
  intros Hwf Hn Ht. unfold fifo_enqueue. rewrite zlen_contents. intros Hcross.
  pose proof Hwf as (_ & _ & _ & _ & _ & _ & _ & _ & Hu). fold (used rb) in Hu.
  destruct (enqueue_burst_spec 0 rb tbl n) as (rb' & E & H1 & H2 & H3); try done; try lia.
  exists rb'. split_and!; try done.
  - unfold kt_ringbuf_enqueue_burst. rewrite E, zlen_app, zlen_contents, zlen_zslice by lia.
    do 3 f_equal. lia.
  - intros sp. unfold kt_ringbuf_enqueue_burst. pose proof Hwf as (_ & _ & _ & Hl & _).
    rewrite !do_enqueue_spec; rewrite ?granted_variable; try done; lia.
Qed.

Lemma enqueue_burst_refines_witness :
  exists rb', kt_ringbuf_enqueue_burst ring_demo [10; 11; 12; 13] 8 4 = Ret (2, 0, rb') /\
    contents rb' = [1; 2; 3; 4; 5; 10; 11].
Proof.
  destruct (enqueue_burst_refines ring_demo [10; 11; 12; 13] 4) as (rb' & E & _ & _ & H & _);
    [apply ring_demo_wf|lia|zcompute|zcompute|].
  exists rb'. split; [exact E|exact H].
Defined.

(** C10: [kt_ringbuf_dequeue_burst] refines the dequeue of a FIFO queue whenever
    the words read do not cross the end of the ring: it returns how many words
    it took, writes exactly the oldest ones to the start of the table, reports
    how many remain, and removes exactly these. *)
Theorem dequeue_burst_refines rb tbl n :
  ring_wf rb -> 0 <= n -> n <= zlen tbl < 2 ^ 31 ->
  let '(k, out, q') := fifo_dequeue (contents rb) n in
  head (cons rb) mod size rb + k <= size rb ->
  exists rb', kt_ringbuf_dequeue_burst rb tbl 8 n =
      Ret (k, zlen q', out ++ zslice tbl k (zlen tbl - k), rb') /\
    ring_wf rb' /\ same_ring rb rb' /\ contents rb' = q' /\
    forall sp, __kt_ringbuf_do_dequeue_elems sp rb tbl 8 n KT_RB_BEHAVIOR_VARIABLE =
               kt_ringbuf_dequeue_burst rb tbl 8 n.
Proof.
  intros Hwf Hn Ht. unfold fifo_dequeue. rewrite zlen_contents. intros Hcross.
  pose proof (used_nonneg rb).
  destruct (dequeue_burst_spec 0 rb tbl n) as (rb' & E & H1 & H2 & H3); try done; try lia.
  exists rb'. split_and!; try done.
  - unfold kt_ringbuf_dequeue_burst. rewrite E, zlen_zslice by (rewrite ?zlen_contents; lia). done.
  - intros sp. unfold kt_ringbuf_dequeue_burst. pose proof Hwf as (_ & _ & _ & Hl & _).
    rewrite !do_dequeue_spec; rewrite ?granted_variable; try done; lia.
Qed.

Lemma dequeue_burst_refines_witness :
  exists rb', kt_ringbuf_dequeue_burst ring_demo [0; 0; 0] 8 2 = Ret (2, 3, [1; 2; 0], rb') /\
    contents rb' = [3; 4; 5].
Proof.
  destruct (dequeue_burst_refines ring_demo [0; 0; 0] 2) as (rb' & E & _ & _ & H & _);
    [apply ring_demo_wf|lia|zcompute|zcompute|].
  exists rb'. split; [exact E|exact H].
Defined.

(** Single words always go through the ring in order: enqueueing one word
    succeeds unless the ring is full (and then changes nothing), dequeueing one
    returns the oldest word unless the ring is empty (and then changes
    nothing).  There is no condition on the position in the ring, and the
    32-bit counters may wrap. *)
Theorem single_word_fifo rb x y :
  ring_wf rb ->
  (if used rb =? capacity rb then kt_ringbuf_enqueue_burst rb [x] 8 1 = Ret (0, 0, rb)
   else exists rb', kt_ringbuf_enqueue_burst rb [x] 8 1 = Ret (1, capacity rb - used rb - 1, rb') /\
          ring_wf rb' /\ same_ring rb rb' /\ contents rb' = contents rb ++ [x]) /\
  match contents rb with
  | [] => kt_ringbuf_dequeue_burst rb [y] 8 1 = Ret (0, 0, [y], rb)
  | z :: q => exists rb', kt_ringbuf_dequeue_burst rb [y] 8 1 = Ret (1, zlen q, [z], rb') /\
                ring_wf rb' /\ same_ring rb rb' /\ contents rb' = q
  end.
Proof.
  intros Hwf. pose proof Hwf as (_ & _ & _ & _ & _ & _ & _ & _ & Hu). fold (used rb) in Hu. split.
  - destruct (Z.eqb_spec (used rb) (capacity rb)); [by apply enqueue_one_full|].
    apply enqueue_one; [done|lia].
  - destruct (contents rb) as [|z q] eqn:E; [by apply dequeue_one_empty|by apply dequeue_one].
Qed.

Lemma single_word_fifo_witness :
  exists rb', kt_ringbuf_dequeue_burst ring_demo [0] 8 1 = Ret (1, 4, [1], rb') /\
    contents rb' = [2; 3; 4; 5].
Proof.
  destruct (single_word_fifo ring_demo 6 0 ring_demo_wf) as [_ H].
  destruct H as (rb' & E & _ & _ & H). exists rb'. split; [exact E|exact H].
Defined.

(** What a burst dequeue really reads.  The word it puts at position [j] of
    the table is the [j]-th oldest word of the queue only as long as the
    position is before the end of the ring; from there on it is whatever lies
    in memory behind the ring, although the queue's own words are removed. *)
Theorem dequeue_burst_reads_past_end rb tbl n :
  ring_wf rb -> 0 <= n -> n <= zlen tbl < 2 ^ 31 ->
  let k := Z.min n (used rb) in
  let idx := head (cons rb) mod size rb in
  idx + k <= zlen (ring rb) ->
  exists tbl' rb', kt_ringbuf_dequeue_burst rb tbl 8 n = Ret (k, used rb - k, tbl', rb') /\
    ring_wf rb' /\ contents rb' = zslice (contents rb) k (used rb - k) /\
    forall j, 0 <= j < k ->
      zget tbl' j = if idx + j <? size rb then zget (contents rb) j else zget (ring rb) (idx + j).
Proof.
  intros Hwf Hn Ht k idx Hroom. pose proof (used_nonneg rb). pose proof Hwf as (Hp & _).
  pose proof (pow2_size_pos _ Hp).
  exists (blit (Z.to_nat k) tbl 0 (ring rb) idx), (if k =? 0 then rb else dequeued rb k).
  split_and!.
  - unfold kt_ringbuf_dequeue_burst.
    rewrite do_dequeue_spec; rewrite ?granted_variable; try done; lia.
  - case_match; [done|]. apply dequeued_wf; [done|lia].
  - destruct (Z.eqb_spec k 0) as [E|E]; [|apply dequeued_contents; [done|lia]].
    rewrite E, Z.sub_0_r. unfold zslice. change (Z.to_nat 0) with 0%nat.
    rewrite drop_0, take_ge; [done|]. pose proof (zlen_contents rb). unfold zlen in *. lia.
  - intros j Hj. rewrite zget_blit by lia. case_match eqn:E; [|zb; lia]. rewrite Z.sub_0_r.
    destruct (Z.ltb_spec (idx + j) (size rb)); [|done]. rewrite zget_contents by lia.
    f_equal. unfold idx in *. set (c := head (cons rb)) in *.
    pose proof (Z.mod_pos_bound c (size rb) ltac:(lia)).
    rewrite <- (Zplus_mod_idemp_l c), (Z.mod_small (c mod size rb + j)) by lia. done.
Qed.

Lemma dequeue_burst_reads_past_end_witness :
  contents ring_demo = [1; 2; 3; 4; 5] /\
  exists tbl' rb', kt_ringbuf_dequeue_burst ring_demo (replicate 8 9) 8 4 = Ret (4, 1, tbl', rb') /\
    zget tbl' 1 = 2 /\ zget tbl' 2 = 0 /\ zget tbl' 3 = 0.
Proof.
  split; [vm_compute; reflexivity|].
  destruct (dequeue_burst_reads_past_end ring_demo (replicate 8 9) 4)
    as (tbl' & rb' & E & _ & _ & H); [apply ring_demo_wf|lia|zcompute|zcompute|].
  exists tbl', rb'. split; [exact E|].
  split; [|split].
  - apply (H 1). zcompute.
  - apply (H 2). zcompute.
  - apply (H 3). zcompute.
Defined.

(** [kt_ringbuf_count] is the length of the queue, never above the
    capacity. *)
Theorem count_correct rb :
  ring_wf rb -> kt_ringbuf_count rb = zlen (contents rb) /\
    zlen (contents rb) <= kt_ringbuf_get_capacity rb.
Proof.
  intros (Hp & Hm & Hc & _ & _ & _ & Htp & Htc & Hu). fold (used rb) in Hu.
  pose proof (pow2_size_pos _ Hp). pose proof (used_nonneg rb). rewrite zlen_contents.
  split; [|done]. unfold kt_ringbuf_count. rewrite Htp, Htc. fold (used rb).
  rewrite Hm, land_mask by done. rewrite Z.mod_small by lia. case_match; zb; lia.
Qed.

Lemma count_correct_witness : kt_ringbuf_count ring_demo = 5.
Proof. apply (count_correct ring_demo ring_demo_wf). Defined.

(** An element size other than 8 bytes is never handled: as soon as there is
    something to copy, both directions run into their failing [assert], having
    moved the head. *)
Theorem other_element_sizes_abort rb tbl esz n :
  ring_wf rb -> 0 < n -> esz <> 8 ->
  (used rb < capacity rb -> kt_ringbuf_enqueue_burst rb tbl esz n = Abort) /\
  (0 < used rb -> kt_ringbuf_dequeue_burst rb tbl esz n = Abort).
Proof.
  intros Hwf Hn He. split; intros Hroom.
  - unfold kt_ringbuf_enqueue_burst, __kt_ringbuf_do_enqueue_elems.
    rewrite move_prod_head_spec, granted_variable by (done || lia).
    rewrite !(proj2 (Z.eqb_neq (Z.min _ _) _)) by lia.
    unfold __kt_ringbuf_enqueue_elems. by rewrite (proj2 (Z.eqb_neq _ _) He).
  - unfold kt_ringbuf_dequeue_burst, __kt_ringbuf_do_dequeue_elems.
    rewrite move_cons_head_spec, granted_variable by (done || lia).
    rewrite !(proj2 (Z.eqb_neq (Z.min _ _) _)) by lia.
    unfold __kt_ringbuf_dequeue_elems. by rewrite (proj2 (Z.eqb_neq _ _) He).
Qed.

Lemma other_element_sizes_abort_witness :
  kt_ringbuf_dequeue_burst ring_demo [0] 4 1 = Abort.
Proof.
  apply (other_element_sizes_abort ring_demo [0] 4 1 ring_demo_wf); [lia|lia|reflexivity].
Defined.

Section CreateProps.
Context {St : Type} `{Hlaws : AllocLaws St}.

(** [kt_ringbuf_create] with a power-of-two count, over any lawful
    allocator, returns; when the allocator has room the ring is well formed
    and empty, holds [count - 1] words, and its header and [count * esize]
    bytes lie in a block disjoint from all blocks in use. *)
Theorem create_correct (words : Z -> list Z) (al : St) nm count esz :
  al_inv al -> pow2_size count -> 0 <= esz -> sizeof_kt_ringbuf + count * esz < 2 ^ 32 ->
  (forall p, count <= zlen (words p) < 2 ^ 31) ->
  exists al' r, kt_ringbuf_create words al nm count esz = Ret (al', r) /\ al_inv al' /\
    match r with
    | None => al' = al
    | Some rb =>
        ring_wf rb /\ contents rb = [] /\ kt_ringbuf_get_capacity rb = count - 1 /\
        size rb = count /\ esize rb = esz /\
        exists n, sizeof_kt_ringbuf + count * esz <= n /\ al_live al' (addr rb) n /\
          forall p' n', al_live al p' n' ->
            al_live al' p' n' /\ (p' + n' <= addr rb \/ addr rb + n <= p')
    end.
Proof.
  intros Hinv Hp He Hmax Hw. pose proof (pow2_size_pos _ Hp). unfold kt_ringbuf_create.
  assert (0 <= count * esz) by nia. unfold sizeof_kt_ringbuf in *.
  rewrite (u32_id (count * esz)), (u32_id (128 + _)) by lia.
  destruct (al_alloc_total al (128 + count * esz) Hinv ltac:(lia)) as (al' & r & E & Hi' & Hnone).
  rewrite E. cbn [bind]. destruct r as [p|].
  - exists al', (Some (fresh_ring p nm count esz (words p))).
    split; [done|]. split; [done|].
    destruct (fresh_ring_wf p nm count esz (words p) Hp (Hw p)) as (F1 & F2 & F3).
    split; [exact F1|]. split; [exact F2|]. split; [exact F3|]. split; [done|]. split; [done|].
    apply (al_alloc_fresh al (128 + count * esz) al' p); [done|lia|done].
  - exists al', None. auto.
Qed.
End CreateProps.

(** A lawful allocator for the witness: the state is the next free address. *)
#[local] Instance bump_ops : AllocOps Z :=
  {| al_alloc := fun s sz => Ret (s + sz, Some s); al_free := fun s _ => Ret s |}.
#[local] Instance bump_laws : AllocLaws Z.
Proof.
  refine {| al_inv := fun _ => True; al_live := fun s p n => p + n <= s |}.
  - intros s sz _ _. exists (s + sz), (Some s). done.
  - intros s sz s' p _ Hs E. cbn in E. injection E as <- <-. exists sz.
    split; [lia|]. split; [lia|]. intros p' n' Hl. lia.
Defined.

Lemma create_correct_witness :
  exists al' r, kt_ringbuf_create (fun _ => replicate 128 0) 4096 "RB_tx" 128 1 = Ret (al', r) /\
    al_inv al' /\
    match r with None => True | Some rb => ring_wf rb /\ contents rb = [] end.
Proof.
  destruct (create_correct (fun _ => replicate 128 0) 4096 "RB_tx" 128 1) as (al' & r & E & Hi & H).
  - exact I.
  - exists 7. zcompute.
  - lia.
  - zcompute.
  - intros p. zcompute.
  - exists al', r. split; [exact E|]. split; [exact Hi|].
    destruct r as [rb|]; [|exact I]. destruct H as (H1 & H2 & _). auto.
Defined.

(** The ring of [ktsnd_socket.c] after [RB_free] was filled: 100 entries, which
    is not a power of two, so that the mask is 99. *)
Fixpoint enqueue_each (rb : kt_ringbuf) (l : list Z) : res kt_ringbuf :=
  match l with
  | [] => Ret rb
  | x :: l => r <- kt_ringbuf_enqueue_burst rb [x] 8 1;; enqueue_each r.2 l
  end.

(** The words single dequeues hand out, one after the other. *)
Fixpoint dequeue_each (rb : kt_ringbuf) (n : nat) : res (list Z) :=
  match n with
  | O => Ret []
  | S n =>
      let* (k, _, tbl, rb) := kt_ringbuf_dequeue_burst rb [0] 8 1 in
      rest <- dequeue_each rb n;;
      Ret (zslice tbl 0 k ++ rest)
  end.

(** The memory of that ring, and what comes out of it. *)
Definition hundred_words : list Z := Eval vm_compute in
  match enqueue_each (fresh_ring 0 "" 100 1 (replicate 496 0)) (Z.of_nat <$> seq 0 99) with
  | Ret rb => ring rb
  | _ => []
  end.
Definition hundred_out : list Z := Eval vm_compute in
  match rb <- enqueue_each (fresh_ring 0 "" 100 1 (replicate 496 0)) (Z.of_nat <$> seq 0 99);;
        dequeue_each rb 99 with
  | Ret l => l
  | _ => []
  end.

(** With 100 slots, as [ktsnd_socket] creates its rings, the ring is not a
    queue.  All 99 distinct indices that fit are accepted and counted, but the
    99 words that come out again are only 15 different ones, and the index
    enqueued first never comes out. *)
Theorem hundred_slots_lose_entries p nm :
  exists rb l,
    enqueue_each (fresh_ring p nm 100 1 (replicate 496 0)) (Z.of_nat <$> seq 0 99) = Ret rb /\
    kt_ringbuf_count rb = 99 /\ dequeue_each rb 99 = Ret l /\
    length l = 99%nat /\ length (remove_dups l) = 15%nat /\ ~ In 0 l.
Proof.
  exists (mk_ringbuf p (String.substring 0 (INSANE_QUEUE_NAMESIZE - 1) nm) 100 1 99 99
    (mk_headtail 99 99) (mk_headtail 0 0) hundred_words), hundred_out.
  split; [vm_compute; reflexivity|]. split; [vm_compute; reflexivity|].
  split; [vm_compute; reflexivity|]. split; [vm_compute; reflexivity|].
  split; [vm_compute; reflexivity|].
  assert (E : forallb (fun x => negb (x =? 0)) hundred_out = true) by (vm_compute; reflexivity).
  intros Hin. rewrite forallb_forall in E. discriminate (E 0 Hin).
Qed.
