(* ===== verification/RingConc.v ===== *)
(** * The ring buffers under concurrency (src/src/kt_ringbuf.c)

    Every application process and the daemon work on the same rings at the same
    time.  Here each thread runs [__kt_ringbuf_do_enqueue_elems] or
    [__kt_ringbuf_do_dequeue_elems] one shared access at a time, in any
    interleaving: the loads of head and tail, the weak compare-and-exchange
    (which may fail spuriously), each word of the copy, the spin on the tail and
    its store.  The accesses interleave sequentially consistently.

    The machine is shown to implement a bounded queue with reservations, as long
    as no more than [2 ^ 32 - 1] words are reserved on either side in the run
    considered (a thread that sleeps while the 32-bit head goes once around would
    not notice that it moved). *)

From stdpp Require Export functions.
From S2P Require Import Prelude RingBuf.

(** ** Threads *)

Inductive role := Producer | Consumer.

#[global] Instance role_eq_dec : EqDecision role.
Proof. solve_decision. Defined.

(** Where a thread is.  [Idle] is before any call, [Done] after a return.  The
    registers are the locals of the code: [old_head] is [prod_head] or
    [cons_head], [n] the entries granted, [avail] is [free_entries] or
    [entries], and [i] the index of the next word to copy. *)
Inductive program_counter :=
  | Idle
  | LoadHead
  | LoadTail (old_head : Z)
  | Cas (old_head n avail : Z)
  | Copy (old_head n avail i : Z)
  | SpinTail (old_head n avail : Z)
  | StoreTail (old_head n avail : Z)
  | Done (old_head n space : Z).

(** The arguments of a call: [obj_table], [esize], [n] and [behavior]. *)
Record job := mk_job {
  j_role : role;
  j_table : list Z;
  j_esize : Z;
  j_max : Z;
  j_behavior : kt_ringbuf_behavior
}.

(** A thread in a call: the table of a consumer is filled while it runs. *)
Record thread := mk_thread { t_job : job; t_table : list Z; t_pc : program_counter }.

Definition t_role (t : thread) : role := j_role (t_job t).
Definition t_max (t : thread) : Z := j_max (t_job t).

Definition goto (t : thread) (p : program_counter) : thread := mk_thread (t_job t) (t_table t) p.

(** The side of the ring a role works on. *)
Definition own (r : role) (rb : kt_ringbuf) : kt_headtail :=
  match r with Producer => prod rb | Consumer => cons rb end.

Definition set_own (r : role) (rb : kt_ringbuf) (x : kt_headtail) : kt_ringbuf :=
  match r with Producer => set_prod rb x | Consumer => set_cons rb x end.

(** [*free_entries] and [*entries], from the tail of the other side. *)
Definition available (r : role) (rb : kt_ringbuf) (old_head : Z) : Z :=
  match r with
  | Producer => u32 (capacity rb - u32 (old_head - tail (cons rb)))
  | Consumer => u32 (tail (prod rb) - old_head)
  end.

(** What a step shows to the outside: a side was found too short for the call,
    a reservation of [n] entries succeeded, a reservation was completed, with
    the words it is about. *)
Inductive label :=
  | Tau
  | Refuse (r : role) (need : Z)
  | Reserve (r : role) (n : Z)
  | Commit (r : role) (words : list Z).

(** The least number of entries with which the call does not return 0. *)
Definition need (j : job) : Z :=
  match j_behavior j with
  | KT_RB_BEHAVIOR_FIXED => j_max j
  | KT_RB_BEHAVIOR_VARIABLE => Z.min 1 (j_max j)
  end.

(** One word of [__kt_ringbuf_enqueue_elems] or [__kt_ringbuf_dequeue_elems].
    Neither loop ever goes back to the start of the ring: its first loop runs
    until all words are copied. *)
Definition copy_word (rb : kt_ringbuf) (t : thread) (old_head i : Z) : res (kt_ringbuf * list Z) :=
  match t_role t with
  | Producer =>
      x <- znth (t_table t) i;;
      l <- zset (ring rb) (u32 (Z.land old_head (mask rb) + i)) x;;
      Ret (set_ring rb l, t_table t)
  | Consumer =>
      x <- znth (ring rb) (u32 (Z.land old_head (u32 (size rb - 1)) + i));;
      l <- zset (t_table t) i x;;
      Ret (rb, l)
  end.

(** One access of a thread.  [spurious] makes a compare-and-exchange fail that
    could have succeeded. *)
Definition thread_step (spurious : bool) (rb : kt_ringbuf) (t : thread)
    : res (kt_ringbuf * thread * label) :=
  let r := t_role t in
  match t_pc t with
  | Idle | Done _ _ _ => Ret (rb, t, Tau)
  | LoadHead => Ret (rb, goto t (LoadTail (head (own r rb))), Tau)
  | LoadTail old_head =>
      let avail := available r rb old_head in
      let n := granted (j_behavior (t_job t)) (t_max t) avail in
      if n =? 0 then Ret (rb, goto t (Done old_head 0 avail), Refuse r (need (t_job t)))
      else Ret (rb, goto t (Cas old_head n avail), Tau)
  | Cas old_head n avail =>
      if (head (own r rb) =? old_head) && negb spurious then
        Ret (set_own r rb (mk_headtail (u32 (old_head + n)) (tail (own r rb))),
             goto t (Copy old_head n avail 0), Reserve r n)
      else Ret (rb, goto t (LoadTail (head (own r rb))), Tau)
  | Copy old_head n avail i =>
      if j_esize (t_job t) =? 8 then
        if i <? n then
          let* (rb, l) := copy_word rb t old_head i in
          Ret (rb, mk_thread (t_job t) l (Copy old_head n avail (u32 (i + 1))), Tau)
        else Ret (rb, goto t (SpinTail old_head n avail), Tau)
      else Abort
  | SpinTail old_head n avail =>
      if tail (own r rb) =? old_head then Ret (rb, goto t (StoreTail old_head n avail), Tau)
      else Ret (rb, t, Tau)
  | StoreTail old_head n avail =>
      Ret (set_own r rb (mk_headtail (head (own r rb)) (u32 (old_head + n))),
           goto t (Done old_head n (u32 (avail - n))), Commit r (zslice (t_table t) 0 n))
  end.

(** ** The machine *)

Record machine := mk_machine { shared : kt_ringbuf; threads : list thread }.

(** [Call] starts a call in a thread that has none running, [Run] lets a thread
    do its next access. *)
Inductive event :=
  | Call (tid : nat) (j : job)
  | Run (tid : nat) (spurious : bool).

Definition resting (t : thread) : bool :=
  match t_pc t with Idle | Done _ _ _ => true | _ => false end.

Definition start (j : job) : thread := mk_thread j (j_table j) LoadHead.

Definition machine_step (m : machine) (e : event) : res (machine * (nat * label)) :=
  match e with
  | Call tid j =>
      match threads m !! tid with
      | Some t => if resting t then Ret (mk_machine (shared m) (<[tid := start j]> (threads m)), (tid, Tau))
                  else Ret (m, (tid, Tau))
      | None => Ret (m, (tid, Tau))
      end
  | Run tid spurious =>
      match threads m !! tid with
      | Some t =>
          let* (rb, t, l) := thread_step spurious (shared m) t in
          Ret (mk_machine rb (<[tid := t]> (threads m)), (tid, l))
      | None => Ret (m, (tid, Tau))
      end
  end.

(** A schedule, with the labels of its steps in order. *)
Fixpoint machine_run (m : machine) (es : list event) : res (machine * list (nat * label)) :=
  match es with
  | [] => Ret (m, [])
  | e :: es =>
      let* (m, l) := machine_step m e in
      let* (m, ls) := machine_run m es in
      Ret (m, l :: ls)
  end.

(** ** The specification: a queue with reservations

    [claimed] entries were promised to producers that have not delivered yet,
    [unreleased] words were handed to consumers that have not given their slots
    back.  [given tid] is what the last successful dequeue of [tid] handed out,
    [handed] is everything that was handed out, in order. *)
Record fifo := mk_fifo {
  queue : list Z;
  claimed : Z;
  unreleased : Z;
  given : nat -> list Z;
  handed : list Z
}.

Definition occupied (f : fifo) : Z := zlen (queue f) + claimed f + unreleased f.

Inductive fifo_step (cap : Z) (f : fifo) : nat -> label -> fifo -> Prop :=
  | fifo_tau tid : fifo_step cap f tid Tau f
  | fifo_full tid k :
      k <= 0 \/ cap < occupied f + k -> fifo_step cap f tid (Refuse Producer k) f
  | fifo_empty tid k :
      k <= 0 \/ zlen (queue f) < k -> fifo_step cap f tid (Refuse Consumer k) f
  | fifo_claim tid n :
      1 <= n -> occupied f + n <= cap ->
      fifo_step cap f tid (Reserve Producer n)
        (mk_fifo (queue f) (claimed f + n) (unreleased f) (given f) (handed f))
  | fifo_publish tid ws :
      zlen ws <= claimed f ->
      fifo_step cap f tid (Commit Producer ws)
        (mk_fifo (queue f ++ ws) (claimed f - zlen ws) (unreleased f) (given f) (handed f))
  | fifo_take tid n :
      1 <= n <= zlen (queue f) ->
      fifo_step cap f tid (Reserve Consumer n)
        (mk_fifo (zslice (queue f) n (zlen (queue f) - n)) (claimed f) (unreleased f + n)
                 (<[tid := zslice (queue f) 0 n]> (given f)) (handed f ++ zslice (queue f) 0 n))
  | fifo_release tid ws :
      zlen ws <= unreleased f ->
      fifo_step cap f tid (Commit Consumer ws)
        (mk_fifo (queue f) (claimed f) (unreleased f - zlen ws) (given f) (handed f)).

Inductive fifo_run (cap : Z) : fifo -> list (nat * label) -> fifo -> Prop :=
  | fifo_run_nil f : fifo_run cap f [] f
  | fifo_run_cons f tid l f' ls f'' :
      fifo_step cap f tid l f' -> fifo_run cap f' ls f'' ->
      fifo_run cap f ((tid, l) :: ls) f''.

(** The words producers delivered in a run. *)
Fixpoint published (ls : list (nat * label)) : list Z :=
  match ls with
  | [] => []
  | (_, Commit Producer ws) :: ls => ws ++ published ls
  | _ :: ls => published ls
  end.

(** The words reserved by one side in a run. *)
Fixpoint reserved (r : role) (ls : list (nat * label)) : Z :=
  match ls with
  | [] => 0
  | (_, Reserve r' n) :: ls => (if decide (r = r') then n else 0) + reserved r ls
  | _ :: ls => reserved r ls
  end.

(** ** The invariant

    The counters of the ring are the low 32 bits of counters that never wrap:
    [g_h r] and [g_t r] are head and tail of a side, [g_pos tid] the position a
    thread reserved from. *)
Record ghost := mk_ghost { g_h : role -> Z; g_t : role -> Z; g_pos : nat -> Z }.

(** How far the head of a side may go. *)
Definition limit (cap : Z) (g : ghost) (r : role) : Z :=
  match r with Producer => g_t g Consumer + cap | Consumer => g_t g Producer end.

(** The entries a thread holds: old head, number, words already copied. *)
Definition holds (t : thread) : option (Z * Z * Z) :=
  match t_pc t with
  | Copy old_head n _ i => Some (old_head, n, i)
  | SpinTail old_head n _ | StoreTail old_head n _ => Some (old_head, n, n)
  | _ => None
  end.

(** The same without the progress of the copy. *)
Definition claim (t : thread) : option (role * Z) :=
  match holds t with Some (_, n, _) => Some (t_role t, n) | None => None end.

(** Calls the machine is run with: elements of 8 bytes, a table large enough,
    one word at a time for producers; consumers may ask for more, if the words
    behind the ring that they may read exist. *)
Definition job_ok (rb : kt_ringbuf) (j : job) : Prop :=
  j_esize j = 8 /\ 0 <= j_max j <= zlen (j_table j) /\ zlen (j_table j) < 2 ^ 31 /\
  match j_role j with
  | Producer => j_max j <= 1
  | Consumer => size rb + j_max j - 1 <= zlen (ring rb)
  end.

Definition event_ok (rb : kt_ringbuf) (e : event) : Prop :=
  match e with Call _ j => job_ok rb j | Run _ _ => True end.

Section Invariant.
(** [lo r] is where the head of a side was at the start of the run. *)
Variable lo : role -> Z.

(** A head that was loaded at some time of the run. *)
Definition loaded (g : ghost) (r : role) (old_head v : Z) : Prop :=
  old_head = u32 v /\ lo r <= v <= g_h g r.

(** The words of a reservation: those a producer has written are in the ring;
    those handed to a consumer are in the ring and, as far as they were read
    before the end of the ring, in its table. *)
Definition held_words (rb : kt_ringbuf) (f : fifo) (tid : nat) (t : thread) (v n i : Z) : Prop :=
  match t_role t with
  | Producer => forall j, 0 <= j < i -> zget (ring rb) ((v + j) mod size rb) = zget (t_table t) j
  | Consumer =>
      zlen (given f tid) = n /\
      (forall j, 0 <= j < n -> zget (ring rb) ((v + j) mod size rb) = zget (given f tid) j) /\
      (forall j, 0 <= j < i -> v mod size rb + j < size rb ->
         zget (t_table t) j = zget (given f tid) j)
  end.

Definition held_ok (rb : kt_ringbuf) (g : ghost) (f : fifo) (tid : nat) (t : thread)
    (old_head n i : Z) : Prop :=
  old_head = u32 (g_pos g tid) /\ 1 <= n <= t_max t /\ 0 <= i <= n /\
  g_t g (t_role t) <= g_pos g tid /\ g_pos g tid + n <= g_h g (t_role t) /\
  held_words rb f tid t (g_pos g tid) n i.

Definition thread_ok (rb : kt_ringbuf) (g : ghost) (f : fifo) (tid : nat) (t : thread) : Prop :=
  job_ok rb (t_job t) /\ zlen (t_table t) = zlen (j_table (t_job t)) /\
  match t_pc t with
  | Idle | LoadHead => True
  | LoadTail old_head => exists v, loaded g (t_role t) old_head v
  | Cas old_head n _ =>
      1 <= n <= t_max t /\
      exists v, loaded g (t_role t) old_head v /\
        (v = g_h g (t_role t) -> v + n <= limit (capacity rb) g (t_role t))
  | Copy old_head n _ i => held_ok rb g f tid t old_head n i
  | SpinTail old_head n _ => held_ok rb g f tid t old_head n n
  | StoreTail old_head n _ => held_ok rb g f tid t old_head n n /\ g_pos g tid = g_t g (t_role t)
  | Done old_head n _ =>
      n = 0 \/ t_role t = Producer \/
      zlen (given f tid) = n /\
      forall j, 0 <= j < n -> old_head mod size rb + j < size rb ->
        zget (t_table t) j = zget (given f tid) j
  end.

Record machine_inv (m : machine) (g : ghost) (f : fifo) : Prop := mk_inv {
  inv_size : pow2_size (size (shared m));
  inv_mask : mask (shared m) = size (shared m) - 1;
  inv_cap : capacity (shared m) = size (shared m) - 1;
  inv_ring : size (shared m) <= zlen (ring (shared m)) < 2 ^ 31;
  inv_head : forall r, head (own r (shared m)) = u32 (g_h g r);
  inv_tail : forall r, tail (own r (shared m)) = u32 (g_t g r);
  inv_order : forall r, g_t g r <= g_h g r <= limit (capacity (shared m)) g r;
  inv_lo : forall r, lo r <= g_h g r;
  inv_threads : forall tid t, threads m !! tid = Some t -> thread_ok (shared m) g f tid t;
  (** no two threads of a side hold the same entry *)
  inv_disjoint : forall i j ti tj r ni nj,
    i <> j -> threads m !! i = Some ti -> threads m !! j = Some tj ->
    claim ti = Some (r, ni) -> claim tj = Some (r, nj) ->
    g_pos g i + ni <= g_pos g j \/ g_pos g j + nj <= g_pos g i;
  (** every reserved entry is held by a thread *)
  inv_cover : forall r p, g_t g r <= p < g_h g r ->
    exists tid t n, threads m !! tid = Some t /\ claim t = Some (r, n) /\
      g_pos g tid <= p < g_pos g tid + n;
  inv_claimed : claimed f = g_h g Producer - g_t g Producer;
  inv_unreleased : unreleased f = g_h g Consumer - g_t g Consumer;
  inv_queue : zlen (queue f) = g_t g Producer - g_h g Consumer;
  inv_words : forall j, 0 <= j < zlen (queue f) ->
    zget (ring (shared m)) ((g_h g Consumer + j) mod size (shared m)) = zget (queue f) j
}.

Lemma u32_inj v w : u32 v = u32 w -> - 2 ^ 32 < v - w < 2 ^ 32 -> v = w.
Proof. unfold u32. intros. dlia. Qed.

Lemma u32_range x : 0 <= u32 x < 2 ^ 32.
Proof. unfold u32. apply Z.mod_pos_bound. lia. Qed.

Lemma u32_add v n : u32 (u32 v + n) = u32 (v + n).
Proof. unfold u32. by rewrite Zplus_mod_idemp_l. Qed.

(** What a thread relies on survives the steps of the others: heads and tails
    only grow, and nobody writes to the entries it holds. *)
Lemma thread_ok_frame rb rb' g g' f f' tid t :
  thread_ok rb g f tid t ->
  size rb' = size rb -> capacity rb' = capacity rb -> zlen (ring rb') = zlen (ring rb) ->
  (forall r, g_h g r <= g_h g' r) -> (forall r, g_t g r <= g_t g' r) ->
  g_pos g' tid = g_pos g tid -> given f' tid = given f tid ->
  (forall r n, claim t = Some (r, n) ->
     g_t g' r <= g_pos g tid /\
     forall j, 0 <= j < n -> zget (ring rb') ((g_pos g tid + j) mod size rb) =
                             zget (ring rb) ((g_pos g tid + j) mod size rb)) ->
  thread_ok rb' g' f' tid t.
Proof.
  intros (Hj & Ht & Hpc) Es Ec El Hh Htl Ep Eg Hcl. specialize (Hh (t_role t)) as Hhr.
  specialize (Htl (t_role t)) as Htr.
  assert (Hlim : limit (capacity rb) g (t_role t) <= limit (capacity rb) g' (t_role t)).
  { destruct (t_role t); cbn; pose proof (Htl Consumer); pose proof (Htl Producer); lia. }
  assert (Hheld : forall h n i, claim t = Some (t_role t, n) -> held_ok rb g f tid t h n i ->
                    held_ok rb' g' f' tid t h n i).
  { intros h n i Hc (H1 & H2 & H3 & H4 & H5 & H6). destruct (Hcl _ _ Hc) as [H7 H8].
    unfold held_ok, held_words in *. rewrite Es, Ep, Eg.
    split_and!; try done; try lia. destruct (t_role t).
    - intros j Hjj. rewrite H8 by lia. apply H6. lia.
    - destruct H6 as (H6 & H9 & H10). split_and!; try done.
      intros j Hjj. rewrite H8 by lia. apply H9. lia. }
  split; [|split]; [|done|].
  { unfold job_ok in *. rewrite Es, El. done. }
  revert Hcl Hheld. unfold claim, holds, loaded in *.
  destruct (t_pc t) eqn:Epc; try done; intros Hcl Hheld.
  - destruct Hpc as (v & H1 & H2). exists v. split; [done|]. lia.
  - destruct Hpc as (Hn & v & (H1 & H2) & H3). split; [done|]. exists v.
    split; [split; [done|lia]|]. rewrite Ec. intros ->. lia.
  - apply Hheld; [done|apply Hpc].
  - apply Hheld; [done|apply Hpc].
  - destruct Hpc as [Hpc Hpos]. destruct (Hcl _ _ eq_refl) as [H _].
    split; [by apply Hheld|]. rewrite Ep. lia.
  - rewrite Es, Eg. done.
Qed.

(** A step of thread [tid] keeps the invariant: the parts about the other
    threads follow from the frame. *)
Lemma inv_update m g f tid t t' rb' g' f' :
  machine_inv m g f -> threads m !! tid = Some t ->
  size rb' = size (shared m) -> mask rb' = mask (shared m) ->
  capacity rb' = capacity (shared m) -> zlen (ring rb') = zlen (ring (shared m)) ->
  (forall r, head (own r rb') = u32 (g_h g' r)) -> (forall r, tail (own r rb') = u32 (g_t g' r)) ->
  (forall r, g_t g' r <= g_h g' r <= limit (capacity rb') g' r) ->
  (forall r, g_h g r <= g_h g' r) -> (forall r, g_t g r <= g_t g' r) ->
  (forall j, j <> tid -> g_pos g' j = g_pos g j /\ given f' j = given f j) ->
  (forall j tj r n, j <> tid -> threads m !! j = Some tj -> claim tj = Some (r, n) ->
     g_t g' r <= g_pos g j /\
     forall k, 0 <= k < n -> zget (ring rb') ((g_pos g j + k) mod size (shared m)) =
                             zget (ring (shared m)) ((g_pos g j + k) mod size (shared m))) ->
  thread_ok rb' g' f' tid t' ->
  (forall j tj r n n', j <> tid -> threads m !! j = Some tj ->
     claim t' = Some (r, n') -> claim tj = Some (r, n) ->
     g_pos g' tid + n' <= g_pos g j \/ g_pos g j + n <= g_pos g' tid) ->
  (forall r p, g_t g' r <= p < g_h g' r -> ~ (g_t g r <= p < g_h g r) \/
     (exists n, claim t = Some (r, n) /\ g_pos g tid <= p < g_pos g tid + n) ->
     exists n, claim t' = Some (r, n) /\ g_pos g' tid <= p < g_pos g' tid + n) ->
  claimed f' = g_h g' Producer - g_t g' Producer ->
  unreleased f' = g_h g' Consumer - g_t g' Consumer ->
  zlen (queue f') = g_t g' Producer - g_h g' Consumer ->
  (forall j, 0 <= j < zlen (queue f') ->
    zget (ring rb') ((g_h g' Consumer + j) mod size rb') = zget (queue f') j) ->
  machine_inv (mk_machine rb' (<[tid := t']> (threads m))) g' f'.
Proof.
  intros Hinv Hl Es Em Ec El Hhead Htail Hord Hh Ht Hframe Hothers Hok Hdis Hcov Hcl Hun Hq Hw.
  pose proof (lookup_lt_Some _ _ _ Hl) as Hlt. constructor; cbn [shared threads]; try done.
  - rewrite Es. apply (inv_size _ _ _ Hinv).
  - rewrite Es, Em. apply (inv_mask _ _ _ Hinv).
  - rewrite Es, Ec. apply (inv_cap _ _ _ Hinv).
  - rewrite Es, El. apply (inv_ring _ _ _ Hinv).
  - intros r. pose proof (inv_lo _ _ _ Hinv r). specialize (Hh r). lia.
  - intros j tj Hj. destruct (decide (j = tid)) as [->|Hne].
    { rewrite list_lookup_insert_eq in Hj by done. by injection Hj as <-. }
    rewrite list_lookup_insert_ne in Hj by done. destruct (Hframe j Hne) as [Hf1 Hf2].
    apply (thread_ok_frame (shared m) rb' g g' f f'); try done; [by apply (inv_threads _ _ _ Hinv)|].
    intros r n Hc. by apply (Hothers j tj).
  - intros i j ti tj r ni nj Hij Hi Hj Ci Cj.
    destruct (decide (i = tid)) as [->|Hi']; destruct (decide (j = tid)) as [->|Hj']; [done|..].
    + rewrite list_lookup_insert_eq in Hi by done. rewrite list_lookup_insert_ne in Hj by done.
      injection Hi as <-. destruct (Hframe j Hj') as [-> _]. by apply (Hdis j tj r).
    + rewrite list_lookup_insert_eq in Hj by done. rewrite list_lookup_insert_ne in Hi by done.
      injection Hj as <-. destruct (Hframe i Hi') as [-> _].
      destruct (Hdis i ti r ni nj); try done; lia.
    + rewrite list_lookup_insert_ne in Hi, Hj by done.
      destruct (Hframe i Hi') as [-> _]. destruct (Hframe j Hj') as [-> _].
      by apply (inv_disjoint _ _ _ Hinv i j ti tj r).
  - intros r p Hp.
    assert (Hcase : (exists j tj n, j <> tid /\ threads m !! j = Some tj /\ claim tj = Some (r, n) /\
                       g_pos g j <= p < g_pos g j + n) \/
                    (~ (g_t g r <= p < g_h g r) \/
                     exists n, claim t = Some (r, n) /\ g_pos g tid <= p < g_pos g tid + n)).
    { destruct (decide (g_t g r <= p < g_h g r)) as [Hin|Hout]; [|by right; left].
      destruct (inv_cover _ _ _ Hinv r p Hin) as (j & tj & n & Hj & Hc & Hr).
      destruct (decide (j = tid)) as [->|Hne]; [|left; eauto 10].
      rewrite Hl in Hj. injection Hj as <-. right; right. eauto. }
    destruct Hcase as [(j & tj & n & Hne & Hj & Hc & Hr)|Hcase].
    + exists j, tj, n. rewrite list_lookup_insert_ne by done. destruct (Hframe j Hne) as [-> _]. done.
    + destruct (Hcov r p Hp Hcase) as (n & Hc & Hr). exists tid, t', n.
      by rewrite list_lookup_insert_eq by done.
Qed.

Lemma claim_bounds rb g f tid t r n :
  thread_ok rb g f tid t -> claim t = Some (r, n) ->
  r = t_role t /\ 1 <= n /\ g_t g r <= g_pos g tid /\ g_pos g tid + n <= g_h g r.
Proof.
  intros (_ & _ & Hpc) Hc. unfold claim, holds in Hc.
  destruct (t_pc t); try done; injection Hc as <- <-;
    [|..|destruct Hpc as [Hpc _]]; destruct Hpc as (_ & ? & _ & ? & ? & _);
    split_and!; (done || lia).
Qed.

(** A step that touches nothing shared. *)
Lemma inv_local m g f tid t t' :
  machine_inv m g f -> threads m !! tid = Some t -> claim t' = claim t ->
  thread_ok (shared m) g f tid t' ->
  machine_inv (mk_machine (shared m) (<[tid := t']> (threads m))) g f.
Proof.
  intros Hinv Hl Hc Hok.
  eapply (inv_update m g f tid t); try done; try (by destruct Hinv).
  - intros j tj r n _ Hj Hcj.
    by destruct (claim_bounds _ _ _ _ _ _ _ (inv_threads _ _ _ Hinv j tj Hj) Hcj) as (_ & _ & ? & _).
  - intros j tj r n n' Hne Hj Hc1 Hc2. rewrite Hc in Hc1.
    by apply (inv_disjoint _ _ _ Hinv tid j t tj r).
  - intros r p Hp [?|Hex]; [done|]. by rewrite Hc.
Qed.

(** ** Reservations *)

Lemma limit_room m g f r :
  machine_inv m g f ->
  0 <= limit (capacity (shared m)) g r - g_h g r <= capacity (shared m) /\
  capacity (shared m) < 2 ^ 30 /\
  limit (capacity (shared m)) g r - g_h g r =
    match r with Producer => capacity (shared m) - occupied f | Consumer => zlen (queue f) end.
Proof.
  intros Hinv. pose proof (inv_order _ _ _ Hinv Producer). pose proof (inv_order _ _ _ Hinv Consumer).
  pose proof (pow2_size_pos _ (inv_size _ _ _ Hinv)). pose proof (inv_cap _ _ _ Hinv).
  pose proof (inv_queue _ _ _ Hinv). pose proof (inv_claimed _ _ _ Hinv).
  pose proof (inv_unreleased _ _ _ Hinv). unfold occupied. cbn [limit] in *.
  destruct r; cbn [limit]; lia.
Qed.

Lemma available_spec m g f r v :
  machine_inv m g f -> available r (shared m) (u32 v) = u32 (limit (capacity (shared m)) g r - v).
Proof.
  intros Hinv. pose proof (inv_tail _ _ _ Hinv Producer) as Hp.
  pose proof (inv_tail _ _ _ Hinv Consumer) as Hc. cbn [own] in Hp, Hc.
  destruct r; cbn [available limit]; rewrite ?Hp, ?Hc; unfold u32.
  - rewrite <- Zminus_mod, Zminus_mod_idemp_r. f_equal. lia.
  - by rewrite <- Zminus_mod.
Qed.

Lemma granted_zero j avail :
  0 <= j_max j -> 0 <= avail -> granted (j_behavior j) (j_max j) avail = 0 ->
  need j <= 0 \/ avail < need j.
Proof. intros. unfold granted, need in *. destruct (j_behavior j); case_match; zb; lia. Qed.

(** What a step of a thread must achieve. *)
Definition step_ok (m : machine) (g : ghost) (f : fifo) (tid : nat) (r : res (kt_ringbuf * thread * label)) : Prop :=
  exists rb t' l g' f',
    r = Ret (rb, t', l) /\
    machine_inv (mk_machine rb (<[tid := t']> (threads m))) g' f' /\
    fifo_step (capacity (shared m)) f tid l f' /\
    (forall r, g_h g' r = g_h g r + reserved r [(tid, l)]) /\
    size rb = size (shared m) /\ capacity rb = capacity (shared m) /\
    zlen (ring rb) = zlen (ring (shared m)).

Lemma step_ok_local m g f tid t t' :
  machine_inv m g f -> threads m !! tid = Some t -> claim t' = claim t ->
  thread_ok (shared m) g f tid t' ->
  step_ok m g f tid (Ret (shared m, t', Tau)).
Proof.
  intros. exists (shared m), t', Tau, g, f. split_and!; try done; [by eapply inv_local|constructor|].
  intros r. cbn. lia.
Qed.

Lemma step_load_tail m g f tid t old_head sp :
  machine_inv m g f -> threads m !! tid = Some t -> t_pc t = LoadTail old_head ->
  (forall r, g_h g r - lo r + capacity (shared m) < 2 ^ 32) ->
  step_ok m g f tid (thread_step sp (shared m) t).
Proof.
  intros Hinv Hl Hpc Hbud. destruct (inv_threads _ _ _ Hinv tid t Hl) as (Hj & Ht & Hv).
  rewrite Hpc in Hv. destruct Hv as (v & -> & Hv).
  unfold thread_step. rewrite Hpc, (available_spec m g f) by done.
  destruct (limit_room m g f (t_role t) Hinv) as (Hr1 & Hr2 & Hr3). specialize (Hbud (t_role t)).
  rewrite u32_id by lia. remember (limit _ _ _ - v) as avail eqn:Ea.
  pose proof Hj as (_ & Hmax & _ & _). unfold t_max.
  pose proof (granted_bounds (j_behavior (t_job t)) (j_max (t_job t)) avail) as Hg.
  destruct (Z.eqb_spec (granted (j_behavior (t_job t)) (j_max (t_job t)) avail) 0) as [E|E].
  - eexists (shared m), _, _, g, f. split; [done|]. split_and!; try done.
    + eapply inv_local; try done; [by unfold claim, holds; rewrite Hpc|].
      split_and!; try done. by left.
    + apply granted_zero in E; [|lia..].
      destruct (t_role t); constructor; destruct E; (by left) || (right; lia).
    + intros r. cbn. lia.
  - apply (step_ok_local m g f tid t); try done; [by unfold claim, holds; rewrite Hpc|].
    split_and!; try done. cbn [t_pc goto]. unfold t_max, t_role in *. cbn [t_job goto].
    split; [lia|]. exists v. split; [done|]. intros _. lia.
Qed.

(** [set_own] and the sides. *)
Lemma own_set_own r r' rb x :
  own r' (set_own r rb x) = if decide (r' = r) then x else own r' rb.
Proof. by destruct r, r'. Qed.

Lemma set_own_same r rb x :
  size (set_own r rb x) = size rb /\ mask (set_own r rb x) = mask rb /\
  capacity (set_own r rb x) = capacity rb /\ ring (set_own r rb x) = ring rb.
Proof. by destruct r. Qed.

(** The specification's state after a reservation. *)
Definition fifo_reserve (f : fifo) (tid : nat) (r : role) (n : Z) : fifo :=
  match r with
  | Producer => mk_fifo (queue f) (claimed f + n) (unreleased f) (given f) (handed f)
  | Consumer =>
      mk_fifo (zslice (queue f) n (zlen (queue f) - n)) (claimed f) (unreleased f + n)
        (<[tid := zslice (queue f) 0 n]> (given f)) (handed f ++ zslice (queue f) 0 n)
  end.

Definition ghost_reserve (g : ghost) (tid : nat) (r : role) (n : Z) : ghost :=
  mk_ghost (<[r := g_h g r + n]> (g_h g)) (g_t g) (<[tid := g_h g r]> (g_pos g)).

Lemma reserve_order m g f tid r n r' :
  machine_inv m g f -> 0 <= n -> g_h g r + n <= limit (capacity (shared m)) g r ->
  g_h g r' <= g_h (ghost_reserve g tid r n) r' /\
  g_t g r' <= g_h (ghost_reserve g tid r n) r' <=
    limit (capacity (shared m)) (ghost_reserve g tid r n) r'.
Proof.
  intros Hinv Hn Hlim. pose proof (inv_order _ _ _ Hinv r') as Ho. unfold ghost_reserve. cbn [g_h g_t].
  destruct (decide (r' = r)) as [->|Hne].
  - rewrite fn_lookup_insert. destruct r; cbn [limit g_t] in *; lia.
  - rewrite fn_lookup_insert_ne by done. destruct r'; cbn [limit g_t] in *; lia.
Qed.

Lemma fifo_reserve_step m g f tid r n :
  machine_inv m g f -> 1 <= n -> g_h g r + n <= limit (capacity (shared m)) g r ->
  fifo_step (capacity (shared m)) f tid (Reserve r n) (fifo_reserve f tid r n).
Proof.
  intros Hinv Hn Hlim. destruct (limit_room m g f r Hinv) as (_ & _ & Hr).
  destruct r; constructor; lia.
Qed.

(** The words a consumer is handed are the oldest ones of the queue. *)
Lemma reserve_held m g f tid t n :
  machine_inv m g f -> 1 <= n -> g_h g (t_role t) + n <= limit (capacity (shared m)) g (t_role t) ->
  held_words (shared m) (fifo_reserve f tid (t_role t) n) tid t (g_h g (t_role t)) n 0.
Proof.
  intros Hinv Hn Hlim. destruct (limit_room m g f (t_role t) Hinv) as (_ & _ & Hr).
  unfold held_words. destruct (t_role t); [lia|]. cbn [fifo_reserve given].
  rewrite fn_lookup_insert. split_and!; [by rewrite zlen_zslice by lia| |lia].
  intros j Hj. rewrite zget_zslice by lia. rewrite (inv_words _ _ _ Hinv) by lia. f_equal; lia.
Qed.

Lemma reserve_queue m g f tid r n :
  machine_inv m g f -> 1 <= n -> g_h g r + n <= limit (capacity (shared m)) g r ->
  let f' := fifo_reserve f tid r n in
  let g' := ghost_reserve g tid r n in
  claimed f' = g_h g' Producer - g_t g' Producer /\
  unreleased f' = g_h g' Consumer - g_t g' Consumer /\
  zlen (queue f') = g_t g' Producer - g_h g' Consumer /\
  (forall j, 0 <= j < zlen (queue f') ->
     zget (ring (shared m)) ((g_h g' Consumer + j) mod size (shared m)) = zget (queue f') j).
Proof.
  intros Hinv Hn Hlim. destruct (limit_room m g f r Hinv) as (_ & _ & Hr).
  pose proof (inv_claimed _ _ _ Hinv). pose proof (inv_unreleased _ _ _ Hinv).
  pose proof (inv_queue _ _ _ Hinv). pose proof (inv_words _ _ _ Hinv) as Hw.
  unfold ghost_reserve. destruct r;
    cbn [fifo_reserve queue claimed unreleased given g_h g_t];
    rewrite ?fn_lookup_insert, ?fn_lookup_insert_ne by done;
    split_and!; try lia; try done.
  - rewrite zlen_zslice by lia. lia.
  - intros j Hj. rewrite zlen_zslice in Hj by lia. rewrite zget_zslice by lia.
    rewrite <- Hw by lia. f_equal. f_equal. lia.
Qed.

(** A successful compare-and-exchange keeps the invariant. *)
Lemma reserve_inv m g f tid t n avail :
  let r := t_role t in
  let rb := set_own r (shared m) (mk_headtail (u32 (u32 (g_h g r) + n)) (tail (own r (shared m)))) in
  machine_inv m g f -> threads m !! tid = Some t -> t_pc t = Cas (u32 (g_h g r)) n avail ->
  job_ok (shared m) (t_job t) -> zlen (t_table t) = zlen (j_table (t_job t)) ->
  1 <= n <= t_max t -> g_h g r + n <= limit (capacity (shared m)) g r ->
  machine_inv (mk_machine rb (<[tid := goto t (Copy (u32 (g_h g r)) n avail 0)]> (threads m)))
    (ghost_reserve g tid r n) (fifo_reserve f tid r n).
Proof.
  intros r rb Hinv Hl Hpc Hj Ht Hn Hlim. subst r rb.
  destruct (set_own_same (t_role t) (shared m)
    (mk_headtail (u32 (u32 (g_h g (t_role t)) + n)) (tail (own (t_role t) (shared m)))))
    as (Es & Em & Ec & El).
  assert (Hcl : claim t = None) by (by unfold claim, holds; rewrite Hpc).
  destruct (reserve_queue m g f tid (t_role t) n) as (Q1 & Q2 & Q3 & Q4); [done|lia|done|].
  eapply (inv_update m g f tid t); rewrite ?Es, ?Em, ?Ec, ?El; try done.
  - intros r. rewrite own_set_own. unfold ghost_reserve. cbn [g_h].
    destruct (decide (r = t_role t)) as [->|Hne].
    + rewrite fn_lookup_insert. cbn [head]. apply u32_add.
    + rewrite fn_lookup_insert_ne by done. apply (inv_head _ _ _ Hinv).
  - intros r. rewrite own_set_own. cbn [ghost_reserve g_t].
    rewrite <- (inv_tail _ _ _ Hinv). by case_decide; subst.
  - intros r. apply (reserve_order m g f); [done|lia|done].
  - intros r. apply (reserve_order m g f); [done|lia|done].
  - intros j Hne. cbn [ghost_reserve g_pos]. rewrite fn_lookup_insert_ne by done. split; [done|].
    unfold fifo_reserve. destruct (t_role t); cbn [given]; [done|]. by rewrite fn_lookup_insert_ne.
  - intros j tj r k Hne Hj' Hc.
    by destruct (claim_bounds _ _ _ _ _ _ _ (inv_threads _ _ _ Hinv j tj Hj') Hc) as (_ & _ & ? & _).
  - split; [by unfold job_ok in *; rewrite Es, El|]. split; [done|].
    pose proof (reserve_held m g f tid t n Hinv ltac:(lia) Hlim) as Hheld.
    pose proof (inv_order _ _ _ Hinv (t_role t)).
    unfold held_ok, held_words in *. cbn [goto t_pc]. rewrite Es, El.
    change (t_role (goto t _)) with (t_role t). change (t_max (goto t _)) with (t_max t).
    unfold ghost_reserve. cbn [g_pos g_h g_t]. rewrite !fn_lookup_insert.
    split_and!; try done; lia.
  - intros j tj r k k' Hne Hj' Hc1 Hc2. injection Hc1 as <- <-. cbn [ghost_reserve g_pos].
    rewrite fn_lookup_insert. right. change (t_role (goto t _)) with (t_role t) in Hc2.
    by destruct (claim_bounds _ _ _ _ _ _ _ (inv_threads _ _ _ Hinv j tj Hj') Hc2) as (_ & _ & _ & ?).
  - intros r p Hp [Hout|(k & Hk & _)]; [|by rewrite Hcl in Hk]. exists n.
    revert Hp. unfold ghost_reserve. cbn [g_h g_t g_pos]. rewrite fn_lookup_insert.
    destruct (decide (r = t_role t)) as [->|Hne].
    + rewrite fn_lookup_insert. intros Hp. split; [done|]. lia.
    + rewrite fn_lookup_insert_ne by done. lia.
Qed.

Lemma step_cas m g f tid t old_head n avail sp :
  machine_inv m g f -> threads m !! tid = Some t -> t_pc t = Cas old_head n avail ->
  (forall r, g_h g r - lo r + capacity (shared m) < 2 ^ 32) ->
  step_ok m g f tid (thread_step sp (shared m) t).
Proof.
  intros Hinv Hl Hpc Hbud. pose proof (inv_threads _ _ _ Hinv tid t Hl) as (Hj & Ht & Hv).
  rewrite Hpc in Hv. destruct Hv as (Hn & v & (-> & Hv) & Hlim).
  unfold thread_step. rewrite Hpc, (inv_head _ _ _ Hinv). specialize (Hbud (t_role t)).
  destruct (limit_room m g f (t_role t) Hinv) as (_ & Hcap & _).
  destruct (u32 (g_h g (t_role t)) =? u32 v) eqn:E; destruct sp; cbn [andb negb];
    try (apply (step_ok_local m g f tid t); [done|done|by unfold claim, holds; rewrite Hpc|];
         split_and!; try done; exists (g_h g (t_role t)); split; [done|];
         pose proof (inv_lo _ _ _ Hinv (t_role t)); unfold t_role in *; cbn [t_job goto]; lia).
  zb. pose proof (pow2_size_pos _ (inv_size _ _ _ Hinv)). pose proof (inv_cap _ _ _ Hinv).
  apply u32_inj in E; [|lia].
  specialize (Hlim (eq_sym E)). rewrite <- E in *. clear E Hv v.
  destruct (set_own_same (t_role t) (shared m)
    (mk_headtail (u32 (u32 (g_h g (t_role t)) + n)) (tail (own (t_role t) (shared m)))))
    as (Es & Em & Ec & El).
  eexists _, _, _, (ghost_reserve g tid (t_role t) n), (fifo_reserve f tid (t_role t) n).
  split; [done|]. split.
  2:{ split; [apply (fifo_reserve_step m g); [done|lia|done]|]. split; [|rewrite Es, Ec, El; done].
      intros r. unfold ghost_reserve. cbn [g_h reserved].
      destruct (decide (r = t_role t)) as [->|Hne].
      - rewrite fn_lookup_insert. lia.
      - rewrite fn_lookup_insert_ne by done. lia. }
  by apply (reserve_inv m g f tid t n avail).
Qed.

(** ** Copying *)

(** Entries held on one side are less than a whole ring away from everything
    that is stored or held on either side. *)
Lemma entries_span m g f r p :
  machine_inv m g f -> g_t g r <= p < g_h g r \/ g_h g Consumer <= p < g_t g Producer ->
  g_t g Consumer <= p < g_t g Consumer + size (shared m).
Proof.
  intros Hinv Hp. pose proof (inv_order _ _ _ Hinv Producer). pose proof (inv_order _ _ _ Hinv Consumer).
  pose proof (inv_cap _ _ _ Hinv). cbn [limit] in *. destruct r; lia.
Qed.

Lemma slot_ne m g f r r' p q :
  machine_inv m g f -> g_t g r' <= p < g_h g r' ->
  g_t g r <= q < g_h g r \/ g_h g Consumer <= q < g_t g Producer -> p <> q ->
  p mod size (shared m) <> q mod size (shared m).
Proof.
  intros Hinv Hp Hq Hne E. apply Hne.
  pose proof (pow2_size_pos _ (inv_size _ _ _ Hinv)).
  pose proof (entries_span m g f r' p Hinv (or_introl Hp)).
  pose proof (entries_span m g f r q Hinv Hq).
  assert (p - g_t g Consumer = q - g_t g Consumer); [|lia].
  apply (slot_inj (size (shared m)) (g_t g Consumer)); try lia.
  by replace (g_t g Consumer + (p - g_t g Consumer)) with p by lia;
    replace (g_t g Consumer + (q - g_t g Consumer)) with q by lia.
Qed.

(** A word that a producer writes is none that the others have or that is in the
    queue. *)
Lemma store_keeps m g f p x q r :
  machine_inv m g f -> g_t g Producer <= p < g_h g Producer ->
  g_t g r <= q < g_h g r \/ g_h g Consumer <= q < g_t g Producer -> q <> p ->
  zget (zupd (ring (shared m)) (p mod size (shared m)) x) (q mod size (shared m)) =
    zget (ring (shared m)) (q mod size (shared m)).
Proof.
  intros Hinv Hp Hq Hne. pose proof (pow2_size_pos _ (inv_size _ _ _ Hinv)). pose proof (inv_ring _ _ _ Hinv).
  pose proof (Z.mod_pos_bound q (size (shared m)) ltac:(lia)).
  pose proof (Z.mod_pos_bound p (size (shared m)) ltac:(lia)).
  pose proof (slot_ne m g f r Producer p q Hinv Hp Hq (not_eq_sym Hne)).
  rewrite zget_zupd_ne; [done|lia..].
Qed.

Lemma step_copy_producer m g f tid t old_head n avail i :
  machine_inv m g f -> threads m !! tid = Some t -> t_pc t = Copy old_head n avail i ->
  t_role t = Producer -> i < n ->
  step_ok m g f tid
    (let* (rb, l) := copy_word (shared m) t old_head i in
     Ret (rb, mk_thread (t_job t) l (Copy old_head n avail (u32 (i + 1))), Tau)).
Proof.
  intros Hinv Hl Hpc Hr Hi. pose proof (inv_threads _ _ _ Hinv tid t Hl) as Hok.
  pose proof Hok as (Hj & Ht & Hh).
  rewrite Hpc in Hh. destruct Hh as (-> & Hn & Hi' & Hp1 & Hp2 & Hw).
  pose proof (pow2_size_pos _ (inv_size _ _ _ Hinv)) as Hsz. pose proof (inv_ring _ _ _ Hinv) as Hlen.
  pose proof Hj as (He & Hmax & Htab & Hone). unfold t_role, t_max in *. rewrite Hr in *.
  unfold held_words, t_role in Hw. rewrite Hr in Hw.
  assert (Hclaim : claim t = Some (Producer, n)) by (unfold claim, holds, t_role; by rewrite Hpc, Hr).
  assert (i = 0) as -> by lia. assert (n = 1) as -> by lia.
  pose proof (Z.mod_pos_bound (g_pos g tid) (size (shared m)) ltac:(lia)) as Hslot.
  unfold copy_word, t_role. rewrite Hr, znth_get by lia. cbn [bind].
  rewrite (inv_mask _ _ _ Hinv), land_mask, u32_mod_size, Z.add_0_r, u32_id, zset_upd
    by (try apply (inv_size _ _ _ Hinv); lia).
  cbn [bind]. eexists _, _, _, g, f. split; [done|]. split.
  2:{ split_and!; try done; [constructor|intros r; cbn; lia|]. cbn [ring set_ring]. apply zlen_zupd. }
  pose proof (fun q r => store_keeps m g f (g_pos g tid) (zget (t_table t) 0) q r Hinv ltac:(lia)) as Hkeep.
  eapply (inv_update m g f tid t); try done; try (by destruct Hinv); cbn [ring set_ring size].
  - apply zlen_zupd.
  - intros j tj r k Hne Hj' Hc.
    destruct (claim_bounds _ _ _ _ _ _ _ (inv_threads _ _ _ Hinv j tj Hj') Hc) as (_ & ? & ? & ?).
    split; [done|]. intros k' Hk. apply (Hkeep _ r); [left; lia|]. intros Heq.
    assert (r = Producer) as ->.
    { destruct r; [done|]. pose proof (inv_order _ _ _ Hinv Consumer). cbn [limit] in *. lia. }
    destruct (inv_disjoint _ _ _ Hinv tid j t tj Producer 1 k); try done; lia.
  - split; [unfold job_ok in *; cbn [ring set_ring]; by rewrite zlen_zupd|]. split; [done|].
    unfold held_ok, held_words, t_role, t_max. cbn [t_pc t_job t_table]. rewrite Hr.
    change (u32 (0 + 1)) with 1. split_and!; try done; try lia. intros j Hj'. assert (j = 0) as -> by lia.
    cbn [set_ring ring size]. rewrite Z.add_0_r, zget_zupd_eq by lia. done.
  - intros j tj r k k' Hne Hj' Hc1 Hc2. unfold claim, holds, t_role in Hc1. cbn in Hc1.
    rewrite Hr in Hc1. injection Hc1 as <- <-.
    by apply (inv_disjoint _ _ _ Hinv tid j t tj Producer).
  - intros r p Hp [?|(k & Hk & Hk')]; [done|]. rewrite Hclaim in Hk. injection Hk as <- <-.
    exists 1. unfold claim, holds, t_role. cbn. rewrite Hr. done.
  - intros j Hj'. pose proof (inv_queue _ _ _ Hinv). rewrite (Hkeep _ Producer).
    + by apply (inv_words _ _ _ Hinv).
    + right. lia.
    + lia.
Qed.

Lemma step_copy_consumer m g f tid t old_head n avail i :
  machine_inv m g f -> threads m !! tid = Some t -> t_pc t = Copy old_head n avail i ->
  t_role t = Consumer -> i < n ->
  step_ok m g f tid
    (let* (rb, l) := copy_word (shared m) t old_head i in
     Ret (rb, mk_thread (t_job t) l (Copy old_head n avail (u32 (i + 1))), Tau)).
Proof.
  intros Hinv Hl Hpc Hr Hi. pose proof (inv_threads _ _ _ Hinv tid t Hl) as Hok.
  pose proof Hok as (Hj & Ht & Hh).
  rewrite Hpc in Hh. destruct Hh as (-> & Hn & Hi' & Hp1 & Hp2 & Hw).
  pose proof (pow2_size_pos _ (inv_size _ _ _ Hinv)) as Hsz. pose proof (inv_ring _ _ _ Hinv) as Hlen.
  pose proof Hj as (He & Hmax & Htab & Hone). unfold t_role, t_max in *. rewrite Hr in *.
  unfold held_words, t_role in Hw. rewrite Hr in Hw. destruct Hw as (Hw1 & Hw2 & Hw3).
  set (v := g_pos g tid) in *. pose proof (Z.mod_pos_bound v (size (shared m)) ltac:(lia)) as Hslot.
  unfold copy_word, t_role. rewrite Hr, (u32_id (size _ - 1)), land_mask, u32_mod_size
    by (try apply (inv_size _ _ _ Hinv); lia).
  rewrite u32_id, znth_get by lia. cbn [bind]. rewrite zset_upd by lia. cbn [bind].
  apply (step_ok_local m g f tid t); [done|done|by unfold claim, holds, t_role; rewrite Hpc|].
  split; [done|]. split; [cbn [t_table t_job]; by rewrite zlen_zupd|].
  unfold held_ok, held_words, t_role, t_max. cbn [t_pc t_job t_table]. rewrite Hr. fold v.
  rewrite (u32_id (i + 1)) by lia. split_and!; try done; try lia.
  intros j Hj' Hin. destruct (decide (j = i)) as [->|Hne].
  - rewrite zget_zupd_eq by lia. rewrite <- Hw2 by lia. f_equal.
    by rewrite <- (Zplus_mod_idemp_l v), (Z.mod_small (v mod _ + i)) by lia.
  - rewrite zget_zupd_ne by lia. apply Hw3; lia.
Qed.

(** ** Completing a reservation *)

Definition fifo_commit (f : fifo) (r : role) (ws : list Z) : fifo :=
  match r with
  | Producer => mk_fifo (queue f ++ ws) (claimed f - zlen ws) (unreleased f) (given f) (handed f)
  | Consumer => mk_fifo (queue f) (claimed f) (unreleased f - zlen ws) (given f) (handed f)
  end.

Definition ghost_commit (g : ghost) (r : role) (n : Z) : ghost :=
  mk_ghost (g_h g) (<[r := g_t g r + n]> (g_t g)) (g_pos g).

Lemma commit_queue m g f tid t ws :
  machine_inv m g f -> held_words (shared m) f tid t (g_t g (t_role t)) (zlen ws) (zlen ws) ->
  (t_role t = Producer -> forall j, 0 <= j < zlen ws -> zget ws j = zget (t_table t) j) ->
  let f' := fifo_commit f (t_role t) ws in
  let g' := ghost_commit g (t_role t) (zlen ws) in
  claimed f' = g_h g' Producer - g_t g' Producer /\
  unreleased f' = g_h g' Consumer - g_t g' Consumer /\
  zlen (queue f') = g_t g' Producer - g_h g' Consumer /\
  (forall j, 0 <= j < zlen (queue f') ->
     zget (ring (shared m)) ((g_h g' Consumer + j) mod size (shared m)) = zget (queue f') j).
Proof.
  intros Hinv Hheld Hws.
  pose proof (inv_claimed _ _ _ Hinv). pose proof (inv_unreleased _ _ _ Hinv).
  pose proof (inv_queue _ _ _ Hinv) as Hq. pose proof (inv_words _ _ _ Hinv) as Hw.
  unfold ghost_commit, held_words in *.
  destruct (t_role t); cbn [fifo_commit queue claimed unreleased given g_h g_t];
    rewrite ?fn_lookup_insert, ?fn_lookup_insert_ne by done; rewrite ?zlen_app;
    split_and!; try lia; try done.
  intros j Hj. destruct (decide (j < zlen (queue f))) as [Hlt|Hge].
  - rewrite zget_app_l by lia. apply Hw. lia.
  - rewrite zget_app_r by lia. rewrite Hws by (done || lia). rewrite <- Hheld by lia.
    f_equal. f_equal. lia.
Qed.

Lemma commit_order m g f r n r' :
  machine_inv m g f -> 0 <= n -> g_t g r + n <= g_h g r ->
  g_t g r' <= g_t (ghost_commit g r n) r' /\
  g_t (ghost_commit g r n) r' <= g_h g r' <= limit (capacity (shared m)) (ghost_commit g r n) r'.
Proof.
  intros Hinv Hn Hlim. pose proof (inv_order _ _ _ Hinv r') as Ho.
  unfold ghost_commit. cbn [g_h g_t]. destruct r, r'; cbn [limit g_t] in *;
    rewrite ?fn_lookup_insert, ?fn_lookup_insert_ne by done; lia.
Qed.

Lemma step_spin m g f tid t old_head n avail sp :
  machine_inv m g f -> threads m !! tid = Some t -> t_pc t = SpinTail old_head n avail ->
  step_ok m g f tid (thread_step sp (shared m) t).
Proof.
  intros Hinv Hl Hpc. pose proof (inv_threads _ _ _ Hinv tid t Hl) as Hok.
  unfold thread_step. rewrite Hpc, (inv_tail _ _ _ Hinv).
  destruct (Z.eqb_spec (u32 (g_t g (t_role t))) old_head) as [E|E].
  2:{ by apply (step_ok_local m g f tid t). }
  apply (step_ok_local m g f tid t); [done|done|by unfold claim, holds, t_role; rewrite Hpc|].
  destruct Hok as (Hj & Ht & Hh). rewrite Hpc in Hh. split_and!; try done.
  cbn [goto t_pc]. split; [done|].
  destruct Hh as (-> & Hn & _ & Hp1 & Hp2 & _).
  assert (H1 : g_t g (t_role t) <= g_pos g tid < g_h g (t_role t)) by lia.
  assert (H2 : g_t g (t_role t) <= g_t g (t_role t) < g_h g (t_role t)) by lia.
  pose proof (entries_span m g f _ _ Hinv (or_introl H1)).
  pose proof (entries_span m g f _ _ Hinv (or_introl H2)).
  pose proof (pow2_size_pos _ (inv_size _ _ _ Hinv)).
  symmetry. change (t_role (goto t _)) with (t_role t). apply u32_inj; [done|lia].
Qed.

(** The tail after a release, and what the others still hold behind it. *)
Lemma commit_tail m g f r n r' :
  machine_inv m g f ->
  tail (own r' (set_own r (shared m) (mk_headtail (head (own r (shared m))) (u32 (u32 (g_t g r) + n))))) =
    u32 (g_t (ghost_commit g r n) r').
Proof.
  intros Hinv. rewrite own_set_own. unfold ghost_commit. cbn [g_t]. destruct (decide (r' = r)) as [->|Hne].
  - rewrite fn_lookup_insert. cbn [tail]. apply u32_add.
  - rewrite fn_lookup_insert_ne by done. apply (inv_tail _ _ _ Hinv).
Qed.

Lemma commit_others m g f tid j t tj n k r :
  machine_inv m g f -> threads m !! tid = Some t -> threads m !! j = Some tj -> tid <> j ->
  claim t = Some (t_role t, n) -> g_pos g tid = g_t g (t_role t) -> claim tj = Some (r, k) ->
  g_t (ghost_commit g (t_role t) n) r <= g_pos g j.
Proof.
  intros Hinv Hl Hj' Hne Hclaim Hpos Hc.
  destruct (claim_bounds _ _ _ _ _ _ _ (inv_threads _ _ _ Hinv j tj Hj') Hc) as (_ & ? & ? & ?).
  unfold ghost_commit. cbn [g_t]. destruct (decide (r = t_role t)) as [->|Hr].
  - rewrite fn_lookup_insert. destruct (inv_disjoint _ _ _ Hinv tid j t tj (t_role t) n k); try done; lia.
  - by rewrite fn_lookup_insert_ne.
Qed.

Lemma step_store m g f tid t old_head n avail sp :
  machine_inv m g f -> threads m !! tid = Some t -> t_pc t = StoreTail old_head n avail ->
  step_ok m g f tid (thread_step sp (shared m) t).
Proof.
  intros Hinv Hl Hpc. pose proof (inv_threads _ _ _ Hinv tid t Hl) as (Hj & Ht & Hh).
  rewrite Hpc in Hh. destruct Hh as ((-> & Hn & _ & Hp1 & Hp2 & Hw) & Hpos).
  pose proof Hj as (_ & Hmax & _ & _). unfold t_max in Hn.
  set (ws := zslice (t_table t) 0 n).
  assert (Hlen : zlen ws = n) by (unfold ws; rewrite zlen_zslice by lia; done).
  assert (Hclaim : claim t = Some (t_role t, n)) by (unfold claim, holds; by rewrite Hpc).
  rewrite Hpos in *.
  destruct (commit_queue m g f tid t ws) as (Q1 & Q2 & Q3 & Q4); [done|by rewrite Hlen| |].
  { intros _ j Hj'. unfold ws. rewrite zget_zslice by lia. done. }
  unfold thread_step. rewrite Hpc.
  destruct (set_own_same (t_role t) (shared m)
    (mk_headtail (head (own (t_role t) (shared m))) (u32 (u32 (g_t g (t_role t)) + n))))
    as (Es & Em & Ec & El).
  eexists _, _, _, (ghost_commit g (t_role t) (zlen ws)), (fifo_commit f (t_role t) ws).
  split; [done|]. fold ws. rewrite Hlen in *. split.
  2:{ split; [|split; [intros r; cbn; lia|by rewrite Es, Ec, El]].
      pose proof (inv_claimed _ _ _ Hinv). pose proof (inv_unreleased _ _ _ Hinv).
      destruct (t_role t); constructor; lia. }
  eapply (inv_update m g f tid t); rewrite ?Es, ?Em, ?Ec, ?El; try done.
  - intros r. cbn [ghost_commit g_h]. rewrite own_set_own, <- (inv_head _ _ _ Hinv).
    case_decide as E; [by rewrite E|done].
  - intros r. by apply (commit_tail m g f).
  - intros r. apply (commit_order m g f); [done|lia|done].
  - intros r. apply (commit_order m g f); [done|lia|done].
  - intros j Hne. unfold fifo_commit. by destruct (t_role t).
  - intros j tj r k Hne Hj' Hc. split; [|done]. by apply (commit_others m g f tid j t tj n k r).
  - split; [by unfold job_ok in *; rewrite Es, El|]. split; [done|].
    cbn [goto t_pc]. right. change (t_role (goto t _)) with (t_role t).
    unfold held_words in Hw. destruct (t_role t) eqn:Er; [by left|right].
    rewrite Es. cbn [fifo_commit given]. destruct Hw as (W1 & _ & W3). split; [done|].
    intros j Hj' Hin. apply W3; [done|]. by rewrite u32_mod_size in Hin by apply (inv_size _ _ _ Hinv).
  - intros r p Hp [Hout|(k & Hk & Hk')].
    + exfalso. apply Hout. pose proof (commit_order m g f (t_role t) n r Hinv ltac:(lia) Hp2) as [? _].
      cbn [ghost_commit g_h] in Hp. lia.
    + rewrite Hclaim in Hk. injection Hk as <- <-. exfalso. revert Hp. unfold ghost_commit.
      cbn [g_t g_h]. rewrite fn_lookup_insert. lia.
Qed.

(** ** Every step *)

Lemma thread_step_ok m g f tid t sp :
  machine_inv m g f -> threads m !! tid = Some t ->
  (forall r, g_h g r - lo r + capacity (shared m) < 2 ^ 32) ->
  step_ok m g f tid (thread_step sp (shared m) t).
Proof.
  intros Hinv Hl Hbud. pose proof (inv_threads _ _ _ Hinv tid t Hl) as Hok.
  destruct (t_pc t) eqn:Hpc.
  - unfold thread_step. rewrite Hpc. by apply (step_ok_local m g f tid t).
  - unfold thread_step. rewrite Hpc. destruct Hok as (Hj & Ht & _).
    apply (step_ok_local m g f tid t); [done|done|by unfold claim, holds; rewrite Hpc|].
    split_and!; try done. exists (g_h g (t_role t)). rewrite (inv_head _ _ _ Hinv).
    split; [done|]. change (t_role (goto t _)) with (t_role t).
    pose proof (inv_lo _ _ _ Hinv (t_role t)). lia.
  - by eapply step_load_tail.
  - by eapply step_cas.
  - unfold thread_step. rewrite Hpc. destruct Hok as (Hj & Ht & Hh).
    pose proof Hj as (-> & _). rewrite Z.eqb_refl.
    destruct (Z.ltb_spec i n) as [Hi|Hi].
    + destruct (t_role t) eqn:Hr; [by eapply step_copy_producer|by eapply step_copy_consumer].
    + apply (step_ok_local m g f tid t); [done|done|by unfold claim, holds; rewrite Hpc|].
      rewrite Hpc in Hh. pose proof Hh as (_ & _ & Hi' & _).
      assert (i = n) as -> by lia. by split_and!.
  - by eapply step_spin.
  - by eapply step_store.
  - unfold thread_step. rewrite Hpc. by apply (step_ok_local m g f tid t).
Qed.

(** The words a thread may still reserve. *)
Definition pending (r : role) (t : thread) : Z :=
  if decide (t_role t = r) then
    match t_pc t with LoadHead | LoadTail _ | Cas _ _ _ => t_max t | _ => 0 end
  else 0.

Fixpoint all_pending (r : role) (ts : list thread) : Z :=
  match ts with [] => 0 | t :: ts => pending r t + all_pending r ts end.

Lemma all_pending_insert r ts tid t t' :
  ts !! tid = Some t ->
  all_pending r (<[tid := t']> ts) = all_pending r ts - pending r t + pending r t'.
Proof.
  revert tid. induction ts as [|x ts IH]; intros [|tid] Hl; try done.
  - injection Hl as ->. cbn. lia.
  - specialize (IH tid Hl).
    change (<[S tid := t']> (x :: ts)) with (x :: <[tid := t']> ts). cbn [all_pending]. lia.
Qed.

Lemma pending_step rb g f sp tid t rb' t' l r :
  thread_ok rb g f tid t -> thread_step sp rb t = Ret (rb', t', l) ->
  pending r t' + reserved r [(tid, l)] <= pending r t.
Proof.
  intros (Hj & Ht & Hh) Hs. pose proof Hj as (_ & Hmax & _).
  unfold thread_step, goto, t_role, t_max in *.
  destruct (t_pc t) eqn:Hpc; revert Hs; repeat step_if; intros Hs; inv_res;
    repeat case_match; inv_res; unfold pending, t_role, t_max; cbn [t_job t_pc reserved] in *;
    rewrite ?Hpc; repeat case_decide; simplify_eq; try lia.
Qed.

(** The words the calls of a schedule ask for. *)
Fixpoint asked (r : role) (es : list event) : Z :=
  match es with
  | [] => 0
  | Call _ j :: es => (if decide (j_role j = r) then j_max j else 0) + asked r es
  | Run _ _ :: es => asked r es
  end.

(** No head goes around within the run. *)
Definition in_budget (m : machine) (g : ghost) (es : list event) : Prop :=
  forall r, g_h g r - lo r + all_pending r (threads m) + asked r es + capacity (shared m) < 2 ^ 32.

Lemma all_pending_nonneg m g f r :
  machine_inv m g f -> 0 <= all_pending r (threads m).
Proof.
  intros Hinv.
  assert (Hall : forall t, t ∈ threads m -> 0 <= j_max (t_job t)).
  { intros t (tid & Hl)%list_elem_of_lookup.
    destruct (inv_threads _ _ _ Hinv tid t Hl) as ((_ & ? & _) & _). lia. }
  induction (threads m) as [|t ts IH]; cbn [all_pending]; [lia|].
  specialize (IH ltac:(intros; apply Hall; by right)). specialize (Hall t ltac:(left)).
  unfold pending, t_max. case_decide; [destruct (t_pc t)|]; lia.
Qed.

Lemma asked_nonneg rb es r : Forall (event_ok rb) es -> 0 <= asked r es.
Proof.
  induction 1 as [|e es He _ IH]; cbn [asked]; [lia|]. destruct e; [|done].
  destruct He as (_ & ? & _). case_decide; lia.
Qed.

Lemma machine_step_ok m g f e es :
  machine_inv m g f -> Forall (event_ok (shared m)) (e :: es) -> in_budget m g (e :: es) ->
  exists m' tid l g' f', machine_step m e = Ret (m', (tid, l)) /\
    machine_inv m' g' f' /\ fifo_step (capacity (shared m)) f tid l f' /\ in_budget m' g' es /\
    size (shared m') = size (shared m) /\ capacity (shared m') = capacity (shared m) /\
    zlen (ring (shared m')) = zlen (ring (shared m)) /\ length (threads m') = length (threads m).
Proof.
  intros Hinv [He Hes]%Forall_cons Hbud.
  assert (Hskip : forall tid, (forall r, asked r es <= asked r (e :: es)) ->
            exists m' tid' l g' f', Ret (m, (tid, Tau)) = Ret (m', (tid', l)) /\
              machine_inv m' g' f' /\ fifo_step (capacity (shared m)) f tid' l f' /\ in_budget m' g' es /\
              size (shared m') = size (shared m) /\ capacity (shared m') = capacity (shared m) /\
              zlen (ring (shared m')) = zlen (ring (shared m)) /\
              length (threads m') = length (threads m)).
  { intros tid Ha. exists m, tid, Tau, g, f. split_and!; try done; [constructor|].
    intros r. specialize (Hbud r). specialize (Ha r). lia. }
  destruct e as [tid j|tid sp]; cbn [machine_step].
  - assert (Ha : forall r, asked r es <= asked r (Call tid j :: es)).
    { intros r. cbn [asked]. destruct He as (_ & ? & _). case_decide; lia. }
    destruct (threads m !! tid) as [t|] eqn:Hl; [|by apply Hskip].
    destruct (resting t) eqn:Hrest; [|by apply Hskip].
    eexists _, tid, Tau, g, f. split; [done|]. cbn [shared threads].
    assert (Hnone : claim t = None /\ forall r, pending r t = 0).
    { unfold claim, holds, pending, resting in *. destruct (t_pc t); try done; split; try done;
        intros r; by case_decide. }
    destruct Hnone as [Hnone Hpend]. split_and!; try done.
    + by eapply inv_local; [..|split_and!].
    + constructor.
    + intros r. cbn [threads shared]. rewrite (all_pending_insert _ _ _ t) by done. rewrite Hpend.
      specialize (Hbud r). cbn [asked] in Hbud. unfold pending, t_role, t_max.
      cbn [start t_job t_pc]. case_decide; lia.
    + apply length_insert.
  - destruct (threads m !! tid) as [t|] eqn:Hl; [|by apply Hskip].
    destruct (thread_step_ok m g f tid t sp) as (rb & t' & l & g' & f' & E & Hi & Hf & Hg & H1 & H2 & H3);
      [done|done|..].
    { intros r. specialize (Hbud r). pose proof (all_pending_nonneg m g f r Hinv).
      pose proof (asked_nonneg _ es r Hes). cbn [asked] in Hbud. lia. }
    rewrite E. cbn [bind]. eexists _, tid, l, g', f'. split; [done|].
    cbn [shared threads]. split_and!; try done; [|apply length_insert].
    intros r. cbn [threads shared]. rewrite (all_pending_insert _ _ _ t) by done.
    pose proof (pending_step _ _ _ _ _ _ _ _ _ r (inv_threads _ _ _ Hinv tid t Hl) E).
    specialize (Hbud r). cbn [asked] in Hbud. rewrite Hg, H2. lia.
Qed.

Lemma machine_run_ok es : forall m g f,
  machine_inv m g f -> Forall (event_ok (shared m)) es -> in_budget m g es ->
  exists m' ls g' f', machine_run m es = Ret (m', ls) /\
    machine_inv m' g' f' /\ fifo_run (capacity (shared m)) f ls f' /\ in_budget m' g' [] /\
    size (shared m') = size (shared m) /\ capacity (shared m') = capacity (shared m) /\
    zlen (ring (shared m')) = zlen (ring (shared m)) /\ length (threads m') = length (threads m).
Proof.
  induction es as [|e es IH]; intros m g f Hinv Hes Hbud.
  { exists m, [], g, f. split_and!; try done. constructor. }
  destruct (machine_step_ok m g f e es)
    as (m1 & tid & l & g1 & f1 & E1 & Hi1 & Hf1 & Hb1 & Hs1 & Hc1 & Hl1 & Ht1); try done.
  apply Forall_cons in Hes as [_ Hes].
  destruct (IH m1 g1 f1) as (m2 & ls & g2 & f2 & E2 & Hi2 & Hf2 & Hb2 & Hs2 & Hc2 & Hl2 & Ht2);
    [done| |done|].
  { eapply Forall_impl; [done|]. intros [tid' j|tid' sp]; [|done]. cbn [event_ok].
    unfold job_ok. by rewrite Hs1, Hl1. }
  exists m2, ((tid, l) :: ls), g2, f2. cbn [machine_run]. rewrite E1. cbn [bind]. rewrite E2.
  rewrite Hc1 in Hf2. split_and!; try done; try congruence. by econstructor.
Qed.

End Invariant.

(** ** The start and rest *)

Definition idle_thread : thread := mk_thread (mk_job Producer [] 8 0 KT_RB_BEHAVIOR_VARIABLE) [] Idle.

(** A ring at rest, shared by [k] threads that have not called yet. *)
Definition init_machine (rb : kt_ringbuf) (k : nat) : machine := mk_machine rb (replicate k idle_thread).

(** The queue a ring at rest stands for. *)
Definition init_fifo (rb : kt_ringbuf) : fifo := mk_fifo (contents rb) 0 0 (fun _ => []) [].

Definition init_count (rb : kt_ringbuf) (r : role) : Z :=
  match r with Producer => head (cons rb) + used rb | Consumer => head (cons rb) end.

Definition init_ghost (rb : kt_ringbuf) : ghost :=
  mk_ghost (init_count rb) (init_count rb) (fun _ => 0).

Lemma init_inv rb k :
  ring_wf rb -> machine_inv (init_count rb) (init_machine rb k) (init_ghost rb) (init_fifo rb).
Proof.
  intros (Hp & Hm & Hc & Hl & Hh1 & Hh2 & Ht1 & Ht2 & Hu).
  pose proof (pow2_size_pos _ Hp). pose proof (used_nonneg rb). fold (used rb) in Hu.
  assert (E1 : u32 (head (cons rb) + used rb) = head (prod rb)).
  { unfold used, u32. rewrite Zplus_mod_idemp_r. rewrite Z.mod_small; lia. }
  assert (E2 : u32 (head (cons rb)) = head (cons rb)) by (by apply u32_id).
  constructor; cbn; try done; try lia.
  - intros []; cbn; congruence.
  - intros []; cbn; congruence.
  - intros []; cbn; lia.
  - intros tid t Hlk. apply lookup_replicate in Hlk as [-> _]. unfold thread_ok, job_ok. cbn.
    split_and!; (done || lia).
  - intros i j ti tj r ni nj _ Hi _ Hcl. by apply lookup_replicate in Hi as [-> _].
  - rewrite zlen_contents. lia.
  - intros j Hj. rewrite zlen_contents in Hj. by rewrite zget_contents.
Qed.

Lemma u32_add_mod s x y : pow2_size s -> (u32 x + y) mod s = (x + y) mod s.
Proof.
  intros Hp. by rewrite <- (Zplus_mod_idemp_l (u32 x)), u32_mod_size, Zplus_mod_idemp_l by done.
Qed.

(** When every thread rests the ring is at rest, and holds the queue. *)
Lemma resting_ring lo m g f :
  machine_inv lo m g f -> Forall (fun t => resting t = true) (threads m) ->
  ring_wf (shared m) /\ contents (shared m) = queue f.
Proof.
  intros Hinv Hrest. pose proof (pow2_size_pos _ (inv_size _ _ _ _ Hinv)).
  assert (Heq : forall r, g_t g r = g_h g r).
  { intros r. destruct (decide (g_t g r < g_h g r)) as [Hlt|]; [|pose proof (inv_order _ _ _ _ Hinv r); lia].
    destruct (inv_cover _ _ _ _ Hinv r (g_t g r)) as (tid & t & n & Hl & Hc & _); [lia|].
    rewrite Forall_lookup in Hrest. specialize (Hrest tid t Hl).
    unfold resting, claim, holds in *. by destruct (t_pc t). }
  pose proof (inv_head _ _ _ _ Hinv Producer) as Hh1. pose proof (inv_head _ _ _ _ Hinv Consumer) as Hh2.
  pose proof (inv_tail _ _ _ _ Hinv Producer) as Ht1. pose proof (inv_tail _ _ _ _ Hinv Consumer) as Ht2.
  cbn [own] in Hh1, Hh2, Ht1, Ht2.
  pose proof (inv_queue _ _ _ _ Hinv) as Hq. pose proof (inv_order _ _ _ _ Hinv Producer).
  pose proof (inv_order _ _ _ _ Hinv Consumer). pose proof (inv_cap _ _ _ _ Hinv).
  pose proof (Heq Producer). pose proof (Heq Consumer). cbn [limit] in *.
  assert (Hused : used (shared m) = zlen (queue f)).
  { unfold used. rewrite Hh1, Hh2. unfold u32.
    rewrite <- Zminus_mod, Z.mod_small; lia. }
  split.
  - unfold ring_wf. fold (used (shared m)). rewrite Hh1, Hh2, Ht1, Ht2, !Heq, Hused. pose proof (inv_ring _ _ _ _ Hinv).
    pose proof (u32_range (g_h g Producer)). pose proof (u32_range (g_h g Consumer)).
    split_and!; try (by destruct Hinv); (done || lia).
  - apply zget_ext; [by rewrite zlen_contents|]. intros j Hj. rewrite zlen_contents in Hj.
    rewrite zget_contents, Hh2 by done. rewrite <- (inv_words _ _ _ _ Hinv) by lia.
    f_equal. apply u32_add_mod, (inv_size _ _ _ _ Hinv).
Qed.

Lemma run_from_rest rb k es :
  ring_wf rb -> Forall (event_ok rb) es -> (forall r, asked r es + capacity rb < 2 ^ 32) ->
  exists m ls g f, machine_run (init_machine rb k) es = Ret (m, ls) /\
    machine_inv (init_count rb) m g f /\ fifo_run (capacity rb) (init_fifo rb) ls f /\
    in_budget (init_count rb) m g [] /\ size (shared m) = size rb /\ length (threads m) = k.
Proof.
  intros Hwf Hes Hbud.
  assert (Hp : forall r, all_pending r (replicate k idle_thread) = 0).
  { intros r. induction k as [|k' IH]; [done|]. cbn [replicate all_pending]. rewrite IH.
    unfold pending. cbn. by case_decide. }
  destruct (machine_run_ok (init_count rb) es (init_machine rb k) (init_ghost rb) (init_fifo rb))
    as (m & ls & g & f & E & Hi & Hf & Hb & Hs & _ & _ & Hlen); [by apply init_inv|done|..].
  { intros r. cbn [init_machine init_ghost g_h threads shared]. rewrite Hp. specialize (Hbud r). lia. }
  exists m, ls, g, f. split_and!; try done. by rewrite Hlen; cbn; rewrite length_replicate.
Qed.

Lemma held_position lo m g f tid t h n c :
  machine_inv lo m g f -> threads m !! tid = Some t -> holds t = Some (h, n, c) ->
  h = u32 (g_pos g tid) /\ claim t = Some (t_role t, n) /\
  g_t g (t_role t) <= g_pos g tid /\ g_pos g tid + n <= g_h g (t_role t).
Proof.
  intros Hinv Hl Hh. assert (Hc : claim t = Some (t_role t, n)) by (unfold claim; by rewrite Hh).
  destruct (inv_threads _ _ _ _ Hinv tid t Hl) as (_ & _ & Hpc). unfold holds in Hh.
  destruct (t_pc t); try done; injection Hh as <- <- <-; [|..|destruct Hpc as [Hpc _]];
    destruct Hpc as (-> & _ & _ & ? & ? & _); done.
Qed.

(** Everything handed out and everything still stored is what was there and
    what was delivered, in order. *)
Lemma fifo_run_order cap f ls f' :
  fifo_run cap f ls f' ->
  handed f' ++ queue f' = handed f ++ queue f ++ published ls.
Proof.
  induction 1 as [|f tid l f1 ls f2 Hs _ IH]; [by rewrite app_nil_r|].
  rewrite IH. clear IH. destruct Hs; cbn [published handed queue]; rewrite <- ?app_assoc; try done.
  by rewrite (app_assoc (zslice _ 0 n)), <- (zslice_split (queue f) n) by lia.
Qed.

(** ** Progress

    [weight] bounds the accesses a thread still needs while nobody else moves
    its head; a thread that has no reservation yet also pays for the retries its
    own reservation causes in the other [k] threads. *)
Definition weight (k : Z) (rb : kt_ringbuf) (t : thread) : Z :=
  let fresh h := head (own (t_role t) rb) =? h in
  match t_pc t with
  | Idle | Done _ _ _ => 0
  | StoreTail _ _ _ => 1
  | SpinTail _ _ _ => 2
  | Copy _ n _ i => 3 + (n - i)
  | Cas h _ _ => t_max t + 2 * k + (if fresh h then 4 else 6)
  | LoadTail h => t_max t + 2 * k + (if fresh h then 5 else 7)
  | LoadHead => t_max t + 2 * k + 6
  end.

Fixpoint total_weight (k : Z) (rb : kt_ringbuf) (ts : list thread) : Z :=
  match ts with [] => 0 | t :: ts => weight k rb t + total_weight k rb ts end.

Definition machine_weight (m : machine) : Z :=
  total_weight (zlen (threads m)) (shared m) (threads m).

Lemma total_weight_insert k rb rb' ts tid t t' c :
  ts !! tid = Some t -> 0 <= c -> (forall x, weight k rb' x <= weight k rb x + c) ->
  total_weight k rb' (<[tid := t']> ts) <=
    total_weight k rb ts - weight k rb t + weight k rb' t' + c * (zlen ts - 1).
Proof.
  intros Hl Hc Hw.
  assert (Hall : forall l, total_weight k rb' l <= total_weight k rb l + c * zlen l).
  { induction l as [|x l IH]; cbn [total_weight]; [unfold zlen; cbn; lia|].
    specialize (Hw x). rewrite zlen_cons. lia. }
  revert tid Hl. induction ts as [|x ts IH]; intros [|tid] Hl; try done; rewrite zlen_cons.
  - injection Hl as ->. cbn. specialize (Hall ts). lia.
  - specialize (IH tid Hl). specialize (Hw x).
    change (<[S tid := t']> (x :: ts)) with (x :: <[tid := t']> ts). cbn [total_weight]. lia.
Qed.

Lemma weight_set_own k r rb x t :
  weight k (set_own r rb x) t <= weight k rb t + (if head x =? head (own r rb) then 0 else 2).
Proof.
  unfold weight. rewrite own_set_own. destruct (t_pc t); repeat case_decide; subst;
    repeat case_match; zb; lia.
Qed.

Lemma weight_local k rb t rb' :
  prod rb' = prod rb -> cons rb' = cons rb -> weight k rb' t = weight k rb t.
Proof. intros E1 E2. unfold weight, own. rewrite E1, E2. done. Qed.

(** How a step changes the weight when it leaves the heads alone, and when it
    moves the head of its side. *)
Lemma weight_step_local m tid t t' rb' :
  threads m !! tid = Some t -> prod rb' = prod (shared m) -> cons rb' = cons (shared m) ->
  weight (zlen (threads m)) (shared m) t' < weight (zlen (threads m)) (shared m) t ->
  machine_weight (mk_machine rb' (<[tid := t']> (threads m))) < machine_weight m.
Proof.
  intros Hl E1 E2 Hw. unfold machine_weight. cbn [shared threads].
  replace (zlen (<[tid := t']> (threads m))) with (zlen (threads m))
    by (unfold zlen; by rewrite length_insert).
  assert (Hle : forall x, weight (zlen (threads m)) rb' x <= weight (zlen (threads m)) (shared m) x + 0).
  { intros x. rewrite (weight_local _ (shared m) _ rb') by done. lia. }
  pose proof (total_weight_insert (zlen (threads m)) (shared m) rb' (threads m) tid t t' 0 Hl
    ltac:(lia) Hle) as Hi.
  rewrite !(weight_local _ (shared m) t' rb') in Hi by done. lia.
Qed.

Lemma weight_step_own m tid t t' x :
  threads m !! tid = Some t ->
  let rb' := set_own (t_role t) (shared m) x in
  weight (zlen (threads m)) rb' t' +
    (if head x =? head (own (t_role t) (shared m)) then 0 else 2 * zlen (threads m)) <
    weight (zlen (threads m)) (shared m) t ->
  machine_weight (mk_machine rb' (<[tid := t']> (threads m))) < machine_weight m.
Proof.
  intros Hl rb' Hw. unfold machine_weight. cbn [shared threads].
  replace (zlen (<[tid := t']> (threads m))) with (zlen (threads m))
    by (unfold zlen; by rewrite length_insert).
  pose proof (total_weight_insert (zlen (threads m)) (shared m) rb' (threads m) tid t t'
    (if head x =? head (own (t_role t) (shared m)) then 0 else 2) Hl ltac:(step_if; lia)
    (fun y => weight_set_own _ _ _ _ y)) as Hi.
  revert Hi Hw. step_if; lia.
Qed.

(** A step without a spurious failure either changes nothing, because the thread
    rests or waits for its turn to move the tail, or brings all calls nearer to
    their end. *)
Lemma step_weight lo m g f tid t rb' t' l :
  machine_inv lo m g f -> threads m !! tid = Some t ->
  thread_step false (shared m) t = Ret (rb', t', l) ->
  rb' = shared m /\ t' = t /\
    (resting t = true \/ claim t <> None /\ g_pos g tid <> g_t g (t_role t)) \/
  machine_weight (mk_machine rb' (<[tid := t']> (threads m))) < machine_weight m.
Proof.
  intros Hinv Hl Hs. pose proof (inv_threads _ _ _ _ Hinv tid t Hl) as (Hj & Ht & Hh).
  pose proof Hj as (He & Hmax & _).
  unfold thread_step in Hs. unfold resting, claim, holds.
  destruct (t_pc t) eqn:Hpc.
  - injection Hs as <- <- <-. left. auto.
  - injection Hs as <- <- <-. right. eapply weight_step_local; try done. unfold weight. rewrite Hpc. cbn [goto t_pc].
    change (t_role (goto t _)) with (t_role t). change (t_max (goto t _)) with (t_max t).
    rewrite Z.eqb_refl. lia.
  - right. eapply weight_step_local; [done|by revert Hs; step_if; intros [= <- <- <-]..|].
    unfold weight. rewrite Hpc. revert Hs.
    step_if; intros [= <- <- <-]; cbn [goto t_pc].
    + unfold t_max. destruct (head (own (t_role t) (shared m)) =? old_head); zlia.
    + change (t_role (goto t _)) with (t_role t). change (t_max (goto t _)) with (t_max t).
      step_if; lia.
  - right. rewrite andb_true_r in Hs. destruct Hh as (Hn & _).
    destruct (head (own (t_role t) (shared m)) =? old_head) eqn:E; injection Hs as <- <- <-.
    + eapply weight_step_own; [done|]. unfold weight. rewrite Hpc, E. cbn [goto t_pc]. step_if; zlia.
    + eapply weight_step_local; try done. unfold weight. rewrite Hpc, E. cbn [goto t_pc].
      change (t_role (goto t _)) with (t_role t). change (t_max (goto t _)) with (t_max t).
      rewrite Z.eqb_refl. lia.
  - right. rewrite He, Z.eqb_refl in Hs. destruct Hh as (_ & Hn & Hi & _).
    destruct (i <? n) eqn:E; zb.
    + unfold copy_word in Hs. unfold t_max in Hn.
      assert (u32 (i + 1) = i + 1) by (apply u32_id; pose proof Hj as (_ & _ & ? & _); lia).
      eapply weight_step_local; [done|repeat case_match; inv_res; done..|].
      destruct (t_role t); inv_res; unfold weight; rewrite Hpc; cbn [t_pc]; lia.
    + injection Hs as <- <- <-. eapply weight_step_local; try done. unfold weight. rewrite Hpc. cbn [goto t_pc]. lia.
  - rewrite (inv_tail _ _ _ _ Hinv) in Hs.
    destruct (Z.eqb_spec (u32 (g_t g (t_role t))) old_head) as [E|E]; injection Hs as <- <- <-.
    + right. eapply weight_step_local; try done. unfold weight. rewrite Hpc. cbn [goto t_pc]. lia.
    + left. split_and!; try done. right. split; [done|]. destruct Hh as (-> & _). congruence.
  - right. injection Hs as <- <- <-. eapply weight_step_own; [done|]. cbn [head]. rewrite Z.eqb_refl.
    unfold weight. rewrite Hpc. cbn [goto t_pc]. lia.
  - injection Hs as <- <- <-. left. auto.
Qed.

Lemma machine_weight_nonneg lo m g f : machine_inv lo m g f -> 0 <= machine_weight m.
Proof.
  intros Hinv. unfold machine_weight. pose proof (zlen_nonneg (threads m)) as Hk.
  assert (Hall : forall t, t ∈ threads m -> 0 <= weight (zlen (threads m)) (shared m) t).
  { intros t (tid & Hl)%list_elem_of_lookup.
    destruct (inv_threads _ _ _ _ Hinv tid t Hl) as ((_ & ? & _) & _ & Hh).
    unfold weight, t_max. destruct (t_pc t); repeat step_if; try lia.
    destruct Hh as (_ & _ & ? & _). lia. }
  revert Hall Hk. generalize (zlen (threads m)). induction (threads m) as [|t ts IH]; intros k Hall Hk;
    cbn [total_weight]; [lia|].
  specialize (IH k ltac:(intros; apply Hall; by right) Hk). specialize (Hall t ltac:(left)). lia.
Qed.

(** While a thread is in a call, it or one that holds entries can bring the calls
    nearer to their end. *)
Lemma thread_progress lo m g f tid t :
  machine_inv lo m g f -> (forall r, g_h g r - lo r + capacity (shared m) < 2 ^ 32) ->
  threads m !! tid = Some t -> resting t = false ->
  exists tid' t' rb u l, threads m !! tid' = Some t' /\ resting t' = false /\
    (tid' = tid \/ claim t' <> None) /\ thread_step false (shared m) t' = Ret (rb, u, l) /\
    machine_weight (mk_machine rb (<[tid' := u]> (threads m))) < machine_weight m.
Proof.
  intros Hinv Hbud Hl Hr.
  assert (Hstep : forall i x, threads m !! i = Some x -> resting x = false ->
            (claim x <> None -> g_pos g i = g_t g (t_role x)) ->
            exists rb u l, thread_step false (shared m) x = Ret (rb, u, l) /\
              machine_weight (mk_machine rb (<[i := u]> (threads m))) < machine_weight m).
  { intros i x Hi Hx Hpos.
    destruct (thread_step_ok lo m g f i x false) as (rb & u & l & _ & _ & E & _); [done|done|done|].
    exists rb, u, l. split; [done|].
    destruct (step_weight lo m g f i x rb u l Hinv Hi E) as [(_ & _ & [?|[Hc Hne]])|]; [congruence| |done].
    by destruct Hne; apply Hpos. }
  destruct (claim t) as [[r n]|] eqn:Ec.
  - destruct (claim_bounds _ _ _ _ _ _ _ _ (inv_threads _ _ _ _ Hinv tid t Hl) Ec) as (-> & ? & ? & ?).
    destruct (inv_cover _ _ _ _ Hinv (t_role t) (g_t g (t_role t))) as (i & ti & k & Hi & Ci & Hp); [lia|].
    destruct (claim_bounds _ _ _ _ _ _ _ _ (inv_threads _ _ _ _ Hinv i ti Hi) Ci) as (Er & _ & ? & _).
    assert (Hri : resting ti = false) by (unfold resting, claim, holds in *; by destruct (t_pc ti)).
    destruct (Hstep i ti Hi Hri) as (rb & u & l & E & Hw); [intros _; rewrite <- Er; lia|].
    exists i, ti, rb, u, l. split_and!; try done. right. congruence.
  - destruct (Hstep tid t Hl Hr) as (rb & u & l & E & Hw); [done|].
    exists tid, t, rb, u, l. split_and!; try done. by left.
Qed.

(** Unless all threads rest, one of them can bring the calls nearer to their
    end. *)
Lemma some_progress lo m g f :
  machine_inv lo m g f -> in_budget lo m g [] ->
  Forall (fun t => resting t = true) (threads m) \/
  exists tid m' l g' f', machine_step m (Run tid false) = Ret (m', (tid, l)) /\
    machine_weight m' < machine_weight m /\ machine_inv lo m' g' f' /\ in_budget lo m' g' [].
Proof.
  intros Hinv Hbud.
  destruct (decide (Forall (fun t => resting t = true) (threads m))) as [|Hex]; [by left|right].
  apply not_Forall_Exists in Hex; [|apply _]. apply Exists_exists in Hex as (t & Hin & Hr).
  apply list_elem_of_lookup in Hin as (tid & Hl). apply not_true_is_false in Hr.
  destruct (thread_progress lo m g f tid t Hinv) as (i & x & rb & u & l & Hi & _ & _ & Es & Hw); [|done|done|].
  { intros r. specialize (Hbud r). pose proof (all_pending_nonneg lo m g f r Hinv). cbn [asked] in Hbud. lia. }
  destruct (machine_step_ok lo m g f (Run i false) []) as (m' & i' & l' & g' & f' & E & Hinv' & _ & Hb & _);
    [done|by repeat constructor|done|].
  cbn [machine_step] in E. rewrite Hi, Es in E. cbn [bind] in E. injection E as <- <- <-.
  exists i, (mk_machine rb (<[i := u]> (threads m))), l, g', f'. cbn [machine_step]. by rewrite Hi, Es.
Qed.

(** The calls in progress can always be completed. *)
Lemma can_finish lo m g f :
  machine_inv lo m g f -> in_budget lo m g [] ->
  exists es m' ls, machine_run m es = Ret (m', ls) /\
    Forall (fun e => exists tid, e = Run tid false) es /\ zlen es <= machine_weight m /\
    Forall (fun t => resting t = true) (threads m').
Proof.
  remember (Z.to_nat (machine_weight m)) as w eqn:Ew. revert m g f Ew.
  induction w as [w IH] using lt_wf_ind. intros m g f -> Hinv Hbud.
  pose proof (machine_weight_nonneg lo m g f Hinv).
  destruct (some_progress lo m g f Hinv Hbud)
    as [Hrest|(tid & m1 & l & g1 & f1 & E & Hw & Hinv1 & Hbud1)].
  { exists [], m, []. split_and!; try done. }
  pose proof (machine_weight_nonneg lo m1 g1 f1 Hinv1).
  destruct (IH (Z.to_nat (machine_weight m1)) ltac:(lia) m1 g1 f1 eq_refl Hinv1 Hbud1)
    as (es & m2 & ls & E2 & Hes & Hlen & Hrest).
  exists (Run tid false :: es), m2, ((tid, l) :: ls). cbn [machine_run]. rewrite E. cbn [bind].
  rewrite E2. split_and!; try done; [constructor; eauto|]. rewrite zlen_cons. lia.
Qed.

(** ** One thread alone *)

(** A call that nobody interrupts. *)
Fixpoint run_alone (fuel : nat) (rb : kt_ringbuf) (t : thread) : res (kt_ringbuf * thread) :=
  match fuel with
  | O => Diverge
  | S fuel =>
      if resting t then Ret (rb, t)
      else let* (rb, t, _) := thread_step false rb t in run_alone fuel rb t
  end.

(** The copy phase of a thread alone is [blit]. *)
Lemma alone_copy k : forall fuel rb t h n avail i,
  t_pc t = Copy h n avail i -> j_esize (t_job t) = 8 -> i + Z.of_nat k = n -> 0 <= i ->
  pow2_size (size rb) -> mask rb = size rb - 1 -> zlen (ring rb) < 2 ^ 31 ->
  n <= zlen (t_table t) < 2 ^ 31 -> h mod size rb + n <= zlen (ring rb) ->
  run_alone (k + fuel) rb t =
    match t_role t with
    | Producer =>
        run_alone fuel (set_ring rb (blit k (ring rb) (h mod size rb + i) (t_table t) i))
          (goto t (Copy h n avail n))
    | Consumer =>
        run_alone fuel rb
          (mk_thread (t_job t) (blit k (t_table t) i (ring rb) (h mod size rb + i)) (Copy h n avail n))
    end.
Proof.
  induction k as [|k IH]; intros fuel rb t h n avail i Hpc He Hi Hi0 Hp Hm Hl Ht Hroom.
  - assert (i = n) as -> by lia. destruct t as [j tb p], rb; cbn in Hpc; subst p.
    by destruct (t_role _).
  - cbn [Nat.add run_alone]. unfold resting at 1. rewrite Hpc. unfold thread_step. rewrite Hpc, He, Z.eqb_refl.
    rewrite (proj2 (Z.ltb_lt i n)) by lia. pose proof (pow2_size_pos _ Hp).
    pose proof (Z.mod_pos_bound h (size rb) ltac:(lia)).
    unfold copy_word. destruct (t_role t) eqn:Hr.
    + rewrite znth_get by lia. cbn [bind]. rewrite Hm, land_mask, u32_id, zset_upd by (done || lia).
      cbn [bind]. rewrite u32_id by lia. erewrite IH; try done; cbn [t_job t_table size mask set_ring ring];
        rewrite ?zlen_zupd; try done; try lia.
      change (t_role (mk_thread _ _ _)) with (t_role t). rewrite Hr. cbn [blit].
      rewrite Z.add_assoc. done.
    + rewrite (u32_id (size rb - 1)), land_mask, u32_id, znth_get by (done || lia). cbn [bind].
      rewrite zset_upd by lia. cbn [bind]. rewrite u32_id by lia.
      erewrite IH; try done; cbn [t_job t_table]; rewrite ?zlen_zupd; try done; try lia.
      change (t_role (mk_thread _ _ _)) with (t_role t). rewrite Hr. cbn [blit].
      rewrite Z.add_assoc. done.
Qed.

Lemma run_alone_S fuel rb t :
  run_alone (S fuel) rb t =
    if resting t then Ret (rb, t)
    else let* (rb, t, _) := thread_step false rb t in run_alone fuel rb t.
Proof. done. Qed.

(** Symbolic execution of the next access of a call. *)
Ltac alone_step :=
  rewrite run_alone_S; unfold resting, thread_step, goto, t_role, t_max; cbn [t_pc t_job t_table bind].

(** What there is to reserve in a ring at rest. *)
Definition room (r : role) (rb : kt_ringbuf) : Z :=
  match r with Producer => capacity rb - used rb | Consumer => used rb end.

Lemma available_rest r rb : ring_wf rb -> available r rb (head (own r rb)) = room r rb.
Proof.
  intros (Hp & _ & Hc & _ & _ & _ & Htp & Htc & Hu). fold (used rb) in Hu.
  pose proof (pow2_size_pos _ Hp). pose proof (used_nonneg rb).
  destruct r; cbn [available own room]; rewrite ?Htp, ?Htc; fold (used rb); [|done].
  by rewrite u32_id by lia.
Qed.

Lemma alone_call rb j :
  ring_wf rb -> j_esize j = 8 -> 0 <= j_max j <= zlen (j_table j) -> zlen (j_table j) < 2 ^ 31 ->
  let h := head (own (j_role j) rb) in
  h mod size rb + j_max j <= zlen (ring rb) ->
  let k := granted (j_behavior j) (j_max j) (room (j_role j) rb) in
  run_alone (Z.to_nat (j_max j) + 8) rb (start j) =
    match j_role j with
    | Producer =>
        Ret (if k =? 0 then rb else enqueued rb (j_table j) k,
             mk_thread j (j_table j) (Done h k (room Producer rb - k)))
    | Consumer =>
        Ret (if k =? 0 then rb else dequeued rb k,
             mk_thread j (blit (Z.to_nat k) (j_table j) 0 (ring rb) (h mod size rb))
               (Done h k (room Consumer rb - k)))
    end.
Proof.
  intros Hwf He Hmax Htab h Hroom k.
  pose proof Hwf as (Hp & Hm & Hc & Hl & Hph & Hch & Htp & Htc & Hu). fold (used rb) in Hu.
  pose proof (pow2_size_pos _ Hp). pose proof (used_nonneg rb).
  assert (Hr0 : 0 <= room (j_role j) rb) by (destruct (j_role j); cbn [room]; lia).
  assert (Hr1 : room (j_role j) rb < 2 ^ 31) by (destruct (j_role j); cbn [room]; lia).
  assert (Htl : tail (own (j_role j) rb) = h) by (unfold h; by destruct (j_role j)).
  pose proof (granted_bounds (j_behavior j) (j_max j) (room (j_role j) rb) ltac:(lia) Hr0) as Hk.
  fold k in Hk. pose proof (Z.mod_pos_bound h (size rb) ltac:(lia)).
  replace (Z.to_nat (j_max j) + 8)%nat with (S (S (S (Z.to_nat (j_max j) + 5)))) by lia.
  assert (Ha : available (j_role j) rb h = room (j_role j) rb) by (by apply available_rest).
  unfold start. alone_step. fold h. alone_step. rewrite !Ha. fold k.
  destruct (Z.eqb_spec k 0) as [E|E]; cbn [bind].
  { alone_step. rewrite E, !Z.sub_0_r. by destruct (j_role j). }
  alone_step. fold h. rewrite Z.eqb_refl, Htl. cbn [andb negb bind].
  replace (Z.to_nat (j_max j) + 5)%nat
    with (Z.to_nat k + S (S (S (S (Z.to_nat (j_max j - k) + 1)))))%nat by lia.
  destruct (set_own_same (j_role j) rb (mk_headtail (u32 (h + k)) h)) as (Es & Em & Ec & El).
  erewrite alone_copy; try done; try lia; rewrite ?Es, ?Em, ?El; try done; try lia;
    cbn [t_table]; try lia.
  change (t_role _) with (j_role j). rewrite Z.add_0_r.
  destruct (j_role j) eqn:Hrole; unfold goto; cbn [t_job t_table];
    (alone_step; rewrite He, Z.eqb_refl, Z.ltb_irrefl; cbn [bind];
     alone_step; rewrite Hrole; cbn [own set_own set_ring set_prod set_cons prod cons tail];
     rewrite Z.eqb_refl; cbn [bind]; alone_step;
     rewrite Hrole; cbn [own set_own set_ring set_prod set_cons prod cons tail head];
     rewrite (u32_id (room _ _ - k)) by lia; by alone_step).
Qed.

(** ** Properties *)

(** The rings of the witnesses: two producers and a consumer on [ring_demo]. *)
Definition demo_put (x : Z) : job := mk_job Producer [x] 8 1 KT_RB_BEHAVIOR_VARIABLE.
Definition demo_get : job := mk_job Consumer [0; 0] 8 2 KT_RB_BEHAVIOR_VARIABLE.

(** Thread 0 loads the head, thread 1 overtakes it with a whole call while
    thread 2 takes two words. *)
Definition demo_schedule : list event :=
  [Call 0 (demo_put 10); Call 1 (demo_put 11); Call 2 demo_get; Run 0 false; Run 0 false] ++
  replicate 4 (Run 1 false) ++ replicate 3 (Run 2 false) ++ [Run 0 false; Run 1 true] ++
  replicate 8 (Run 0 false) ++ replicate 4 (Run 1 false) ++ replicate 9 (Run 2 false) ++
  replicate 2 (Run 0 false).

Lemma demo_schedule_ok :
  Forall (event_ok ring_demo) demo_schedule /\
  forall r, asked r demo_schedule + capacity ring_demo < 2 ^ 32.
Proof.
  split; [|intros []; zcompute]. unfold demo_schedule. cbn [app replicate].
  repeat (apply Forall_cons; split); try exact I; try apply Forall_nil; zcompute.
Qed.

(** Where it ends. *)
Definition demo_end : machine * list (nat * label) := Eval vm_compute in
  match machine_run (init_machine ring_demo 3) demo_schedule with
  | Ret x => x
  | _ => (init_machine ring_demo 3, [])
  end.

Lemma demo_end_eq : machine_run (init_machine ring_demo 3) demo_schedule = Ret (demo_end.1, demo_end.2).
Proof. vm_compute. reflexivity. Qed.

Lemma demo_end_resting : Forall (fun t => resting t = true) (threads demo_end.1).
Proof. repeat (apply Forall_cons; split); try apply Forall_nil; reflexivity. Qed.

(** C5: several producers (each adding one word) and consumers work on a ring at
    the same time in any interleaving, with any spurious failures of the
    compare-and-exchange.  No step is undefined, and the run is one of the
    queue with reservations: words come out exactly once and in the order in
    which producers published them, a call returns 0 only when there really was
    no room or too little to read, and a consumer that returned has in its
    table the words that were handed to it, as far as they lie before the end of
    the ring.  When all threads rest, the ring is well formed and stores exactly
    the remaining words.  All this as long as fewer words are requested than the
    32-bit counters count. *)
Theorem concurrent_ring_is_fifo rb k es :
  ring_wf rb -> Forall (event_ok rb) es -> (forall r, asked r es + capacity rb < 2 ^ 32) ->
  exists m ls f, machine_run (init_machine rb k) es = Ret (m, ls) /\
    fifo_run (capacity rb) (init_fifo rb) ls f /\
    handed f ++ queue f = contents rb ++ published ls /\
    (forall tid t old_head n space j,
       threads m !! tid = Some t -> t_role t = Consumer -> t_pc t = Done old_head n space ->
       0 <= j < n -> old_head mod size rb + j < size rb ->
       zlen (given f tid) = n /\ zget (t_table t) j = zget (given f tid) j) /\
    (Forall (fun t => resting t = true) (threads m) ->
     ring_wf (shared m) /\ contents (shared m) = queue f).
Proof.
  intros Hwf Hes Hbud.
  destruct (run_from_rest rb k es Hwf Hes Hbud) as (m & ls & g & f & E & Hinv & Hf & _ & Hs & _).
  exists m, ls, f. split_and!; try done.
  - apply (fifo_run_order _ _ _ _ Hf).
  - intros tid t h n sp j Hl Hr Hpc Hj Hin.
    destruct (inv_threads _ _ _ _ Hinv tid t Hl) as (_ & _ & Hd). rewrite Hpc, Hs, Hr in Hd.
    destruct Hd as [->|[?|[H1 H2]]]; [lia|done|]. split; [done|]. by apply H2.
  - apply (resting_ring _ _ _ _ Hinv).
Qed.

Lemma concurrent_ring_is_fifo_witness :
  exists m ls f, machine_run (init_machine ring_demo 3) demo_schedule = Ret (m, ls) /\
    published ls = [11; 10] /\ handed f ++ queue f = [1; 2; 3; 4; 5; 11; 10] /\
    ring_wf (shared m) /\ contents (shared m) = [3; 4; 5; 11; 10].
Proof.
  destruct (concurrent_ring_is_fifo ring_demo 3 demo_schedule)
    as (m & ls & f & E & _ & Ho & _ & Hrest); [exact ring_demo_wf|exact (proj1 demo_schedule_ok)|exact (proj2 demo_schedule_ok)|].
  rewrite demo_end_eq in E. injection E as <- <-. exists demo_end.1, demo_end.2, f.
  split; [exact demo_end_eq|]. split; [vm_compute; reflexivity|]. split; [exact Ho|].
  destruct (Hrest demo_end_resting) as [Hw _]. split; [exact Hw|vm_compute; reflexivity].
Defined.

(** C15: no two threads ever touch the same slot.  Whatever the interleaving,
    the entries held by two threads, both adding, both removing or one of each,
    are in different slots of the ring, and together with the stored words they
    never exceed the capacity. *)
Theorem held_slots_are_disjoint rb k es :
  ring_wf rb -> Forall (event_ok rb) es -> (forall r, asked r es + capacity rb < 2 ^ 32) ->
  exists m ls, machine_run (init_machine rb k) es = Ret (m, ls) /\
    forall i j ti tj hi hj ni nj ci cj a b,
      i <> j -> threads m !! i = Some ti -> threads m !! j = Some tj ->
      holds ti = Some (hi, ni, ci) -> holds tj = Some (hj, nj, cj) ->
      0 <= a < ni -> 0 <= b < nj -> (hi + a) mod size rb <> (hj + b) mod size rb.
Proof.
  intros Hwf Hes Hbud.
  destruct (run_from_rest rb k es Hwf Hes Hbud) as (m & ls & g & f & E & Hinv & _ & _ & <- & _).
  exists m, ls. split; [done|]. intros i j ti tj hi hj ni nj ci cj a b Hne Hi Hj Hhi Hhj Ha Hb.
  destruct (held_position _ _ _ _ i ti hi ni ci Hinv Hi Hhi) as (-> & Ci & Bi).
  destruct (held_position _ _ _ _ j tj hj nj cj Hinv Hj Hhj) as (-> & Cj & Bj).
  rewrite !(u32_add_mod _ _ _ (inv_size _ _ _ _ Hinv)).
  apply (slot_ne (init_count rb) m g f (t_role tj) (t_role ti)); [done|lia|left; lia|].
  destruct (decide (t_role ti = t_role tj)) as [Er|Er].
  - rewrite Er in Ci. destruct (inv_disjoint _ _ _ _ Hinv i j ti tj _ ni nj Hne Hi Hj Ci Cj); lia.
  - pose proof (inv_order _ _ _ _ Hinv Consumer). cbn [limit] in *.
    destruct (t_role ti), (t_role tj); try done; lia.
Qed.

Lemma held_slots_are_disjoint_witness :
  exists m ls, machine_run (init_machine ring_demo 3) (take 16 demo_schedule) = Ret (m, ls) /\
    exists t0 t2, threads m !! 0%nat = Some t0 /\ threads m !! 2%nat = Some t2 /\
      holds t0 = Some (4, 1, 0) /\ holds t2 = Some (4294967294, 2, 0) /\
      (4 + 0) mod 8 <> (4294967294 + 1) mod 8.
Proof.
  destruct (held_slots_are_disjoint ring_demo 3 (take 16 demo_schedule)) as (m & ls & E & H).
  - exact ring_demo_wf.
  - apply Forall_take. exact (proj1 demo_schedule_ok).
  - intros []; zcompute.
  - exists m, ls. split; [exact E|].
    assert (E' : exists t0 t2, threads m !! 0%nat = Some t0 /\ threads m !! 2%nat = Some t2 /\
              holds t0 = Some (4, 1, 0) /\ holds t2 = Some (4294967294, 2, 0)).
    { vm_compute in E. injection E as <- <-. eexists _, _. repeat split. }
    destruct E' as (t0 & t2 & L0 & L2 & H0 & H2). exists t0, t2.
    split; [exact L0|]. split; [exact L2|]. split; [exact H0|]. split; [exact H2|].
    apply (H 0%nat 2%nat t0 t2 4 4294967294 1 2 0 0 0 1); [discriminate|exact L0|exact L2|exact H0|exact H2|lia..].
Defined.

(** The ring never blocks for good.  After any run, the calls in progress
    can all be completed: scheduling steps of the threads, without a new call
    and without a spurious failure, leads to a state where every call has
    returned, within [machine_weight] steps. *)
Theorem concurrent_calls_can_finish rb k es :
  ring_wf rb -> Forall (event_ok rb) es -> (forall r, asked r es + capacity rb < 2 ^ 32) ->
  exists m ls, machine_run (init_machine rb k) es = Ret (m, ls) /\
    exists es' m' ls', machine_run m es' = Ret (m', ls') /\
      Forall (fun e => exists tid, e = Run tid false) es' /\ zlen es' <= machine_weight m /\
      Forall (fun t => resting t = true) (threads m').
Proof.
  intros Hwf Hes Hbud.
  destruct (run_from_rest rb k es Hwf Hes Hbud) as (m & ls & g & f & E & Hinv & _ & Hb & _).
  exists m, ls. split; [done|]. apply (can_finish _ _ _ _ Hinv Hb).
Qed.

Lemma concurrent_calls_can_finish_witness :
  exists m ls, machine_run (init_machine ring_demo 3) (take 17 demo_schedule) = Ret (m, ls) /\
    exists es' m' ls', machine_run m es' = Ret (m', ls') /\
      Forall (fun t => resting t = true) (threads m').
Proof.
  destruct (concurrent_calls_can_finish ring_demo 3 (take 17 demo_schedule))
    as (m & ls & E & es' & m' & ls' & E' & _ & _ & H).
  - exact ring_demo_wf.
  - apply Forall_take. exact (proj1 demo_schedule_ok).
  - intros []; zcompute.
  - exists m, ls. split; [exact E|]. exists es', m', ls'. split; [exact E'|exact H].
Defined.

(** A call that nobody interrupts does exactly what the sequential
    translation of the code computes, for every request and both behaviours,
    also where the copy runs past the end of the ring: the step-wise threads and
    [__kt_ringbuf_do_enqueue_elems] or [__kt_ringbuf_do_dequeue_elems] describe
    the same operation. *)
Theorem uninterrupted_call_is_sequential rb j :
  ring_wf rb -> j_esize j = 8 -> 0 <= j_max j <= zlen (j_table j) -> zlen (j_table j) < 2 ^ 31 ->
  let h := head (own (j_role j) rb) in
  h mod size rb + j_max j <= zlen (ring rb) ->
  run_alone (Z.to_nat (j_max j) + 8) rb (start j) =
    match j_role j with
    | Producer =>
        let* (k, space, rb') :=
          __kt_ringbuf_do_enqueue_elems 0 rb (j_table j) (j_esize j) (j_max j) (j_behavior j) in
        Ret (rb', mk_thread j (j_table j) (Done h k space))
    | Consumer =>
        let* (k, space, tbl, rb') :=
          __kt_ringbuf_do_dequeue_elems 0 rb (j_table j) (j_esize j) (j_max j) (j_behavior j) in
        Ret (rb', mk_thread j tbl (Done h k space))
    end.
Proof.
  intros Hwf He Hmax Htab h Hroom. rewrite alone_call by done. rewrite He.
  pose proof (used_nonneg rb). pose proof Hwf as (_ & _ & _ & _ & _ & _ & _ & _ & Hu).
  fold (used rb) in Hu. fold h.
  assert (Hk : 0 <= room (j_role j) rb) by (destruct (j_role j); cbn [room]; lia).
  pose proof (granted_bounds (j_behavior j) (j_max j) _ ltac:(lia) Hk).
  unfold h in *. destruct (j_role j); cbn [own room] in *.
  - by rewrite do_enqueue_spec by (done || lia).
  - by rewrite do_dequeue_spec by (done || lia).
Qed.

Lemma uninterrupted_call_is_sequential_witness :
  run_alone 10 ring_demo (start demo_get) =
    let* (k, space, tbl, rb') :=
      __kt_ringbuf_do_dequeue_elems 0 ring_demo [0; 0] 8 2 KT_RB_BEHAVIOR_VARIABLE in
    Ret (rb', mk_thread demo_get tbl (Done 4294967294 k space)).
Proof.
  apply (uninterrupted_call_is_sequential ring_demo demo_get); [exact ring_demo_wf|reflexivity|zcompute..].
Defined.
