(* ===== verification/RingClient.v ===== *)
(** * A ring as its clients see it (src/src/kt_ringbuf.c)

    What the applications and the daemon may rely on when they call
    [kt_ringbuf_enqueue_burst] with one word or [kt_ringbuf_dequeue_burst] while
    others do the same: each access of a call moves words only between the queue
    and the caller.  The clients see a ring through [ring_ok] and the lemmas of
    this file only; they follow from the invariant of RingConc.v. *)

From S2P Require Import RingConc Prelude RingBuf.

(** The two calls the program makes. *)
Definition put_job (i : Z) : job := mk_job Producer [i] 8 1 KT_RB_BEHAVIOR_VARIABLE.
Definition get_job (table : list Z) (n : Z) : job := mk_job Consumer table 8 n KT_RB_BEHAVIOR_VARIABLE.

(** The words a call has taken from the queue. *)
Definition got (f : fifo) (tid : nat) (t : thread) : list Z :=
  match t_pc t with
  | Copy _ _ _ _ | SpinTail _ _ _ | StoreTail _ _ _ => given f tid
  | Done _ n _ => if n =? 0 then [] else given f tid
  | _ => []
  end.

(** The entries a thread holds in a ring. *)
Definition claim_size (t : thread) : Z := match claim t with Some (_, n) => n | None => 0 end.

(** [n] bounds the accesses made so far: a counter moves by at most 8 words in
    one of them. *)
Definition ring_ok (lo : role -> Z) (n : Z) (m : machine) (f : fifo) : Prop :=
  exists g, machine_inv lo m g f /\ (forall r, g_h g r - lo r <= 8 * n) /\
    claimed f + unreleased f = sum_by claim_size (threads m).

(** What a step leaves as it is. *)
Definition same_shape (rb rb' : kt_ringbuf) : Prop :=
  size rb' = size rb /\ capacity rb' = capacity rb /\ zlen (ring rb') = zlen (ring rb).

(** The words of a dequeue lie before the end of the ring, and are no more than
    it asked for. *)
Definition in_ring (rb : kt_ringbuf) (t : thread) : Prop :=
  match t_pc t with
  | Copy h n _ _ | SpinTail h n _ | StoreTail h n _ | Done h n _ =>
      0 <= n <= t_max t /\ h mod size rb + n <= size rb
  | _ => True
  end.

(** The next access of a dequeue does not reserve words across the end. *)
Definition reserves_in_ring (rb : kt_ringbuf) (t : thread) : Prop :=
  match t_pc t with Cas h n _ => h mod size rb + n <= size rb | _ => True end.

Section Client.
Variable lo : role -> Z.

Lemma ring_call n m f tid t j :
  ring_ok lo n m f -> threads m !! tid = Some t -> resting t = true -> job_ok (shared m) j ->
  ring_ok lo n (mk_machine (shared m) (<[tid := start j]> (threads m))) f.
Proof.
  intros (g & Hinv & Hn & Hc) Hl Hr Hj. exists g.
  assert (Ht : claim t = None) by (unfold claim, holds, resting in *; by destruct (t_pc t)).
  split_and!; [|done|].
  - by eapply inv_local; [..|split_and!].
  - cbn [threads]. rewrite (sum_by_insert _ _ _ t) by done. unfold claim_size at 2 3. rewrite Ht.
    cbn. lia.
Qed.

(** The effect of one access on the queue, by what it shows. *)
Lemma step_claims sp rb t rb' t' l cap f tid f' g :
  thread_step sp rb t = Ret (rb', t', l) -> fifo_step cap f tid l f' -> thread_ok lo rb g f tid t ->
  claimed f' + unreleased f' - (claimed f + unreleased f) = claim_size t' - claim_size t /\
  t_job t' = t_job t.
Proof.
  intros Hst Hf (Hj & Ht & Hh). pose proof Hj as (_ & Hmax & _). unfold claim_size, claim, holds.
  unfold thread_step, goto in Hst.
  destruct (t_pc t) eqn:Hpc; revert Hst; repeat step_if; intros Hst; inv_res; repeat case_match; inv_res;
    cbn [t_pc t_job] in *; rewrite ?Hpc in *; simplify_eq;
    inversion Hf; subst; cbn [claimed unreleased]; try (split; [lia|done]).
  all: destruct Hh as [(_ & Hn & _) _]; unfold t_max in *;
    match goal with |- context [zlen (zslice _ 0 ?k)] => rewrite (zlen_zslice _ 0 k) by lia end;
    split; [lia|done].
Qed.

Lemma pending_bounds r t : 0 <= t_max t <= 8 -> 0 <= pending r t <= 8.
Proof. intros H. unfold pending. case_decide; [destruct (t_pc t)|]; lia. Qed.

Lemma ring_step n m f tid t sp :
  ring_ok lo n m f -> threads m !! tid = Some t -> t_max t <= 8 ->
  8 * n + capacity (shared m) < 2 ^ 32 ->
  exists rb t' l f', thread_step sp (shared m) t = Ret (rb, t', l) /\
    ring_ok lo (n + 1) (mk_machine rb (<[tid := t']> (threads m))) f' /\
    fifo_step (capacity (shared m)) f tid l f' /\ t_job t' = t_job t /\ same_shape (shared m) rb.
Proof.
  intros (g & Hinv & Hn & Hc) Hl Hmax Hb. pose proof (inv_threads _ _ _ _ Hinv tid t Hl) as Hok.
  destruct (thread_step_ok lo m g f tid t sp) as (rb & t' & l & g' & f' & E & Hi & Hf & Hg & H1 & H2 & H3);
    [done|done|intros r; specialize (Hn r); lia|].
  exists rb, t', l, f'. destruct (step_claims _ _ _ _ _ _ _ _ _ _ _ E Hf Hok) as [Hcl Hjob].
  split_and!; try done. exists g'. split_and!; [done| |].
  - intros r. rewrite Hg. specialize (Hn r). pose proof (pending_step _ _ _ _ _ _ _ _ _ _ r Hok E) as Hp.
    pose proof Hok as ((_ & Hm & _) & _). pose proof (pending_bounds r t ltac:(unfold t_max in *; lia)).
    pose proof (pending_bounds r t' ltac:(unfold t_max in *; rewrite Hjob; lia)). lia.
  - cbn [threads]. rewrite (sum_by_insert _ _ _ t) by done. lia.
Qed.

(** A thread that has called is never idle again. *)
Lemma step_not_idle sp rb t rb' t' l :
  thread_step sp rb t = Ret (rb', t', l) -> t_pc t <> Idle -> t_pc t' <> Idle.
Proof.
  unfold thread_step, goto. destruct (t_pc t) eqn:Hpc; repeat step_if; intros HE Hid; inv_res;
    repeat case_match; inv_res; cbn [t_pc]; congruence.
Qed.

(** ** Putting a word *)

(** One access of an enqueue: the word goes to the queue with the last one, or
    the call is refused because the ring has no room, or nothing is visible. *)
Lemma put_step n m f tid t i sp :
  ring_ok lo n m f -> threads m !! tid = Some t -> t_job t = put_job i -> t_table t = [i] ->
  resting t = false -> 8 * n + capacity (shared m) < 2 ^ 32 ->
  exists rb t' l f', thread_step sp (shared m) t = Ret (rb, t', l) /\
    ring_ok lo (n + 1) (mk_machine rb (<[tid := t']> (threads m))) f' /\
    t_job t' = put_job i /\ t_table t' = [i] /\ same_shape (shared m) rb /\ given f' = given f /\
    (l = Commit Producer [i] /\ queue f' = queue f ++ [i] /\ (exists h s, t_pc t' = Done h 1 s) \/
     (forall ws, l <> Commit Producer ws) /\ queue f' = queue f /\
     (resting t' = false \/ capacity (shared m) < occupied f + 1 /\ claim t = None)).
Proof.
  intros Hok Hl Hj Htb Hr Hb.
  destruct (ring_step n m f tid t sp) as (rb & t' & l & f' & E & Hok' & Hf & Hjob & Hsh);
    [done|done|unfold t_max; rewrite Hj; cbn; lia|done|].
  exists rb, t', l, f'. rewrite Hj in Hjob. split_and!; try done.
  1: { unfold thread_step, copy_word, t_role, goto in E. rewrite Hj, Htb in E. cbn [j_role put_job] in E.
       destruct (t_pc t); revert E; repeat step_if; intros HE; inv_res; repeat case_match; inv_res; done. }
  all: destruct Hok as (g & Hinv & _ & _); pose proof (inv_threads _ _ _ _ Hinv tid t Hl) as (_ & _ & Hh).
  all: unfold thread_step, t_role, t_max, goto in E; rewrite Hj, ?Htb in E; cbn [j_role j_max put_job] in E.
  - destruct (t_pc t); revert E; repeat step_if; intros HE; inv_res; repeat case_match; inv_res;
      inversion Hf; subst; done.
  - destruct (t_pc t) eqn:Hpc; revert E; repeat step_if; intros HE; inv_res; repeat case_match; inv_res;
      inversion Hf; subst; try done; unfold resting; cbn [t_pc queue];
      try (by right; split_and!; [done|done|left]).
    + right. split_and!; try done. right. unfold claim, holds. rewrite Hpc.
      split; [|done]. match goal with H : need _ <= 0 \/ _ |- _ => cbn in H; lia end.
    + left. destruct Hh as [(_ & Hn & _) _]. unfold t_max in Hn. rewrite Hj in Hn. cbn in Hn.
      assert (n0 = 1) as -> by lia. split_and!; [done|done|]. eauto.
Qed.

(** ** Getting words *)

(** One access of a dequeue: what it has taken and what is in the queue stay the
    same together, in order. *)
Lemma get_step n m f tid t tb k sp :
  ring_ok lo n m f -> threads m !! tid = Some t -> t_job t = get_job tb k -> k <= 8 ->
  resting t = false -> 8 * n + capacity (shared m) < 2 ^ 32 ->
  exists rb t' l f', thread_step sp (shared m) t = Ret (rb, t', l) /\
    ring_ok lo (n + 1) (mk_machine rb (<[tid := t']> (threads m))) f' /\
    t_job t' = get_job tb k /\ same_shape (shared m) rb /\
    (forall j, j <> tid -> given f' j = given f j) /\ (forall ws, l <> Commit Producer ws) /\
    got f' tid t' ++ queue f' = got f tid t ++ queue f /\
    (in_ring (shared m) t -> reserves_in_ring (shared m) t -> in_ring rb t').
Proof.
  intros Hok Hl Hj Hk Hr Hb.
  destruct (ring_step n m f tid t sp) as (rb & t' & l & f' & E & Hok' & Hf & Hjob & Hsh);
    [done|done|unfold t_max; rewrite Hj; cbn; lia|done|].
  exists rb, t', l, f'. split_and!; try done; [by rewrite Hjob, Hj| | | |].
  all: destruct Hok as (g & Hinv & _ & _); pose proof (inv_threads _ _ _ _ Hinv tid t Hl) as ((_ & Hm & _) & _ & Hh).
  all: pose proof (pow2_size_pos _ (inv_size _ _ _ _ Hinv)) as Hpos; destruct Hsh as (Es & _ & _).
  all: unfold thread_step, t_role, t_max, goto, reserves_in_ring, in_ring, got, t_max in *; rewrite Hj in *;
    cbn [j_role j_max get_job] in *.
  all: destruct (t_pc t) eqn:Hpc; unfold resting in Hr; rewrite Hpc in Hr; try done;
    revert E; repeat step_if; intros HE; inv_res;
    repeat match goal with x : (_ * _)%type |- _ => destruct x end; inv_res;
    inversion Hf; subst; try done; cbn [queue t_pc given t_job j_max] in *; rewrite ?Hj, ?Hpc; cbn [j_max];
    rewrite ?Es; try done.
  - intros j Hne. by rewrite fn_lookup_insert_ne.
  - rewrite fn_lookup_insert. cbn [app]. symmetry. apply zslice_split. lia.
  - destruct Hh as [(_ & Hn & _) _]. by rewrite (proj2 (Z.eqb_neq _ _)) by lia.
  - intros _ _. pose proof (Z.mod_pos_bound old_head (size (shared m))). cbn [j_max get_job]. lia.
  - intros _ Hc. cbn [j_max get_job]. lia.
Qed.

(** A dequeue that has returned has the words it took in its table. *)
Lemma get_done n m f tid t tb k h c s :
  ring_ok lo n m f -> threads m !! tid = Some t -> t_job t = get_job tb k -> t_pc t = Done h c s ->
  in_ring (shared m) t ->
  0 <= c <= k /\ zlen (t_table t) = zlen tb /\ zslice (t_table t) 0 c = got f tid t.
Proof.
  intros (g & Hinv & _) Hl Hj Hpc Hin. destruct (inv_threads _ _ _ _ Hinv tid t Hl) as ((_ & Hm & _) & Ht & Hd).
  unfold in_ring, got, t_role, t_max in *. rewrite Hpc, Hj in *. cbn [j_role j_max j_table get_job] in *.
  destruct Hin as [Hc Hin]. split_and!; [lia|lia|done|].
  destruct (Z.eqb_spec c 0) as [->|Hne]; [done|]. destruct Hd as [Hd|[Hd|[Hlen Hw]]]; [done..|].
  apply zget_ext; [rewrite zlen_zslice by lia; lia|]. intros j Hjj. rewrite zlen_zslice in Hjj by lia.
  rewrite zget_zslice by lia. by rewrite Hw by lia.
Qed.

(** ** Room *)

(** A ring that is refused to a producer is full of other threads' words. *)
Lemma room_bound n m f ws :
  ring_ok lo n m f -> (forall tid t, threads m !! tid = Some t -> claim_size t <= ws tid t) ->
  occupied f <= zlen (queue f) + sum_by id (imap ws (threads m)).
Proof.
  intros (g & _ & _ & Hc) Hw. unfold occupied. rewrite <- Z.add_assoc, Hc.
  apply Z.add_le_mono_l. clear Hc. revert ws Hw. induction (threads m) as [|t ts IH]; intros ws Hw; [done|].
  unfold sum_by in *. cbn [foldr imap]. apply Z.add_le_mono; [by apply (Hw 0%nat)|].
  apply (IH (ws ∘ S)). intros tid x Hx. by apply (Hw (S tid)).
Qed.

Lemma put_claim t i : t_job t = put_job i -> forall n m f tid,
  ring_ok lo n m f -> threads m !! tid = Some t ->
  claim_size t <= if resting t then 0 else 1.
Proof.
  intros Hj n m f tid (g & Hinv & _) Hl. destruct (inv_threads _ _ _ _ Hinv tid t Hl) as (_ & _ & Hh).
  unfold claim_size, claim, holds, resting. unfold held_ok, t_max in Hh. rewrite Hj in Hh. cbn in Hh.
  destruct (t_pc t); cbn; lia.
Qed.

Lemma got_claim n m f tid t tb k :
  ring_ok lo n m f -> threads m !! tid = Some t -> t_job t = get_job tb k ->
  claim_size t <= zlen (got f tid t).
Proof.
  intros (g & Hinv & _) Hl Hj. destruct (inv_threads _ _ _ _ Hinv tid t Hl) as (_ & _ & Hh).
  pose proof (zlen_nonneg (got f tid t)).
  unfold claim_size, claim, holds, got in *. unfold held_ok, held_words, t_role in Hh. rewrite Hj in Hh.
  cbn in Hh. destruct (t_pc t); cbn; lia.
Qed.

Lemma resting_claim t : resting t = true -> claim_size t = 0.
Proof. unfold claim_size, claim, holds, resting. by destruct (t_pc t). Qed.

(** ** A ring at rest *)

Lemma ring_mono n n' m f : ring_ok lo n m f -> n <= n' -> ring_ok lo n' m f.
Proof. intros (g & Hi & Hn & Hc) Hle. exists g. split_and!; try done. intros r. specialize (Hn r). lia. Qed.

Lemma ring_rest n m f :
  ring_ok lo n m f -> Forall (fun t => resting t = true) (threads m) ->
  ring_wf (shared m) /\ contents (shared m) = queue f.
Proof. intros (g & Hi & _). by apply resting_ring with lo g. Qed.
(** ** Progress *)

(** While a call is under way, its thread or one that holds entries of the ring
    can bring the calls nearer to their end. *)
Lemma ring_progress n m f tid t :
  ring_ok lo n m f -> 8 * n + capacity (shared m) < 2 ^ 32 ->
  threads m !! tid = Some t -> resting t = false ->
  exists tid' t' rb u l, threads m !! tid' = Some t' /\ resting t' = false /\
    (tid' = tid \/ claim t' <> None) /\ thread_step false (shared m) t' = Ret (rb, u, l) /\
    machine_weight (mk_machine rb (<[tid' := u]> (threads m))) < machine_weight m.
Proof.
  intros (g & Hinv & Hn & _) Hb. apply (thread_progress lo m g f tid t Hinv).
  intros r. specialize (Hn r). lia.
Qed.

Lemma call_weight m tid t j :
  threads m !! tid = Some t -> resting t = true ->
  machine_weight (mk_machine (shared m) (<[tid := start j]> (threads m))) <=
    machine_weight m + j_max j + 2 * zlen (threads m) + 6.
Proof.
  intros Hl Hr. unfold machine_weight. cbn [shared threads].
  replace (zlen (<[tid := start j]> (threads m))) with (zlen (threads m)) by (unfold zlen; by rewrite length_insert).
  pose proof (total_weight_insert (zlen (threads m)) (shared m) (shared m) (threads m) tid t (start j) 0 Hl
    ltac:(lia) ltac:(intros; lia)) as Hi.
  assert (Ht : weight (zlen (threads m)) (shared m) t = 0) by (unfold weight, resting in *; by destruct (t_pc t)).
  assert (Hs : weight (zlen (threads m)) (shared m) (start j) = j_max j + 2 * zlen (threads m) + 6) by done. lia.
Qed.

(** The accesses that the calls under way still need. *)
Lemma weight_bound n m f :
  ring_ok lo n m f -> Forall (fun t => resting t = false -> t_max t <= 8) (threads m) ->
  0 <= machine_weight m <= zlen (threads m) * (2 * zlen (threads m) + 15).
Proof.
  intros (g & Hinv & _) Hm. split; [by apply (machine_weight_nonneg lo m g f)|].
  unfold machine_weight. pose proof (zlen_nonneg (threads m)) as Hk.
  assert (Hall : Forall (fun t => weight (zlen (threads m)) (shared m) t <= 2 * zlen (threads m) + 15) (threads m)).
  { apply Forall_lookup. intros tid t Hl. rewrite Forall_lookup in Hm. specialize (Hm tid t Hl).
    destruct (inv_threads _ _ _ _ Hinv tid t Hl) as (_ & _ & Hh).
    unfold weight, resting in *. destruct (t_pc t); try specialize (Hm eq_refl); repeat step_if; try lia.
    destruct Hh as (_ & ? & ? & _). lia. }
  clear Hm. revert Hall Hk. generalize (zlen (threads m)) at 1 2 3 4 6 as k. intros k Hall Hk.
  induction Hall as [|t ts Ht _ IH]; cbn [total_weight]; [unfold zlen; cbn; lia|]. rewrite zlen_cons. lia.
Qed.
End Client.

Lemma ring_init rb k :
  ring_wf rb -> ring_ok (init_count rb) 0 (init_machine rb k) (init_fifo rb).
Proof.
  intros W. exists (init_ghost rb). split_and!; [by apply init_inv|cbn; lia|]. cbn.
  induction k as [|k IH]; [done|]. cbn [replicate]. unfold sum_by in *. cbn [foldr]. rewrite <- IH. done.
Qed.

(** ** Calls that nobody interrupts *)

Lemma get_alone rb tb k :
  ring_wf rb -> 0 <= k <= zlen tb -> zlen tb < 2 ^ 31 -> size rb + k - 1 <= zlen (ring rb) ->
  exists c av tbl rb' h, kt_ringbuf_dequeue_burst rb tb 8 k = Ret (c, av, tbl, rb') /\
    zlen tbl = zlen tb /\ 0 <= c <= k /\
    run_alone (Z.to_nat k + 8) rb (start (get_job tb k)) = Ret (rb', mk_thread (get_job tb k) tbl (Done h c av)).
Proof.
  intros W Hk Ht Hr. pose proof W as (Hp & _ & _ & _ & _ & _ & _ & _ & Hu). fold (used rb) in Hu.
  pose proof (pow2_size_pos _ Hp). pose proof (used_nonneg rb).
  pose proof (Z.mod_pos_bound (head (cons rb)) (size rb) ltac:(lia)).
  pose proof (granted_bounds KT_RB_BEHAVIOR_VARIABLE k (used rb) ltac:(lia) ltac:(lia)).
  eexists _, _, _, _, _. split; [|split; [|split; [|]]]; cycle 3.
  - change k with (j_max (get_job tb k)) at 1. rewrite (alone_call rb (get_job tb k)) by (cbn; done || lia).
    reflexivity.
  - unfold kt_ringbuf_dequeue_burst. rewrite do_dequeue_spec by (done || lia). reflexivity.
  - apply zlen_blit.
  - cbn. lia.
Qed.

Lemma put_alone rb i :
  ring_wf rb ->
  exists c av rb' h, kt_ringbuf_enqueue_burst rb [i] 8 1 = Ret (c, av, rb') /\
    run_alone 9 rb (start (put_job i)) = Ret (rb', mk_thread (put_job i) [i] (Done h c av)).
Proof.
  intros W. pose proof W as (Hp & _ & Hc & Hl & _ & _ & _ & _ & Hu). fold (used rb) in Hu.
  pose proof (pow2_size_pos _ Hp). pose proof (used_nonneg rb).
  pose proof (Z.mod_pos_bound (head (prod rb)) (size rb) ltac:(lia)).
  pose proof (granted_bounds KT_RB_BEHAVIOR_VARIABLE 1 (capacity rb - used rb) ltac:(lia) ltac:(lia)).
  assert (Hone : zlen [i] = 1) by done.
  eexists _, _, _, _. split.
  - unfold kt_ringbuf_enqueue_burst. rewrite do_enqueue_spec by (done || rewrite ?Hone; lia). reflexivity.
  - change 9%nat with (Z.to_nat (j_max (put_job i)) + 8)%nat.
    rewrite (alone_call rb (put_job i)) by (cbn -[zlen]; rewrite ?Hone; done || lia). reflexivity.
Qed.
