(* ===== verification/Memory.v ===== *)
(** * Shared memory descriptors (src/src/kt_memory.c, kt_memory.h)

    The daemon creates two shared memory objects and the preloaded library
    attaches to them.  The system calls are outside the repository: their
    answers are arguments of the model ([shm_answers]), and every function
    returns the list of calls it makes, so that the theorems can say which
    resources are acquired and released. *)

From S2P Require Import Prelude.

(** ** Data *)

(** [struct kt_memory]; [addr] and [addr_64] share their storage. *)
Record kt_memory := mk_memory {
  name : string;
  fd : Z;
  addr : Z;
  size : Z;
  used : Z
}.

Definition KT_MEMORY_NAMESIZE : nat := 64.
Definition KT_DEFAULT_MEMORY_SIZE : Z := 1024 * 1024.
Definition KT_DEFAULT_SHARED_DATA_MEMORY_NAME : string := "ktsnd_data_memory".
Definition KT_DEFAULT_SHARED_CTRL_MEMORY_NAME : string := "ktsnd_meta_memory".

Definition O_RDWR : Z := 2.
Definition O_CREAT : Z := 64.
Definition O_EXCL : Z := 128.
Definition S_IRUSR : Z := 256.

(** [struct kt_mbuf] is its 2048 data bytes. *)
Definition kt_mbuf_size : Z := 2048.

Definition KT_METADATA_TRANSPORT_ETHERNET : Z := 1.
Definition KT_METADATA_TRANSPORT_UDP : Z := 2.

(** [struct kt_metadata] *)
Record kt_metadata := mk_metadata {
  transport : Z;
  txtime : Z;
  eth_src : list Z;
  eth_dst : list Z;
  ip_src : Z;
  ip_dst : Z;
  udp_dport : Z;
  psize : Z
}.

#[export] Instance kt_metadata_inhabited : Inhabited kt_metadata :=
  populate (mk_metadata 0 0 (replicate 6 0) (replicate 6 0) 0 0 0 0).

Definition u32_value (x : Z) : Prop := 0 <= x < 2 ^ 32.
Definition u16_value (x : Z) : Prop := 0 <= x < 2 ^ 16.

(** A record that describes a packet: addresses of six bytes, a size, and for a
    UDP packet members within their widths. *)
Definition metadata_ok (md : kt_metadata) : Prop :=
  zlen (eth_src md) = 6 /\ zlen (eth_dst md) = 6 /\ 0 <= psize md /\
  (transport md = KT_METADATA_TRANSPORT_UDP ->
   u32_value (ip_src md) /\ u32_value (ip_dst md) /\ u16_value (udp_dport md)).

(** [sizeof(struct kt_metadata)] on LP64, with its padding. *)
Definition sizeof_kt_metadata : Z := 48.

(** [struct kt_mem_layout] *)
Record kt_mem_layout := mk_mem_layout {
  tx_ring_offset : Z;
  free_ring_offset : Z;
  mbuf_pool_offset : Z;
  metadata_pool_offset : Z
}.

(** ** System calls *)

Inductive syscall :=
  | Malloc
  | Free
  | ShmOpen (name : string) (oflags omode : Z)
  | Ftruncate (fd size : Z)
  | Mmap (size fd : Z)
  | Munmap (addr size : Z)
  | ShmUnlink (name : string)
  | Close (fd : Z).

(** What the system answers: whether [malloc] succeeds, the results of
    [shm_open] and [ftruncate], and the address [mmap] gives, [None] being
    [MAP_FAILED]. *)
Record shm_answers := mk_answers {
  malloc_ok : bool;
  shm_open_ret : Z;
  ftruncate_ret : Z;
  mmap_ret : option Z
}.

(** ** Operations *)

(** [strncpy(memory->name, name, KT_MEMORY_NAMESIZE - 1)] *)
Definition memory_name (nm : string) : string := String.substring 0 (KT_MEMORY_NAMESIZE - 1) nm.

Definition _kt_memory_alloc (ans : shm_answers) (nm : string) (sz oflags omode : Z)
    : list syscall * option kt_memory :=
  if negb (malloc_ok ans) then ([Malloc], None)
  else
    let fd := shm_open_ret ans in
    let t1 := [Malloc; ShmOpen nm oflags omode] in
    if fd =? -1 then (t1 ++ [Free], None)
    else
      let t2 := t1 ++ [Ftruncate fd sz] in
      if negb (ftruncate_ret ans =? 0) then (t2 ++ [Free], None)
      else
        let t3 := t2 ++ [Mmap sz fd] in
        match mmap_ret ans with
        | None => (t3 ++ [Free], None)
        | Some a => (t3, Some (mk_memory (memory_name nm) fd a (u32 sz) 0))
        end.

Definition kt_memory_attach (ans : shm_answers) (nm : string) (sz : Z)
    : list syscall * option kt_memory :=
  _kt_memory_alloc ans nm sz O_RDWR 0.

Definition kt_memory_create (ans : shm_answers) (nm : string) (sz : Z)
    : list syscall * option kt_memory :=
  _kt_memory_alloc ans nm sz (Z.lor (Z.lor O_CREAT O_EXCL) O_RDWR) S_IRUSR.

Definition kt_memory_destroy (m : kt_memory) : list syscall * Z :=
  ([Munmap (addr m) (size m); ShmUnlink (name m); Close (fd m); Free], 0).

(** The results of [munmap] and of the given close function are arguments. *)
Definition kt_memory_detach (m : kt_memory) (munmap_ret close_ret : Z) : list syscall * Z :=
  if munmap_ret <? 0 then ([Munmap (addr m) (size m)], -1)
  else if close_ret <? 0 then ([Munmap (addr m) (size m); Close (fd m)], -1)
  else ([Munmap (addr m) (size m); Close (fd m); Free], 0).

(** ** Resource accounting *)

(** The heap blocks, descriptors and mappings a list of calls leaves behind,
    given the answers. *)
Definition heap_blocks (ans : shm_answers) (t : list syscall) : Z :=
  foldl (fun n c => match c with
    | Malloc => if malloc_ok ans then n + 1 else n
    | Free => n - 1
    | _ => n
    end) 0 t.

Definition open_fds (ans : shm_answers) (t : list syscall) : list Z :=
  foldl (fun s c => match c with
    | ShmOpen _ _ _ => if shm_open_ret ans =? -1 then s else shm_open_ret ans :: s
    | Close f => filter (fun x => x <> f) s
    | _ => s
    end) [] t.

Definition mappings (ans : shm_answers) (t : list syscall) : list (Z * Z) :=
  foldl (fun s c => match c with
    | Mmap sz _ => match mmap_ret ans with Some a => (a, sz) :: s | None => s end
    | Munmap a sz => filter (fun x => x <> (a, sz)) s
    | _ => s
    end) [] t.

Lemma substring_all nm : forall n, (String.length nm <= n)%nat -> String.substring 0 n nm = nm.
Proof.
  induction nm as [|c nm IH]; intros [|n] Hn; cbn in *; try done; [lia|].
  f_equal. apply IH. lia.
Qed.

Lemma alloc_success ans nm sz oflags omode t m :
  _kt_memory_alloc ans nm sz oflags omode = (t, Some m) ->
  malloc_ok ans = true /\ shm_open_ret ans <> -1 /\ ftruncate_ret ans = 0 /\
  mmap_ret ans = Some (addr m) /\
  t = [Malloc; ShmOpen nm oflags omode; Ftruncate (shm_open_ret ans) sz; Mmap sz (shm_open_ret ans)] /\
  name m = memory_name nm /\ fd m = shm_open_ret ans /\ size m = u32 sz /\ used m = 0.
Proof.
  unfold _kt_memory_alloc. destruct (malloc_ok ans); [|done]. cbn [negb].
  destruct (Z.eqb_spec (shm_open_ret ans) (-1)); [done|].
  destruct (Z.eqb_spec (ftruncate_ret ans) 0); [|done]. cbn [negb].
  destruct (mmap_ret ans); [|done]. intros [= <- <-]. done.
Qed.

(** ** Properties *)

(** Creating a shared memory object and destroying the descriptor gives
    back everything, for a size and a name that the members can hold: the heap
    block, the descriptor and the mapping are released, and the object that is
    unlinked is the one that was created. *)
Theorem create_destroy_releases ans nm sz t m :
  kt_memory_create ans nm sz = (t, Some m) -> 0 <= sz < 2 ^ 32 ->
  (String.length nm < KT_MEMORY_NAMESIZE)%nat ->
  let all := t ++ (kt_memory_destroy m).1 in
  heap_blocks ans all = 0 /\ open_fds ans all = [] /\ mappings ans all = [] /\
  ShmUnlink nm ∈ all /\ (kt_memory_destroy m).2 = 0.
Proof.
  intros (Hm & Hfd & Hft & Hmm & -> & Hn & Hf & Hs & _)%alloc_success Hsz Hlen all.
  assert (E : memory_name nm = nm) by (apply substring_all; unfold KT_MEMORY_NAMESIZE in *; lia).
  assert (Hmin : name m = nm) by congruence.
  unfold all, kt_memory_destroy, heap_blocks, open_fds, mappings. cbn [fst snd app foldl].
  rewrite Hm, Hmm, Hf, Hs, Hmin, u32_id by lia. rewrite (proj2 (Z.eqb_neq _ _) Hfd).
  split_and!; try done.
  - rewrite filter_cons_False by (intros H; by apply H). done.
  - rewrite filter_cons_False by (intros H; by apply H). done.
  - do 5 right. left.
Qed.

Lemma create_destroy_releases_witness :
  exists t m, kt_memory_create (mk_answers true 5 0 (Some 4096))
      KT_DEFAULT_SHARED_DATA_MEMORY_NAME KT_DEFAULT_MEMORY_SIZE = (t, Some m) /\
    open_fds (mk_answers true 5 0 (Some 4096)) (t ++ (kt_memory_destroy m).1) = [].
Proof.
  eexists _, _. split; [reflexivity|].
  apply (create_destroy_releases (mk_answers true 5 0 (Some 4096))
    KT_DEFAULT_SHARED_DATA_MEMORY_NAME KT_DEFAULT_MEMORY_SIZE); [reflexivity|zcompute|].
  apply Nat.ltb_lt. vm_compute. reflexivity.
Defined.

(** When [ftruncate] or [mmap] fails after the object was opened, the
    functions return [NULL] and free the descriptor structure, but the file
    descriptor stays open and a created object is not unlinked. *)
Theorem failed_create_leaks ans nm sz :
  malloc_ok ans = true -> shm_open_ret ans <> -1 ->
  ftruncate_ret ans <> 0 \/ mmap_ret ans = None ->
  exists t, kt_memory_create ans nm sz = (t, None) /\
    heap_blocks ans t = 0 /\ open_fds ans t = [shm_open_ret ans] /\
    forall u, ShmUnlink u ∉ t.
Proof.
  intros Hm Hfd Hor. unfold kt_memory_create, _kt_memory_alloc. rewrite Hm. cbn [negb].
  rewrite (proj2 (Z.eqb_neq _ _) Hfd).
  assert (Hno : forall u (l : list syscall), Forall (fun c => c <> ShmUnlink u) l -> ShmUnlink u ∉ l).
  { intros u l HF Hin. rewrite Forall_forall in HF. by apply (HF (ShmUnlink u) Hin). }
  destruct (Z.eqb_spec (ftruncate_ret ans) 0) as [Hz|Hz]; cbn [negb].
  - destruct Hor as [?|Hmm]; [done|]. rewrite Hmm. eexists. split; [reflexivity|].
    unfold heap_blocks, open_fds. cbn [app foldl]. rewrite Hm, (proj2 (Z.eqb_neq _ _) Hfd).
    split_and!; try done. intros u. apply Hno. by repeat constructor.
  - eexists. split; [reflexivity|].
    unfold heap_blocks, open_fds. cbn [app foldl]. rewrite Hm, (proj2 (Z.eqb_neq _ _) Hfd).
    split_and!; try done. intros u. apply Hno. by repeat constructor.
Qed.

Lemma failed_create_leaks_witness :
  exists t, kt_memory_create (mk_answers true 5 (-1) None) "m" 4096 = (t, None) /\
    open_fds (mk_answers true 5 (-1) None) t = [5].
Proof.
  destruct (failed_create_leaks (mk_answers true 5 (-1) None) "m" 4096) as (t & E & _ & H & _).
  - reflexivity.
  - discriminate.
  - left. discriminate.
  - exists t. auto.
Defined.
