(* ===== verification/Libktsn.v ===== *)
(** * The preloaded socket library (src/libktsn.c)

    The library replaces [socket], [setsockopt], [sendmsg] and [close] of an
    unmodified application.  A message with a transmission time on a socket
    with [SO_TXTIME] is copied into a buffer of the shared pool, whose index
    goes from the free ring to the transmission ring; everything else is passed
    on to the C library.  The C library functions found by [dlsym] are
    parameters. *)

From S2P Require Import Prelude Memory RingBuf.

(** ** Constants of the Linux headers (x86-64) *)

Definition SOL_SOCKET : Z := 1.
Definition SO_PRIORITY : Z := 12.
Definition SO_TXTIME : Z := 61.
Definition SCM_TXTIME : Z := 61.
Definition AF_INET : Z := 2.
Definition PF_PACKET : Z := 17.
Definition ENOBUFS : Z := 105.
Definition sizeof_u64 : Z := 8.

(** ** Byte order *)

(** Little-endian decoding: how the host reads a member from memory. *)
Fixpoint le_decode (bs : list Z) : Z :=
  match bs with
  | [] => 0
  | b :: bs => b + 256 * le_decode bs
  end.

(** [ntohl] and [ntohs] on a little-endian host swap the bytes. *)
Definition ntohl (x : Z) : Z :=
  Z.lor (Z.lor (Z.shiftl (Z.land x 255) 24) (Z.shiftl (Z.land (Z.shiftr x 8) 255) 16))
        (Z.lor (Z.shiftl (Z.land (Z.shiftr x 16) 255) 8) (Z.land (Z.shiftr x 24) 255)).

Definition ntohs (x : Z) : Z :=
  Z.lor (Z.shiftl (Z.land x 255) 8) (Z.land (Z.shiftr x 8) 255).

(** ** Data *)

(** [struct sockaddr_in]; the members as the host loads them. *)
Record sockaddr_in := mk_sockaddr_in { sin_family : Z; sin_port : Z; s_addr : Z }.

(** [struct kt_socket].  [domain] is [None] while nobody has written the
    member of the block [malloc] returned. *)
Record kt_socket := mk_socket {
  sock_fd : Z;
  sock_prio : Z;
  sock_txtime : Z;
  sock_domain : option Z
}.

(** [struct kt_interface] *)
Record kt_interface := mk_interface {
  ifindex : Z;
  ifname : string;
  ifaddr : sockaddr_in;
  netmask : sockaddr_in;
  mac : list Z
}.

(** What the library and the daemon share: the two rings and the two pools. *)
Record kt_shared := mk_shared {
  tx_ring : kt_ringbuf;
  free_ring : kt_ringbuf;
  mbuf_pool : list (list Z);
  metadata_pool : list kt_metadata
}.

(** The globals of the library. *)
Record kt_lib := mk_lib {
  g_socket_list : list kt_socket;
  g_interface_list : list kt_interface;
  g_shared : kt_shared
}.

(** An ancillary message with the 64-bit word its data starts with. *)
Record cmsghdr := mk_cmsg { cmsg_level : Z; cmsg_type : Z; cmsg_data : Z }.

(** [struct msghdr]: the bytes [msg_name] points to ([None] for [NULL]), the
    buffers of [msg_iov], and the headers [CMSG_FIRSTHDR]/[CMSG_NXTHDR] visit. *)
Record msghdr := mk_msghdr {
  msg_name : option (list Z);
  msg_iov : list (list Z);
  msg_control : list cmsghdr
}.

Definition set_sockets (g : kt_lib) (l : list kt_socket) : kt_lib :=
  mk_lib l (g_interface_list g) (g_shared g).
Definition set_shared (g : kt_lib) (s : kt_shared) : kt_lib :=
  mk_lib (g_socket_list g) (g_interface_list g) s.

Definition kt_default_dst_mac : list Z := [255; 255; 255; 255; 255; 255].
Definition kt_multicast_mac : list Z := [1; 0; 94; 0; 0; 1].

(** ** Lookups *)

(** [LIST_FOREACH] with a test: the first element that passes. *)
Definition list_find_first {A} (f : A -> bool) (l : list A) : option A := List.find f l.

Definition kt_socket_find (g : kt_lib) (fd : Z) : option kt_socket :=
  list_find_first (fun s => sock_fd s =? fd) (g_socket_list g).

Definition kt_interface_find (g : kt_lib) (idx : Z) : option kt_interface :=
  list_find_first (fun i => ifindex i =? idx) (g_interface_list g).

Definition kt_interface_exists (l : list kt_interface) (idx : Z) : bool :=
  existsb (fun i => ifindex i =? idx) l.

Definition is_same_subnetwork (addr1 addr2 subnet_mask : sockaddr_in) : bool :=
  let network1 := Z.land (s_addr addr1) (s_addr subnet_mask) in
  let network2 := Z.land (s_addr addr2) (s_addr subnet_mask) in
  network1 =? network2.

Definition kt_interface_get_by_net (g : kt_lib) (addr : option sockaddr_in) : option kt_interface :=
  match addr with
  | None => None
  | Some addr => list_find_first (fun i => is_same_subnetwork (ifaddr i) addr (netmask i))
                   (g_interface_list g)
  end.

Definition kt_interface_find_by_mac (g : kt_lib) (m : list Z) : option kt_interface :=
  list_find_first (fun i => bool_decide (take 6 (mac i) = take 6 m)) (g_interface_list g).

(** ** Reading the address of a message *)

(** [msg->msg_name] read as a [struct sockaddr_in]: family, port and address. *)
Definition as_sockaddr_in (bs : list Z) : res sockaddr_in :=
  if zlen bs <? 8 then UB
  else Ret (mk_sockaddr_in (le_decode (zslice bs 0 2)) (le_decode (zslice bs 2 2))
              (le_decode (zslice bs 4 4))).

(** [msg->msg_name] read as a [struct sockaddr_ll]: its [sll_ifindex], an [int]. *)
Definition sll_ifindex (bs : list Z) : res Z :=
  if zlen bs <? 8 then UB else Ret (i32 (le_decode (zslice bs 4 4))).

(** ** Sending

    A function that ends without [return] gives [None]. *)

(** [memcpy(dst, src, n)] into an array of [zlen dst] bytes. *)
Definition memcpy (dst src : list Z) (n : Z) : res (list Z) :=
  if (n <=? zlen dst) && (n <=? zlen src) then Ret (zslice src 0 n ++ zslice dst n (zlen dst - n))
  else UB.

Section Library.
Context (default_socket : Z -> Z -> Z -> Z).
Context (default_setsockopt : Z -> Z -> Z -> option Z -> Z -> Z).
Context (default_sendmsg : Z -> msghdr -> Z -> Z).
Context (default_close : Z -> Z).

Definition sendmsg_inet (g : kt_lib) (sockfd : Z) (msg : msghdr) (flags tx : Z)
    : res (kt_lib * Z) :=
  addr <- match msg_name msg with
          | None => Ret None
          | Some bs => a <- as_sockaddr_in bs;; Ret (Some a)
          end;;
  match addr, kt_interface_get_by_net g addr with
  | Some addr, Some interface =>
      let sh := g_shared g in
      let* (nb_free, _, mbuf_index, fr) :=
        kt_ringbuf_dequeue_burst (free_ring sh) [0] sizeof_u64 1 in
      let sh := mk_shared (tx_ring sh) fr (mbuf_pool sh) (metadata_pool sh) in
      if nb_free =? 0 then Ret (set_shared g sh, - ENOBUFS)
      else
        index <- znth mbuf_index 0;;
        iov <- znth (msg_iov msg) 0;;
        let size := zlen iov in
        mbuf <- znth (mbuf_pool sh) index;;
        mbuf <- memcpy mbuf iov size;;
        mbufs <- zset (mbuf_pool sh) index mbuf;;
        md <- znth (metadata_pool sh) index;;
        src <- memcpy (eth_src md) (mac interface) 6;;
        dst <- memcpy (eth_dst md) kt_default_dst_mac 6;;
        mds <- zset (metadata_pool sh) index
                 (mk_metadata KT_METADATA_TRANSPORT_UDP tx src dst
                    (ntohl (s_addr (ifaddr interface))) (ntohl (s_addr addr))
                    (ntohs (sin_port addr)) size);;
        let* (nb_enqueued, _, tx) := kt_ringbuf_enqueue_burst (tx_ring sh) mbuf_index sizeof_u64 1 in
        let sh := mk_shared tx fr mbufs mds in
        if negb (nb_enqueued =? 1) then Ret (set_shared g sh, - ENOBUFS)
        else Ret (set_shared g sh, size)
  | _, _ => Ret (g, default_sendmsg sockfd msg flags)
  end.

Definition sendmsg_packet (g : kt_lib) (sockfd : Z) (msg : msghdr) (flags tx : Z)
    : res (kt_lib * Z) :=
  idx <- match msg_name msg with None => UB | Some bs => sll_ifindex bs end;;
  match kt_interface_find g idx with
  | Some interface =>
      let sh := g_shared g in
      let* (nb_free, _, mbuf_index, fr) :=
        kt_ringbuf_dequeue_burst (free_ring sh) [0] sizeof_u64 1 in
      let sh := mk_shared (tx_ring sh) fr (mbuf_pool sh) (metadata_pool sh) in
      if nb_free =? 0 then Ret (set_shared g sh, - ENOBUFS)
      else
        index <- znth mbuf_index 0;;
        iov <- znth (msg_iov msg) 0;;
        let size := zlen iov in
        mbuf <- znth (mbuf_pool sh) index;;
        mbuf <- memcpy mbuf iov size;;
        mbufs <- zset (mbuf_pool sh) index mbuf;;
        md <- znth (metadata_pool sh) index;;
        src <- memcpy (eth_src md) (mac interface) 6;;
        dst <- memcpy (eth_dst md) kt_multicast_mac 6;;
        mds <- zset (metadata_pool sh) index
                 (mk_metadata KT_METADATA_TRANSPORT_ETHERNET tx src dst
                    (ip_src md) (ip_dst md) (udp_dport md) size);;
        let* (nb_enqueued, _, tx) := kt_ringbuf_enqueue_burst (tx_ring sh) mbuf_index sizeof_u64 1 in
        let sh := mk_shared tx fr mbufs mds in
        if negb (nb_enqueued =? 1) then Ret (set_shared g sh, - ENOBUFS)
        else Ret (set_shared g sh, size)
  | None => Ret (g, default_sendmsg sockfd msg flags)
  end.

(** The loop over the ancillary messages. *)
Definition find_txtime (msg : msghdr) : option Z :=
  option_map cmsg_data
    (list_find_first (fun c => (cmsg_level c =? SOL_SOCKET) && (cmsg_type c =? SCM_TXTIME))
       (msg_control msg)).

Definition sendmsg (g : kt_lib) (sockfd : Z) (msg : msghdr) (flags : Z)
    : res (kt_lib * option Z) :=
  match kt_socket_find g sockfd with
  | None => Ret (g, Some (default_sendmsg sockfd msg flags))
  | Some node =>
      if sock_txtime node =? 0 then Ret (g, Some (default_sendmsg sockfd msg flags))
      else
        match find_txtime msg with
        | None => Ret (g, Some (default_sendmsg sockfd msg flags))
        | Some txtime =>
            match sock_domain node with
            | None => UB
            | Some domain =>
                if domain =? PF_PACKET then
                  r <- sendmsg_packet g sockfd msg flags txtime;; Ret (r.1, Some r.2)
                else if domain =? AF_INET then
                  r <- sendmsg_inet g sockfd msg flags txtime;; Ret (r.1, Some r.2)
                else Ret (g, None)
            end
        end
  end.

(** ** Sockets *)

(** [malloc_ok] says whether [malloc] returns a block; the result of [socket]
    after a registration is [None], since the function ends without a
    [return]. *)
Definition socket (malloc_ok : bool) (g : kt_lib) (domain type protocol : Z)
    : res (kt_lib * option Z) :=
  let fd := default_socket domain type protocol in
  if fd <? 0 then Ret (g, Some fd)
  else
    match kt_socket_find g fd with
    | Some _ => Ret (g, None)
    | None =>
        if malloc_ok then
          Ret (set_sockets g (mk_socket fd (-1) 0 (Some domain) :: g_socket_list g), None)
        else UB
    end.

(** Writing a member of the node [kt_socket_find] returned. *)
Fixpoint update_socket (l : list kt_socket) (fd : Z) (f : kt_socket -> kt_socket) : list kt_socket :=
  match l with
  | [] => []
  | s :: l => if sock_fd s =? fd then f s :: l else s :: update_socket l fd f
  end.

(** [optval] is the [int] the pointer refers to, [None] for [NULL]. *)
Definition setsockopt (malloc_ok : bool) (g : kt_lib) (fd level optname : Z) (optval : option Z)
    (optlen : Z) : res (kt_lib * Z) :=
  if (level =? SOL_SOCKET) && (optname =? SO_TXTIME) then
    match kt_socket_find g fd with
    | None =>
        if malloc_ok then
          Ret (set_sockets g (mk_socket fd (-1) 1 None :: g_socket_list g), 0)
        else UB
    | Some _ =>
        Ret (set_sockets g (update_socket (g_socket_list g) fd
               (fun s => mk_socket (sock_fd s) (sock_prio s) 1 (sock_domain s))), 0)
    end
  else if (level =? SOL_SOCKET) && (optname =? SO_PRIORITY) then
    match kt_socket_find g fd with
    | None =>
        if malloc_ok then
          match optval with
          | None => UB
          | Some v => Ret (set_sockets g (mk_socket fd v 0 None :: g_socket_list g), 0)
          end
        else UB
    | Some _ =>
        match optval with
        | None => UB
        | Some v =>
            Ret (set_sockets g (update_socket (g_socket_list g) fd
                   (fun s => mk_socket (sock_fd s) v (sock_txtime s) (sock_domain s))), 0)
        end
    end
  else Ret (g, default_setsockopt fd level optname optval optlen).

Definition free_socket (fd : Z) : Z := default_close fd.

(** [LIST_REMOVE] of the node found. *)
Fixpoint remove_socket (l : list kt_socket) (fd : Z) : list kt_socket :=
  match l with
  | [] => []
  | s :: l => if sock_fd s =? fd then l else s :: remove_socket l fd
  end.

Definition close (g : kt_lib) (fildes : Z) : kt_lib * Z :=
  match kt_socket_find g fildes with
  | Some _ => (set_sockets g (remove_socket (g_socket_list g) fildes), free_socket fildes)
  | None => (g, free_socket fildes)
  end.

(** ** Interfaces *)

Definition SOCK_DGRAM : Z := 2.
Definition IFNAMSIZ : nat := 16.

(** An entry of the list [getifaddrs] gives: the name, the family and the
    address ([None] for [NULL]), and the netmask. *)
Record ifaddrs := mk_ifaddrs {
  ifa_name : string;
  ifa_addr : option (Z * sockaddr_in);
  ifa_netmask : option sockaddr_in
}.

Context (if_nametoindex : string -> Z).
Context (getnameinfo : sockaddr_in -> Z).
Context (ioctl_hwaddr : Z -> string -> option (list Z)).

(** The value of a call that ended without [return] must not be used. *)
Definition use_value (v : option Z) : res Z :=
  match v with Some z => Ret z | None => UB end.

(** The result is the library and the interface with its address. *)
Definition query_and_add_mac_address (malloc_ok : bool) (g : kt_lib) (iface : kt_interface)
    : res (kt_lib * kt_interface) :=
  let* (g, v) := socket malloc_ok g AF_INET SOCK_DGRAM 0 in
  sock <- use_value v;;
  if sock <? 0 then Abort
  else
    match ioctl_hwaddr sock (String.substring 0 IFNAMSIZ (ifname iface)) with
    | None => Abort
    | Some hw =>
        m <- memcpy (replicate 6 0) hw 6;;
        Ret ((close g sock).1,
             mk_interface (ifindex iface) (ifname iface) (ifaddr iface) (netmask iface) m)
    end.

(** The traversal of the [getifaddrs] list.  A new interface has no MAC address
    yet; the result of [malloc] is used without a test. *)
Fixpoint add_interfaces (malloc_ok : bool) (l : list ifaddrs) (acc : list kt_interface) : res (list kt_interface) :=
  match l with
  | [] => Ret acc
  | ifa :: l =>
      match ifa_addr ifa with
      | None => add_interfaces malloc_ok l acc
      | Some (family, a) =>
          if family =? AF_INET then
            if negb (getnameinfo a =? 0) then Abort
            else
              let idx := if_nametoindex (ifa_name ifa) in
              if kt_interface_exists acc idx then add_interfaces malloc_ok l acc
              else
                match malloc_ok, ifa_netmask ifa with
                | true, Some nm =>
                    add_interfaces malloc_ok l (mk_interface idx (String.substring 0 IFNAMSIZ (ifa_name ifa))
                                        a nm [] :: acc)
                | _, _ => UB
                end
          else add_interfaces malloc_ok l acc
      end
  end.

Fixpoint query_macs (malloc_ok : bool) (g : kt_lib) (todo done : list kt_interface)
    : res (kt_lib * list kt_interface) :=
  match todo with
  | [] => Ret (g, done)
  | i :: todo =>
      let* (g, i) := query_and_add_mac_address malloc_ok g i in
      query_macs malloc_ok g todo (done ++ [i])
  end.

(** [ifs] is the result of [getifaddrs], [None] for its failure. *)
Definition query_interfaces (malloc_ok : bool) (g : kt_lib) (ifs : option (list ifaddrs))
    : res kt_lib :=
  match ifs with
  | None => Abort
  | Some l =>
      ifaces <- add_interfaces malloc_ok l (g_interface_list g);;
      let* (g, ifaces) := query_macs malloc_ok g ifaces [] in
      Ret (mk_lib (g_socket_list g) ifaces (g_shared g))
  end.
End Library.

(** ** Attaching to the shared memory *)

(** The global pointers of the library. *)
Record lib_pointers := mk_lib_pointers {
  g_tx_ring : Z;
  g_free_ring : Z;
  g_mbuf_pool : Z;
  g_metadata_pool : Z
}.

(** The part of [__libc_start_main] that attaches: [layout_at] reads the
    [struct kt_mem_layout] at an address.  [None] is the early [return -1]. *)
Definition attach_shared (ans_data ans_ctrl : shm_answers) (layout_at : Z -> kt_mem_layout)
    : list syscall * option lib_pointers :=
  let (t1, g_memory) :=
    kt_memory_attach ans_data KT_DEFAULT_SHARED_DATA_MEMORY_NAME KT_DEFAULT_MEMORY_SIZE in
  match g_memory with
  | None => (t1, None)
  | Some g_memory =>
      let (t2, g_memory_ctrl) :=
        kt_memory_attach ans_ctrl KT_DEFAULT_SHARED_CTRL_MEMORY_NAME KT_DEFAULT_MEMORY_SIZE in
      match g_memory_ctrl with
      | None => (t1 ++ t2, None)
      | Some g_memory_ctrl =>
          let g_mem_layout := layout_at (Memory.addr g_memory_ctrl) in
          (t1 ++ t2,
           Some (mk_lib_pointers
             (Memory.addr g_memory + tx_ring_offset g_mem_layout)
             (Memory.addr g_memory + free_ring_offset g_mem_layout)
             (Memory.addr g_memory + mbuf_pool_offset g_mem_layout)
             (Memory.addr g_memory + metadata_pool_offset g_mem_layout)))
      end
  end.

(** ** The invariant of the shared memory

    [N] buffers; every index in a ring is one of them and is in one place
    only. *)
Record shared_wf (sh : kt_shared) (N : Z) : Prop := {
  sw_tx : ring_wf (tx_ring sh);
  sw_free : ring_wf (free_ring sh);
  sw_tx_cap : capacity (tx_ring sh) = N;
  sw_free_cap : capacity (free_ring sh) = N;
  sw_mbufs : zlen (mbuf_pool sh) = N;
  sw_metas : zlen (metadata_pool sh) = N;
  sw_mbuf : forall i, 0 <= i < N -> zlen (zget (mbuf_pool sh) i) = kt_mbuf_size;
  sw_mac : forall i, 0 <= i < N -> zlen (eth_src (zget (metadata_pool sh) i)) = 6 /\
                                   zlen (eth_dst (zget (metadata_pool sh) i)) = 6;
  sw_range : Forall (fun i => 0 <= i < N) (contents (free_ring sh) ++ contents (tx_ring sh));
  sw_nodup : NoDup (contents (free_ring sh) ++ contents (tx_ring sh))
}.

#[export] Hint Resolve sw_tx sw_free sw_mbuf : kt.

(** What the two send functions do once they have an interface, with the
    metadata record they write as a parameter. *)
Definition transmit (sh : kt_shared) (iovs : list (list Z)) (hw dmac : list Z)
    (md : kt_metadata -> list Z -> list Z -> Z -> kt_metadata) : res (kt_shared * Z) :=
  let* (nb_free, _, mbuf_index, fr) :=
    kt_ringbuf_dequeue_burst (free_ring sh) [0] sizeof_u64 1 in
  let sh := mk_shared (tx_ring sh) fr (mbuf_pool sh) (metadata_pool sh) in
  if nb_free =? 0 then Ret (sh, - ENOBUFS)
  else
    index <- znth mbuf_index 0;;
    iov <- znth iovs 0;;
    mbuf <- znth (mbuf_pool sh) index;;
    mbuf <- memcpy mbuf iov (zlen iov);;
    mbufs <- zset (mbuf_pool sh) index mbuf;;
    m <- znth (metadata_pool sh) index;;
    src <- memcpy (eth_src m) hw 6;;
    dst <- memcpy (eth_dst m) dmac 6;;
    mds <- zset (metadata_pool sh) index (md m src dst (zlen iov));;
    let* (nb_enqueued, _, tx) := kt_ringbuf_enqueue_burst (tx_ring sh) mbuf_index sizeof_u64 1 in
    let sh := mk_shared tx fr mbufs mds in
    if negb (nb_enqueued =? 1) then Ret (sh, - ENOBUFS) else Ret (sh, zlen iov).

(** The metadata of a UDP packet to [addr] and of an Ethernet frame. *)
Definition udp_metadata (tx : Z) (interface : kt_interface) (addr : sockaddr_in)
    (m : kt_metadata) (src dst : list Z) (size : Z) : kt_metadata :=
  mk_metadata KT_METADATA_TRANSPORT_UDP tx src dst
    (ntohl (s_addr (ifaddr interface))) (ntohl (s_addr addr)) (ntohs (sin_port addr)) size.

Definition eth_metadata (tx : Z) (m : kt_metadata) (src dst : list Z) (size : Z) : kt_metadata :=
  mk_metadata KT_METADATA_TRANSPORT_ETHERNET tx src dst (ip_src m) (ip_dst m) (udp_dport m) size.

(** Runs both sides of an equation between two programs in step. *)
Ltac run_binds :=
  cbv zeta; cbn [tx_ring free_ring mbuf_pool metadata_pool fst snd];
  repeat (first [ reflexivity | match goal with
  | |- context [bind (bind ?m _) _] => rewrite (bind_assoc m)
  | |- bind ?m _ = bind ?m _ => destruct m as [?| | |]; cbn [bind]; [|reflexivity..]
  | |- context [match ?x with (_, _) => _ end] => destruct x
  | |- context [bind (if ?b then _ else _) _] => destruct b; cbn [bind fst snd]
  end ]).

Lemma sendmsg_inet_transmit ds g fd msg flags tx bs addr interface :
  msg_name msg = Some bs -> as_sockaddr_in bs = Ret addr ->
  kt_interface_get_by_net g (Some addr) = Some interface ->
  sendmsg_inet ds g fd msg flags tx =
    (r <- transmit (g_shared g) (msg_iov msg) (mac interface) kt_default_dst_mac
            (udp_metadata tx interface addr);;
     Ret (set_shared g r.1, r.2)).
Proof.
  intros Hn Ha Hi. unfold sendmsg_inet, transmit, udp_metadata. rewrite Hn, Ha. cbn [bind]. rewrite Hi.
  run_binds.
Qed.

Lemma sendmsg_packet_transmit ds g fd msg flags tx bs idx interface :
  msg_name msg = Some bs -> sll_ifindex bs = Ret idx ->
  kt_interface_find g idx = Some interface ->
  sendmsg_packet ds g fd msg flags tx =
    (r <- transmit (g_shared g) (msg_iov msg) (mac interface) kt_multicast_mac (eth_metadata tx);;
     Ret (set_shared g r.1, r.2)).
Proof.
  intros Hn Ha Hi. unfold sendmsg_packet, transmit, eth_metadata. rewrite Hn, Ha. cbn [bind]. rewrite Hi.
  run_binds.
Qed.

(** ** Buffers move from the free ring to the transmission ring *)

Lemma memcpy_whole dst src n :
  zlen src = n -> zlen dst = n -> memcpy dst src n = Ret src.
Proof.
  intros Hs Hd. unfold memcpy. rewrite Hs, Hd, Z.leb_refl. cbn [andb].
  unfold zslice, zlen in *. rewrite Z.sub_diag. change (Z.to_nat 0) with 0%nat.
  rewrite drop_0, take_0, app_nil_r, take_ge by lia. done.
Qed.

Lemma memcpy_prefix dst src :
  zlen src <= zlen dst -> memcpy dst src (zlen src) = Ret (src ++ drop (length src) dst).
Proof.
  intros Hs. unfold memcpy. rewrite Z.leb_refl, (proj2 (Z.leb_le _ _) Hs). cbn [andb].
  unfold zslice, zlen in *. rewrite Nat2Z.id. change (Z.to_nat 0) with 0%nat. rewrite drop_0.
  rewrite !take_ge; [done| |done]. rewrite length_drop. lia.
Qed.

Lemma memcpy_overflow dst src n : zlen dst < n -> memcpy dst src n = UB.
Proof. intros H. unfold memcpy. by rewrite (proj2 (Z.leb_gt _ _) H). Qed.

Lemma same_ring_capacity rb rb' : same_ring rb rb' -> capacity rb' = capacity rb.
Proof. by intros (_ & _ & _ & _ & _ & H & _). Qed.

(** The shared memory after message [iov] went out in buffer [i]. *)
Definition transmitted (sh : kt_shared) (i : Z) (iov : list Z) (m : kt_metadata)
    (tx fr : kt_ringbuf) : kt_shared :=
  mk_shared tx fr
    (zupd (mbuf_pool sh) i (iov ++ drop (length iov) (zget (mbuf_pool sh) i)))
    (zupd (metadata_pool sh) i m).

(** The index at the front of the free ring is a buffer, and the transmission
    ring has room for it. *)
Lemma free_index sh N i q :
  shared_wf sh N -> contents (free_ring sh) = i :: q ->
  0 <= i < N /\ RingBuf.used (tx_ring sh) < capacity (tx_ring sh).
Proof.
  intros W Hf. destruct W as [Wt Wf Ct Cf Lm Ld _ _ Hr Hn]. rewrite Hf in *.
  split; [by inversion Hr|]. rewrite Ct, <- zlen_contents.
  assert (zlen ((i :: q) ++ contents (tx_ring sh)) <= N).
  { apply NoDup_bounded; try done. rewrite <- Lm. auto with kt. }
  rewrite zlen_app, zlen_cons in *. zlia.
Qed.

Lemma transmitted_wf sh N i q iov m tx fr :
  shared_wf sh N -> contents (free_ring sh) = i :: q -> zlen iov <= kt_mbuf_size ->
  zlen (eth_src m) = 6 -> zlen (eth_dst m) = 6 ->
  ring_wf fr -> same_ring (free_ring sh) fr -> contents fr = q ->
  ring_wf tx -> same_ring (tx_ring sh) tx -> contents tx = contents (tx_ring sh) ++ [i] ->
  shared_wf (transmitted sh i iov m tx fr) N.
Proof.
  intros W Hf Hiov Hs Hd Wfr Sfr Cfr Wtx Stx Ctx.
  destruct (free_index sh N i q W Hf) as [Hi _].
  destruct W as [Wt Wf Ct Cf Lm Ld Hm Hmac Hr Hn].
  assert (Hp : contents fr ++ contents tx ≡ₚ contents (free_ring sh) ++ contents (tx_ring sh)).
  { rewrite Hf, Cfr, Ctx, app_assoc. rewrite (Permutation_app_comm _ [i]). done. }
  split; unfold transmitted; cbn [tx_ring free_ring mbuf_pool metadata_pool]; try done.
  - by rewrite (same_ring_capacity _ _ Stx).
  - by rewrite (same_ring_capacity _ _ Sfr).
  - by rewrite zlen_zupd.
  - by rewrite zlen_zupd.
  - intros j Hj. rewrite zget_zupd by lia. destruct (Z.eqb_spec i j) as [->|]; [|auto].
    specialize (Hm j Hj). unfold zlen in *. rewrite length_app, length_drop. lia.
  - intros j Hj. rewrite zget_zupd by lia. destruct (Z.eqb_spec i j) as [->|]; auto.
  - by rewrite Hp.
  - by rewrite Hp.
Qed.

Lemma lor_below a b n : 0 <= n -> 0 <= a < 2 ^ n -> 0 <= b < 2 ^ n -> 0 <= Z.lor a b < 2 ^ n.
Proof.
  intros Hn Ha Hb. split; [apply Z.lor_nonneg; lia|].
  apply Z.bounded_iff_bits_nonneg; [lia|apply Z.lor_nonneg; lia|]. intros k Hk. rewrite Z.lor_spec.
  rewrite (proj1 (Z.bounded_iff_bits_nonneg n a ltac:(lia) ltac:(lia)) ltac:(lia) k Hk).
  by rewrite (proj1 (Z.bounded_iff_bits_nonneg n b ltac:(lia) ltac:(lia)) ltac:(lia) k Hk).
Qed.

Lemma byte_shift x k : 0 <= k -> 0 <= Z.shiftl (Z.land x 255) k < 2 ^ (8 + k).
Proof.
  intros Hk. change 255 with (Z.ones 8). rewrite Z.land_ones, Z.shiftl_mul_pow2 by lia.
  rewrite Z.pow_add_r by lia. pose proof (Z.mod_pos_bound x (2 ^ 8) ltac:(lia)).
  assert (0 < 2 ^ k) by (apply Z.pow_pos_nonneg; lia). nia.
Qed.

Lemma byte_below x n : 8 <= n -> 0 <= Z.land x 255 < 2 ^ n.
Proof.
  intros Hn. pose proof (byte_shift x 0 ltac:(lia)) as H. rewrite Z.shiftl_0_r in H.
  assert (2 ^ 8 <= 2 ^ n) by (apply Z.pow_le_mono_r; lia). change (2 ^ (8 + 0)) with (2 ^ 8) in H. lia.
Qed.

Lemma ntohl_u32 x : u32_value (ntohl x).
Proof.
  unfold u32_value, ntohl. pose proof (byte_shift x 24 ltac:(lia)).
  pose proof (byte_shift (Z.shiftr x 8) 16 ltac:(lia)). pose proof (byte_shift (Z.shiftr x 16) 8 ltac:(lia)).
  repeat apply lor_below; try lia. apply byte_below. lia.
Qed.

Lemma ntohs_u16 x : u16_value (ntohs x).
Proof.
  unfold u16_value, ntohs. pose proof (byte_shift x 8 ltac:(lia)).
  apply lor_below; try lia. apply byte_below. lia.
Qed.

(** A metadata writer for a packet with time [tx]: it stores the two addresses
    and the size it is given, in a record that describes a packet. *)
Definition writes (tx : Z) (md : kt_metadata -> list Z -> list Z -> Z -> kt_metadata) : Prop :=
  forall m src dst n, 0 <= n -> zlen src = 6 -> zlen dst = 6 ->
    let r := md m src dst n in
    eth_src r = src /\ eth_dst r = dst /\ psize r = n /\ txtime r = tx /\ metadata_ok r.

Lemma udp_writes tx i a : writes tx (udp_metadata tx i a).
Proof.
  intros m src dst n Hn Hs Hd. split_and!; try done. unfold metadata_ok, udp_metadata.
  split_and!; try done. intros _. split_and!; [apply ntohl_u32..|apply ntohs_u16].
Qed.

Lemma eth_writes tx : writes tx (eth_metadata tx).
Proof. intros m src dst n Hn Hs Hd. by split_and!. Qed.

Lemma transmit_empty sh N iovs hw dmac md :
  shared_wf sh N -> contents (free_ring sh) = [] ->
  transmit sh iovs hw dmac md = Ret (sh, - ENOBUFS).
Proof.
  intros W Hf. unfold transmit, sizeof_u64.
  rewrite dequeue_one_empty by (eauto with kt || lia). cbn. by destruct sh.
Qed.

Lemma transmit_spec sh N i q iov iovs hw dmac tx0 md :
  shared_wf sh N -> contents (free_ring sh) = i :: q ->
  zlen iov <= kt_mbuf_size -> zlen hw = 6 -> zlen dmac = 6 -> writes tx0 md ->
  let m := md (zget (metadata_pool sh) i) hw dmac (zlen iov) in
  exists tx fr,
    transmit sh (iov :: iovs) hw dmac md = Ret (transmitted sh i iov m tx fr, zlen iov) /\
    shared_wf (transmitted sh i iov m tx fr) N /\
    contents fr = q /\ contents tx = contents (tx_ring sh) ++ [i].
Proof.
  intros W Hf Hiov Hhw Hdm Hmd m. destruct (free_index _ _ _ _ W Hf) as [Hi Hroom].
  destruct (dequeue_one (free_ring sh) i q 0) as (fr & Efr & Wfr & Sfr & Cfr); [eauto with kt|done|].
  destruct (enqueue_one (tx_ring sh) i (sw_tx _ _ W) Hroom) as (tx & Etx & Wtx & Stx & Ctx).
  exists tx, fr. destruct (sw_mac _ _ W i Hi) as [Hs Hd].
  split; [|split; [|done]].
  - unfold transmit, sizeof_u64. rewrite Efr. cbn -[znth zset memcpy kt_ringbuf_enqueue_burst].
    rewrite !znth_head. cbn [bind].
    rewrite znth_get by (rewrite (sw_mbufs _ _ W); lia). cbn [bind].
    rewrite memcpy_prefix by (rewrite (sw_mbuf _ _ W) by lia; done). cbn [bind].
    rewrite zset_upd by (rewrite (sw_mbufs _ _ W); lia). cbn [bind].
    rewrite znth_get by (rewrite (sw_metas _ _ W); lia). cbn [bind].
    rewrite !memcpy_whole by done. cbn [bind].
    rewrite zset_upd by (rewrite (sw_metas _ _ W); lia). cbn [bind].
    rewrite Etx. done.
  - destruct (Hmd (zget (metadata_pool sh) i) hw dmac (zlen iov)) as (E1 & E2 & _);
      [auto with kt|done|done|].
    eapply transmitted_wf; eauto; unfold m; congruence.
Qed.

(** A message longer than a buffer is copied past its end. *)
Lemma transmit_overflow sh N i q iov iovs hw dmac md :
  shared_wf sh N -> contents (free_ring sh) = i :: q -> kt_mbuf_size < zlen iov ->
  transmit sh (iov :: iovs) hw dmac md = UB.
Proof.
  intros W Hf Hiov. destruct (free_index _ _ _ _ W Hf) as [Hi _].
  destruct (dequeue_one (free_ring sh) i q 0) as (fr & Efr & _); [eauto with kt|done|].
  unfold transmit, sizeof_u64. rewrite Efr. cbn -[znth zset memcpy kt_ringbuf_enqueue_burst].
  rewrite !znth_head. cbn [bind].
  rewrite znth_get by (rewrite (sw_mbufs _ _ W); lia). cbn [bind].
  rewrite memcpy_overflow; [done|]. by rewrite (sw_mbuf _ _ W).
Qed.

(** Without a payload entry the code reads the array of entries behind its end. *)
Lemma transmit_no_iov sh N i q hw dmac md :
  shared_wf sh N -> contents (free_ring sh) = i :: q -> transmit sh [] hw dmac md = UB.
Proof.
  intros W Hf. destruct (dequeue_one (free_ring sh) i q 0) as (fr & Efr & _); [eauto with kt|done|].
  unfold transmit, sizeof_u64. by rewrite Efr.
Qed.

(** ** Sending as a whole *)

Section Sending.
Context (default_sendmsg : Z -> msghdr -> Z -> Z).

(** Every interface has a hardware address of six bytes. *)
Definition macs_ok (g : kt_lib) : Prop := Forall (fun i => zlen (mac i) = 6) (g_interface_list g).

Lemma macs_ok_find g f i : macs_ok g -> list_find_first f (g_interface_list g) = Some i -> zlen (mac i) = 6.
Proof.
  intros Hm Hf. apply List.find_some in Hf as [Hin _].
  unfold macs_ok in Hm. rewrite Forall_forall in Hm. apply Hm. by apply list_elem_of_In.
Qed.

Lemma get_by_net_mac g a i :
  macs_ok g -> kt_interface_get_by_net g (Some a) = Some i -> zlen (mac i) = 6.
Proof. apply macs_ok_find. Qed.

Lemma interface_find_mac g idx i :
  macs_ok g -> kt_interface_find g idx = Some i -> zlen (mac i) = 6.
Proof. apply macs_ok_find. Qed.

(** How [transmit] may end, with no assumption on the message. *)
Definition moved (sh sh' : kt_shared) (N txt : Z) (iov : list Z) : Prop :=
  exists i q tx fr m,
    metadata_ok m /\ psize m = zlen iov /\ txtime m = txt /\
    contents (free_ring sh) = i :: q /\ contents fr = q /\
    contents tx = contents (tx_ring sh) ++ [i] /\ 0 <= i < N /\ zlen iov <= kt_mbuf_size /\
    sh' = transmitted sh i iov m tx fr.

Lemma transmit_cases sh N iovs hw dmac tx0 md r :
  shared_wf sh N -> zlen hw = 6 -> zlen dmac = 6 -> writes tx0 md ->
  transmit sh iovs hw dmac md = Ret r ->
  shared_wf r.1 N /\
  (contents (free_ring sh) = [] /\ r = (sh, - ENOBUFS) \/
   exists iov iovs', iovs = iov :: iovs' /\ moved sh r.1 N tx0 iov /\ r.2 = zlen iov).
Proof.
  intros W Hhw Hdm Hmd E. destruct (contents (free_ring sh)) as [|i q] eqn:Hf.
  - rewrite (transmit_empty sh N) in E by done. inv_res. auto.
  - destruct iovs as [|iov iovs].
    { by rewrite (transmit_no_iov sh N i q) in E. }
    destruct (decide (zlen iov <= kt_mbuf_size)) as [Hle|Hgt].
    + destruct (transmit_spec sh N i q iov iovs hw dmac tx0 md) as (tx & fr & E' & W' & C1 & C2); try done.
      rewrite E' in E. injection E as <-. cbn [fst snd]. split; [done|]. right.
      exists iov, iovs. split; [done|]. split; [|done].
      exists i, q, tx, fr, (md (zget (metadata_pool sh) i) hw dmac (zlen iov)).
      destruct (free_index _ _ _ _ W Hf) as [Hi _].
      destruct (Hmd (zget (metadata_pool sh) i) hw dmac (zlen iov)) as (_ & _ & ? & ? & ?);
        [auto with kt|done|done|]. split_and!; (done || apply Hi).
    + rewrite (transmit_overflow sh N i q) in E by (done || lia). done.
Qed.

(** A socket registered with [SO_TXTIME] in address family [domain]. *)
Definition timed_socket (g : kt_lib) (fd domain : Z) : Prop :=
  exists node, kt_socket_find g fd = Some node /\ sock_txtime node <> 0 /\
    sock_domain node = Some domain.

(** What an application and the daemon see of a message that went out in
    buffer [i]: the payload and the metadata are in that buffer, its index moved
    from the front of the free ring to the back of the transmission ring, every
    other buffer is as before. *)
Definition delivered (g g' : kt_lib) (N i : Z) (q iov : list Z) (m : kt_metadata) : Prop :=
  shared_wf (g_shared g') N /\
  contents (free_ring (g_shared g')) = q /\
  contents (tx_ring (g_shared g')) = contents (tx_ring (g_shared g)) ++ [i] /\
  zslice (zget (mbuf_pool (g_shared g')) i) 0 (zlen iov) = iov /\
  zget (metadata_pool (g_shared g')) i = m /\
  (forall j, 0 <= j < N -> j <> i ->
     zget (mbuf_pool (g_shared g')) j = zget (mbuf_pool (g_shared g)) j /\
     zget (metadata_pool (g_shared g')) j = zget (metadata_pool (g_shared g)) j) /\
  g_socket_list g' = g_socket_list g /\ g_interface_list g' = g_interface_list g.

Lemma transmitted_delivered g N i q iov m tx fr :
  shared_wf (g_shared g) N -> 0 <= i < N ->
  shared_wf (transmitted (g_shared g) i iov m tx fr) N ->
  contents fr = q -> contents tx = contents (tx_ring (g_shared g)) ++ [i] ->
  delivered g (set_shared g (transmitted (g_shared g) i iov m tx fr)) N i q iov m.
Proof.
  intros W Hi W' Cf Ct. unfold delivered, set_shared, transmitted in *.
  cbn [g_shared free_ring tx_ring mbuf_pool metadata_pool g_socket_list g_interface_list] in *.
  pose proof (sw_mbufs _ _ W). pose proof (sw_metas _ _ W).
  split_and!; try done.
  - rewrite zget_zupd_eq by lia. unfold zslice, zlen. rewrite Nat2Z.id.
    change (Z.to_nat 0) with 0%nat. by rewrite drop_0, take_app_length.
  - by rewrite zget_zupd_eq by lia.
  - intros j Hj Hne. by rewrite !zget_zupd_ne by lia.
Qed.

(** The part of [sendmsg] before the dispatch on the domain. *)
Lemma sendmsg_dispatch g fd domain msg flags tx :
  timed_socket g fd domain -> find_txtime msg = Some tx ->
  (domain = AF_INET ->
   sendmsg default_sendmsg g fd msg flags =
     (r <- sendmsg_inet default_sendmsg g fd msg flags tx;; Ret (r.1, Some r.2))) /\
  (domain = PF_PACKET ->
   sendmsg default_sendmsg g fd msg flags =
     (r <- sendmsg_packet default_sendmsg g fd msg flags tx;; Ret (r.1, Some r.2))).
Proof.
  intros (node & Hn & Ht & Hd) Htx. unfold sendmsg. rewrite Hn, Htx, Hd.
  rewrite (proj2 (Z.eqb_neq _ _) Ht). split; by intros ->.
Qed.

Lemma sendmsg_inet_delivers g fd msg flags tx bs addr interface iov iovs N :
  shared_wf (g_shared g) N -> macs_ok g ->
  timed_socket g fd AF_INET -> find_txtime msg = Some tx ->
  msg_name msg = Some bs -> as_sockaddr_in bs = Ret addr ->
  kt_interface_get_by_net g (Some addr) = Some interface ->
  msg_iov msg = iov :: iovs -> zlen iov <= kt_mbuf_size ->
  match contents (free_ring (g_shared g)) with
  | [] => sendmsg default_sendmsg g fd msg flags = Ret (g, Some (- ENOBUFS))
  | i :: q => exists g',
      sendmsg default_sendmsg g fd msg flags = Ret (g', Some (zlen iov)) /\
      delivered g g' N i q iov
        (mk_metadata KT_METADATA_TRANSPORT_UDP tx (mac interface) kt_default_dst_mac
           (ntohl (s_addr (ifaddr interface))) (ntohl (s_addr addr)) (ntohs (sin_port addr))
           (zlen iov))
  end.
Proof.
  intros W Hm Hs Htx Hn Ha Hi Hv Hle.
  rewrite (proj1 (sendmsg_dispatch _ _ _ _ flags _ Hs Htx) eq_refl).
  rewrite (sendmsg_inet_transmit _ _ _ _ _ _ bs addr interface) by done. rewrite Hv.
  destruct (contents (free_ring (g_shared g))) as [|i q] eqn:Hf.
  - rewrite (transmit_empty _ N) by done. cbn. by destruct g.
  - destruct (transmit_spec (g_shared g) N i q iov iovs (mac interface) kt_default_dst_mac
      tx (udp_metadata tx interface addr)) as (t & f & E & W' & Cf & Ct);
      [done|done|done|by eapply get_by_net_mac|done|apply udp_writes|].
    rewrite E. eexists. split; [done|].
    destruct (free_index _ _ _ _ W Hf). by apply transmitted_delivered.
Qed.

(** C8: a timed message of at most 2048 bytes on an IPv4 socket to a known network.  With no free
    buffer the call fails with [ENOBUFS] and changes nothing; otherwise it
    returns the size and the first buffer of the free ring carries the payload
    and the addresses, ports and time of the message to the transmission ring,
    which always has room, while every other buffer keeps its content. *)
Theorem sendmsg_inet_correct g fd msg flags tx bs addr interface iov iovs N :
  shared_wf (g_shared g) N -> macs_ok g ->
  timed_socket g fd AF_INET -> find_txtime msg = Some tx ->
  msg_name msg = Some bs -> as_sockaddr_in bs = Ret addr ->
  kt_interface_get_by_net g (Some addr) = Some interface ->
  msg_iov msg = iov :: iovs -> zlen iov <= kt_mbuf_size ->
  match contents (free_ring (g_shared g)) with
  | [] => sendmsg default_sendmsg g fd msg flags = Ret (g, Some (- ENOBUFS))
  | i :: q => exists g',
      sendmsg default_sendmsg g fd msg flags = Ret (g', Some (zlen iov)) /\
      delivered g g' N i q iov
        (mk_metadata KT_METADATA_TRANSPORT_UDP tx (mac interface) kt_default_dst_mac
           (ntohl (s_addr (ifaddr interface))) (ntohl (s_addr addr)) (ntohs (sin_port addr))
           (zlen iov))
  end.
Proof. apply sendmsg_inet_delivers. Qed.

(** C21: every outcome of a timed message on a packet socket.  Without an address, or
    with one that is shorter than the interface index reaches, the behaviour is
    undefined; for an interface the library does not know the call is passed to the C
    library.  With no free buffer it fails with [ENOBUFS] and changes nothing; with
    one, a message without a payload entry or longer than a buffer is undefined, and
    every other message is delivered: the call returns its size and the first buffer of the
    free ring carries payload and time to the transmission ring, addressed from the
    interface to the multicast address, the IP members of the metadata as they were. *)
Theorem sendmsg_packet_correct g fd msg flags tx N :
  shared_wf (g_shared g) N -> macs_ok g ->
  timed_socket g fd PF_PACKET -> find_txtime msg = Some tx ->
  let call := sendmsg default_sendmsg g fd msg flags in
  match msg_name msg with
  | None => call = UB
  | Some bs =>
      if zlen bs <? 8 then call = UB
      else
        match kt_interface_find g (i32 (le_decode (zslice bs 4 4))) with
        | None => call = Ret (g, Some (default_sendmsg fd msg flags))
        | Some interface =>
            match contents (free_ring (g_shared g)), msg_iov msg with
            | [], _ => call = Ret (g, Some (- ENOBUFS))
            | _ :: _, [] => call = UB
            | i :: q, iov :: _ =>
                if kt_mbuf_size <? zlen iov then call = UB
                else exists g',
                  let old := zget (metadata_pool (g_shared g)) i in
                  call = Ret (g', Some (zlen iov)) /\
                  delivered g g' N i q iov
                    (mk_metadata KT_METADATA_TRANSPORT_ETHERNET tx (mac interface) kt_multicast_mac
                       (ip_src old) (ip_dst old) (udp_dport old) (zlen iov))
            end
        end
  end.
Proof.
  intros W Hm Hs Htx call. unfold call.
  rewrite (proj2 (sendmsg_dispatch _ _ _ _ flags _ Hs Htx) eq_refl). clear call.
  destruct (msg_name msg) as [bs|] eqn:Hn; [|unfold sendmsg_packet; by rewrite Hn].
  destruct (zlen bs <? 8) eqn:Hlen; [unfold sendmsg_packet, sll_ifindex; by rewrite Hn, Hlen|].
  assert (Ha : sll_ifindex bs = Ret (i32 (le_decode (zslice bs 4 4)))) by (unfold sll_ifindex; by rewrite Hlen).
  destruct (kt_interface_find _ _) as [interface|] eqn:Hi;
    [|unfold sendmsg_packet; rewrite Hn, Ha; cbn [bind]; by rewrite Hi].
  rewrite (sendmsg_packet_transmit _ _ _ _ _ _ bs _ interface) by done.
  destruct (contents (free_ring (g_shared g))) as [|i q] eqn:Hf.
  { rewrite (transmit_empty _ N) by done. cbn. by destruct g. }
  destruct (msg_iov msg) as [|iov iovs]; [by rewrite (transmit_no_iov _ N i q)|].
  destruct (Z.ltb_spec kt_mbuf_size (zlen iov)); [by rewrite (transmit_overflow _ N i q)|].
  destruct (transmit_spec (g_shared g) N i q iov iovs (mac interface) kt_multicast_mac
    tx (eth_metadata tx)) as (t & f & E & W' & Cf & Ct);
    [done|done|done|by eapply interface_find_mac|done|apply eth_writes|].
  rewrite E. eexists. split; [done|]. destruct (free_index _ _ _ _ W Hf). by apply transmitted_delivered.
Qed.

Lemma send_result g N hw dmac tx0 md iovs g' n :
  shared_wf (g_shared g) N -> zlen hw = 6 -> zlen dmac = 6 -> writes tx0 md ->
  (r <- transmit (g_shared g) iovs hw dmac md;; Ret (set_shared g r.1, r.2)) = Ret (g', n) ->
  shared_wf (g_shared g') N /\
  (g' = g /\ n = - ENOBUFS /\ contents (free_ring (g_shared g)) = [] \/
   exists iov iovs', iovs = iov :: iovs' /\ n = zlen iov /\
     g' = set_shared g (g_shared g') /\ moved (g_shared g) (g_shared g') N tx0 iov).
Proof.
  intros W Hh Hd Hk E. inv_res.
  match goal with H : transmit _ _ _ _ _ = Ret ?r |- _ =>
    destruct (transmit_cases _ N _ _ _ _ _ r W Hh Hd Hk H) as [W' [[Hf ->]|(iov & iovs' & -> & Hmv & Hn)]]
  end.
  - split; [done|]. left. by destruct g.
  - split; [done|]. right. exists iov, iovs'. done.
Qed.

(** Either nothing changed, or one index moved and the result is the size. *)
Definition send_outcome (g : kt_lib) (msg : msghdr) (N : Z) (g' : kt_lib) (v : option Z) : Prop :=
  shared_wf (g_shared g') N /\
  g_socket_list g' = g_socket_list g /\ g_interface_list g' = g_interface_list g /\
  (g' = g \/
   exists iov iovs tx, msg_iov msg = iov :: iovs /\ v = Some (zlen iov) /\
     find_txtime msg = Some tx /\ moved (g_shared g) (g_shared g') N tx iov).

Lemma outcome_same g msg N g' v w :
  shared_wf (g_shared g) N -> Ret (g, w) = Ret (g', v) -> send_outcome g msg N g' v.
Proof. intros W [= <- _]. split_and!; auto. Qed.

Lemma outcome_transmit g msg N g' n hw dmac tx md :
  shared_wf (g_shared g) N -> zlen hw = 6 -> zlen dmac = 6 -> writes tx md ->
  find_txtime msg = Some tx ->
  (r <- transmit (g_shared g) (msg_iov msg) hw dmac md;; Ret (set_shared g r.1, r.2)) = Ret (g', n) ->
  send_outcome g msg N g' (Some n).
Proof.
  intros W Hh Hd Hk Htx E.
  destruct (send_result g N hw dmac tx md _ g' n W Hh Hd Hk E)
    as [W' [(-> & _ & _)|(iov & iovs' & Hv & -> & Hg & Hmv)]].
  - split_and!; auto.
  - split_and!; [done|by rewrite Hg..|]. right. by exists iov, iovs', tx.
Qed.

Lemma inet_outcome g fd msg flags tx N g' n :
  shared_wf (g_shared g) N -> macs_ok g -> find_txtime msg = Some tx ->
  sendmsg_inet default_sendmsg g fd msg flags tx = Ret (g', n) -> send_outcome g msg N g' (Some n).
Proof.
  intros W Hm Htx E. destruct (msg_name msg) as [bs|] eqn:Hn;
    [|unfold sendmsg_inet in E; rewrite Hn in E; eapply (outcome_same _ _ _ _ _ (Some _)); [done|by inv_res]].
  destruct (as_sockaddr_in bs) as [a| | |] eqn:Ha;
    [|by unfold sendmsg_inet in E; rewrite Hn, Ha in E..].
  destruct (kt_interface_get_by_net g (Some a)) as [i|] eqn:Hi.
  - rewrite (sendmsg_inet_transmit _ _ _ _ _ _ bs a i) in E by done.
    eapply outcome_transmit; [..|exact E];
      [done|by eapply get_by_net_mac|done|apply udp_writes|done].
  - unfold sendmsg_inet in E. rewrite Hn, Ha in E. cbn [bind] in E. rewrite Hi in E.
    eapply (outcome_same _ _ _ _ _ (Some _)); [done|by inv_res].
Qed.

Lemma packet_outcome g fd msg flags tx N g' n :
  shared_wf (g_shared g) N -> macs_ok g -> find_txtime msg = Some tx ->
  sendmsg_packet default_sendmsg g fd msg flags tx = Ret (g', n) -> send_outcome g msg N g' (Some n).
Proof.
  intros W Hm Htx E. destruct (msg_name msg) as [bs|] eqn:Hn;
    [|by unfold sendmsg_packet in E; rewrite Hn in E].
  destruct (sll_ifindex bs) as [x| | |] eqn:Hx;
    [|by unfold sendmsg_packet in E; rewrite Hn, Hx in E..].
  destruct (kt_interface_find g x) as [i|] eqn:Hi.
  - rewrite (sendmsg_packet_transmit _ _ _ _ _ _ bs x i) in E by done.
    eapply outcome_transmit; [..|exact E];
      [done|by eapply interface_find_mac|done|apply eth_writes|done].
  - unfold sendmsg_packet in E. rewrite Hn, Hx in E. cbn [bind] in E. rewrite Hi in E.
    eapply (outcome_same _ _ _ _ _ (Some _)); [done|by inv_res].
Qed.

Lemma sendmsg_outcome g fd msg flags N g' v :
  shared_wf (g_shared g) N -> macs_ok g ->
  sendmsg default_sendmsg g fd msg flags = Ret (g', v) -> send_outcome g msg N g' v.
Proof.
  intros W Hm E. unfold sendmsg in E.
  destruct (kt_socket_find g fd) as [node|]; [|by eapply outcome_same].
  destruct (sock_txtime node =? 0); [by eapply outcome_same|].
  destruct (find_txtime msg) as [tx|] eqn:Htx; [|by eapply outcome_same].
  destruct (sock_domain node) as [domain|]; [|done].
  destruct (domain =? PF_PACKET); [|destruct (domain =? AF_INET); [|by eapply outcome_same]];
    apply bind_Ret in E as ([g1 n] & E & [= -> <-]).
  - by eapply packet_outcome.
  - by eapply inet_outcome.
Qed.

(** Whatever the message, a call of [sendmsg] that returns leaves the shared
    memory well formed and the tables of the library untouched.  Either nothing
    changed at all (a message passed on to the C library, or no free buffer),
    or exactly one index went from the free ring to the transmission ring, the
    result is the size of a message that fits its buffer, and the buffer's
    metadata describe a packet of that size with the time of the message. *)
Theorem sendmsg_preserves g fd msg flags N g' v :
  shared_wf (g_shared g) N -> macs_ok g ->
  sendmsg default_sendmsg g fd msg flags = Ret (g', v) ->
  shared_wf (g_shared g') N /\
  g_socket_list g' = g_socket_list g /\ g_interface_list g' = g_interface_list g /\
  (g' = g \/
   exists iov iovs tx, msg_iov msg = iov :: iovs /\ v = Some (zlen iov) /\
     find_txtime msg = Some tx /\ moved (g_shared g) (g_shared g') N tx iov).
Proof. apply sendmsg_outcome. Qed.

(** A timed message longer than the 2048 bytes of a buffer on an IPv4 socket
    is copied past the end of the buffer: the call is undefined. *)
Theorem sendmsg_overflows g fd msg flags tx bs addr interface iov iovs N i q :
  shared_wf (g_shared g) N -> contents (free_ring (g_shared g)) = i :: q ->
  timed_socket g fd AF_INET -> find_txtime msg = Some tx ->
  msg_name msg = Some bs -> as_sockaddr_in bs = Ret addr ->
  kt_interface_get_by_net g (Some addr) = Some interface ->
  msg_iov msg = iov :: iovs -> kt_mbuf_size < zlen iov ->
  sendmsg default_sendmsg g fd msg flags = UB.
Proof.
  intros W Hf Hs Htx Hn Ha Hi Hv Hgt.
  rewrite (proj1 (sendmsg_dispatch _ _ _ _ flags _ Hs Htx) eq_refl).
  rewrite (sendmsg_inet_transmit _ _ _ _ _ _ bs addr interface) by done. rewrite Hv.
  by rewrite (transmit_overflow _ N i q).
Qed.
End Sending.

(** ** The table of sockets *)

Definition fds_of (l : list kt_socket) : list Z := sock_fd <$> l.
Definition fds (g : kt_lib) : list Z := fds_of (g_socket_list g).

(** No descriptor has two entries, and the [SO_TXTIME] flag is 0 or 1. *)
Definition sockets_wf (g : kt_lib) : Prop :=
  NoDup (fds g) /\ Forall (fun s => sock_txtime s = 0 \/ sock_txtime s = 1) (g_socket_list g).

Lemma find_None_fds l fd : List.find (fun s => sock_fd s =? fd) l = None <-> fd ∉ fds_of l.
Proof.
  unfold fds_of. induction l as [|s l IH]; cbn.
  - split; [by intros _ ?%not_elem_of_nil|done].
  - rewrite not_elem_of_cons. destruct (Z.eqb_spec (sock_fd s) fd) as [->|Hne].
    + split; [done|]. by intros [].
    + rewrite IH. split; [intros H; split; [congruence|done]|by intros [_ H]].
Qed.

Lemma update_socket_fds l fd f :
  (forall s, sock_fd (f s) = sock_fd s) -> sock_fd <$> update_socket l fd f = sock_fd <$> l.
Proof.
  intros Hf. induction l as [|s l IH]; [done|]. cbn. case_match; cbn; [by rewrite Hf|by rewrite IH].
Qed.

Lemma find_update l fd f fd' :
  (forall s, sock_fd (f s) = sock_fd s) ->
  List.find (fun s => sock_fd s =? fd') (update_socket l fd f) =
    (if fd' =? fd then f <$> List.find (fun s => sock_fd s =? fd') l
     else List.find (fun s => sock_fd s =? fd') l).
Proof.
  intros Hf. induction l as [|s l IH]; cbn; [by case_match|].
  destruct (Z.eqb_spec (sock_fd s) fd) as [Heq|Hne]; cbn; rewrite ?Hf, ?Heq.
  - destruct (Z.eqb_spec fd' fd) as [->|H]; [by rewrite Z.eqb_refl|].
    by rewrite (proj2 (Z.eqb_neq fd fd')) by congruence.
  - rewrite IH. destruct (Z.eqb_spec (sock_fd s) fd') as [Heq|]; [|done].
    by rewrite <- Heq, (proj2 (Z.eqb_neq _ _) Hne).
Qed.

Lemma update_socket_Forall (P : kt_socket -> Prop) l fd f :
  (forall s, P s -> P (f s)) -> Forall P l -> Forall P (update_socket l fd f).
Proof. intros Hf. induction 1 as [|s l Hs Hl IH]; cbn; [done|]. case_match; auto. Qed.

Lemma remove_socket_sublist l fd : remove_socket l fd `sublist_of` l.
Proof.
  induction l as [|s l IH]; cbn; [done|]. case_match; [by apply sublist_cons|by apply sublist_skip].
Qed.

Lemma find_remove l fd fd' :
  NoDup (sock_fd <$> l) ->
  List.find (fun s => sock_fd s =? fd') (remove_socket l fd) =
    (if fd' =? fd then None else List.find (fun s => sock_fd s =? fd') l).
Proof.
  induction l as [|s l IH]; cbn; intros Hnd; [by case_match|].
  apply NoDup_cons in Hnd as [Hni Hnd'].
  destruct (Z.eqb_spec (sock_fd s) fd) as [Heq|Hne]; cbn.
  - rewrite Heq in Hni |- *. rewrite (Z.eqb_sym fd fd').
    destruct (Z.eqb_spec fd' fd) as [E|H]; [|done].
    rewrite E. by apply find_None_fds.
  - rewrite IH by done. destruct (Z.eqb_spec (sock_fd s) fd') as [Heq|]; [|done].
    by rewrite <- Heq, (proj2 (Z.eqb_neq _ _) Hne).
Qed.

(** A call of [sendmsg] writes to nothing but the shared memory. *)
Lemma sendmsg_tables c_sendmsg g fd msg flags g' v :
  sendmsg c_sendmsg g fd msg flags = Ret (g', v) -> exists sh, g' = set_shared g sh.
Proof.
  assert (Hself : exists sh, g = set_shared g sh) by (exists (g_shared g); by destruct g).
  intros E. unfold sendmsg, sendmsg_packet, sendmsg_inet in E.
  repeat (match goal with
          | H : bind _ _ = Ret _ |- _ => apply bind_Ret in H; destruct H as (? & ? & H)
          | H : Ret _ = Ret _ |- _ => injection H as H; subst
          | H : context [match ?x with _ => _ end] |- _ => destruct x
          end; try discriminate); subst; cbn [fst snd] in *; simplify_eq; eauto.
Qed.

Section Sockets.
Context (default_socket : Z -> Z -> Z -> Z).
Context (default_setsockopt : Z -> Z -> Z -> option Z -> Z -> Z).
Context (default_sendmsg : Z -> msghdr -> Z -> Z).
Context (default_close : Z -> Z).

(** One call of the application into the library that returns to it.  What the C
    library answers may differ from call to call. *)
Inductive lib_call : kt_lib -> kt_lib -> Prop :=
  | call_socket c_socket mok g d t p g' v :
      socket c_socket mok g d t p = Ret (g', v) -> lib_call g g'
  | call_setsockopt c_setsockopt mok g fd level optname optval optlen g' v :
      setsockopt c_setsockopt mok g fd level optname optval optlen = Ret (g', v) -> lib_call g g'
  | call_sendmsg c_sendmsg g fd msg flags g' v :
      sendmsg c_sendmsg g fd msg flags = Ret (g', v) -> lib_call g g'
  | call_close c_close g fd g' v :
      close c_close g fd = (g', v) -> lib_call g g'.

Lemma insert_socket_wf g s :
  sockets_wf g -> kt_socket_find g (sock_fd s) = None ->
  sock_txtime s = 0 \/ sock_txtime s = 1 -> sockets_wf (set_sockets g (s :: g_socket_list g)).
Proof.
  intros [Hn Ht] Hf Hs. split; [|by constructor]. cbn. apply NoDup_cons.
  split; [|done]. by apply find_None_fds.
Qed.

Lemma update_socket_wf g fd f :
  sockets_wf g -> (forall s, sock_fd (f s) = sock_fd s) ->
  (forall s, sock_txtime s = 0 \/ sock_txtime s = 1 ->
             sock_txtime (f s) = 0 \/ sock_txtime (f s) = 1) ->
  sockets_wf (set_sockets g (update_socket (g_socket_list g) fd f)).
Proof.
  intros [Hn Ht] Hf Hx. split.
  - unfold fds, fds_of. cbn. by rewrite update_socket_fds.
  - cbn. by apply update_socket_Forall.
Qed.

Lemma remove_socket_wf g fd :
  sockets_wf g -> sockets_wf (set_sockets g (remove_socket (g_socket_list g) fd)).
Proof.
  intros [Hn Ht]. pose proof (remove_socket_sublist (g_socket_list g) fd) as Hs. split; cbn.
  - unfold fds, fds_of. cbn. eapply sublist_NoDup; [exact Hn|]. by apply fmap_sublist.
  - rewrite Forall_forall in Ht |- *. intros s Hin. apply Ht.
    eapply sublist_submseteq, elem_of_submseteq in Hs; eauto.
Qed.

(** C34: from the empty table that [__libc_start_main] sets up, no sequence of
    calls of the application ever gives a descriptor two entries, and the
    [SO_TXTIME] flag of every entry is 0 or 1. *)
Theorem socket_table_invariant g0 g :
  g_socket_list g0 = [] -> rtc lib_call g0 g -> sockets_wf g.
Proof.
  intros H0 Hr. assert (Hwf : sockets_wf g0).
  { unfold sockets_wf, fds, fds_of. rewrite H0. split; [by apply NoDup_nil|done]. }
  clear H0. induction Hr as [g|g1 g2 g3 Hc _ IH]; [done|]. apply IH. clear IH.
  destruct Hc as [cs mok g d t p g' v E|cs mok g fd level optname optval optlen g' v E
                 |cs g fd msg flags g' v E|cs g fd g' v E].
  - unfold socket in E. repeat case_match; inv_res; try done. apply insert_socket_wf; auto.
  - unfold setsockopt in E. repeat case_match; inv_res; try done;
      first [by apply insert_socket_wf; auto | apply update_socket_wf; auto].
  - destruct (sendmsg_tables _ _ _ _ _ _ _ E) as [sh ->]. exact Hwf.
  - unfold close in E. case_match; injection E as <- _; [by apply remove_socket_wf|done].
Qed.

(** [setsockopt(SO_TXTIME)] turns the flag on for its descriptor, creating an
    entry if there is none, and changes no other descriptor. *)
Theorem setsockopt_txtime_correct g fd optval optlen :
  exists g', setsockopt default_setsockopt true g fd SOL_SOCKET SO_TXTIME optval optlen = Ret (g', 0) /\
    forall fd', kt_socket_find g' fd' =
      if fd' =? fd then
        Some (match kt_socket_find g fd with
              | Some s => mk_socket (sock_fd s) (sock_prio s) 1 (sock_domain s)
              | None => mk_socket fd (-1) 1 None
              end)
      else kt_socket_find g fd'.
Proof.
  unfold setsockopt. cbn [Z.eqb Pos.eqb andb SOL_SOCKET SO_TXTIME].
  unfold kt_socket_find, list_find_first.
  destruct (List.find (fun s => sock_fd s =? fd) (g_socket_list g)) as [s|] eqn:F;
    eexists; (split; [reflexivity|]); intros fd'; cbn [g_socket_list set_sockets].
  - rewrite find_update by done. destruct (Z.eqb_spec fd' fd) as [->|]; [by rewrite F|done].
  - cbn. by rewrite Z.eqb_sym; case_match.
Qed.

(** [close] forgets its descriptor and no other, leaves the shared memory
    alone, and returns what the C library's [close] returns. *)
Theorem close_correct g fd :
  sockets_wf g ->
  exists g', close default_close g fd = (g', default_close fd) /\
    g_shared g' = g_shared g /\ sockets_wf g' /\
    forall fd', kt_socket_find g' fd' = if fd' =? fd then None else kt_socket_find g fd'.
Proof.
  intros W. unfold close, free_socket.
  destruct (kt_socket_find g fd) as [s|] eqn:F; eexists; (split; [reflexivity|]).
  - split_and!; [done|by apply remove_socket_wf|]. intros fd'. apply find_remove, W.
  - split_and!; try done. intros fd'. by destruct (Z.eqb_spec fd' fd) as [->|].
Qed.

(** A socket opened through the library and given [SO_TXTIME] is a timed
    socket of the domain it was opened with, although [socket] itself gives its
    caller no value. *)
Theorem opened_socket_is_timed g domain type protocol optval optlen :
  let fd := default_socket domain type protocol in
  0 <= fd -> kt_socket_find g fd = None ->
  exists g1 g2,
    socket default_socket true g domain type protocol = Ret (g1, None) /\
    setsockopt default_setsockopt true g1 fd SOL_SOCKET SO_TXTIME optval optlen = Ret (g2, 0) /\
    timed_socket g2 fd domain.
Proof.
  intros fd Hfd F. unfold socket. fold fd. rewrite (proj2 (Z.ltb_ge fd 0) Hfd), F.
  eexists _, _. split; [reflexivity|].
  unfold setsockopt. cbn [Z.eqb Pos.eqb andb SOL_SOCKET SO_TXTIME].
  unfold timed_socket, kt_socket_find, list_find_first. cbn. rewrite Z.eqb_refl.
  split; [reflexivity|]. eexists. cbn. rewrite Z.eqb_refl. by split.
Qed.

(** A descriptor the library has not seen (inherited, duplicated, accepted) that
    is given [SO_TXTIME] has an entry whose domain was never written: the first
    timed message on it is undefined. *)
Theorem unseen_socket_undefined g fd optval optlen msg flags tx :
  kt_socket_find g fd = None -> find_txtime msg = Some tx ->
  exists g', setsockopt default_setsockopt true g fd SOL_SOCKET SO_TXTIME optval optlen = Ret (g', 0) /\
    sendmsg default_sendmsg g' fd msg flags = UB.
Proof.
  intros F Htx. unfold setsockopt. cbn [Z.eqb Pos.eqb andb SOL_SOCKET SO_TXTIME]. rewrite F.
  eexists. split; [reflexivity|]. unfold sendmsg, kt_socket_find, list_find_first. cbn.
  by rewrite Z.eqb_refl, Htx.
Qed.
End Sockets.

(** ** Interfaces *)

Lemma find_first_spec {A} (f : A -> bool) l x :
  list_find_first f l = Some x <->
  exists l1 l2, l = l1 ++ x :: l2 /\ f x = true /\ Forall (fun y => f y = false) l1.
Proof.
  unfold list_find_first. induction l as [|y l IH]; cbn.
  - split; [done|]. intros (l1 & l2 & E & _). by destruct l1.
  - destruct (f y) eqn:Fy.
    + split; [intros [= ->]; by exists [], l|]. intros (l1 & l2 & E & Fx & Hall).
      destruct l1 as [|z l1]; [cbn in E; congruence|]. injection E as -> _. inversion Hall. congruence.
    + rewrite IH. split; intros (l1 & l2 & E & Fx & Hall).
      * exists (y :: l1), l2. subst. auto.
      * destruct l1 as [|z l1]; [cbn in E; congruence|]. injection E as -> ->.
        exists l1, l2. inversion Hall. auto.
Qed.

Lemma same_subnetwork_bits a b m :
  is_same_subnetwork a b m = true <->
  forall k, 0 <= k -> Z.testbit (s_addr m) k = true -> Z.testbit (s_addr a) k = Z.testbit (s_addr b) k.
Proof.
  unfold is_same_subnetwork. rewrite Z.eqb_eq. split.
  - intros E k Hk Hm. apply (f_equal (fun z => Z.testbit z k)) in E.
    by rewrite !Z.land_spec, Hm, !andb_true_r in E.
  - intros H. apply Z.bits_inj'. intros k Hk. rewrite !Z.land_spec.
    destruct (Z.testbit (s_addr m) k) eqn:E; [by rewrite H|by rewrite !andb_false_r].
Qed.

(** [kt_interface_get_by_net] returns the first interface whose address agrees
    with the destination on every bit of the interface's netmask. *)
Theorem interface_by_net_correct g addr i :
  let agrees j := forall k, 0 <= k -> Z.testbit (s_addr (netmask j)) k = true ->
                    Z.testbit (s_addr (ifaddr j)) k = Z.testbit (s_addr addr) k in
  kt_interface_get_by_net g (Some addr) = Some i <->
  exists l1 l2, g_interface_list g = l1 ++ i :: l2 /\ agrees i /\ Forall (fun j => ~ agrees j) l1.
Proof.
  intros agrees. cbn [kt_interface_get_by_net]. rewrite find_first_spec.
  assert (Hf : forall l, Forall (fun j => is_same_subnetwork (ifaddr j) addr (netmask j) = false) l <->
                         Forall (fun j => ~ agrees j) l).
  { intros l. apply Forall_iff. intros j. unfold agrees.
    rewrite <- same_subnetwork_bits. by destruct (is_same_subnetwork _ _ _). }
  split; intros (l1 & l2 & E & Hi & Hl); exists l1, l2; split; [done| |done|];
    (split; [|by apply Hf]).
  - exact (proj1 (same_subnetwork_bits _ _ _) Hi).
  - exact (proj2 (same_subnetwork_bits _ _ _) Hi).
Qed.

Section Startup.
Context (default_socket : Z -> Z -> Z -> Z) (default_close : Z -> Z).
Context (if_nametoindex : string -> Z) (getnameinfo : sockaddr_in -> Z).
Context (ioctl_hwaddr : Z -> string -> option (list Z)).

(** The hardware address is asked for with the library's own [socket], which
    gives its caller a value only when it fails. *)
Lemma query_mac_outcome mok g i :
  query_and_add_mac_address default_socket default_close ioctl_hwaddr mok g i =
    if default_socket AF_INET SOCK_DGRAM 0 <? 0 then Abort else UB.
Proof.
  unfold query_and_add_mac_address, socket. destruct (default_socket AF_INET SOCK_DGRAM 0 <? 0) eqn:H.
  - cbn [bind use_value]. by rewrite H.
  - destruct (kt_socket_find _ _); [done|]. by destruct mok.
Qed.

Definition is_ipv4 (ifa : ifaddrs) : Prop := exists a, ifa_addr ifa = Some (AF_INET, a).

(** The name of the entry resolves, if it is an IPv4 one. *)
Definition resolves (ifa : ifaddrs) : Prop := forall a, ifa_addr ifa = Some (AF_INET, a) -> getnameinfo a = 0.
Definition has_netmask (ifa : ifaddrs) : Prop := is_ipv4 ifa -> is_Some (ifa_netmask ifa).

(** The four ways the traversal may end, with what each of them means. *)
Lemma add_interfaces_outcome mok l : forall acc,
  match add_interfaces if_nametoindex getnameinfo mok l acc with
  | Ret acc' => (acc <> [] \/ Exists is_ipv4 l -> acc' <> []) /\
                (Forall (fun ifa => ~ is_ipv4 ifa) l -> acc' = acc)
  | UB => Exists is_ipv4 l /\ (mok = false \/ ~ Forall has_netmask l)
  | Abort => Exists is_ipv4 l /\ ~ Forall resolves l
  | Diverge => False
  end.
Proof.
  induction l as [|ifa l IH]; intros acc; cbn [add_interfaces].
  { split; [|done]. intros [H|H]; [done|by apply Exists_nil in H]. }
  assert (Hskip : (is_ipv4 ifa -> acc <> []) ->
    match add_interfaces if_nametoindex getnameinfo mok l acc with
    | Ret acc' => (acc <> [] \/ Exists is_ipv4 (ifa :: l) -> acc' <> []) /\
                  (Forall (fun ifa => ~ is_ipv4 ifa) (ifa :: l) -> acc' = acc)
    | UB => Exists is_ipv4 (ifa :: l) /\ (mok = false \/ ~ Forall has_netmask (ifa :: l))
    | Abort => Exists is_ipv4 (ifa :: l) /\ ~ Forall resolves (ifa :: l)
    | Diverge => False
    end).
  { intros Hi. specialize (IH acc). destruct (add_interfaces _ _ mok l acc).
    all: rewrite ?Exists_cons, ?Forall_cons; tauto. }
  destruct (ifa_addr ifa) as [[f a]|] eqn:Ea.
  2: { apply Hskip. intros [a Ha]. congruence. }
  destruct (Z.eqb_spec f AF_INET) as [->|Hne].
  2: { apply Hskip. intros [a' Ha]. congruence. }
  assert (Hi : is_ipv4 ifa) by (by exists a).
  destruct (Z.eqb_spec (getnameinfo a) 0) as [Hn|Hn]; cbn [negb].
  2: { split; [by left|]. intros [H _]%Forall_cons. by apply Hn, H. }
  destruct (kt_interface_exists acc _) eqn:Hex.
  { apply Hskip. by intros _ ->. }
  destruct mok; [|split; [by left|by left]].
  destruct (ifa_netmask ifa) as [nm|] eqn:Hm.
  - set (acc1 := _ :: acc). specialize (IH acc1). assert (acc1 <> []) by done.
    destruct (add_interfaces _ _ true l acc1); rewrite ?Exists_cons, ?Forall_cons; tauto.
  - split; [by left|]. right. intros [H _]%Forall_cons. apply H in Hi. rewrite Hm in Hi. by destruct Hi.
Qed.

(** How the library's start-up reads the interfaces, from empty tables. *)
Lemma query_interfaces_outcome mok g ifs :
  g_interface_list g = [] ->
  let run := query_interfaces default_socket default_close if_nametoindex getnameinfo ioctl_hwaddr mok g ifs in
  match ifs with
  | None => run = Abort
  | Some l =>
      (Forall (fun ifa => ~ is_ipv4 ifa) l -> run = Ret g) /\
      (Exists is_ipv4 l ->
         (run = UB \/ run = Abort) /\
         (Forall resolves l -> 0 <= default_socket AF_INET SOCK_DGRAM 0 -> run = UB) /\
         (mok = true -> Forall has_netmask l -> default_socket AF_INET SOCK_DGRAM 0 < 0 -> run = Abort))
  end.
Proof.
  intros Hg run. destruct ifs as [l|]; [|done]. unfold run, query_interfaces. rewrite Hg.
  pose proof (add_interfaces_outcome mok l []) as H.
  destruct (add_interfaces _ _ mok l []) as [acc| | |]; cbn [bind].
  - destruct H as [H1 H2]. split.
    + intros Hl. rewrite (H2 Hl). cbn [query_macs bind]. destruct g. cbn in *. by subst.
    + intros Hx. destruct acc as [|i acc]; [exfalso; apply H1; auto|].
      cbn [query_macs]. rewrite query_mac_outcome. destruct (Z.ltb_spec (default_socket AF_INET SOCK_DGRAM 0) 0); cbn [bind].
      * split_and!; auto; lia.
      * split_and!; auto. lia.
  - destruct H as [Hx Hor]. split.
    + intros Hl. exfalso. by apply (Forall_not_Exists _ _ Hl).
    + intros _. split_and!; auto. intros -> Hm. by destruct Hor.
  - destruct H as [Hx Hr]. split.
    + intros Hl. exfalso. by apply (Forall_not_Exists _ _ Hl).
    + intros _. split_and!; auto. intros Hf. by destruct Hr.
  - done.
Qed.
End Startup.

(** ** Witnesses *)

Definition demo_free : kt_ringbuf :=
  mk_ringbuf 0 "RB_free" 4 8 3 3 (mk_headtail 3 3) (mk_headtail 0 0) [0; 1; 2; 0].
Definition demo_tx : kt_ringbuf :=
  mk_ringbuf 0 "RB_tx" 4 8 3 3 (mk_headtail 0 0) (mk_headtail 0 0) [0; 0; 0; 0].
Definition demo_shared : kt_shared :=
  mk_shared demo_tx demo_free (replicate 3 (replicate 2048 0)) (replicate 3 inhabitant).
Definition demo_interface : kt_interface :=
  mk_interface 2 "eth0" (mk_sockaddr_in 2 0 16777226) (mk_sockaddr_in 2 0 16777215) [2; 0; 0; 0; 0; 7].
Definition demo_lib : kt_lib :=
  mk_lib [mk_socket 5 3 1 (Some AF_INET); mk_socket 6 3 1 (Some PF_PACKET)] [demo_interface] demo_shared.
Definition demo_name : list Z := [2; 0; 31; 144; 10; 0; 0; 2].
Definition demo_msg (name : list Z) (iov : list Z) : msghdr :=
  mk_msghdr (Some name) [iov] [mk_cmsg SOL_SOCKET SCM_TXTIME 1000].

Lemma demo_ring_wf rb :
  In rb [demo_free; demo_tx] -> ring_wf rb.
Proof.
  intros [<-|[<-|[]]]; unfold ring_wf, pow2_size; (split; [exists 2; cbn; lia|]); zcompute.
Qed.

Lemma demo_shared_wf : shared_wf demo_shared 3.
Proof.
  split; try (apply demo_ring_wf; cbn; tauto); try reflexivity.
  - intros i Hi. unfold zget. cbn [mbuf_pool demo_shared].
    rewrite lookup_total_replicate_2 by lia. done.
  - intros i Hi. unfold zget. cbn [metadata_pool demo_shared].
    rewrite lookup_total_replicate_2 by lia. done.
  - apply (bool_decide_unpack _). vm_compute. done.
  - apply (bool_decide_unpack _). vm_compute. done.
Qed.

Lemma demo_macs_ok : macs_ok demo_lib.
Proof. by repeat constructor. Qed.

Lemma sendmsg_inet_correct_witness :
  exists g', sendmsg (fun _ _ _ => -1) demo_lib 5 (demo_msg demo_name [7; 8; 9]) 0 = Ret (g', Some 3) /\
    delivered demo_lib g' 3 0 [1; 2] [7; 8; 9]
      (mk_metadata KT_METADATA_TRANSPORT_UDP 1000 [2; 0; 0; 0; 0; 7] kt_default_dst_mac
         167772161 167772162 8080 3).
Proof.
  refine (sendmsg_inet_correct (fun _ _ _ => -1) demo_lib 5 (demo_msg demo_name [7; 8; 9]) 0 1000
    demo_name (mk_sockaddr_in 2 36895 33554442) demo_interface [7; 8; 9] [] 3
    demo_shared_wf demo_macs_ok _ _ _ _ _ _ _); try reflexivity.
  - eexists. by split; [reflexivity|].
  - by vm_compute.
Defined.

Lemma sendmsg_packet_correct_witness :
  exists g', sendmsg (fun _ _ _ => -1) demo_lib 6 (demo_msg [17; 0; 0; 0; 2; 0; 0; 0] [7; 8]) 0
      = Ret (g', Some 2) /\
    delivered demo_lib g' 3 0 [1; 2] [7; 8]
      (mk_metadata KT_METADATA_TRANSPORT_ETHERNET 1000 [2; 0; 0; 0; 0; 7] kt_multicast_mac 0 0 0 2).
Proof.
  refine (sendmsg_packet_correct (fun _ _ _ => -1) demo_lib 6
    (demo_msg [17; 0; 0; 0; 2; 0; 0; 0] [7; 8]) 0 1000 3 demo_shared_wf demo_macs_ok _ _).
  - eexists. by split; [reflexivity|].
  - reflexivity.
Defined.

(** The library after [demo_lib] sent one message. *)
Definition demo_sent : kt_lib :=
  match sendmsg (fun _ _ _ => -1) demo_lib 5 (demo_msg demo_name [7; 8; 9]) 0 with
  | Ret (g, _) => g
  | _ => demo_lib
  end.

Lemma sendmsg_preserves_witness :
  sendmsg (fun _ _ _ => -1) demo_lib 5 (demo_msg demo_name [7; 8; 9]) 0 = Ret (demo_sent, Some 3) /\
  shared_wf (g_shared demo_sent) 3.
Proof.
  assert (E : sendmsg (fun _ _ _ => -1) demo_lib 5 (demo_msg demo_name [7; 8; 9]) 0
              = Ret (demo_sent, Some 3)) by (vm_compute; reflexivity).
  split; [exact E|].
  exact (proj1 (sendmsg_preserves (fun _ _ _ => -1) demo_lib 5 (demo_msg demo_name [7; 8; 9]) 0 3
    demo_sent (Some 3) demo_shared_wf demo_macs_ok E)).
Defined.

Lemma sendmsg_overflows_witness :
  sendmsg (fun _ _ _ => -1) demo_lib 5 (demo_msg demo_name (replicate 2049 0)) 0 = UB.
Proof.
  refine (sendmsg_overflows (fun _ _ _ => -1) demo_lib 5 (demo_msg demo_name (replicate 2049 0)) 0 1000
    demo_name (mk_sockaddr_in 2 36895 33554442) demo_interface (replicate 2049 0) [] 3 0 [1; 2]
    demo_shared_wf _ _ _ _ _ _ _ _); try reflexivity.
  eexists. by split; [reflexivity|].
Defined.

Lemma socket_table_invariant_witness :
  let g0 := mk_lib [] [] demo_shared in
  let g1 := set_sockets g0 [mk_socket 5 (-1) 0 (Some AF_INET)] in
  let g2 := set_sockets g0 [mk_socket 5 (-1) 1 (Some AF_INET)] in
  sockets_wf g2.
Proof.
  intros g0 g1 g2.
  apply (socket_table_invariant g0); [reflexivity|].
  apply (rtc_l _ g0 g1); [by eapply (call_socket (fun _ _ _ => 5) true g0 AF_INET SOCK_DGRAM 0)|].
  apply rtc_once. by eapply (call_setsockopt (fun _ _ _ _ _ => 0) true g1 5 SOL_SOCKET SO_TXTIME None 0).
Defined.

Lemma demo_sockets_wf : sockets_wf demo_lib.
Proof. split; [apply (bool_decide_unpack _); by vm_compute|]. repeat constructor; by right. Qed.

Lemma close_correct_witness :
  exists g', close (fun _ => 0) demo_lib 5 = (g', 0) /\
    g_shared g' = demo_shared /\ sockets_wf g' /\
    forall fd', kt_socket_find g' fd' = if fd' =? 5 then None else kt_socket_find demo_lib fd'.
Proof. exact (close_correct (fun _ => 0) demo_lib 5 demo_sockets_wf). Defined.

Lemma opened_socket_is_timed_witness :
  exists g1 g2,
    socket (fun _ _ _ => 9) true demo_lib AF_INET SOCK_DGRAM 0 = Ret (g1, None) /\
    setsockopt (fun _ _ _ _ _ => 0) true g1 9 SOL_SOCKET SO_TXTIME None 0 = Ret (g2, 0) /\
    timed_socket g2 9 AF_INET.
Proof.
  apply (opened_socket_is_timed (fun _ _ _ => 9) (fun _ _ _ _ _ => 0) demo_lib AF_INET SOCK_DGRAM 0 None 0);
    [lia|reflexivity].
Defined.

Lemma unseen_socket_undefined_witness :
  exists g', setsockopt (fun _ _ _ _ _ => 0) true demo_lib 9 SOL_SOCKET SO_TXTIME None 0 = Ret (g', 0) /\
    sendmsg (fun _ _ _ => -1) g' 9 (demo_msg demo_name [1]) 0 = UB.
Proof.
  apply (unseen_socket_undefined (fun _ _ _ _ _ => 0) (fun _ _ _ => -1) demo_lib 9 None 0
    (demo_msg demo_name [1]) 0 1000); reflexivity.
Defined.
