(* ===== verification/Packet.v ===== *)
(** * Building a frame (src/ktsnd.c, [prepare_packet])

    The daemon copies a message into the data area of a DPDK buffer, behind
    Ethernet, IPv4 and UDP headers when the message came from an IPv4 socket.
    The header layouts are those of the protocols; DPDK's checksum routine is a
    parameter.  A receiver's parser is the specification: the frame parses back
    to the addresses, ports and payload of the message. *)

From S2P Require Import Prelude Memory Libktsn.

Definition IPV4 : Z := 4.
Definition IP_UDP : Z := 17.
Definition SRC_PORT : Z := 9999.
Definition RTE_ETHER_ADDR_LEN : Z := 6.
Definition RTE_ETHER_HDR_LEN : Z := 14.
Definition RTE_ETHER_TYPE_IPV4 : Z := 2048.
Definition sizeof_rte_ipv4_hdr : Z := 20.
Definition sizeof_rte_udp_hdr : Z := 8.

(** The members of [struct rte_mbuf] the daemon writes; [data] is the area
    [rte_pktmbuf_mtod] points to. *)
Record rte_mbuf := mk_rte_mbuf {
  data : list Z;
  data_len : Z;
  pkt_len : Z;
  next : option Z;
  nb_segs : Z
}.

(** Stores of 16 and 32 bits in network order ([rte_cpu_to_be_16] and a store on
    a little-endian host), and in host order. *)
Definition be16 (x : Z) : list Z := [Z.land (Z.shiftr x 8) 255; Z.land x 255].
Definition be32 (x : Z) : list Z :=
  [Z.land (Z.shiftr x 24) 255; Z.land (Z.shiftr x 16) 255; Z.land (Z.shiftr x 8) 255; Z.land x 255].
Definition le16 (x : Z) : list Z := [Z.land x 255; Z.land (Z.shiftr x 8) 255].

(** A store of bytes at an offset of the data area. *)
Definition write_at (off : nat) (bs buf : list Z) : res (list Z) :=
  if (off + length bs <=? length buf)%nat
  then Ret (take off buf ++ bs ++ drop (off + length bs) buf)
  else UB.

(** A load of [n] bytes. *)
Definition read_at (off n : nat) (buf : list Z) : res (list Z) :=
  if (off + n <=? length buf)%nat then Ret (take n (drop off buf)) else UB.

(** A store into one half of the byte [version_ihl]. *)
Definition set_high_nibble (v b : Z) : Z := Z.lor (Z.land b 15) (Z.shiftl v 4).
Definition set_low_nibble (v b : Z) : Z := Z.lor (Z.land b 240) v.

(** Offsets of the members in the frame: [struct rte_ether_hdr],
    [struct rte_ipv4_hdr] and [struct rte_udp_hdr] one after the other. *)
Definition off_ether_dst : nat := 0.
Definition off_ether_src : nat := 6.
Definition off_ether_type : nat := 12.
Definition off_ip : nat := 14.
Definition off_ip_tos : nat := 15.
Definition off_ip_total_length : nat := 16.
Definition off_ip_packet_id : nat := 18.
Definition off_ip_fragment : nat := 20.
Definition off_ip_ttl : nat := 22.
Definition off_ip_proto : nat := 23.
Definition off_ip_cksum : nat := 24.
Definition off_ip_src : nat := 26.
Definition off_ip_dst : nat := 30.
Definition off_udp_src : nat := 34.
Definition off_udp_dst : nat := 36.
Definition off_udp_len : nat := 38.
Definition off_udp_cksum : nat := 40.
Definition off_body : nat := 42.

Section Prepare.
Context (rte_ipv4_cksum : list Z -> Z).

(** [payload] is the data of the shared buffer. *)
Definition prepare_packet (tx_buf : rte_mbuf) (payload : list Z) (metadata : kt_metadata)
    : res rte_mbuf :=
  src <- read_at 0 6 (eth_src metadata);;
  p <- write_at off_ether_src src (data tx_buf);;
  dst <- read_at 0 6 (eth_dst metadata);;
  p <- write_at off_ether_dst dst p;;
  let size := psize metadata in
  let* (p, len) :=
    if transport metadata =? KT_METADATA_TRANSPORT_UDP then
      p <- write_at off_ether_type (be16 RTE_ETHER_TYPE_IPV4) p;;
      p <- write_at off_ip_dst (be32 (ip_dst metadata)) p;;
      p <- write_at off_ip_src (be32 (ip_src metadata)) p;;
      vi <- read_at off_ip 1 p;;
      p <- write_at off_ip (set_high_nibble IPV4 <$> vi) p;;
      vi <- read_at off_ip 1 p;;
      p <- write_at off_ip (set_low_nibble 5 <$> vi) p;;
      p <- write_at off_ip_tos [0] p;;
      p <- write_at off_ip_total_length
             (be16 (u16 (sizeof_rte_ipv4_hdr + RTE_ETHER_ADDR_LEN + 2 + size))) p;;
      p <- write_at off_ip_fragment (le16 0) p;;
      p <- write_at off_ip_ttl [64] p;;
      p <- write_at off_ip_proto [IP_UDP] p;;
      p <- write_at off_ip_cksum (le16 0) p;;
      id <- read_at off_ip_packet_id 2 p;;
      p <- write_at off_ip_packet_id (be16 (le_decode id)) p;;
      ih <- read_at off_ip 20 p;;
      p <- write_at off_ip_cksum (le16 (rte_ipv4_cksum ih)) p;;
      p <- write_at off_udp_dst (be16 (udp_dport metadata)) p;;
      p <- write_at off_udp_src (be16 SRC_PORT) p;;
      p <- write_at off_udp_len (be16 (u16 (sizeof_rte_udp_hdr + size))) p;;
      p <- write_at off_udp_cksum (le16 0) p;;
      body <- read_at 0 (Z.to_nat size) payload;;
      p <- write_at off_body body p;;
      Ret (p, RTE_ETHER_HDR_LEN + sizeof_rte_ipv4_hdr + sizeof_rte_udp_hdr + size)
    else
      body <- read_at 0 (Z.to_nat size) payload;;
      p <- write_at 0 body p;;
      Ret (p, size)
  in
  (* pkt_len is 32 bits wide, data_len 16 *)
  Ret (mk_rte_mbuf p (u16 (u32 len)) (u32 len) None 1).
End Prepare.

(** ** The frame as one list of bytes *)

(** The 20 bytes of the IPv4 header, with the bytes of the identification and of
    the checksum as arguments. *)
Definition ip_header (metadata : kt_metadata) (id ck : list Z) : list Z :=
  [69; 0] ++ be16 (u16 (28 + psize metadata)) ++ id ++ [0; 0; 64; 17] ++ ck ++
  be32 (ip_src metadata) ++ be32 (ip_dst metadata).

Definition udp_header (metadata : kt_metadata) : list Z :=
  be16 SRC_PORT ++ be16 (udp_dport metadata) ++ be16 (u16 (8 + psize metadata)) ++ [0; 0].

Definition frame_header (metadata : kt_metadata) (id ck : list Z) : list Z :=
  eth_dst metadata ++ eth_src metadata ++ [8; 0] ++ ip_header metadata id ck ++ udp_header metadata.

(** A list of known length, spelled out. *)
Ltac spell l := repeat (destruct l as [|? l]; try discriminate).

Lemma set_version_ihl b : set_low_nibble 5 (set_high_nibble IPV4 b) = 69.
Proof.
  unfold set_low_nibble, set_high_nibble, IPV4.
  rewrite Z.land_lor_distr_l, <- Z.land_assoc. by rewrite Z.land_0_r.
Qed.

(** A buffer as its header part and the rest; [splice] stores into the header
    part. *)
Definition glue (h r : list Z) : list Z := h ++ r.
Definition splice (off : nat) (bs h : list Z) : list Z := take off h ++ bs ++ drop (off + length bs) h.

Lemma write_at_hdr off bs h r :
  (off + length bs <=? length h)%nat = true -> write_at off bs (glue h r) = Ret (glue (splice off bs h) r).
Proof.
  intros H%Nat.leb_le. unfold write_at, glue, splice. rewrite length_app.
  rewrite (proj2 (Nat.leb_le _ _)) by lia.
  rewrite take_app_le, drop_app_le by lia. by rewrite <- !app_assoc.
Qed.

Lemma read_at_hdr off n h r :
  (off + n <=? length h)%nat = true -> read_at off n (glue h r) = Ret (take n (drop off h)).
Proof.
  intros H%Nat.leb_le. unfold read_at, glue. rewrite length_app. rewrite (proj2 (Nat.leb_le _ _)) by lia.
  rewrite drop_app_le, take_app_le; [done|rewrite length_drop; lia|lia].
Qed.

Lemma write_body off h bs r :
  length h = off -> (length bs <= length r)%nat ->
  write_at off bs (glue h r) = Ret (h ++ bs ++ drop (length bs) r).
Proof.
  intros <- H. unfold write_at, glue. rewrite length_app. rewrite (proj2 (Nat.leb_le _ _)) by lia.
  rewrite take_app_length, drop_app_ge by lia. do 4 f_equal. lia.
Qed.

Lemma read_body n p : (n <= length p)%nat -> read_at 0 n p = Ret (take n p).
Proof. intros H. unfold read_at. by rewrite (proj2 (Nat.leb_le _ _)) by (cbn; lia). Qed.

(** One store or load of the header. *)
Ltac hdr_step :=
  first [rewrite write_at_hdr by reflexivity | rewrite read_at_hdr by reflexivity];
  cbn [bind splice take drop app length Nat.add fmap list_fmap
       off_ether_dst off_ether_src off_ether_type off_ip off_ip_tos off_ip_total_length
       off_ip_packet_id off_ip_fragment off_ip_ttl off_ip_proto off_ip_cksum off_ip_src off_ip_dst
       off_udp_src off_udp_dst off_udp_len off_udp_cksum be16 be32 le16].

(** What [prepare_packet] leaves for a UDP message: the bytes of the
    identification are those that were in the buffer, exchanged, and the checksum
    is taken over the header with its field zero. *)
Lemma prepare_udp ck h r m d x s p md :
  transport md = KT_METADATA_TRANSPORT_UDP ->
  length (eth_src md) = 6%nat -> length (eth_dst md) = 6%nat ->
  0 <= psize md -> (Z.to_nat (psize md) <= length p)%nat ->
  length h = 42%nat -> (Z.to_nat (psize md) <= length r)%nat ->
  let id := be16 (le_decode (take 2 (drop 18 h))) in
  let sum := le16 (ck (ip_header md id (le16 0))) in
  prepare_packet ck (mk_rte_mbuf (glue h r) m d x s) p md =
    Ret (mk_rte_mbuf (frame_header md id sum ++ take (Z.to_nat (psize md)) p ++
                        drop (Z.to_nat (psize md)) r)
           (u16 (u32 (42 + psize md))) (u32 (42 + psize md)) None 1).
Proof.
  intros Ht Hs Hd Hsz Hp Hh Hr id sum.
  destruct md as [tr tt src dst isrc idst dp n]; cbn [transport eth_src eth_dst psize] in *.
  spell src. spell dst. spell h. clear Hs Hd Hh.
  unfold prepare_packet. cbn [eth_src eth_dst data transport psize ip_src ip_dst udp_dport].
  rewrite Ht, Z.eqb_refl. rewrite (read_body 6) by (cbn; lia). cbn [bind take].
  hdr_step. rewrite (read_body 6) by (cbn; lia). cbn [bind take].
  repeat hdr_step.
  rewrite read_body by done. cbn [bind].
  rewrite write_body; [|reflexivity|rewrite length_take; lia]. cbn [bind].
  rewrite !set_version_ihl, length_take, Nat.min_l by done. reflexivity.
Qed.

(** A buffer too small for the frame is overrun. *)
Lemma prepare_udp_overrun ck h r m d x s p md :
  transport md = KT_METADATA_TRANSPORT_UDP ->
  length (eth_src md) = 6%nat -> length (eth_dst md) = 6%nat ->
  0 <= psize md -> (Z.to_nat (psize md) <= length p)%nat ->
  length h = 42%nat -> (length r < Z.to_nat (psize md))%nat ->
  prepare_packet ck (mk_rte_mbuf (glue h r) m d x s) p md = UB.
Proof.
  intros Ht Hs Hd Hsz Hp Hh Hr.
  destruct md as [tr tt src dst isrc idst dp n]; cbn [transport eth_src eth_dst psize] in *.
  spell src. spell dst. spell h. clear Hs Hd Hh.
  unfold prepare_packet. cbn [eth_src eth_dst data transport psize ip_src ip_dst udp_dport].
  rewrite Ht, Z.eqb_refl. rewrite (read_body 6) by (cbn; lia). cbn [bind take].
  hdr_step. rewrite (read_body 6) by (cbn; lia). cbn [bind take].
  repeat hdr_step.
  rewrite read_body by done. cbn [bind]. unfold write_at at 1, glue.
  rewrite (proj2 (Nat.leb_gt _ _)); [done|].
  rewrite length_take, length_app. unfold off_body. cbn [length]. lia.
Qed.

(** ** The receiver's side *)

Fixpoint be_decode (acc : Z) (bs : list Z) : Z :=
  match bs with
  | [] => acc
  | b :: bs => be_decode (acc * 256 + b) bs
  end.

(** What a receiver finds in a frame. *)
Record udp_frame := mk_udp_frame {
  f_dst_mac : list Z;
  f_src_mac : list Z;
  f_ttl : Z;
  f_src_ip : Z;
  f_dst_ip : Z;
  f_src_port : Z;
  f_dst_port : Z;
  f_payload : list Z
}.

Definition field (off n : nat) (bs : list Z) : list Z := take n (drop off bs).

(** Accepts an unfragmented IPv4/UDP frame without options whose lengths agree
    with each other and with the bytes received. *)
Definition parse_udp_frame (bs : list Z) : option udp_frame :=
  let total := be_decode 0 (field 16 2 bs) in
  let dgram := be_decode 0 (field 38 2 bs) in
  if (42 <=? length bs)%nat && (be_decode 0 (field 12 2 bs) =? 2048) &&
     (be_decode 0 (field 14 1 bs) =? 69) && (be_decode 0 (field 20 2 bs) =? 0) &&
     (be_decode 0 (field 23 1 bs) =? 17) && (total =? 20 + dgram) && (8 <=? dgram) &&
     (zlen bs =? 14 + total)
  then Some (mk_udp_frame (field 0 6 bs) (field 6 6 bs) (be_decode 0 (field 22 1 bs))
               (be_decode 0 (field 26 4 bs)) (be_decode 0 (field 30 4 bs))
               (be_decode 0 (field 34 2 bs)) (be_decode 0 (field 36 2 bs)) (drop 42 bs))
  else None.

(** The one's complement sum of the 16-bit words of a header, as the host loads
    them; a header with its checksum in place sums to all ones. *)
Fixpoint word_sum (bs : list Z) : Z :=
  match bs with
  | a :: b :: bs => a + 256 * b + word_sum bs
  | _ => 0
  end.

Definition cksum_ok (h : list Z) : Prop := word_sum h mod 65535 = 0 /\ 0 < word_sum h.

Lemma be16_decode x : u16_value x -> be_decode 0 (be16 x) = x.
Proof.
  unfold u16_value. intros H. cbn. change 255 with (Z.ones 8).
  rewrite !Z.land_ones, Z.shiftr_div_pow2 by lia. dlia.
Qed.

Lemma be32_decode x : u32_value x -> be_decode 0 (be32 x) = x.
Proof.
  unfold u32_value. intros H. cbn. change 255 with (Z.ones 8).
  rewrite !Z.land_ones, !Z.shiftr_div_pow2 by lia. dlia.
Qed.

Lemma metadata_ok_macs md :
  metadata_ok md -> length (eth_src md) = 6%nat /\ length (eth_dst md) = 6%nat.
Proof. unfold metadata_ok, zlen. lia. Qed.

Lemma parse_frame_header md i0 i1 c0 c1 body :
  metadata_ok md -> transport md = KT_METADATA_TRANSPORT_UDP ->
  zlen body = psize md -> psize md + 28 < 2 ^ 16 ->
  parse_udp_frame (frame_header md [i0; i1] [c0; c1] ++ body) =
    Some (mk_udp_frame (eth_dst md) (eth_src md) 64 (ip_src md) (ip_dst md) SRC_PORT (udp_dport md) body).
Proof.
  intros Hok Ht0 Hb Hsz. destruct (metadata_ok_macs md Hok) as [Hs Hd].
  destruct Hok as (_ & _ & Hn & Hudp). destruct (Hudp Ht0) as (Hi & Hj & Hp). clear Hudp Ht0.
  destruct md as [tr tt src dst isrc idst dp n]; cbn [eth_src eth_dst psize ip_src ip_dst udp_dport] in *.
  spell src. spell dst. clear Hs Hd.
  pose proof (be32_decode _ Hi) as Ei. pose proof (be32_decode _ Hj) as Ej.
  pose proof (be16_decode _ Hp) as Ep.
  assert (Ht : be_decode 0 (be16 (u16 (28 + n))) = 28 + n).
  { unfold u16. rewrite Z.mod_small by lia. apply be16_decode. unfold u16_value. lia. }
  assert (Hu : be_decode 0 (be16 (u16 (8 + n))) = 8 + n).
  { unfold u16. rewrite Z.mod_small by lia. apply be16_decode. unfold u16_value. lia. }
  assert (El : forall h : list Z, length h = 42%nat -> zlen (h ++ body) = 14 + (28 + n)).
  { intros h Hh. rewrite zlen_app. unfold zlen at 1. rewrite Hh. lia. }
  unfold parse_udp_frame. rewrite El by reflexivity.
  unfold frame_header, ip_header, udp_header, field, be16, be32 in *.
  cbn [eth_dst eth_src psize ip_src ip_dst udp_dport app be16 be32 take drop length] in *.
  rewrite Ht, Hu, Ei, Ej, Ep. cbn [Nat.leb andb].
  rewrite (proj2 (Z.eqb_eq (28 + n) _)), (proj2 (Z.leb_le _ _)) by lia.
  rewrite (Z.eqb_refl (14 + (28 + n))). reflexivity.
Qed.

Lemma split_header (l : list Z) :
  42 <= zlen l -> exists h r, l = glue h r /\ length h = 42%nat.
Proof.
  unfold zlen. intros H. exists (take 42 l), (drop 42 l). unfold glue.
  rewrite take_drop, length_take. split; [done|lia].
Qed.

Lemma length_frame_header md id ck :
  metadata_ok md -> length id = 2%nat -> length ck = 2%nat -> length (frame_header md id ck) = 42%nat.
Proof.
  intros Hok Hi Hc. destruct (metadata_ok_macs md Hok) as [Hs Hd].
  unfold frame_header, ip_header, udp_header. rewrite !length_app, Hs, Hd, Hi, Hc. reflexivity.
Qed.

Lemma land_byte_nonneg x : 0 <= Z.land x 255.
Proof. apply Z.land_nonneg. right. lia. Qed.

Lemma word_sum_nonneg l : Forall (fun b => 0 <= b) l -> 0 <= word_sum l.
Proof.
  revert l. fix IH 1. intros [|a [|b l]] H; cbn; [lia..|].
  inversion_clear H as [|? ? Ha H']. inversion_clear H' as [|? ? Hb Hl].
  specialize (IH l Hl). lia.
Qed.

Lemma ip_header_sum_pos md id ck :
  Forall (fun b => 0 <= b) id -> Forall (fun b => 0 <= b) ck -> 0 < word_sum (ip_header md id ck).
Proof.
  intros Hi Hc. unfold ip_header. cbn [app word_sum].
  match goal with |- 0 < _ + _ + ?s => assert (0 <= s); [apply word_sum_nonneg|lia] end.
  unfold be16, be32. repeat rewrite ?Forall_app, ?Forall_cons, ?Forall_nil.
  split_and!; (done || lia || apply land_byte_nonneg).
Qed.

(** The two addresses stored at the start of the frame. *)
Lemma store_macs ck tb p md :
  metadata_ok md -> 12 <= zlen (data tb) -> transport md <> KT_METADATA_TRANSPORT_UDP ->
  exists q, length q = length (data tb) /\
    prepare_packet ck tb p md =
      (body <- read_at 0 (Z.to_nat (psize md)) p;; q <- write_at 0 body q;;
       Ret (mk_rte_mbuf q (u16 (u32 (psize md))) (u32 (psize md)) None 1)).
Proof.
  intros Hok Hb Ht. destruct (metadata_ok_macs md Hok) as [Hs Hd]. unfold zlen in *.
  unfold prepare_packet. rewrite read_body by lia. cbn [bind]. rewrite take_ge by lia.
  unfold write_at at 1. rewrite Hs. unfold off_ether_src. rewrite (proj2 (Nat.leb_le _ _)) by (cbn; lia).
  cbn [bind]. rewrite read_body by lia. cbn [bind]. rewrite take_ge by lia.
  unfold write_at at 1. rewrite Hd. unfold off_ether_dst. set (q := take 6 (data tb) ++ _).
  assert (Hq : length q = length (data tb)).
  { unfold q. rewrite !length_app, length_take, length_drop, Hs. lia. }
  rewrite (proj2 (Nat.leb_le _ _)) by (cbn; lia). cbn [bind].
  rewrite (proj2 (Z.eqb_neq _ _) Ht). exists (take 0 q ++ eth_dst md ++ drop (0 + 6) q). split.
  - rewrite !length_app, length_take, length_drop, Hd. lia.
  - destruct (read_at _ _ p); try done. cbn [bind]. by destruct (write_at _ _ _).
Qed.

Lemma prepare_raw ck tb p md :
  metadata_ok md -> transport md <> KT_METADATA_TRANSPORT_UDP ->
  psize md <= zlen p -> psize md <= zlen (data tb) -> 12 <= zlen (data tb) < 2 ^ 16 ->
  exists b, prepare_packet ck tb p md = Ret b /\
    take (Z.to_nat (data_len b)) (data b) = zslice p 0 (psize md) /\
    data_len b = psize md /\ pkt_len b = psize md /\ nb_segs b = 1 /\ next b = None.
Proof.
  intros Hok Ht Hp Hroom Hb. assert (Hn : 0 <= psize md) by apply Hok.
  destruct (store_macs ck tb p md) as (q & Hq & ->); try done; [lia|]. unfold zlen in *.
  rewrite read_body by lia. cbn [bind].
  assert (Hl : length (take (Z.to_nat (psize md)) p) = Z.to_nat (psize md)) by (rewrite length_take; lia).
  unfold write_at. rewrite Hl, (proj2 (Nat.leb_le _ _)) by lia.
  cbn [bind]. eexists. split; [reflexivity|]. cbn [data data_len pkt_len next nb_segs].
  rewrite !u32_id, !u16_id by lia. split_and!; try done.
  rewrite take_0, app_nil_l, take_app_le, take_ge by lia. done.
Qed.

(** An Ethernet message longer than the buffer overruns it. *)
Lemma prepare_raw_overrun ck tb p md :
  metadata_ok md -> transport md <> KT_METADATA_TRANSPORT_UDP ->
  psize md <= zlen p -> 12 <= zlen (data tb) < psize md -> prepare_packet ck tb p md = UB.
Proof.
  intros Hok Ht Hp Hb. destruct (store_macs ck tb p md) as (q & Hq & ->); try done; [lia|]. unfold zlen in *.
  rewrite read_body by lia. cbn [bind]. unfold write_at. rewrite length_take.
  by rewrite (proj2 (Nat.leb_gt _ _)) by lia.
Qed.

Lemma prepare_total ck tb p md :
  metadata_ok md -> psize md <= zlen p -> 12 <= zlen (data tb) < 2 ^ 16 ->
  psize md <= zlen (data tb) ->
  (transport md = KT_METADATA_TRANSPORT_UDP -> 42 + psize md <= zlen (data tb)) ->
  exists b, prepare_packet ck tb p md = Ret b.
Proof.
  intros Hok Hp Hb Hfit Hudp. destruct (decide (transport md = KT_METADATA_TRANSPORT_UDP)) as [Ht|Ht].
  - specialize (Hudp Ht). destruct (metadata_ok_macs md Hok) as [Hs Hd].
    assert (Hn : 0 <= psize md) by apply Hok.
    destruct (split_header (data tb)) as (h & r & Hdata & Hh); [lia|].
    destruct tb as [dt ml pl nx sg]; cbn [data] in *. subst dt.
    unfold glue, zlen in *. rewrite length_app in *.
    eexists. apply prepare_udp; (done || lia).
  - destruct (prepare_raw ck tb p md) as (b & E & _); try done. by exists b.
Qed.

Lemma prepare_udp_parse ck tb p md :
  metadata_ok md -> transport md = KT_METADATA_TRANSPORT_UDP ->
  psize md <= zlen p -> 42 + psize md <= zlen (data tb) < 2 ^ 16 ->
  exists b, prepare_packet ck tb p md = Ret b /\
    parse_udp_frame (take (Z.to_nat (data_len b)) (data b)) =
      Some (mk_udp_frame (eth_dst md) (eth_src md) 64 (ip_src md) (ip_dst md) SRC_PORT
              (udp_dport md) (zslice p 0 (psize md))) /\
    data_len b = 42 + psize md /\ pkt_len b = 42 + psize md /\ nb_segs b = 1 /\ next b = None /\
    drop (Z.to_nat (42 + psize md)) (data b) = drop (Z.to_nat (42 + psize md)) (data tb).
Proof.
  intros Hok Ht Hp Hroom. destruct (metadata_ok_macs md Hok) as [Hs Hd].
  assert (Hn : 0 <= psize md) by apply Hok.
  destruct (split_header (data tb)) as (h & r & Hdata & Hh); [lia|].
  assert (Hr : psize md <= zlen r).
  { rewrite Hdata in Hroom. unfold glue, zlen in *. rewrite length_app in Hroom. lia. }
  destruct tb as [dt ml pl nx sg]; cbn [data] in *. subst dt.
  rewrite prepare_udp by (done || unfold zlen in *; lia).
  eexists. split; [reflexivity|]. cbn [data data_len pkt_len next nb_segs].
  rewrite !u32_id, !u16_id by lia.
  set (F := frame_header md _ _).
  assert (HF : length F = 42%nat) by (by apply length_frame_header).
  assert (Hb : length (take (Z.to_nat (psize md)) p) = Z.to_nat (psize md)).
  { rewrite length_take. unfold zlen in Hp. lia. }
  split_and!; try done.
  - rewrite app_assoc, take_app_le, take_ge by (rewrite length_app; lia).
    unfold F, be16 at 1, le16 at 1. rewrite parse_frame_header; [done|done|done| |lia].
    unfold zlen. lia.
  - rewrite app_assoc, drop_app_ge by (rewrite length_app; lia).
    unfold glue. rewrite drop_app_ge by lia. rewrite drop_drop. f_equal.
    rewrite length_app. lia.
Qed.

Lemma prepare_udp_payload ck tb p md :
  metadata_ok md -> transport md = KT_METADATA_TRANSPORT_UDP ->
  psize md <= zlen p -> 42 + psize md <= zlen (data tb) < 2 ^ 16 ->
  exists b, prepare_packet ck tb p md = Ret b /\
    data_len b = 42 + psize md /\ pkt_len b = 42 + psize md /\ nb_segs b = 1 /\ next b = None /\
    zslice (data b) 42 (psize md) = zslice p 0 (psize md).
Proof.
  intros Hok Ht Hp Hroom. destruct (metadata_ok_macs md Hok) as [Hs Hd].
  assert (Hn : 0 <= psize md) by apply Hok.
  destruct (split_header (data tb)) as (h & r & Hdata & Hh); [lia|].
  destruct tb as [dt ml pl nx sg]; cbn [data] in *. subst dt. unfold glue, zlen in *. rewrite length_app in *.
  rewrite prepare_udp by (done || lia).
  eexists. split; [reflexivity|]. cbn [data data_len pkt_len next nb_segs].
  rewrite !u32_id, !u16_id by lia. split_and!; try done. unfold zslice. change (Z.to_nat 42) with 42%nat.
  rewrite drop_app_length' by (symmetry; by apply length_frame_header).
  rewrite take_app_length' by (rewrite length_take; lia). by rewrite drop_0.
Qed.

Lemma prepare_udp_small ck tb p md :
  metadata_ok md -> transport md = KT_METADATA_TRANSPORT_UDP ->
  psize md <= zlen p -> 42 <= zlen (data tb) < 42 + psize md ->
  prepare_packet ck tb p md = UB.
Proof.
  intros Hok Ht Hp Hroom. destruct (metadata_ok_macs md Hok) as [Hs Hd].
  assert (Hn : 0 <= psize md) by apply Hok.
  destruct (split_header (data tb)) as (h & r & Hdata & Hh); [lia|].
  destruct tb as [dt ml pl nx sg]; cbn [data] in *. subst dt.
  unfold glue, zlen in *. rewrite length_app in Hroom.
  apply prepare_udp_overrun; (done || lia).
Qed.

(** ** Properties *)

(** C14: [prepare_packet] on a UDP message that fits the DPDK buffer writes a frame
    that a receiver parses back to the addresses and port of the metadata, the
    fixed source port, and the payload; the lengths DPDK transmits cover exactly
    the frame, and the rest of the buffer is untouched. *)
Theorem udp_frame_roundtrip ck tb p md :
  metadata_ok md -> transport md = KT_METADATA_TRANSPORT_UDP ->
  psize md <= zlen p -> 42 + psize md <= zlen (data tb) < 2 ^ 16 ->
  exists b, prepare_packet ck tb p md = Ret b /\
    parse_udp_frame (take (Z.to_nat (data_len b)) (data b)) =
      Some (mk_udp_frame (eth_dst md) (eth_src md) 64 (ip_src md) (ip_dst md) SRC_PORT
              (udp_dport md) (zslice p 0 (psize md))) /\
    data_len b = 42 + psize md /\ pkt_len b = 42 + psize md /\ nb_segs b = 1 /\ next b = None /\
    drop (Z.to_nat (42 + psize md)) (data b) = drop (Z.to_nat (42 + psize md)) (data tb).
Proof. apply prepare_udp_parse. Qed.

(** C29: when DPDK's routine returns the complement of the sum of the header's words
    (modulo 65535, as one's complement arithmetic has it), the IPv4 header of the
    frame passes the receiver's checksum test: the code computes it with the
    checksum field zero and after every other byte of the header. *)
Theorem udp_frame_checksum ck tb p md :
  (forall h, length h = 20%nat -> 0 <= ck h < 2 ^ 16 /\ (word_sum h + ck h) mod 65535 = 0) ->
  metadata_ok md -> transport md = KT_METADATA_TRANSPORT_UDP ->
  psize md <= zlen p -> 42 + psize md <= zlen (data tb) < 2 ^ 16 ->
  exists b, prepare_packet ck tb p md = Ret b /\ cksum_ok (field 14 20 (data b)).
Proof.
  intros Hck Hok Ht Hp Hroom. destruct (metadata_ok_macs md Hok) as [Hs Hd].
  assert (Hn : 0 <= psize md) by apply Hok.
  destruct (split_header (data tb)) as (h & r & Hdata & Hh); [lia|].
  destruct tb as [dt ml pl nx sg]; cbn [data] in *. subst dt.
  assert (Hr : psize md <= zlen r) by (unfold glue, zlen in *; rewrite length_app in Hroom; lia).
  rewrite prepare_udp by (done || unfold zlen in *; lia).
  eexists. split; [reflexivity|]. cbn [data].
  set (id := be16 _). set (s := ck _).
  destruct (Hck (ip_header md id (le16 0)) eq_refl) as [Hs1 Hs2]. fold s in Hs1, Hs2.
  assert (E : field 14 20 (frame_header md id (le16 s) ++ take (Z.to_nat (psize md)) p ++
                drop (Z.to_nat (psize md)) r) = ip_header md id (le16 s)).
  { unfold field, frame_header. rewrite <- !app_assoc.
    rewrite (app_assoc (eth_dst md)), (app_assoc _ [8; 0]).
    rewrite drop_app_length' by (rewrite !length_app; cbn; lia).
    by rewrite take_app_length'. }
  rewrite E. unfold cksum_ok.
  assert (Hsum : word_sum (ip_header md id (le16 s)) = word_sum (ip_header md id (le16 0)) + s).
  { assert (Hl : Z.land s 255 + 256 * Z.land (Z.shiftr s 8) 255 = s).
    { change 255 with (Z.ones 8). rewrite !Z.land_ones, Z.shiftr_div_pow2 by lia. dlia. }
    unfold ip_header. cbn -[Z.land Z.shiftr Z.mul]. change (Z.land 0 255) with 0.
    change (Z.land (0 ≫ 8) 255) with 0. lia. }
  rewrite Hsum. split; [done|].
  assert (0 < word_sum (ip_header md id (le16 0))); [apply ip_header_sum_pos|lia];
    repeat constructor; apply land_byte_nonneg.
Qed.

(** ** Both transports, every size *)

(** The bytes in front of the payload. *)
Definition header_len (md : kt_metadata) : Z := if transport md =? KT_METADATA_TRANSPORT_UDP then 42 else 0.

(** C30: every outcome of [prepare_packet], for both transports and every size of a message in
    a shared buffer.  When headers (42 bytes for UDP, none for Ethernet) and payload
    fit the DPDK buffer, the frame has exactly their length, in both length
    members and as a single segment, and the payload follows the headers, first byte to
    last; an Ethernet message goes out as the application wrote it, although the addresses of the
    metadata were stored in its place before.  Otherwise the buffer is overrun: with the 2048
    bytes of the daemon's pool that happens to UDP messages of 2007 to 2048 bytes, which
    [sendmsg] accepts. *)
Theorem prepare_packet_outcomes ck tb p md :
  metadata_ok md -> psize md <= zlen p -> 42 <= zlen (data tb) < 2 ^ 16 ->
  let len := header_len md + psize md in
  if len <=? zlen (data tb) then
    exists b, prepare_packet ck tb p md = Ret b /\
      data_len b = len /\ pkt_len b = len /\ nb_segs b = 1 /\ next b = None /\
      zslice (data b) (header_len md) (psize md) = zslice p 0 (psize md)
  else prepare_packet ck tb p md = UB.
Proof.
  intros Hok Hp Hroom len. unfold len, header_len.
  destruct (Z.eqb_spec (transport md) KT_METADATA_TRANSPORT_UDP) as [Ht|Ht];
    [destruct (Z.leb_spec (42 + psize md) (zlen (data tb)))|destruct (Z.leb_spec (0 + psize md) (zlen (data tb)))].
  - destruct (prepare_udp_payload ck tb p md) as (b & E & H1 & H2 & H3 & H4 & H5); try done; [lia|].
    exists b. by split_and!.
  - apply prepare_udp_small; (done || lia).
  - destruct (prepare_raw ck tb p md) as (b & E & Hf & H1 & H2 & H3 & H4); try done; [lia|].
    exists b. split_and!; try done. rewrite H1 in Hf. unfold zslice at 1. by rewrite drop_0.
  - apply prepare_raw_overrun; (done || lia).
Qed.

(** ** Witnesses *)

Definition demo_metadata : kt_metadata :=
  mk_metadata KT_METADATA_TRANSPORT_UDP 1000 [2; 0; 0; 0; 0; 7] kt_default_dst_mac
    167772161 167772162 8080 3.
Definition demo_mbuf : rte_mbuf := mk_rte_mbuf (replicate 2048 171) 0 0 (Some 1) 0.
Definition demo_payload : list Z := [7; 8; 9] ++ replicate 2045 0.

(** A checksum routine that satisfies the documented contract. *)
Definition demo_cksum (h : list Z) : Z := (- word_sum h) mod 65535.

Lemma demo_metadata_ok : metadata_ok demo_metadata.
Proof. unfold metadata_ok, u32_value, u16_value. zcompute. Qed.

Lemma udp_frame_roundtrip_witness :
  exists b, prepare_packet demo_cksum demo_mbuf demo_payload demo_metadata = Ret b /\
    parse_udp_frame (take (Z.to_nat (data_len b)) (data b)) =
      Some (mk_udp_frame kt_default_dst_mac [2; 0; 0; 0; 0; 7] 64 167772161 167772162 9999 8080 [7; 8; 9]).
Proof.
  destruct (udp_frame_roundtrip demo_cksum demo_mbuf demo_payload demo_metadata demo_metadata_ok)
    as (b & E & P & _); [reflexivity|zcompute|zcompute|].
  exists b. split; [exact E|exact P].
Defined.

Lemma udp_frame_checksum_witness :
  exists b, prepare_packet demo_cksum demo_mbuf demo_payload demo_metadata = Ret b /\
    cksum_ok (field 14 20 (data b)).
Proof.
  apply (udp_frame_checksum demo_cksum demo_mbuf demo_payload demo_metadata);
    [|exact demo_metadata_ok|reflexivity|zcompute|zcompute].
  intros h _. unfold demo_cksum. split; [|rewrite Z.add_mod_idemp_r by lia; by rewrite Z.add_opp_diag_r].
  pose proof (Z.mod_pos_bound (- word_sum h) 65535). lia.
Defined.

(** An Ethernet message of three bytes, and a UDP message of 2048. *)
Lemma prepare_packet_outcomes_witness :
  (exists b, prepare_packet demo_cksum demo_mbuf demo_payload
       (mk_metadata KT_METADATA_TRANSPORT_ETHERNET 1000 [2; 0; 0; 0; 0; 7] kt_default_dst_mac 0 0 0 3) = Ret b /\
     data_len b = 3 /\ zslice (data b) 0 3 = [7; 8; 9]) /\
  prepare_packet demo_cksum demo_mbuf demo_payload
    (mk_metadata KT_METADATA_TRANSPORT_UDP 1000 [2; 0; 0; 0; 0; 7] kt_default_dst_mac 0 0 0 2048) = UB.
Proof.
  split.
  - destruct (prepare_packet_outcomes demo_cksum demo_mbuf demo_payload
      (mk_metadata KT_METADATA_TRANSPORT_ETHERNET 1000 [2; 0; 0; 0; 0; 7] kt_default_dst_mac 0 0 0 3))
      as (b & E & H1 & _ & _ & _ & H2); [unfold metadata_ok, u32_value, u16_value; zcompute|zcompute|zcompute|].
    exists b. split; [exact E|]. split; [exact H1|exact H2].
  - apply (prepare_packet_outcomes demo_cksum demo_mbuf demo_payload
      (mk_metadata KT_METADATA_TRANSPORT_UDP 1000 [2; 0; 0; 0; 0; 7] kt_default_dst_mac 0 0 0 2048));
      [unfold metadata_ok, u32_value, u16_value; zcompute|zcompute|zcompute].
Defined.
