(* ===== verification/Daemon.v ===== *)
(** * The daemon (src/ktsnd.c, [main])

    The body of the main loop: a burst of indices from the transmission ring
    goes into the priority queue, keyed by the time in the metadata; then the
    packet at the root of the queue is kept, dropped or sent, depending on how
    far its time is from now.  The clock, DPDK's buffers and its checksum are
    arguments of the model. *)

From S2P Require Import Prelude Memory RingBuf PrioQueue Libktsn Packet.

(** [kt_get_time_diff_ns] of src/src/kt_common.c. *)
Definition kt_get_time_diff_ns (start end_ : Z) : res Z := i64_op (end_ - start).

Definition tx_delta_ns : Z := 50000.
Definition burst_size : Z := 8.

(** What the loop keeps between iterations: the shared memory, the priority
    queue, the counter, and the buffers handed to the network card. *)
Record kt_daemon := mk_daemon {
  shared : kt_shared;
  prio_queue : kt_prio_queue;
  counter : Z;
  wire : list rte_mbuf
}.

(** How an iteration ends. *)
Inductive event :=
  | Idle
  | Early (diff : Z)
  | Late (diff : Z)
  | Sent (mbuf_index diff : Z) (frame : rte_mbuf).

(** The [for] loop over the burst.  The result of [kt_prio_queue_insert] is not
    looked at. *)
Fixpoint insert_burst (n : nat) (i : Z) (table : list Z) (metadata_pool : list kt_metadata)
    (q : kt_prio_queue) : res kt_prio_queue :=
  match n with
  | O => Ret q
  | S n =>
      offset <- znth table i;;
      metadata <- znth metadata_pool offset;;
      let* (_, q) := kt_prio_queue_insert q (i64 (txtime metadata)) offset in
      insert_burst n (i + 1) table metadata_pool q
  end.

Section Loop.
Context (rte_ipv4_cksum : list Z -> Z).

(** The part of an iteration after the burst.  [now] is the clock, [tx_buf] the
    result of [rte_pktmbuf_alloc] ([None] for [NULL], which is reported and then
    used). *)
Definition transmit_due (d : kt_daemon) (now : Z) (tx_buf : option rte_mbuf)
    : res (kt_daemon * event) :=
  let sh := shared d in
  let q := prio_queue d in
  if kt_prio_queue_is_empty q then Ret (d, Idle)
  else
    txtime <- kt_prio_queue_getmin q;;
    diff <- kt_get_time_diff_ns now txtime;;
    if tx_delta_ns <? diff then Ret (d, Early diff)
    else if diff <? 0 then
      let* (_, q, _) := kt_prio_queue_extract_min q false in
      Ret (mk_daemon sh q (counter d) (wire d), Late diff)
    else
      let* (_, q, written) := kt_prio_queue_extract_min q true in
      match written, tx_buf with
      | Some mbuf_index, Some tx_buf =>
          mbuf <- znth (mbuf_pool sh) mbuf_index;;
          metadata <- znth (metadata_pool sh) mbuf_index;;
          tx_buf <- prepare_packet rte_ipv4_cksum tx_buf mbuf metadata;;
          let* (_, _, fr) := kt_ringbuf_enqueue_burst (free_ring sh) [mbuf_index] sizeof_u64 1 in
          c <- i64_op (counter d + 1);;
          Ret (mk_daemon (mk_shared (tx_ring sh) fr (mbuf_pool sh) (metadata_pool sh)) q c
                 (wire d ++ [tx_buf]),
               Sent mbuf_index diff tx_buf)
      | _, _ => UB
      end.

(** One iteration of [while (g_run)].  [table] is the content of the array on
    the stack. *)
Definition loop_body (d : kt_daemon) (table : list Z) (now : Z) (tx_buf : option rte_mbuf)
    : res (kt_daemon * event) :=
  let sh := shared d in
  let* (nb_elem, _, table, tx) := kt_ringbuf_dequeue_burst (tx_ring sh) table sizeof_u64 burst_size in
  let sh := mk_shared tx (free_ring sh) (mbuf_pool sh) (metadata_pool sh) in
  q <- insert_burst (Z.to_nat nb_elem) 0 table (metadata_pool sh) (prio_queue d);;
  transmit_due (mk_daemon sh q (counter d) (wire d)) now tx_buf.
End Loop.

(** ** The invariant

    [lost] are the indices whose packets were late.  Every buffer is in exactly
    one place: the free ring, the transmission ring, the priority queue, or
    lost. *)
Definition queued (q : kt_prio_queue) : list Z := PrioQueue.data <$> nodes q.

(** A packet the daemon can send: metadata as the library writes it, a time that
    a signed 64-bit clock reaches, and a size that fits buffer and frame. *)
Definition packet_ok (md : kt_metadata) : Prop :=
  metadata_ok md /\ 0 <= txtime md <= INT64_MAX /\ psize md <= kt_mbuf_size /\
  (transport md = KT_METADATA_TRANSPORT_UDP -> psize md <= kt_mbuf_size - 42).

Definition node_of (mds : list kt_metadata) (i : Z) : kt_pq_node :=
  mk_pq_node (i64 (txtime (zget mds i))) i.

Record daemon_wf (d : kt_daemon) (N : Z) (lost : list Z) : Prop := {
  dw_shared : shared_wf (shared d) N;
  dw_pq : pq_wf (prio_queue d);
  dw_cap : cap (prio_queue d) = N;
  dw_perm : contents (free_ring (shared d)) ++ contents (tx_ring (shared d)) ++
              queued (prio_queue d) ++ lost ≡ₚ seqZ 0 N;
  dw_prio : forall n, n ∈ nodes (prio_queue d) ->
              n = node_of (metadata_pool (shared d)) (PrioQueue.data n);
  dw_pkts : forall i, i ∈ contents (tx_ring (shared d)) ++ queued (prio_queue d) ->
              packet_ok (zget (metadata_pool (shared d)) i)
}.

#[export] Hint Resolve dw_shared dw_pq : kt.

(** ** Absorbing a burst *)

Lemma insert_burst_spec mds n : forall i table q,
  pq_wf q -> PrioQueue.size q + Z.of_nat n <= cap q ->
  0 <= i -> i + Z.of_nat n <= zlen table ->
  (forall j, i <= j < i + Z.of_nat n -> 0 <= zget table j < zlen mds) ->
  exists q', insert_burst n i table mds q = Ret q' /\ pq_wf q' /\ cap q' = cap q /\
    nodes q' ≡ₚ (node_of mds <$> zslice table i (Z.of_nat n)) ++ nodes q /\
    (heap_ordered q -> heap_ordered q').
Proof.
  induction n as [|n IH]; intros i table q Hwf Hroom Hi Hlen Hin.
  - exists q. cbn. split_and!; done.
  - cbn [insert_burst]. rewrite znth_get by lia. cbn [bind].
    rewrite znth_get by (apply Hin; lia). cbn [bind].
    destruct (insert_room q (i64 (txtime (zget mds (zget table i)))) (zget table i))
      as (q1 & E1 & W1 & C1 & S1 & P1 & H1); [done|lia|apply i64_range|].
    rewrite E1. cbn [bind].
    destruct (IH (i + 1) table q1) as (q' & E' & W' & C' & P' & H');
      [done|lia|lia|lia|intros j Hj; apply Hin; lia|].
    exists q'. split_and!; [done|done|by rewrite C'| |auto].
    rewrite P', P1, (zslice_cons table i (Z.of_nat (S n))) by lia.
    replace (Z.of_nat (S n) - 1) with (Z.of_nat n) by lia. cbn [fmap list_fmap app].
    by rewrite <- Permutation_middle.
Qed.

Lemma queued_absorb mds l q q' :
  nodes q' ≡ₚ (node_of mds <$> l) ++ nodes q -> queued q' ≡ₚ l ++ queued q.
Proof.
  intros P. unfold queued. rewrite P, fmap_app, <- list_fmap_compose.
  f_equiv. erewrite list_fmap_ext; [by rewrite list_fmap_id|done].
Qed.

(** The state after the burst, before the packet at the root is looked at. *)
Definition absorbed (d : kt_daemon) (tx : kt_ringbuf) (q : kt_prio_queue) : kt_daemon :=
  mk_daemon (mk_shared tx (free_ring (shared d)) (mbuf_pool (shared d)) (metadata_pool (shared d)))
    q (counter d) (wire d).

(** The burst does not cross the end of the transmission ring. *)
Definition burst_fits (d : kt_daemon) : Prop :=
  let rb := tx_ring (shared d) in
  head (cons rb) mod RingBuf.size rb + Z.min burst_size (RingBuf.used rb) <= RingBuf.size rb.

Lemma zlen_queued q : pq_wf q -> zlen (queued q) = PrioQueue.size q.
Proof.
  intros (Hs & Hc & _). unfold queued. rewrite zlen_fmap. unfold nodes, zlen in *.
  rewrite length_take. lia.
Qed.

Lemma buffers_account d N lost :
  daemon_wf d N lost ->
  zlen (contents (free_ring (shared d))) + zlen (contents (tx_ring (shared d))) +
  PrioQueue.size (prio_queue d) + zlen lost = N.
Proof.
  intros W. pose proof (Permutation_length (dw_perm _ _ _ W)) as H.
  rewrite !length_app, length_seqZ in H. rewrite <- (zlen_queued _ (dw_pq _ _ _ W)).
  pose proof (zlen_nonneg (mbuf_pool (shared d))) as Hn.
  rewrite (sw_mbufs _ _ (dw_shared _ _ _ W)) in Hn. unfold zlen. lia.
Qed.

Lemma indices_ok d N lost i :
  daemon_wf d N lost ->
  i ∈ contents (free_ring (shared d)) ++ contents (tx_ring (shared d)) ++ queued (prio_queue d) ++ lost <->
  0 <= i < N.
Proof. intros W. rewrite (dw_perm _ _ _ W), elem_of_seqZ. lia. Qed.

Lemma indices_nodup d N lost :
  daemon_wf d N lost ->
  NoDup (contents (free_ring (shared d)) ++ contents (tx_ring (shared d)) ++
           queued (prio_queue d) ++ lost).
Proof. intros W. rewrite (dw_perm _ _ _ W). apply NoDup_seqZ. Qed.

(** The rings of a state are the only part of [shared_wf] that indices move
    between. *)
Lemma shared_wf_rings sh N tx fr rest :
  shared_wf sh N -> ring_wf tx -> same_ring (tx_ring sh) tx -> ring_wf fr ->
  same_ring (free_ring sh) fr -> contents fr ++ contents tx ++ rest ≡ₚ seqZ 0 N ->
  shared_wf (mk_shared tx fr (mbuf_pool sh) (metadata_pool sh)) N.
Proof.
  intros W Wt St Wf Sf P.
  assert (Hnd : NoDup ((contents fr ++ contents tx) ++ rest)).
  { rewrite <- app_assoc, P. apply NoDup_seqZ. }
  assert (Hin : forall i, i ∈ contents fr ++ contents tx -> 0 <= i < N).
  { intros i Hi. assert (Hs : i ∈ seqZ 0 N); [|apply elem_of_seqZ in Hs; lia].
    rewrite <- P, app_assoc. apply elem_of_app. by left. }
  destruct W. split; cbn [tx_ring free_ring mbuf_pool metadata_pool]; try done.
  - by rewrite (same_ring_capacity _ _ St).
  - by rewrite (same_ring_capacity _ _ Sf).
  - by apply Forall_forall.
  - by apply NoDup_app in Hnd as [Hnd _].
Qed.

Lemma absorb d N lost table :
  daemon_wf d N lost -> zlen table = 64 -> burst_fits d ->
  let k := Z.min burst_size (RingBuf.used (tx_ring (shared d))) in
  exists tx q table' av,
    kt_ringbuf_dequeue_burst (tx_ring (shared d)) table sizeof_u64 burst_size = Ret (k, av, table', tx) /\
    insert_burst (Z.to_nat k) 0 table' (metadata_pool (shared d)) (prio_queue d) = Ret q /\
    daemon_wf (absorbed d tx q) N lost /\
    contents (tx_ring (shared d)) = zslice (contents (tx_ring (shared d))) 0 k ++ contents tx /\
    queued q ≡ₚ zslice (contents (tx_ring (shared d))) 0 k ++ queued (prio_queue d) /\
    (heap_ordered (prio_queue d) -> heap_ordered q).
Proof.
  intros W Ht Hfit k. set (rb := tx_ring (shared d)) in *.
  pose proof (dw_shared _ _ _ W) as Wsh. pose proof (sw_tx _ _ Wsh) as Wrb. fold rb in Wrb.
  pose proof (used_nonneg rb) as Hu. pose proof (zlen_contents rb) as Hlc.
  destruct (dequeue_burst_spec 0 rb table burst_size) as (tx & E & Wtx & Stx & Ctx);
    [done|unfold burst_size; lia|unfold burst_size; lia|exact Hfit|].
  fold k in E, Ctx. set (table' := zslice (contents rb) 0 k ++ _) in E.
  assert (Hk : 0 <= k <= zlen (contents rb) /\ k <= 8) by (unfold k, burst_size; lia).
  assert (Hsplit : contents rb = zslice (contents rb) 0 k ++ contents tx).
  { rewrite Ctx, <- Hlc. apply zslice_split. lia. }
  assert (Hlk : zlen (zslice (contents rb) 0 k) = k) by (apply zlen_zslice; lia).
  assert (Hpre : zslice table' 0 k = zslice (contents rb) 0 k).
  { unfold table', zslice at 1. change (Z.to_nat 0) with 0%nat. rewrite drop_0.
    apply take_app_length'. unfold zlen in Hlk. lia. }
  destruct (insert_burst_spec (metadata_pool (shared d)) (Z.to_nat k) 0 table' (prio_queue d))
    as (q & Eq & Wq & Cq & Pq & Hq).
  - eauto with kt.
  - pose proof (buffers_account d N lost W). rewrite (dw_cap _ _ _ W). fold rb in H.
    zlia.
  - lia.
  - unfold table'. rewrite zlen_app, Hlk. zlia.
  - intros j Hj. rewrite (sw_metas _ _ Wsh). unfold table'. rewrite zget_app_l by lia.
    apply (indices_ok d N lost); [done|]. fold rb. rewrite !elem_of_app. right; left.
    rewrite zget_zslice by lia. apply elem_of_zget. lia.
  - rewrite Z2Nat.id in Pq by lia. rewrite Hpre in Pq.
    pose proof (queued_absorb _ _ _ _ Pq) as Hqd.
    exists tx, q, table', (RingBuf.used rb - k). split_and!; try done.
    assert (P : contents (free_ring (shared d)) ++ contents tx ++ queued q ++ lost ≡ₚ seqZ 0 N).
    { rewrite Hqd, <- (dw_perm _ _ _ W). fold rb. rewrite Hsplit at 2. solve_Permutation. }
    split; cbn [absorbed shared prio_queue tx_ring free_ring mbuf_pool metadata_pool]; try done.
    + eapply shared_wf_rings; eauto with kt. done.
    + by rewrite Cq, (dw_cap _ _ _ W).
    + intros n Hn. rewrite Pq in Hn. apply elem_of_app in Hn as [Hn|Hn].
      * apply list_elem_of_fmap in Hn as (i & -> & _). done.
      * by apply (dw_prio _ _ _ W).
    + intros i Hi. apply (dw_pkts _ _ _ W). fold rb. rewrite Hqd in Hi. rewrite Hsplit.
      revert Hi. rewrite !elem_of_app. tauto.
Qed.

(** ** The packet at the root *)

Lemma root_node d N lost :
  daemon_wf d N lost -> 0 < PrioQueue.size (prio_queue d) ->
  let n := zget (elems (prio_queue d)) 0 in
  let i := PrioQueue.data n in
  n ∈ nodes (prio_queue d) /\ i ∈ queued (prio_queue d) /\ 0 <= i < N /\
  prio n = txtime (zget (metadata_pool (shared d)) i) /\
  packet_ok (zget (metadata_pool (shared d)) i).
Proof.
  intros W Hs n i.
  assert (Hn : n ∈ nodes (prio_queue d)).
  { apply nodes_lookup; [eauto with kt|]. exists 0. split; [lia|done]. }
  assert (Hi : i ∈ queued (prio_queue d)) by (unfold queued; apply list_elem_of_fmap; eauto).
  assert (Hok : packet_ok (zget (metadata_pool (shared d)) i)).
  { apply (dw_pkts _ _ _ W). apply elem_of_app. by right. }
  split_and!; try done.
  - apply (indices_ok d N lost i W). rewrite !elem_of_app. auto.
  - apply (indices_ok d N lost i W). rewrite !elem_of_app. auto.
  - rewrite (dw_prio _ _ _ W n Hn). fold i. cbn [prio node_of]. destruct Hok as (_ & Ht & _).
    apply i64_id. unfold INT64_MIN, INT64_MAX in *. lia.
Qed.

(** Taking the root out of the queue, its index going to [fr] or to [lost']. *)
Lemma extract_wf d N lost q' fr lost' c w :
  daemon_wf d N lost -> 0 < PrioQueue.size (prio_queue d) ->
  nodes (prio_queue d) ≡ₚ zget (elems (prio_queue d)) 0 :: nodes q' ->
  pq_wf q' -> cap q' = cap (prio_queue d) ->
  ring_wf fr -> same_ring (free_ring (shared d)) fr ->
  contents fr ++ lost' ≡ₚ
    PrioQueue.data (zget (elems (prio_queue d)) 0) :: contents (free_ring (shared d)) ++ lost ->
  daemon_wf (mk_daemon (mk_shared (tx_ring (shared d)) fr (mbuf_pool (shared d))
                          (metadata_pool (shared d))) q' c w) N lost'.
Proof.
  intros W Hs Pn Wq Cq Wfr Sfr Pfr. set (n := zget _ 0) in *.
  assert (Pq : queued (prio_queue d) ≡ₚ PrioQueue.data n :: queued q').
  { unfold queued. by rewrite Pn. }
  assert (P : contents fr ++ contents (tx_ring (shared d)) ++ queued q' ++ lost' ≡ₚ seqZ 0 N).
  { rewrite <- (dw_perm _ _ _ W), Pq.
    transitivity (contents (tx_ring (shared d)) ++ queued q' ++ (contents fr ++ lost'));
      [solve_Permutation|]. rewrite Pfr. solve_Permutation. }
  split; cbn [shared prio_queue tx_ring free_ring metadata_pool]; try done.
  - eapply shared_wf_rings; eauto with kt. done.
  - by rewrite Cq, (dw_cap _ _ _ W).
  - intros m Hm. apply (dw_prio _ _ _ W). rewrite Pn. by right.
  - intros i Hi. apply (dw_pkts _ _ _ W). rewrite Pq. revert Hi. rewrite !elem_of_app, elem_of_cons. tauto.
Qed.

(** No packet of the queue is due before packet [i]. *)
Definition earliest (mds : list kt_metadata) (i : Z) (q : kt_prio_queue) : Prop :=
  forall j, j ∈ queued q -> txtime (zget mds i) <= txtime (zget mds j).

Lemma root_earliest d N lost q' :
  daemon_wf d N lost -> 0 < PrioQueue.size (prio_queue d) -> heap_ordered (prio_queue d) ->
  nodes (prio_queue d) ≡ₚ zget (elems (prio_queue d)) 0 :: nodes q' ->
  earliest (metadata_pool (shared d)) (PrioQueue.data (zget (elems (prio_queue d)) 0)) q'.
Proof.
  intros W Hs Hh P j (m & -> & Hm)%list_elem_of_fmap.
  assert (Hin : m ∈ nodes (prio_queue d)) by (rewrite P; by right).
  destruct (root_node d N lost W Hs) as (_ & _ & _ & <- & _).
  assert (Hok : packet_ok (zget (metadata_pool (shared d)) (PrioQueue.data m))).
  { apply (dw_pkts _ _ _ W), elem_of_app. right. apply list_elem_of_fmap. eauto. }
  pose proof (dw_prio _ _ _ W m Hin) as Em. apply (f_equal prio) in Em. cbn [node_of prio] in Em.
  destruct Hok as (_ & Ht & _). rewrite i64_id in Em by (unfold INT64_MIN, INT64_MAX in *; lia).
  rewrite <- Em. apply nodes_lookup in Hin as (k & Hk & <-); [|eauto with kt]. by apply root_le.
Qed.

(** What one iteration may do, and when. *)
Definition iteration (ck : list Z -> Z) (d : kt_daemon) (lost : list Z) (now : Z) (tb : rte_mbuf)
    (d' : kt_daemon) (ev : event) (lost' : list Z) : Prop :=
  let sh := shared d in
  mbuf_pool (shared d') = mbuf_pool sh /\ metadata_pool (shared d') = metadata_pool sh /\
  match ev with
  | Idle =>
      lost' = lost /\ contents (tx_ring sh) = [] /\ PrioQueue.size (prio_queue d) = 0 /\
      contents (free_ring (shared d')) = contents (free_ring sh) /\ wire d' = wire d
  | Early diff => exists i,
      i ∈ contents (tx_ring sh) ++ queued (prio_queue d) /\
      lost' = lost /\ diff = txtime (zget (metadata_pool sh) i) - now /\ tx_delta_ns < diff /\
      contents (free_ring (shared d')) = contents (free_ring sh) /\ wire d' = wire d
  | Late diff => exists i,
      i ∈ contents (tx_ring sh) ++ queued (prio_queue d) /\
      lost' = i :: lost /\ diff = txtime (zget (metadata_pool sh) i) - now /\ diff < 0 /\
      contents (free_ring (shared d')) = contents (free_ring sh) /\ wire d' = wire d /\
      (heap_ordered (prio_queue d) -> earliest (metadata_pool sh) i (prio_queue d'))
  | Sent i diff b =>
      i ∈ contents (tx_ring sh) ++ queued (prio_queue d) /\
      lost' = lost /\ diff = txtime (zget (metadata_pool sh) i) - now /\
      0 <= diff <= tx_delta_ns /\
      prepare_packet ck tb (zget (mbuf_pool sh) i) (zget (metadata_pool sh) i) = Ret b /\
      contents (free_ring (shared d')) = contents (free_ring sh) ++ [i] /\
      wire d' = wire d ++ [b] /\
      (heap_ordered (prio_queue d) -> earliest (metadata_pool sh) i (prio_queue d'))
  end.

(** The branch that sends. *)
Lemma send_root ck d N lost tb now :
  daemon_wf d N lost -> 0 < PrioQueue.size (prio_queue d) ->
  0 <= counter d < INT64_MAX -> zlen (Packet.data tb) = 2048 -> 0 <= now <= INT64_MAX ->
  let i := PrioQueue.data (zget (elems (prio_queue d)) 0) in
  let diff := txtime (zget (metadata_pool (shared d)) i) - now in
  0 <= diff <= tx_delta_ns ->
  exists d' b, transmit_due ck d now (Some tb) = Ret (d', Sent i diff b) /\
    daemon_wf d' N lost /\ iteration ck d lost now tb d' (Sent i diff b) lost.
Proof.
  intros W Hpos Hcnt Hroom Hnow i diff Hdiff. pose proof (dw_shared _ _ _ W) as Wsh.
  destruct (root_node d N lost W Hpos) as (_ & Hi & Hr & Hp & Hmd & Htime & Hsz & Hudp).
  fold i in Hi, Hr, Hp, Hmd, Htime, Hsz, Hudp. pose proof (dw_pq _ _ _ W) as Wq.
  unfold transmit_due, kt_prio_queue_is_empty. rewrite (proj2 (Z.eqb_neq _ _)) by lia.
  rewrite getmin_ret by (done || lia). cbn [bind]. unfold key, kt_get_time_diff_ns. rewrite Hp.
  rewrite i64_op_id by (unfold INT64_MIN, INT64_MAX, diff in *; lia). cbn [bind]. fold diff.
  rewrite (proj2 (Z.ltb_ge _ _)), (proj2 (Z.ltb_ge diff 0)) by lia.
  destruct (extract_min_spec (prio_queue d) true) as (q' & s & Ex & Wq' & Cq' & Sq' & Pq' & _); [done|done|].
  rewrite Ex. cbn [bind]. fold i.
  rewrite !znth_get by (rewrite ?(sw_mbufs _ _ Wsh), ?(sw_metas _ _ Wsh); lia). cbn [bind].
  destruct (prepare_total ck tb (zget (mbuf_pool (shared d)) i) (zget (metadata_pool (shared d)) i))
    as (b & Eb); try done; try (unfold kt_mbuf_size in *; lia).
  { rewrite (sw_mbuf _ _ Wsh) by done. done. }
  rewrite Eb. cbn [bind].
  destruct (enqueue_one (free_ring (shared d)) i) as (fr & Ef & Wf & Sf & Cf); [eauto with kt| |].
  { pose proof (buffers_account _ _ _ W). rewrite (sw_free_cap _ _ Wsh), <- zlen_contents.
    zlia. }
  unfold sizeof_u64. rewrite Ef. cbn [bind].
  rewrite i64_op_id by (unfold INT64_MIN, INT64_MAX in *; lia). cbn [bind].
  eexists _, b. split; [reflexivity|]. split.
  - eapply (extract_wf d); try done. fold i. rewrite Cf. solve_Permutation.
  - split_and!; try done; try lia; [by apply elem_of_app; right|].
    intros Hh. by apply (root_earliest d N lost q').
Qed.

Lemma transmit_due_spec ck d N lost now tb :
  daemon_wf d N lost -> 0 <= now <= INT64_MAX -> 0 <= counter d < INT64_MAX ->
  zlen (Packet.data tb) = 2048 ->
  exists d' ev lost', transmit_due ck d now (Some tb) = Ret (d', ev) /\
    daemon_wf d' N lost' /\ 
    (contents (tx_ring (shared d)) = [] \/ 0 < PrioQueue.size (prio_queue d) ->
     iteration ck d lost now tb d' ev lost').
Proof.
  intros W Hnow Hcnt Hroom. pose proof (dw_pq _ _ _ W) as Wq.
  destruct (Z.eqb_spec (PrioQueue.size (prio_queue d)) 0) as [Hz|Hnz].
  { exists d, Idle, lost. unfold transmit_due, kt_prio_queue_is_empty. rewrite Hz, Z.eqb_refl.
    split; [done|]. split; [done|]. intros [Htx|]; [|lia]. by split_and!. }
  assert (Hpos : 0 < PrioQueue.size (prio_queue d)) by (destruct Wq; lia).
  destruct (root_node d N lost W Hpos) as (_ & Hi & Hr & Hp & Hok).
  set (i := PrioQueue.data _) in *. set (diff := txtime (zget (metadata_pool (shared d)) i) - now).
  destruct (decide (0 <= diff <= tx_delta_ns)) as [Hd|Hd].
  { destruct (send_root ck d N lost tb now) as (d' & b & E & W' & I); try done.
    exists d', (Sent i diff b), lost. auto. }
  unfold transmit_due, kt_prio_queue_is_empty. rewrite (proj2 (Z.eqb_neq _ _)) by lia.
  rewrite getmin_ret by (done || lia). cbn [bind]. unfold key, kt_get_time_diff_ns. rewrite Hp.
  destruct Hok as (_ & Ht & _).
  rewrite i64_op_id by (unfold INT64_MIN, INT64_MAX, diff in *; lia). cbn [bind]. fold diff.
  destruct (Z.ltb_spec tx_delta_ns diff) as [He|He].
  { exists d, (Early diff), lost. split_and!; try done. intros _. split_and!; try done.
    exists i. split_and!; try done. by apply elem_of_app; right. }
  rewrite (proj2 (Z.ltb_lt diff 0)) by lia.
  destruct (extract_min_spec (prio_queue d) false) as (q' & s & Ex & Wq' & Cq' & Sq' & Pq' & _); [done|done|].
  rewrite Ex. cbn [bind]. eexists _, (Late diff), (i :: lost). split; [reflexivity|]. split.
  - replace (shared d) with (mk_shared (tx_ring (shared d)) (free_ring (shared d)) (mbuf_pool (shared d))
      (metadata_pool (shared d))) by (by destruct (shared d)).
    eapply (extract_wf d); try done; [apply W|]. fold i. solve_Permutation.
  - intros _. split_and!; try done. exists i. split_and!; try done; try lia; [by apply elem_of_app; right|].
    intros Hh. by apply (root_earliest d N lost q').
Qed.

(** The packets in the transmission ring and the queue, before and after the
    burst. *)
Lemma absorbed_members d N lost tx q k :
  daemon_wf d N lost -> daemon_wf (absorbed d tx q) N lost ->
  k = Z.min burst_size (RingBuf.used (tx_ring (shared d))) ->
  contents (tx_ring (shared d)) = zslice (contents (tx_ring (shared d))) 0 k ++ contents tx ->
  queued q ≡ₚ zslice (contents (tx_ring (shared d))) 0 k ++ queued (prio_queue d) ->
  (forall i, i ∈ contents tx ++ queued q <->
     i ∈ contents (tx_ring (shared d)) ++ queued (prio_queue d)) /\
  (PrioQueue.size q = 0 -> contents (tx_ring (shared d)) = [] /\ contents tx = [] /\
     PrioQueue.size (prio_queue d) = 0).
Proof.
  intros W W1 Hk Htx Hqd. set (rb := tx_ring (shared d)) in *.
  pose proof (used_nonneg rb) as Hu. pose proof (zlen_contents rb) as Hl.
  assert (Hlk : zlen (zslice (contents rb) 0 k) = k).
  { apply zlen_zslice; rewrite ?Hl; unfold burst_size in Hk; lia. }
  split.
  - intros i. assert (P : contents tx ++ queued q ≡ₚ contents rb ++ queued (prio_queue d)); [|by rewrite P].
    transitivity ((zslice (contents rb) 0 k ++ contents tx) ++ queued (prio_queue d)); [|by rewrite <- Htx].
    rewrite Hqd. solve_Permutation.
  - intros Hz. pose proof (Permutation_length Hqd) as Hlen. rewrite length_app in Hlen.
    pose proof (zlen_queued q (dw_pq _ _ _ W1)) as H1.
    pose proof (zlen_queued _ (dw_pq _ _ _ W)) as H2.
    unfold zlen, burst_size in *. pose proof (f_equal length Htx) as H3. rewrite length_app in H3.
    split_and!; [apply length_zero_iff_nil..|]; lia.
Qed.

Lemma loop_body_spec ck d N lost table now tb :
  daemon_wf d N lost -> zlen table = 64 -> burst_fits d ->
  0 <= now <= INT64_MAX -> 0 <= counter d < INT64_MAX -> zlen (Packet.data tb) = 2048 ->
  exists d' ev lost', loop_body ck d table now (Some tb) = Ret (d', ev) /\
    daemon_wf d' N lost' /\ iteration ck d lost now tb d' ev lost'.
Proof.
  intros W Ht Hfit Hnow Hcnt Hroom.
  destruct (absorb d N lost table W Ht Hfit) as (tx & q & tbl & av & E1 & E2 & W1 & Htx & Hqd & Hheap).
  destruct (absorbed_members d N lost tx q _ W W1 eq_refl Htx Hqd) as [Hm Hz].
  destruct (transmit_due_spec ck (absorbed d tx q) N lost now tb) as (d' & ev & lost' & E & W' & I); try done.
  exists d', ev, lost'. unfold loop_body. rewrite E1. cbn [bind metadata_pool]. rewrite E2. cbn [bind].
  split; [exact E|]. split; [done|].
  pose proof (dw_pq _ _ _ W1) as (Hs & _). cbn [absorbed shared prio_queue] in *.
  assert (Hor : contents tx = [] \/ 0 < PrioQueue.size q).
  { destruct (decide (PrioQueue.size q = 0)) as [E0|]; [left; by apply Hz|right; lia]. }
  specialize (I Hor). unfold iteration in I |- *. cbn [absorbed shared prio_queue tx_ring free_ring
    mbuf_pool metadata_pool wire] in I. destruct I as (Hp1 & Hp2 & I). split_and!; [done..|].
  destruct ev as [|df|df|i df b].
  - destruct I as (-> & _ & E0 & ? & ?). destruct (Hz E0) as (? & _ & ?). done.
  - destruct I as (i & Hi & I). exists i. split; [by apply Hm|done].
  - destruct I as (i & Hi & I). exists i. destruct I as (? & ? & ? & ? & ? & He).
    split_and!; try done; [by apply Hm|]. intros Hh. by apply He, Hheap.
  - destruct I as (Hi & ? & ? & ? & ? & ? & ? & He).
    split_and!; try done; try lia; [by apply Hm|]. intros Hh. by apply He, Hheap.
Qed.


(** When a packet is due and DPDK has no buffer left, the daemon reports the
    failure and then writes the frame through the null pointer. *)
Theorem no_dpdk_buffer_undefined ck d N lost now :
  daemon_wf d N lost -> 0 < PrioQueue.size (prio_queue d) -> 0 <= now <= INT64_MAX ->
  let i := PrioQueue.data (zget (elems (prio_queue d)) 0) in
  0 <= txtime (zget (metadata_pool (shared d)) i) - now <= tx_delta_ns ->
  transmit_due ck d now None = UB.
Proof.
  intros W Hpos Hnow i Hd. pose proof (dw_pq _ _ _ W) as Wq.
  destruct (root_node d N lost W Hpos) as (_ & _ & _ & Hp & _). fold i in Hp.
  unfold transmit_due, kt_prio_queue_is_empty. rewrite (proj2 (Z.eqb_neq _ _)) by lia.
  rewrite getmin_ret by (done || lia). cbn [bind]. unfold key, kt_get_time_diff_ns. rewrite Hp.
  unfold tx_delta_ns in *. rewrite i64_op_id by (unfold INT64_MIN, INT64_MAX in *; lia). cbn [bind].
  rewrite (proj2 (Z.ltb_ge _ _)), (proj2 (Z.ltb_ge _ 0)) by lia.
  destruct (extract_min_spec (prio_queue d) true) as (q' & s & Ex & _); [done|done|].
  by rewrite Ex.
Qed.

(** ** Witnesses

    Three buffers: 2 is waiting in the transmission ring, 0 and 1 are free. *)
Definition demo_md : kt_metadata :=
  mk_metadata KT_METADATA_TRANSPORT_UDP 1000 [2; 0; 0; 0; 0; 7] kt_default_dst_mac
    167772161 167772162 8080 3.

Definition demo_daemon : kt_daemon :=
  mk_daemon
    (mk_shared
       (mk_ringbuf 0 "RB_tx" 4 8 3 3 (mk_headtail 1 1) (mk_headtail 0 0) [2; 0; 0; 0])
       (mk_ringbuf 0 "RB_free" 4 8 3 3 (mk_headtail 2 2) (mk_headtail 0 0) [0; 1; 0; 0])
       (replicate 3 (replicate 2048 0)) (replicate 3 demo_md))
    (mk_prio_queue (replicate 3 inhabitant) 3 0) 0 [].

Lemma demo_packet_ok : packet_ok demo_md.
Proof. unfold packet_ok, metadata_ok, u32_value, u16_value. zcompute. Qed.

Lemma demo_daemon_shared_wf : shared_wf (shared demo_daemon) 3.
Proof.
  split; try reflexivity;
    try (unfold ring_wf, pow2_size; split; [exists 2; cbn; lia|zcompute]).
  - intros i Hi. unfold zget. cbn [mbuf_pool shared demo_daemon].
    rewrite lookup_total_replicate_2 by lia. done.
  - intros i Hi. unfold zget. cbn [metadata_pool shared demo_daemon].
    rewrite lookup_total_replicate_2 by lia. done.
  - apply (bool_decide_unpack _). vm_compute. done.
  - apply (bool_decide_unpack _). vm_compute. done.
Qed.

Lemma demo_daemon_wf : daemon_wf demo_daemon 3 [].
Proof.
  split; try apply demo_daemon_shared_wf; try reflexivity.
  - unfold pq_wf. zcompute.
  - intros n Hn. by apply not_elem_of_nil in Hn.
  - intros i Hi. assert (i = 2) as ->; [|apply demo_packet_ok].
    change (i ∈ [2]) in Hi. by apply list_elem_of_singleton in Hi.
Qed.


(** The daemon of the witness after the burst. *)
Definition demo_due : kt_daemon :=
  mk_daemon
    (mk_shared
       (mk_ringbuf 0 "RB_tx" 4 8 3 3 (mk_headtail 1 1) (mk_headtail 1 1) [2; 0; 0; 0])
       (mk_ringbuf 0 "RB_free" 4 8 3 3 (mk_headtail 2 2) (mk_headtail 0 0) [0; 1; 0; 0])
       (replicate 3 (replicate 2048 0)) (replicate 3 demo_md))
    (mk_prio_queue [mk_pq_node 1000 2; inhabitant; inhabitant] 3 1) 0 [].

Lemma demo_due_wf : daemon_wf demo_due 3 [].
Proof.
  split; try reflexivity.
  - refine (shared_wf_rings (shared demo_daemon) 3 (tx_ring (shared demo_due)) (free_ring (shared demo_due))
      [2] demo_daemon_shared_wf _ _ (sw_free _ _ demo_daemon_shared_wf) (reflexivity _) _).
    + unfold ring_wf, pow2_size. split; [exists 2; cbn; lia|zcompute].
    + unfold same_ring. by vm_compute.
    + done.
  - unfold pq_wf. zcompute.
  - intros n Hn. change (n ∈ [mk_pq_node 1000 2]) in Hn. apply list_elem_of_singleton in Hn as ->. done.
  - intros i Hi. assert (i = 2) as ->; [|apply demo_packet_ok].
    change (i ∈ [2]) in Hi. by apply list_elem_of_singleton in Hi.
Qed.

Lemma no_dpdk_buffer_undefined_witness : transmit_due demo_cksum demo_due 990 None = UB.
Proof.
  apply (no_dpdk_buffer_undefined demo_cksum demo_due 3 [] 990 demo_due_wf); zcompute.
Defined.
