(* ===== verification/Init.v ===== *)
(** * Start-up of the daemon (src/ktsnd.c, [main] up to the main loop)

    The daemon creates the two shared memories, builds the page allocator in the
    first, takes the rings and the pools from it, fills the free ring, and
    publishes the offsets in the second, where the library of every application
    finds them. *)

From S2P Require Import Prelude Allocator PageAlloc RingBuf Memory PrioQueue Libktsn Packet Daemon.

Definition ring_elem_count : Z := 128.

Section Start.
(** What the shared memory holds: the words behind a ring header, and a pool of
    [n] buffers or metadata records at an address. *)
Context (words_at : Z -> list Z).
Context (mbufs_at : Z -> Z -> list (list Z)).
Context (metas_at : Z -> Z -> list kt_metadata).

(** [for (i = 0; i < kt_ringbuf_get_capacity(free_ring); i++)] with a table of
    one word. *)
Definition fill_free_ring (rb : kt_ringbuf) : res kt_ringbuf :=
  enqueue_each rb (seqZ 0 (kt_ringbuf_get_capacity rb)).

(** The objects in the data region at [addr].  A null ring or pool is used
    without a test. *)
Definition setup_region (malloc_ok : bool) (blk : option (list kt_pq_node)) (addr size page_size : Z)
    : res (kt_daemon * kt_mem_layout) :=
  page_al <- kt_page_allocator_make malloc_ok addr size page_size;;
  let* (page_al, tx_ring) := kt_ringbuf_create words_at page_al "RB_tx" ring_elem_count 1 in
  let* (page_al, free_ring) := kt_ringbuf_create words_at page_al "RB_free" ring_elem_count 1 in
  match tx_ring, free_ring with
  | Some tx_ring, Some free_ring =>
      free_ring <- fill_free_ring free_ring;;
      let cap := kt_ringbuf_get_capacity free_ring in
      let* (page_al, kt_mbuf_pool) := al_alloc page_al (u64 (kt_mbuf_size * cap)) in
      let* (page_al, kt_metadata_pool) := al_alloc page_al (u64 (sizeof_kt_metadata * cap)) in
      match kt_mbuf_pool, kt_metadata_pool with
      | Some kt_mbuf_pool, Some kt_metadata_pool =>
          Ret (mk_daemon (mk_shared tx_ring free_ring (mbufs_at kt_mbuf_pool cap)
                            (metas_at kt_metadata_pool cap))
                 (kt_prio_queue_init blk cap) 0 [],
               mk_mem_layout (u64 (RingBuf.addr tx_ring - addr)) (u64 (RingBuf.addr free_ring - addr))
                 (u64 (kt_mbuf_pool - addr)) (u64 (kt_metadata_pool - addr)))
      | _, _ => UB
      end
  | _, _ => UB
  end.

(** From the creation of the shared memories to the priority queue; [None] is
    the early [return -1].  The descriptors of the memories are kept for the
    clean-up. *)
Definition ktsnd_start (ans_data ans_ctrl : shm_answers) (page_size : Z) (malloc_ok : bool)
    (blk : option (list kt_pq_node))
    : list syscall * res (option (kt_memory * kt_memory * kt_daemon * kt_mem_layout)) :=
  let (t1, memory) :=
    kt_memory_create ans_data KT_DEFAULT_SHARED_DATA_MEMORY_NAME KT_DEFAULT_MEMORY_SIZE in
  match memory with
  | None => (t1, Ret None)
  | Some memory =>
      let (t2, memory_ctrl) := kt_memory_create ans_ctrl KT_DEFAULT_SHARED_CTRL_MEMORY_NAME page_size in
      match memory_ctrl with
      | None => (t1 ++ t2, Ret None)
      | Some memory_ctrl =>
          (t1 ++ t2,
           let* (d, mem_layout) :=
             setup_region malloc_ok blk (Memory.addr memory) (Memory.size memory) page_size in
           Ret (Some (memory, memory_ctrl, d, mem_layout)))
      end
  end.
End Start.

(** ** Filling the free ring *)

Lemma enqueue_each_spec l : forall rb,
  ring_wf rb -> RingBuf.used rb + zlen l <= capacity rb ->
  exists rb', enqueue_each rb l = Ret rb' /\ ring_wf rb' /\ same_ring rb rb' /\
    contents rb' = contents rb ++ l.
Proof.
  induction l as [|x l IH]; intros rb W Hroom.
  - exists rb. rewrite app_nil_r. done.
  - rewrite zlen_cons in Hroom. pose proof (zlen_nonneg l).
    destruct (enqueue_one rb x W) as (rb1 & E1 & W1 & S1 & C1); [lia|].
    pose proof (zlen_contents rb1) as Hl. rewrite C1, zlen_app, zlen_contents in Hl.
    destruct (IH rb1 W1) as (rb' & E' & W' & S' & C').
    { rewrite (same_ring_capacity _ _ S1). change (zlen [x]) with 1 in Hl. lia. }
    exists rb'. cbn [enqueue_each]. rewrite E1. cbn [bind snd]. rewrite E'.
    split_and!; [done|done|by etrans|]. by rewrite C', C1, <- app_assoc.
Qed.

(** One allocation from the region of the daemon while pages are left. *)
Lemma region_alloc a b size n base :
  bump a b -> 0 < size < 2 ^ 32 -> page_size a = 4096 -> page_count a = 255 ->
  PageAlloc.data a = base -> n = (size + 4095) / 4096 -> b + n <= 255 ->
  exists a', al_alloc a size = Ret (a', Some (base + b * 4096)) /\
    bump a' (b + n) /\ page_size a' = 4096 /\ page_count a' = 255 /\ PageAlloc.data a' = base.
Proof.
  intros Hb Hs Eps Epc Ed -> Hfit. cbn [al_alloc page_alloc_ops].
  pose proof (alloc_bump (S (Z.to_nat (page_count a))) a b size Hb Hs ltac:(lia)) as H. cbn zeta in H.
  assert (Hp : pages_for a size = (size + 4095) / 4096).
  { unfold pages_for. rewrite Eps. unfold u32. repeat case_match; zb; rewrite Z.mod_small; dlia. }
  rewrite Epc. rewrite Hp, Epc, Eps, Ed in H. rewrite (proj2 (Z.leb_le _ _)) in H by lia. exact H.
Qed.

(** What a region holds when its memory can be read as rings and pools. *)
Record readable (words_at : Z -> list Z) (mbufs_at : Z -> Z -> list (list Z))
    (metas_at : Z -> Z -> list kt_metadata) : Prop := {
  rd_words : forall p, zlen (words_at p) = 496;
  rd_mbufs : forall p n, 0 <= n -> zlen (mbufs_at p n) = n;
  rd_mbuf : forall p n i, 0 <= i < n -> zlen (zget (mbufs_at p n) i) = kt_mbuf_size;
  rd_metas : forall p n, 0 <= n -> zlen (metas_at p n) = n;
  rd_mac : forall p n i, 0 <= i < n -> zlen (eth_src (zget (metas_at p n) i)) = 6 /\
                                       zlen (eth_dst (zget (metas_at p n) i)) = 6
}.

(** The layout the daemon publishes: the first free pages behind the allocator's
    own data, one page per ring, 64 pages of buffers, 2 pages of metadata. *)
Definition daemon_layout : kt_mem_layout :=
  mk_mem_layout (37 * 4096) (38 * 4096) (39 * 4096) (103 * 4096).

Lemma pow2_128 : pow2_size 128.
Proof. exists 7. lia. Qed.

Lemma create_ring words a b nm base :
  bump a b -> page_size a = 4096 -> page_count a = 255 -> PageAlloc.data a = base -> b + 1 <= 255 ->
  exists a', kt_ringbuf_create words a nm ring_elem_count 1 =
      Ret (a', Some (fresh_ring (base + b * 4096) nm 128 1 (words (base + b * 4096)))) /\
    bump a' (b + 1) /\ page_size a' = 4096 /\ page_count a' = 255 /\ PageAlloc.data a' = base.
Proof.
  intros Hb Eps Epc Ed Hfit. unfold kt_ringbuf_create, ring_elem_count.
  destruct (region_alloc a b 256 1 base) as (a' & E & H); try done.
  exists a'. change (u32 (sizeof_kt_ringbuf + u32 (128 * 1))) with 256. rewrite E. done.
Qed.

Lemma u64_offset addr k : 0 <= addr < 2 ^ 62 -> 0 <= k < 2 ^ 62 -> u64 (addr + k - addr) = k.
Proof. intros. replace (addr + k - addr) with k by lia. apply u64_id. lia. Qed.

(** The state before the first iteration. *)
Lemma start_wf words mbufs metas blk tr fr p1 p2 :
  readable words mbufs metas -> zlen blk = 127 ->
  ring_wf tr -> contents tr = [] -> capacity tr = 127 ->
  ring_wf fr -> contents fr = seqZ 0 127 -> capacity fr = 127 ->
  daemon_wf (mk_daemon (mk_shared tr fr (mbufs p1 127) (metas p2 127))
               (kt_prio_queue_init (Some blk) 127) 0 []) 127 [].
Proof.
  intros R Hblk Wt Ct Kt Wf Cf Kf.
  split; cbn [shared prio_queue tx_ring free_ring metadata_pool]; try done.
  - split; cbn [tx_ring free_ring mbuf_pool metadata_pool]; try done; try (apply R; lia).
    + rewrite Ct, Cf, app_nil_r. apply Forall_forall. intros i Hi%elem_of_seqZ. lia.
    + rewrite Ct, Cf, app_nil_r. apply NoDup_seqZ.
  - unfold pq_wf, kt_prio_queue_init. cbn [elems cap PrioQueue.size default]. cbn. rewrite Hblk. lia.
  - rewrite Ct, Cf. done.
  - intros n Hn. by apply not_elem_of_nil in Hn.
  - rewrite Ct. intros i Hi. by apply not_elem_of_nil in Hi.
Qed.

Lemma setup_region_spec words mbufs metas blk addr :
  0 <= addr < 2 ^ 62 -> addr mod 4096 = 0 -> readable words mbufs metas -> zlen blk = 127 ->
  exists d, setup_region words mbufs metas true (Some blk) addr (1024 * 1024) 4096
      = Ret (d, daemon_layout) /\
    daemon_wf d 127 [] /\ contents (free_ring (shared d)) = seqZ 0 127 /\
    contents (tx_ring (shared d)) = [] /\ PrioQueue.size (prio_queue d) = 0 /\ counter d = 0 /\
    RingBuf.size (tx_ring (shared d)) = 128 /\ zlen (ring (tx_ring (shared d))) = 496.
Proof.
  intros Ha Hal R Hblk. unfold setup_region, kt_page_allocator_make. cbn [guard_ub].
  destruct (init_1MiB addr Ha Hal) as (a & E & Hb & E1 & E2 & _ & _ & E5). rewrite E. cbn [bind].
  destruct (create_ring words a 0 "RB_tx" (addr + 37 * 4096)) as (a1 & C1 & B1 & F1 & F2 & F3); try done.
  rewrite C1. cbn [bind].
  destruct (create_ring words a1 1 "RB_free" (addr + 37 * 4096)) as (a2 & C2 & B2 & G1 & G2 & G3); try done.
  rewrite C2. cbn [bind].
  assert (Hw : forall p, 128 <= zlen (words p) < 2 ^ 31) by (intros p; rewrite (rd_words _ _ _ R); lia).
  assert (Hfresh : forall p nm, let rb := fresh_ring p nm 128 1 (words p) in
    ring_wf rb /\ contents rb = [] /\ capacity rb = 127).
  { intros p nm. apply (fresh_ring_wf p nm 128 1 (words p) pow2_128 (Hw p)). }
  destruct (Hfresh (addr + 37 * 4096 + 0 * 4096) "RB_tx") as (Wt & Ct & Kt).
  destruct (Hfresh (addr + 37 * 4096 + 1 * 4096) "RB_free") as (Wf & Cf & Kf).
  set (tr := fresh_ring _ "RB_tx" _ _ _) in *. set (fr := fresh_ring _ "RB_free" _ _ _) in *.
  unfold fill_free_ring, kt_ringbuf_get_capacity. rewrite Kf.
  destruct (enqueue_each_spec (seqZ 0 127) fr Wf) as (fr' & Ef & Wf' & Sf & Cf').
  { rewrite <- zlen_contents, Cf, Kf. unfold zlen. rewrite length_seqZ. cbn. lia. }
  rewrite Ef. cbn [bind]. rewrite (same_ring_capacity _ _ Sf), Kf.
  change (u64 (kt_mbuf_size * 127)) with 260096.
  change (u64 (sizeof_kt_metadata * 127)) with 6096.
  destruct (region_alloc a2 2 260096 64 (addr + 37 * 4096)) as (a3 & D3 & B3 & H1 & H2 & H3); try done.
  rewrite D3. cbn [bind].
  destruct (region_alloc a3 66 6096 2 (addr + 37 * 4096)) as (a4 & D4 & _); try done.
  rewrite D4. cbn [bind]. rewrite Cf in Cf'.
  eexists. split; [f_equal; apply f_equal2; [reflexivity|]|split; [|split_and!; try done; apply R]].
  2:{ apply (start_wf words); try done. by rewrite (same_ring_capacity _ _ Sf). }
  destruct Sf as (-> & _). unfold tr, fr, daemon_layout. cbn [RingBuf.addr fresh_ring].
  f_equal; rewrite <- ?Z.add_assoc; apply u64_offset; lia.
Qed.

(** The system grants a shared memory at address [a]. *)
Definition granted_at (ans : shm_answers) (a : Z) : Prop :=
  Memory.malloc_ok ans = true /\ shm_open_ret ans <> -1 /\ ftruncate_ret ans = 0 /\
  mmap_ret ans = Some a.

Lemma alloc_granted ans a nm sz oflags omode :
  granted_at ans a ->
  exists t, _kt_memory_alloc ans nm sz oflags omode =
    (t, Some (mk_memory (memory_name nm) (shm_open_ret ans) a (u32 sz) 0)).
Proof.
  intros (Hm & Hs & Hf & Ha). unfold _kt_memory_alloc. rewrite Hm, Hf, Ha. cbn [negb].
  rewrite (proj2 (Z.eqb_neq _ _) Hs). by eexists.
Qed.

Lemma start_spec words mbufs metas ans_data ans_ctrl addr ctrl blk :
  granted_at ans_data addr -> granted_at ans_ctrl ctrl ->
  0 <= addr < 2 ^ 62 -> addr mod 4096 = 0 -> readable words mbufs metas -> zlen blk = 127 ->
  exists t m mc d, ktsnd_start words mbufs metas ans_data ans_ctrl 4096 true (Some blk) =
      (t, Ret (Some (m, mc, d, daemon_layout))) /\
    daemon_wf d 127 [] /\ contents (free_ring (shared d)) = seqZ 0 127 /\
    contents (tx_ring (shared d)) = [] /\ PrioQueue.size (prio_queue d) = 0 /\ counter d = 0 /\
    (RingBuf.size (tx_ring (shared d)) = 128 /\ zlen (ring (tx_ring (shared d))) = 496) /\
    exists t1 t2, t = t1 ++ t2 /\
      kt_memory_create ans_data KT_DEFAULT_SHARED_DATA_MEMORY_NAME KT_DEFAULT_MEMORY_SIZE = (t1, Some m) /\
      kt_memory_create ans_ctrl KT_DEFAULT_SHARED_CTRL_MEMORY_NAME 4096 = (t2, Some mc).
Proof.
  intros Hd Hc Ha Hal R Hb.
  destruct (alloc_granted ans_data addr KT_DEFAULT_SHARED_DATA_MEMORY_NAME KT_DEFAULT_MEMORY_SIZE
    (Z.lor (Z.lor O_CREAT O_EXCL) O_RDWR) S_IRUSR Hd) as (t1 & E1).
  destruct (alloc_granted ans_ctrl ctrl KT_DEFAULT_SHARED_CTRL_MEMORY_NAME 4096
    (Z.lor (Z.lor O_CREAT O_EXCL) O_RDWR) S_IRUSR Hc) as (t2 & E2).
  destruct (setup_region_spec words mbufs metas blk addr Ha Hal R Hb) as (d & E & W & Cf & Ct & Sz & Ec & Es & El).
  unfold ktsnd_start, kt_memory_create. rewrite E1, E2.
  change (Memory.addr (mk_memory _ _ addr _ _)) with addr.
  change (Memory.size (mk_memory _ _ addr (u32 KT_DEFAULT_MEMORY_SIZE) _)) with (1024 * 1024).
  rewrite E. cbn [bind]. eexists _, _, _, d. split; [reflexivity|]. split_and!; try done.
  exists t1, t2. done.
Qed.

(** C20: with the shared memories granted, the daemon starts: the four objects lie at
    fixed offsets inside the region, one after the other and without overlap, the
    free ring holds the 127 buffer indices, the transmission ring and the
    priority queue are empty, and every buffer is accounted for. *)
Theorem ktsnd_start_correct words mbufs metas ans_data ans_ctrl addr ctrl blk :
  granted_at ans_data addr -> granted_at ans_ctrl ctrl ->
  0 <= addr < 2 ^ 62 -> addr mod 4096 = 0 -> readable words mbufs metas -> zlen blk = 127 ->
  exists t m mc d, ktsnd_start words mbufs metas ans_data ans_ctrl 4096 true (Some blk) =
      (t, Ret (Some (m, mc, d, daemon_layout))) /\
    daemon_wf d 127 [] /\ contents (free_ring (shared d)) = seqZ 0 127 /\
    contents (tx_ring (shared d)) = [] /\ PrioQueue.size (prio_queue d) = 0 /\
    tx_ring_offset daemon_layout + sizeof_kt_ringbuf + 8 * ring_elem_count
      <= free_ring_offset daemon_layout /\
    free_ring_offset daemon_layout + sizeof_kt_ringbuf + 8 * ring_elem_count
      <= mbuf_pool_offset daemon_layout /\
    mbuf_pool_offset daemon_layout + kt_mbuf_size * 127 <= metadata_pool_offset daemon_layout /\
    metadata_pool_offset daemon_layout + sizeof_kt_metadata * 127 <= KT_DEFAULT_MEMORY_SIZE.
Proof.
  intros Hd Hc Ha Hal R Hb.
  destruct (start_spec words mbufs metas ans_data ans_ctrl addr ctrl blk)
    as (t & m & mc & d & E & W & Cf & Ct & Sz & _); try done.
  exists t, m, mc, d. split_and!; done.
Qed.

(** The library of an application that attaches at any address finds the objects
    of the daemon: each pointer it computes is at the same distance from the
    start of the region as in the daemon. *)
Theorem library_finds_objects ans_data ans_ctrl base ctrl layout_at :
  granted_at ans_data base -> granted_at ans_ctrl ctrl -> layout_at ctrl = daemon_layout ->
  exists t p, attach_shared ans_data ans_ctrl layout_at = (t, Some p) /\
    g_tx_ring p - base = 37 * 4096 /\ g_free_ring p - base = 38 * 4096 /\
    g_mbuf_pool p - base = 39 * 4096 /\ g_metadata_pool p - base = 103 * 4096.
Proof.
  intros Hd Hc Hl.
  destruct (alloc_granted ans_data base KT_DEFAULT_SHARED_DATA_MEMORY_NAME KT_DEFAULT_MEMORY_SIZE
    O_RDWR 0 Hd) as (t1 & E1).
  destruct (alloc_granted ans_ctrl ctrl KT_DEFAULT_SHARED_CTRL_MEMORY_NAME KT_DEFAULT_MEMORY_SIZE
    O_RDWR 0 Hc) as (t2 & E2).
  unfold attach_shared, kt_memory_attach. rewrite E1, E2. eexists _, _. split; [reflexivity|].
  cbn [Memory.addr g_tx_ring g_free_ring g_mbuf_pool g_metadata_pool]. rewrite Hl.
  cbn [daemon_layout tx_ring_offset free_ring_offset mbuf_pool_offset metadata_pool_offset]. lia.
Qed.

(** ** Witnesses *)

Definition demo_answers (a : Z) : shm_answers := mk_answers true 3 0 (Some a).

Lemma demo_granted a : granted_at (demo_answers a) a.
Proof. done. Qed.

Definition zero_mbufs (p n : Z) : list (list Z) := replicate (Z.to_nat n) (replicate 2048 0).
Definition zero_metas (p n : Z) : list kt_metadata := replicate (Z.to_nat n) inhabitant.

Lemma zero_readable : readable (fun _ => replicate 496 0) zero_mbufs zero_metas.
Proof.
  split; unfold zero_mbufs, zero_metas; intros p.
  - done.
  - intros n Hn. rewrite zlen_replicate. lia.
  - intros n i Hi. unfold zget. rewrite lookup_total_replicate_2 by lia. done.
  - intros n Hn. rewrite zlen_replicate. lia.
  - intros n i Hi. unfold zget. rewrite lookup_total_replicate_2 by lia. done.
Qed.

Lemma ktsnd_start_correct_witness :
  exists t m mc d, ktsnd_start (fun _ => replicate 496 0) zero_mbufs zero_metas
      (demo_answers 1048576) (demo_answers 8192) 4096 true (Some (replicate 127 inhabitant)) =
      (t, Ret (Some (m, mc, d, daemon_layout))) /\ daemon_wf d 127 [].
Proof.
  destruct (ktsnd_start_correct (fun _ => replicate 496 0) zero_mbufs zero_metas
    (demo_answers 1048576) (demo_answers 8192) 1048576 8192 (replicate 127 inhabitant)
    (demo_granted _) (demo_granted _)) as (t & m & mc & d & E & W & _);
    [lia|reflexivity|exact zero_readable|reflexivity|].
  exists t, m, mc, d. split; [exact E|exact W].
Defined.

Lemma library_finds_objects_witness :
  exists t p, attach_shared (demo_answers 4096) (demo_answers 8192) (fun _ => daemon_layout) = (t, Some p) /\
    g_tx_ring p - 4096 = 37 * 4096 /\ g_free_ring p - 4096 = 38 * 4096 /\
    g_mbuf_pool p - 4096 = 39 * 4096 /\ g_metadata_pool p - 4096 = 103 * 4096.
Proof.
  apply (library_finds_objects (demo_answers 4096) (demo_answers 8192) 4096 8192); done.
Defined.
