(* ===== verification/LibStart.v ===== *)
(** * Starting a program under the library (src/libktsn.c, [__libc_start_main])

    The preloaded library replaces the entry of the C library: it looks up the
    functions it intercepts, attaches to the daemon's memory, reads the interfaces
    and then starts the program.  The dynamic linker, the system and the program
    itself are arguments. *)

From S2P Require Import Prelude Memory RingBuf Libktsn Init.

(** The names looked up, in order; the first one is the entry itself. *)
Definition intercepted : list string :=
  ["__libc_start_main"; "send"; "sendto"; "sendmsg"; "recvfrom"; "bind"; "poll"; "ppoll"; "__poll_chk";
   "select"; "fcntl"; "setsockopt"; "getsockopt"; "read"; "write"; "connect"; "socket"; "close";
   "getpeername"; "getsockname"]%string.

(** The program is not started and a value is returned, or it is started, with
    the table of functions, the pointers and the globals it finds, and its value. *)
Inductive start_outcome :=
  | NotStarted (ret : Z)
  | Started (defaults : list (string * Z)) (p : lib_pointers) (g : kt_lib) (ret : Z).

Section Start.
Context (dlsym : string -> Z).
Context (ans_data ans_ctrl : shm_answers) (layout_at : Z -> kt_mem_layout).
(** The objects found behind the pointers, and the program's own run. *)
Context (shared_at : lib_pointers -> kt_shared) (start_main : kt_lib -> Z).
Context (default_socket : Z -> Z -> Z -> Z) (default_close : Z -> Z).
Context (if_nametoindex : string -> Z) (getnameinfo : sockaddr_in -> Z).
Context (ioctl_hwaddr : Z -> string -> option (list Z)).

Definition libc_start_main (malloc_ok : bool) (ifs : option (list ifaddrs))
    : list syscall * res start_outcome :=
  let defaults := (fun n => (n, dlsym n)) <$> intercepted in
  match attach_shared ans_data ans_ctrl layout_at with
  | (t, None) => (t, Ret (NotStarted (-1)))
  | (t, Some p) =>
      let g := mk_lib [] [] (shared_at p) in
      (t, g <- query_interfaces default_socket default_close if_nametoindex getnameinfo ioctl_hwaddr
                 malloc_ok g ifs;;
          guard_ub (negb (dlsym "__libc_start_main" =? 0)) (Ret (Started defaults p g (start_main g))))
  end.

(** Attaching succeeds exactly when both objects are mapped. *)
Lemma attach_shared_cases :
  match (kt_memory_attach ans_data KT_DEFAULT_SHARED_DATA_MEMORY_NAME KT_DEFAULT_MEMORY_SIZE).2,
        (kt_memory_attach ans_ctrl KT_DEFAULT_SHARED_CTRL_MEMORY_NAME KT_DEFAULT_MEMORY_SIZE).2 with
  | Some _, Some _ => exists t p, attach_shared ans_data ans_ctrl layout_at = (t, Some p)
  | _, _ => exists t, attach_shared ans_data ans_ctrl layout_at = (t, None)
  end.
Proof.
  unfold attach_shared. destruct (kt_memory_attach ans_data _ _) as [t1 [m|]]; cbn [snd]; [|eauto].
  destruct (kt_memory_attach ans_ctrl _ _) as [t2 [mc|]]; cbn [snd]; eauto.
Qed.

(** C25: every outcome of starting a program under the library.  Without the
    daemon's memory (either object) the program is not started and -1 is returned.
    With both: when the system gives no list of interfaces the process ends with a
    failure.  Without an IPv4 interface the program runs with empty tables, the daemon's
    objects, and a table of all intercepted functions (if the linker finds the
    original entry; else a null function is called).  With an IPv4 interface the
    program never starts: either the behaviour is undefined or the process ends with a
    failure.  It is undefined when the interfaces' addresses resolve and the
    system gives a socket, because [query_and_add_mac_address] uses the result of
    the library's own [socket], which returns none; it is the failure when the system
    gives no socket, memory and netmasks being there. *)
Theorem libc_start_main_outcomes mok ifs :
  let run := (libc_start_main mok ifs).2 in
  let attached nm ans := is_Some (kt_memory_attach ans nm KT_DEFAULT_MEMORY_SIZE).2 in
  let ready := attached KT_DEFAULT_SHARED_DATA_MEMORY_NAME ans_data /\
               attached KT_DEFAULT_SHARED_CTRL_MEMORY_NAME ans_ctrl in
  (~ ready -> run = Ret (NotStarted (-1))) /\
  (ready ->
   match ifs with
   | None => run = Abort
   | Some l =>
       (Forall (fun ifa => ~ is_ipv4 ifa) l ->
        exists t p defaults, attach_shared ans_data ans_ctrl layout_at = (t, Some p) /\
          run = (if dlsym "__libc_start_main" =? 0 then UB
                 else Ret (Started defaults p (mk_lib [] [] (shared_at p)) (start_main (mk_lib [] [] (shared_at p))))) /\
          forall n, In n ["socket"; "setsockopt"; "sendmsg"; "close"]%string -> In (n, dlsym n) defaults) /\
       (Exists is_ipv4 l ->
        (run = UB \/ run = Abort) /\
        (Forall (resolves getnameinfo) l -> 0 <= default_socket AF_INET SOCK_DGRAM 0 -> run = UB) /\
        (mok = true -> Forall has_netmask l -> default_socket AF_INET SOCK_DGRAM 0 < 0 -> run = Abort))
   end).
Proof.
  intros run attached ready. pose proof attach_shared_cases as C. unfold run, libc_start_main.
  split.
  - intros Hn. destruct (kt_memory_attach ans_data _ _).2 as [m|] eqn:E1; [|by destruct C as (t & ->)].
    destruct (kt_memory_attach ans_ctrl _ _).2 as [mc|] eqn:E2; [|by destruct C as (t & ->)].
    exfalso. apply Hn. unfold ready, attached. by rewrite E1, E2.
  - intros [[m E1] [mc E2]]. rewrite E1, E2 in C. destruct C as (t & p & E). rewrite E. cbn [snd].
    pose proof (query_interfaces_outcome default_socket default_close if_nametoindex getnameinfo ioctl_hwaddr mok
      (mk_lib [] [] (shared_at p)) ifs eq_refl) as Q.
    destruct ifs as [l|]; [|by rewrite Q]. destruct Q as [Q1 Q2]. split.
    + intros Hl. eexists t, p, _. split; [done|]. rewrite (Q1 Hl). cbn [bind]. unfold guard_ub.
      split; [by destruct (dlsym "__libc_start_main" =? 0)|].
      intros n Hn. apply in_map_iff. exists n. split; [done|]. cbn in Hn. cbn. tauto.
    + intros Hx. destruct (Q2 Hx) as (Q & QU & QA). split_and!.
      * destruct Q as [-> | ->]; auto.
      * intros Hr Hs. by rewrite (QU Hr Hs).
      * intros Hm Hn Hs. by rewrite (QA Hm Hn Hs).
Qed.
End Start.

(** ** Witness *)

(** A host with an InfiniBand interface only, and one with an Ethernet interface. *)
Lemma libc_start_main_outcomes_witness :
  let start ifs := (libc_start_main (fun _ => 1) (demo_answers 4096) (demo_answers 8192) (fun _ => daemon_layout)
      (fun _ => demo_shared) (fun _ => 7) (fun _ _ _ => 5) (fun _ => 0) (fun _ => 1) (fun _ => 0)
      (fun _ _ => None) true (Some ifs)).2 in
  (exists t p defaults,
    attach_shared (demo_answers 4096) (demo_answers 8192) (fun _ => daemon_layout) = (t, Some p) /\
    start [mk_ifaddrs "ib0" None None] = Ret (Started defaults p (mk_lib [] [] demo_shared) 7) /\
    forall n, In n ["socket"; "setsockopt"; "sendmsg"; "close"]%string -> In (n, 1) defaults) /\
  start [mk_ifaddrs "eth0" (Some (AF_INET, ifaddr demo_interface)) (Some (netmask demo_interface))] = UB.
Proof.
  intros start. split.
  - refine (proj1 (proj2 (libc_start_main_outcomes (fun _ => 1) (demo_answers 4096) (demo_answers 8192)
      (fun _ => daemon_layout) (fun _ => demo_shared) (fun _ => 7) (fun _ _ _ => 5) (fun _ => 0) (fun _ => 1)
      (fun _ => 0) (fun _ _ => None) true (Some [mk_ifaddrs "ib0" None None])) _) _).
    + split; eexists; reflexivity.
    + constructor; [|constructor]. intros [a Ha]. discriminate.
  - refine (proj1 (proj2 (proj2 (proj2 (libc_start_main_outcomes (fun _ => 1) (demo_answers 4096) (demo_answers 8192)
      (fun _ => daemon_layout) (fun _ => demo_shared) (fun _ => 7) (fun _ _ _ => 5) (fun _ => 0) (fun _ => 1)
      (fun _ => 0) (fun _ _ => None) true (Some [mk_ifaddrs "eth0" _ _])) _) _)) _ _).
    + split; eexists; reflexivity.
    + left. by eexists.
    + constructor; [|constructor]. done.
    + done.
Defined.
