(* ===== verification/System.v ===== *)
(** * Applications and daemon together

    Any number of applications call [sendmsg] of the library while the daemon
    iterates; they interact through the shared memory only.  A step of the system
    is one call or one iteration.  The invariant is that every buffer is in
    exactly one place. *)

From S2P Require Import Prelude Memory RingBuf PrioQueue Libktsn Packet Daemon.

Definition with_shared (d : kt_daemon) (sh : kt_shared) : kt_daemon :=
  mk_daemon sh (prio_queue d) (counter d) (wire d).

(** A message the daemon can put into a frame: its time is within the range of
    the signed clock and the payload leaves room for the headers. *)
Definition sendable (msg : msghdr) : Prop :=
  (forall tx, find_txtime msg = Some tx -> 0 <= tx <= INT64_MAX) /\
  (forall iov iovs, msg_iov msg = iov :: iovs -> zlen iov <= kt_mbuf_size - 42).

(** ** Sending keeps the accounts *)

Lemma send_daemon_wf d N lost sh' tx iov :
  daemon_wf d N lost -> moved (shared d) sh' N tx iov -> shared_wf sh' N ->
  0 <= tx <= INT64_MAX -> zlen iov <= kt_mbuf_size - 42 ->
  daemon_wf (with_shared d sh') N lost.
Proof.
  intros W (i & q & rt & rf & m & Hm & Hsz & Htx & Hf & Hq & Ht & Hi & Hiov & ->) W' Hr Hfit.
  pose proof (dw_shared _ _ _ W) as Wsh. pose proof (indices_nodup _ _ _ W) as Hnd.
  rewrite Hf in Hnd. cbn [app] in Hnd. apply NoDup_cons in Hnd as [Hni _].
  rewrite !elem_of_app in Hni.
  assert (Hmeta : forall j, j ∈ contents (tx_ring (shared d)) ++ queued (prio_queue d) ->
    zget (zupd (metadata_pool (shared d)) i m) j = zget (metadata_pool (shared d)) j).
  { intros j Hj. assert (0 <= j < N).
    { apply (indices_ok d N lost j W). rewrite !elem_of_app. rewrite elem_of_app in Hj. tauto. }
    rewrite zget_zupd_ne; [done|rewrite (sw_metas _ _ Wsh); lia|lia|].
    intros <-. rewrite elem_of_app in Hj. tauto. }
  split; cbn [with_shared shared prio_queue transmitted tx_ring free_ring metadata_pool]; try apply W.
  - exact W'.
  - rewrite <- (dw_perm _ _ _ W), Hf, Hq, Ht. solve_Permutation.
  - intros n Hn. rewrite (dw_prio _ _ _ W n Hn) at 1. unfold node_of. rewrite Hmeta; [done|].
    apply elem_of_app. right. apply list_elem_of_fmap. eauto.
  - intros j Hj. rewrite Ht, !elem_of_app in Hj. destruct Hj as [[Hj|Hj]|Hj].
    + rewrite Hmeta by (apply elem_of_app; auto). apply (dw_pkts _ _ _ W), elem_of_app. auto.
    + apply list_elem_of_singleton in Hj as ->.
      rewrite zget_zupd_eq by (rewrite (sw_metas _ _ Wsh); lia).
      unfold packet_ok, kt_mbuf_size in *. rewrite Hsz, Htx. split_and!; try done; try lia.
    + rewrite Hmeta by (apply elem_of_app; auto). apply (dw_pkts _ _ _ W), elem_of_app. auto.
Qed.

Lemma with_shared_id d : with_shared d (shared d) = d.
Proof. by destruct d. Qed.

(** A timed message to a destination the library knows: an IPv4 socket and an
    address in the network of one of the interfaces, or a packet socket and the
    index of one of them. *)
Definition known_destination (g : kt_lib) (fd : Z) (msg : msghdr) : Prop :=
  exists tx bs, find_txtime msg = Some tx /\ msg_name msg = Some bs /\
    (timed_socket g fd AF_INET /\
       (exists addr interface, as_sockaddr_in bs = Ret addr /\
          kt_interface_get_by_net g (Some addr) = Some interface) \/
     timed_socket g fd PF_PACKET /\
       (exists idx interface, sll_ifindex bs = Ret idx /\ kt_interface_find g idx = Some interface)).

(** ** Steps and runs *)

Section Steps.
Context (rte_ipv4_cksum : list Z -> Z).
Context (default_sendmsg : Z -> msghdr -> Z -> Z).

(** One step: a call of an application with any tables of its own and a message
    that can be put into a frame, or an iteration of the daemon whose burst does
    not cross the end of the ring and that gets a buffer from DPDK, labelled with
    how it ended. *)
Inductive sys_step : kt_daemon -> option event -> kt_daemon -> Prop :=
  | step_send d g fd msg flags g' v :
      g_shared g = shared d -> macs_ok g -> sendable msg ->
      sendmsg default_sendmsg g fd msg flags = Ret (g', v) ->
      sys_step d None (with_shared d (g_shared g'))
  | step_daemon d table now tb d' ev :
      zlen table = 64 -> burst_fits d -> 0 <= now <= INT64_MAX -> 0 <= counter d < INT64_MAX ->
      zlen (Packet.data tb) = 2048 ->
      loop_body rte_ipv4_cksum d table now (Some tb) = Ret (d', ev) ->
      sys_step d (Some ev) d'.

Inductive sys_run : kt_daemon -> list (option event) -> kt_daemon -> Prop :=
  | run_nil d : sys_run d [] d
  | run_cons d l d1 tr d' : sys_step d l d1 -> sys_run d1 tr d' -> sys_run d (l :: tr) d'.

(** How many packets of a run were dropped because they were late. *)
Definition is_late (l : option event) : Z := match l with Some (Late _) => 1 | _ => 0 end.
Definition late_count (tr : list (option event)) : Z := foldr (fun l n => is_late l + n) 0 tr.

Lemma step_wf d l d' N lost :
  sys_step d l d' -> daemon_wf d N lost ->
  exists lost', daemon_wf d' N lost' /\ zlen lost' = zlen lost + is_late l.
Proof.
  intros Hs W. destruct Hs as [d g fd msg flags g' v Hg Hm [Htx Hsz] E
                              |d table now tb d' ev Ht Hfit Hnow Hcnt Hroom E].
  - exists lost. cbn [is_late]. split; [|lia].
    destruct (sendmsg_outcome default_sendmsg g fd msg flags N g' v) as (W' & _ & _ & [->|H]); try done.
    { rewrite Hg. eauto with kt. }
    { by rewrite Hg, with_shared_id. }
    destruct H as (iov & iovs & tx & Hv & _ & Htx' & Hmv). rewrite Hg in Hmv.
    apply (send_daemon_wf d N lost _ tx iov); try done; [by apply Htx|by eapply Hsz].
  - destruct (loop_body_spec rte_ipv4_cksum d N lost table now tb) as (d1 & ev1 & lost' & E1 & W1 & I); try done.
    rewrite E in E1. injection E1 as <- <-. exists lost'. split; [done|].
    destruct I as (_ & _ & I). destruct ev; cbn [is_late].
    + destruct I as [-> _]. lia.
    + destruct I as (i & _ & -> & _). lia.
    + destruct I as (i & _ & -> & _). rewrite zlen_cons. lia.
    + destruct I as (_ & -> & _). lia.
Qed.

Lemma run_wf d tr d' : sys_run d tr d' -> forall N lost, daemon_wf d N lost ->
  exists lost', daemon_wf d' N lost' /\ zlen lost' = zlen lost + late_count tr.
Proof.
  induction 1 as [d|d l d1 tr d' Hs _ IH]; intros N lost W.
  - exists lost. cbn. split; [done|lia].
  - destruct (step_wf _ _ _ N lost Hs W) as (lost1 & W1 & L1).
    destruct (IH N lost1 W1) as (lost' & W' & L'). exists lost'. split; [done|].
    unfold late_count in *. cbn [foldr]. lia.
Qed.

(** C4: however the steps of applications and daemon interleave, every buffer stays in
    exactly one place, as long as messages fit a frame and no burst crosses the
    end of the ring.  No index is ever in two of the rings and
    the queue, and none is dropped by a full ring or queue: the buffers that
    remain are all but the ones whose packets were late. *)
Theorem buffers_conserved d0 N tr d :
  daemon_wf d0 N [] -> sys_run d0 tr d ->
  NoDup (contents (free_ring (shared d)) ++ contents (tx_ring (shared d)) ++ queued (prio_queue d)) /\
  zlen (contents (free_ring (shared d))) + zlen (contents (tx_ring (shared d))) +
    PrioQueue.size (prio_queue d) = N - late_count tr /\
  exists lost, daemon_wf d N lost.
Proof.
  intros W0 Hr. destruct (run_wf d0 tr d Hr N [] W0) as (lost & W & L). rewrite zlen_nil in L.
  split_and!; [|pose proof (buffers_account d N lost W); lia|by exists lost].
  pose proof (indices_nodup d N lost W) as Hnd. rewrite !app_assoc in Hnd.
  apply NoDup_app in Hnd as [Hnd _]. by rewrite <- app_assoc in Hnd.
Qed.

(** C31: late packets use the system up.  In a run whose bursts stay inside the ring and
    whose messages fit a frame, once as many packets were late as there are
    buffers, every timed message to a known destination fails with [ENOBUFS], on an IPv4 socket
    as on a packet socket, whatever the application and however much later; and no call of
    [sendmsg] at all puts a message into the shared memory any more. *)
Theorem late_packets_exhaust d0 N tr d g fd msg flags :
  daemon_wf d0 N [] -> sys_run d0 tr d -> late_count tr = N -> g_shared g = shared d -> macs_ok g ->
  (known_destination g fd msg -> sendmsg default_sendmsg g fd msg flags = Ret (g, Some (- ENOBUFS))) /\
  (forall g' v, sendmsg default_sendmsg g fd msg flags = Ret (g', v) -> g' = g).
Proof.
  intros W0 Hr Hl Hg Hm.
  destruct (run_wf d0 tr d Hr N [] W0) as (lost & W & L). rewrite zlen_nil in L.
  assert (Wsh : shared_wf (g_shared g) N) by (rewrite Hg; eauto with kt).
  assert (Hf : contents (free_ring (g_shared g)) = []).
  { rewrite Hg. apply length_zero_iff_nil. pose proof (buffers_account d N lost W).
    pose proof (zlen_nonneg (contents (tx_ring (shared d)))). pose proof (dw_pq _ _ _ W) as (Hq & _).
    unfold zlen in *. lia. }
  split.
  - intros (tx & bs & Htx & Hn & [(Hs & addr & interface & Ha & Hi)|(Hs & idx & interface & Ha & Hi)]).
    + rewrite (proj1 (sendmsg_dispatch _ _ _ _ _ flags _ Hs Htx) eq_refl).
      rewrite (sendmsg_inet_transmit _ _ _ _ _ _ bs addr interface) by done.
      rewrite (transmit_empty _ N) by done. by destruct g.
    + rewrite (proj2 (sendmsg_dispatch _ _ _ _ _ flags _ Hs Htx) eq_refl).
      rewrite (sendmsg_packet_transmit _ _ _ _ _ _ bs idx interface) by done.
      rewrite (transmit_empty _ N) by done. by destruct g.
  - intros g' v E.
    destruct (sendmsg_outcome default_sendmsg g fd msg flags N g' v) as (_ & _ & _ & [->|Ho]); try done.
    destruct Ho as (iov & iovs & tx & _ & _ & _ & i & q & rt & rf & m & _ & _ & _ & Hf' & _).
    rewrite Hf in Hf'. discriminate Hf'.
Qed.
End Steps.

(** ** Witnesses *)

Definition start_daemon : kt_daemon :=
  mk_daemon demo_shared (mk_prio_queue (replicate 3 inhabitant) 3 0) 0 [].

Lemma start_daemon_wf : daemon_wf start_daemon 3 [].
Proof.
  split; try reflexivity.
  - apply demo_shared_wf.
  - unfold pq_wf. zcompute.
  - intros n Hn. by apply not_elem_of_nil in Hn.
  - intros i Hi. by apply not_elem_of_nil in Hi.
Qed.

Lemma demo_sendable : sendable (demo_msg demo_name [7; 8; 9]).
Proof.
  split.
  - intros tx [= <-]. zcompute.
  - intros iov iovs [= <- <-]. zcompute.
Qed.

Lemma buffers_conserved_witness :
  zlen (contents (free_ring (g_shared demo_sent))) + zlen (contents (tx_ring (g_shared demo_sent))) = 3.
Proof.
  destruct (buffers_conserved demo_cksum (fun _ _ _ => -1) start_daemon 3 [None]
    (with_shared start_daemon (g_shared demo_sent)) start_daemon_wf) as (_ & H & _).
  - eapply run_cons; [|apply run_nil].
    eapply (step_send _ _ start_daemon demo_lib 5 (demo_msg demo_name [7; 8; 9]) 0 demo_sent (Some 3));
      [reflexivity|apply demo_macs_ok|apply demo_sendable|vm_compute; reflexivity].
  - rewrite Z.add_0_r in H. exact H.
Defined.

(** A system with a single buffer. *)
Definition tiny_shared : kt_shared :=
  mk_shared (mk_ringbuf 0 "RB_tx" 2 8 1 1 (mk_headtail 0 0) (mk_headtail 0 0) [0; 0])
    (mk_ringbuf 0 "RB_free" 2 8 1 1 (mk_headtail 1 1) (mk_headtail 0 0) [0; 0])
    [replicate 2048 0] [inhabitant].
Definition tiny_lib (sh : kt_shared) : kt_lib :=
  mk_lib [mk_socket 5 3 1 (Some AF_INET); mk_socket 6 3 1 (Some PF_PACKET)] [demo_interface] sh.
Definition tiny_daemon : kt_daemon := mk_daemon tiny_shared (mk_prio_queue [inhabitant] 1 0) 0 [].

Lemma tiny_daemon_wf : daemon_wf tiny_daemon 1 [].
Proof.
  split; try reflexivity.
  - split; try reflexivity; try (unfold ring_wf, pow2_size; split; [exists 1; cbn; lia|zcompute]).
    + intros i Hi. by replace i with 0 by lia.
    + intros i Hi. by replace i with 0 by lia.
    + apply (bool_decide_unpack _). vm_compute. done.
    + apply (bool_decide_unpack _). vm_compute. done.
  - unfold pq_wf. zcompute.
  - intros n Hn. by apply not_elem_of_nil in Hn.
  - intros i Hi. by apply not_elem_of_nil in Hi.
Qed.

Definition tiny_sent : kt_lib :=
  match sendmsg (fun _ _ _ => -1) (tiny_lib tiny_shared) 5 (demo_msg demo_name [7; 8; 9]) 0 with
  | Ret (g, _) => g
  | _ => tiny_lib tiny_shared
  end.
Definition tiny_late : kt_daemon :=
  match loop_body demo_cksum (with_shared tiny_daemon (g_shared tiny_sent)) (replicate 64 0) 5000
          (Some demo_mbuf) with
  | Ret (d, _) => d
  | _ => tiny_daemon
  end.

Lemma tiny_run : sys_run demo_cksum (fun _ _ _ => -1) tiny_daemon [None; Some (Late (-4000))] tiny_late.
Proof.
  eapply run_cons.
  { eapply (step_send _ _ tiny_daemon (tiny_lib tiny_shared) 5 (demo_msg demo_name [7; 8; 9]) 0
      tiny_sent (Some 3)); [reflexivity|by repeat constructor|apply demo_sendable|vm_compute; reflexivity]. }
  eapply run_cons; [|apply run_nil].
  apply (step_daemon _ _ (with_shared tiny_daemon (g_shared tiny_sent)) (replicate 64 0) 5000 demo_mbuf);
    try (by zcompute).
Qed.

Lemma late_packets_exhaust_witness :
  sendmsg (fun _ _ _ => -1) (tiny_lib (shared tiny_late)) 5 (demo_msg demo_name [1]) 0 =
    Ret (tiny_lib (shared tiny_late), Some (-105)) /\
  sendmsg (fun _ _ _ => -1) (tiny_lib (shared tiny_late)) 6 (demo_msg [17; 0; 0; 0; 2; 0; 0; 0] [1]) 0 =
    Ret (tiny_lib (shared tiny_late), Some (-105)).
Proof.
  split.
  - refine (proj1 (late_packets_exhaust demo_cksum (fun _ _ _ => -1) tiny_daemon 1 _ tiny_late
      (tiny_lib (shared tiny_late)) 5 (demo_msg demo_name [1]) 0 tiny_daemon_wf tiny_run _ _ _) _);
      try reflexivity; [by repeat constructor|].
    exists 1000, demo_name. do 2 (split; [reflexivity|]). left. split; [eexists; by split; [reflexivity|]|].
    exists (mk_sockaddr_in 2 36895 33554442), demo_interface. split; reflexivity.
  - refine (proj1 (late_packets_exhaust demo_cksum (fun _ _ _ => -1) tiny_daemon 1 _ tiny_late
      (tiny_lib (shared tiny_late)) 6 (demo_msg [17; 0; 0; 0; 2; 0; 0; 0] [1]) 0 tiny_daemon_wf tiny_run _ _ _) _);
      try reflexivity; [by repeat constructor|].
    exists 1000, [17; 0; 0; 0; 2; 0; 0; 0]. do 2 (split; [reflexivity|]). right.
    split; [eexists; by split; [reflexivity|]|]. exists 2, demo_interface. split; reflexivity.
Defined.
