(* ===== verification/BurstEnd.v ===== *)
(** * Bursts across the end of the transmission ring (src/ktsnd.c, src/src/kt_ringbuf.c)

    The copy loop of the ring does not go back to slot 0 at the end of the ring,
    it goes on behind it.  The daemon takes bursts of up to 8, so that every time
    round the ring a burst may cross its end.  This file says what an iteration
    does then, and that the daemon gets there in ordinary operation. *)

From S2P Require Import Prelude Memory RingBuf PrioQueue Libktsn Packet Daemon Init System.

(** How many words the next burst takes, and how many slots are left to the end
    of the ring. *)
Definition taken (d : kt_daemon) : Z := Z.min burst_size (RingBuf.used (tx_ring (shared d))).
Definition slots_left (d : kt_daemon) : Z :=
  RingBuf.size (tx_ring (shared d)) - head (cons (tx_ring (shared d))) mod RingBuf.size (tx_ring (shared d)).

(** The packets of the burst in front of the end, those that wait in the first slots
    of the ring, and the words that are read in place of the latter. *)
Definition in_front (d : kt_daemon) : list Z := zslice (contents (tx_ring (shared d))) 0 (slots_left d).
Definition skipped (d : kt_daemon) : list Z :=
  zslice (contents (tx_ring (shared d))) (slots_left d) (taken d - slots_left d).
Definition behind (d : kt_daemon) : list Z :=
  zslice (ring (tx_ring (shared d))) (RingBuf.size (tx_ring (shared d))) (taken d - slots_left d).

Definition crosses (d : kt_daemon) : Prop := slots_left d < taken d.

Lemma crosses_fits d : crosses d <-> ~ burst_fits d.
Proof. unfold crosses, slots_left, taken, burst_fits. lia. Qed.

Lemma crossing_bounds d N lost :
  daemon_wf d N lost -> crosses d ->
  1 <= slots_left d < taken d /\ taken d <= 8 /\ taken d <= zlen (contents (tx_ring (shared d))).
Proof.
  intros W Hx. pose proof (sw_tx _ _ (dw_shared _ _ _ W)) as (Hp & _). pose proof (pow2_size_pos _ Hp).
  rewrite zlen_contents. unfold crosses, slots_left, taken, burst_size in *.
  pose proof (Z.mod_pos_bound (head (cons (tx_ring (shared d)))) (RingBuf.size (tx_ring (shared d))) ltac:(lia)). lia.
Qed.

(** The waiting packets: in front of the end, skipped, and left for later. *)
Lemma contents_split d N lost :
  daemon_wf d N lost -> crosses d ->
  contents (tx_ring (shared d)) =
    in_front d ++ skipped d ++
    zslice (contents (tx_ring (shared d))) (taken d) (zlen (contents (tx_ring (shared d))) - taken d).
Proof.
  intros W Hx. destruct (crossing_bounds d N lost W Hx) as (H1 & _ & H2). unfold in_front, skipped.
  set (l := contents (tx_ring (shared d))) in *. rewrite (zslice_split l (slots_left d)) at 1 by lia. f_equal.
  apply zget_ext.
  { rewrite zlen_app, !zlen_zslice by lia. lia. }
  intros j Hj. rewrite zlen_zslice in Hj by lia. rewrite zget_zslice by lia.
  destruct (decide (j < taken d - slots_left d)).
  - rewrite zget_app_l by (rewrite zlen_zslice; lia). by rewrite zget_zslice by lia.
  - rewrite zget_app_r by (rewrite zlen_zslice by lia; lia). rewrite zlen_zslice by lia.
    rewrite zget_zslice by lia. f_equal. lia.
Qed.

Lemma nodup_apart (l k : list Z) x : NoDup (l ++ k) -> x ∈ l -> x ∉ k.
Proof. rewrite NoDup_app. intros (_ & H & _). apply H. Qed.

(** What the burst puts into the table. *)
Lemma crossing_table d N lost table :
  daemon_wf d N lost -> crosses d -> zlen table = 64 ->
  RingBuf.size (tx_ring (shared d)) + (taken d - slots_left d) <= zlen (ring (tx_ring (shared d))) ->
  exists table' tx av,
    kt_ringbuf_dequeue_burst (tx_ring (shared d)) table sizeof_u64 burst_size = Ret (taken d, av, table', tx) /\
    zlen table' = 64 /\ zslice table' 0 (taken d) = in_front d ++ behind d /\
    contents tx = zslice (contents (tx_ring (shared d))) (taken d) (zlen (contents (tx_ring (shared d))) - taken d).
Proof.
  intros W Hx Ht Hr. destruct (crossing_bounds d N lost W Hx) as (H1 & H8 & H2).
  pose proof (sw_tx _ _ (dw_shared _ _ _ W)) as Wt. pose proof Wt as (Hp & _). pose proof (pow2_size_pos _ Hp).
  unfold in_front, behind. rewrite zlen_contents in *. set (rb := tx_ring (shared d)) in *.
  pose proof (zlen_contents rb) as Hlc.
  assert (Hidx : head (cons rb) mod RingBuf.size rb = RingBuf.size rb - slots_left d)
    by (unfold slots_left; fold rb; lia).
  pose proof (Z.mod_pos_bound (head (cons rb)) (RingBuf.size rb) ltac:(lia)) as Hmod. rewrite Hidx in Hmod.
  exists (blit (Z.to_nat (taken d)) table 0 (ring rb) (RingBuf.size rb - slots_left d)), (dequeued rb (taken d)),
    (RingBuf.used rb - taken d).
  rewrite zlen_blit. split_and!; [|done| |].
  - unfold kt_ringbuf_dequeue_burst, sizeof_u64.
    rewrite do_dequeue_spec; rewrite ?granted_variable; fold rb; try done; rewrite ?Hidx;
      change (Z.min burst_size (RingBuf.used rb)) with (taken d); try (unfold burst_size; lia).
    rewrite (proj2 (Z.eqb_neq _ _)) by lia. done.
  - apply zget_ext.
    { rewrite zlen_app, !zlen_zslice; rewrite ?zlen_blit; lia. }
    intros j Hj. rewrite zlen_zslice in Hj by (rewrite ?zlen_blit; lia).
    rewrite zget_zslice by (rewrite ?zlen_blit; lia). rewrite zget_blit by lia. case_match eqn:E; [|zb; lia].
    destruct (decide (j < slots_left d)).
    + rewrite zget_app_l by (rewrite zlen_zslice; lia). rewrite zget_zslice, zget_contents by lia.
      f_equal. rewrite <- Zplus_mod_idemp_l, Hidx, Z.mod_small by lia. lia.
    + rewrite zget_app_r by (rewrite zlen_zslice; lia). rewrite zlen_zslice by lia.
      rewrite zget_zslice by lia. f_equal. lia.
  - apply dequeued_contents; [done|lia].
Qed.


(** ** Ordinary operation gets there

    An application sends one message after the other, each of them handed to the
    card by the next iteration. *)
Definition post (d : kt_daemon) : option kt_daemon :=
  match sendmsg (fun _ _ _ => -1) (tiny_lib (shared d)) 5 (demo_msg demo_name [7; 8; 9]) 0 with
  | Ret (g, _) => Some (with_shared d (g_shared g))
  | _ => None
  end.

Definition iterate (d : kt_daemon) : option kt_daemon :=
  if bool_decide (burst_fits d) && (0 <=? counter d) && (counter d <? INT64_MAX) then
    match loop_body demo_cksum d (replicate 64 0) 990 (Some demo_mbuf) with Ret (d, _) => Some d | _ => None end
  else None.

Fixpoint serve (n : nat) (d : kt_daemon) : option kt_daemon :=
  match n with O => Some d | S n => d ← post d; d ← iterate d; serve n d end.

Definition system_run : kt_daemon -> kt_daemon -> Prop :=
  rtc (fun d d' => exists l, sys_step demo_cksum (fun _ _ _ => -1) d l d').

Lemma post_run d d' : post d = Some d' -> system_run d d'.
Proof.
  unfold post. destruct (sendmsg _ _ _ _ _) as [[g v]| | |] eqn:E; try done. intros [= <-].
  apply rtc_once. exists None.
  eapply (step_send _ _ d (tiny_lib (shared d))); [done|by repeat constructor|apply demo_sendable|exact E].
Qed.

Lemma iterate_run d d' : iterate d = Some d' -> system_run d d'.
Proof.
  unfold iterate. destruct (bool_decide (burst_fits d)) eqn:Hf; [|done].
  destruct (Z.leb_spec 0 (counter d)); [|done]. destruct (Z.ltb_spec (counter d) INT64_MAX); [|done]. cbn [andb].
  destruct (loop_body _ _ _ _ _) as [[d1 ev]| | |] eqn:E; try done. intros [= <-]. apply rtc_once. exists (Some ev).
  eapply step_daemon; [|exact (proj1 (bool_decide_eq_true _) Hf)|..|exact E]; try done; zcompute.
Qed.

Lemma serve_run n : forall d d', serve n d = Some d' -> system_run d d'.
Proof.
  induction n as [|n IH]; intros d d'; cbn [serve]; [intros [= <-]; constructor|].
  destruct (post d) as [d1|] eqn:E1; [|done]. cbn. destruct (iterate d1) as [d2|] eqn:E2; [|done]. cbn.
  intros H. transitivity d1; [by apply post_run|]. transitivity d2; [by apply iterate_run|auto].
Qed.

(** The daemon after its own start, in a fresh region. *)
Definition fresh_daemon : kt_daemon :=
  match setup_region (fun _ => replicate 496 0) zero_mbufs zero_metas true (Some (replicate 127 inhabitant))
          1048576 (1024 * 1024) 4096 with
  | Ret (d, _) => d
  | _ => start_daemon
  end.

(** 127 messages one by one, and two more before the next iteration. *)
Definition two_after_127 : option kt_daemon := d ← serve 127 fresh_daemon; d ← post d; post d.

Lemma fresh_daemon_wf : daemon_wf fresh_daemon 127 [].
Proof.
  destruct (setup_region_spec (fun _ => replicate 496 0) zero_mbufs zero_metas (replicate 127 inhabitant) 1048576)
    as (d & E & W & _); [lia|reflexivity|apply zero_readable|reflexivity|]. unfold fresh_daemon. by rewrite E.
Qed.

Lemma system_run_wf d d' N lost : system_run d d' -> daemon_wf d N lost -> exists lost', daemon_wf d' N lost'.
Proof.
  intros H. revert lost. induction H as [d|d d1 d' [l Hs] _ IH]; intros lost W; [by exists lost|].
  destruct (step_wf _ _ _ _ _ N lost Hs W) as (lost1 & W1 & _). by apply (IH lost1).
Qed.

Lemma two_after_127_run d : two_after_127 = Some d -> system_run fresh_daemon d.
Proof.
  unfold two_after_127. destruct (serve 127 fresh_daemon) as [d1|] eqn:E1; [|done]. cbn [mbind option_bind].
  destruct (post d1) as [d2|] eqn:E2; [|done]. cbn [mbind option_bind]. intros E3.
  transitivity d1; [by apply (serve_run 127)|]. transitivity d2; by apply post_run.
Qed.

Lemma two_after_127_state :
  (d ← two_after_127; Some (in_front d, skipped d, behind d, (RingBuf.size (tx_ring (shared d)),
     zlen (ring (tx_ring (shared d)))), (taken d, slots_left d), queued (prio_queue d))) =
  Some ([0], [1], [0], (128, 496), (2, 1), []).
Proof. vm_compute. reflexivity. Qed.

