(* ===== verification/DaemonMain.v ===== *)
(** * The whole run of the daemon (src/ktsnd.c)

    [main] from the initialisation of DPDK to the clean-up: the shared objects
    are built ([Init]), the memory pool of DPDK is created, the port is set up,
    the loop runs until [SIGINT], and the shared memories are destroyed.  The
    functions of DPDK are outside the repository: their answers are arguments of
    the model, and each function returns the calls it makes, in order. *)

From S2P Require Import Prelude Allocator PageAlloc RingBuf Memory PrioQueue Libktsn Packet Daemon Init System.

(** ** The clock and the address parser *)


(** [kt_get_realtime_ns] of src/src/kt_common.c, from what [clock_gettime]
    stores in its [struct timespec]. *)
Definition kt_get_realtime_ns (tv_sec tv_nsec : Z) : res Z :=
  s <- i64_op (tv_sec * NSEC_PER_SEC);; i64_op (s + tv_nsec).

(** [inet_pton(AF_INET, ...)] gives [Some] the word it stores in network order
    where it returns 1; [rte_be_to_cpu_32] is DPDK's conversion.  The result is
    the return value and [*dst]. *)
Definition ip_parse (inet_pton : string -> option Z) (rte_be_to_cpu_32 : Z -> Z) (addr : string)
    (dst : Z) : Z * Z :=
  match inet_pton addr with
  | None => (-1, dst)
  | Some x => (0, rte_be_to_cpu_32 x)
  end.

(** ** Setting up the port *)

Inductive eth_call :=
  | IsValidPort (port_id : Z)
  | InfoGet (port_id : Z)
  | Configure (port_id rx_rings tx_rings : Z)
  | SetMtu (port_id mtu : Z)
  | AdjustDesc (port_id nb_rxd nb_txd : Z)
  | SocketId (port_id : Z)
  | RxQueueSetup (port_id q nb_rxd socket_id : Z)
  | TxQueueSetup (port_id q nb_txd socket_id offloads : Z)
  | DevStart (port_id : Z).

(** The answers of the ethernet API: the value each call returns, the [max_mtu]
    that [rte_eth_dev_info_get] stores, and the descriptor counts that
    [rte_eth_dev_adjust_nb_rx_tx_desc] leaves. *)
Record eth_answers := mk_eth {
  eth_ret : eth_call -> Z;
  max_mtu : Z;
  nb_rxd : Z;
  nb_txd : Z
}.

(** [r <- call c or return its value if it is not 0], with the calls made. *)
Definition checked (a : eth_answers) (c : eth_call) (k : list eth_call * Z) : list eth_call * Z :=
  if eth_ret a c =? 0 then (c :: k.1, k.2) else ([c], eth_ret a c).

Definition unchecked (a : eth_answers) (c : eth_call) (k : Z -> list eth_call * Z)
    : list eth_call * Z :=
  let r := k (eth_ret a c) in (c :: r.1, r.2).

(** The [for] loops over the queues of one direction. *)
Fixpoint queue_loop (a : eth_answers) (setup : Z -> eth_call) (n : nat) (q : Z)
    (k : list eth_call * Z) : list eth_call * Z :=
  match n with
  | O => k
  | S n => checked a (setup q) (queue_loop a setup n (q + 1) k)
  end.

Definition port_init (a : eth_answers) (port_id mtu : Z) : list eth_call * Z :=
  unchecked a (IsValidPort port_id) (fun valid_port =>
  if valid_port =? 0 then ([], -1)
  else
    checked a (InfoGet port_id) (
    let actual_mtu := Z.min mtu (max_mtu a) in
    let rx_rings := 1 in
    let tx_rings := 1 in
    checked a (Configure port_id rx_rings tx_rings) (
    checked a (SetMtu port_id actual_mtu) (
    checked a (AdjustDesc port_id 1024 1024) (
    unchecked a (SocketId port_id) (fun socket_id =>
    queue_loop a (fun q => RxQueueSetup port_id q (nb_rxd a) socket_id) (Z.to_nat rx_rings) 0 (
    queue_loop a (fun q => TxQueueSetup port_id q (nb_txd a) socket_id 0) (Z.to_nat tx_rings) 0 (
    checked a (DevStart port_id) ([], 0))))))))).

(** ** The loop *)

(** [handler] clears the flag that [while (g_run)] tests. *)
Definition handler (signum g_run : Z) : Z := 0.

Definition SIGINT : Z := 2.

(** What happens around one test of [g_run]: whether [SIGINT] arrived before it,
    what the applications made of the shared memory meanwhile, the stack array,
    the clock and the buffer DPDK gives. *)
Record tick := mk_tick {
  sigint : bool;
  apps : kt_shared -> kt_shared;
  stack : list Z;
  clock : Z * Z;
  dpdk_buf : option rte_mbuf
}.

Section Main.
Context (rte_ipv4_cksum : list Z -> Z).

(** [while (g_run)].  The daemon is still running when the ticks end. *)
Fixpoint daemon_loop (ticks : list tick) (g_run : Z) (d : kt_daemon) : res (kt_daemon * list event) :=
  match ticks with
  | [] => Diverge
  | t :: ticks =>
      let g_run := if sigint t then handler SIGINT g_run else g_run in
      if g_run =? 0 then Ret (d, [])
      else
        now <- kt_get_realtime_ns (clock t).1 (clock t).2;;
        let* (d, ev) :=
          loop_body rte_ipv4_cksum (with_shared d (apps t (shared d))) (stack t) now (dpdk_buf t) in
        let* (d, evs) := daemon_loop ticks g_run d in
        Ret (d, ev :: evs)
  end.

(** ** [main] *)

Inductive action :=
  | EalInit
  | Sys (c : syscall)
  | PoolCreate
  | Eth (c : eth_call)
  | Iteration (ev : event)
  | EalCleanup.

(** What the process runs on: the result of [rte_eal_init], of the system
    for the two memories, the page size, the heap for the allocator and the
    queue, DPDK's memory pool and ethernet API, and the ticks of the loop. *)
Record world := mk_world {
  eal_ret : Z;
  ans_data : shm_answers;
  ans_ctrl : shm_answers;
  page_bytes : Z;
  heap_ok : bool;
  pq_block : option (list kt_pq_node);
  pool_ok : bool;
  eth : eth_answers;
  ticks : list tick
}.

(** After the loop. *)
Definition ktsnd_cleanup (memory_ctrl memory : kt_memory) : list action :=
  (Sys <$> (kt_memory_destroy memory_ctrl).1) ++ (Sys <$> (kt_memory_destroy memory).1) ++ [EalCleanup].

Context (words_at : Z -> list Z) (mbufs_at : Z -> Z -> list (list Z))
        (metas_at : Z -> Z -> list kt_metadata).

Definition ktsnd_main (w : world) : list action * res Z :=
  if eal_ret w <? 0 then ([EalInit], Abort)
  else
    let (t, started) := ktsnd_start words_at mbufs_at metas_at (ans_data w) (ans_ctrl w)
                          (page_bytes w) (heap_ok w) (pq_block w) in
    let acts := EalInit :: (Sys <$> t) in
    match started with
    | Ret (Some (memory, memory_ctrl, d, _)) =>
        if negb (pool_ok w) then (acts ++ [PoolCreate], Ret (-1))
        else
          let (te, ret) := port_init (eth w) 0 1500 in
          (* [ret < 0] is reported, and the daemon goes on *)
          let acts := acts ++ [PoolCreate] ++ (Eth <$> te) in
          match daemon_loop (ticks w) 1 d with
          | Ret (_, evs) =>
              (acts ++ (Iteration <$> evs) ++ ktsnd_cleanup memory_ctrl memory, Ret 0)
          | UB => (acts, UB)
          | Abort => (acts, Abort)
          | Diverge => (acts, Diverge)
          end
    | Ret None => (acts, Ret (-1))
    | UB => (acts, UB)
    | Abort => (acts, Abort)
    | Diverge => (acts, Diverge)
    end.
End Main.

(** ** Port set-up *)

(** Every call of a set-up that succeeds, in order. *)
Definition port_calls (a : eth_answers) (port_id mtu : Z) : list eth_call :=
  let socket_id := eth_ret a (SocketId port_id) in
  [IsValidPort port_id; InfoGet port_id; Configure port_id 1 1; SetMtu port_id (Z.min mtu (max_mtu a));
   AdjustDesc port_id 1024 1024; SocketId port_id; RxQueueSetup port_id 0 (nb_rxd a) socket_id;
   TxQueueSetup port_id 0 (nb_txd a) socket_id 0; DevStart port_id].

(** The first of the calls that fails, with those before it. *)
Fixpoint first_failure (a : eth_answers) (cs : list eth_call) : option (list eth_call * eth_call) :=
  match cs with
  | [] => None
  | c :: cs =>
      let bad := match c with IsValidPort _ => eth_ret a c =? 0 | SocketId _ => false
                 | _ => negb (eth_ret a c =? 0) end in
      if bad then Some ([], c)
      else match first_failure a cs with Some (pre, f) => Some (c :: pre, f) | None => None end
  end.

Lemma first_failure_prefix a cs : forall pre c,
  first_failure a cs = Some (pre, c) ->
  pre ++ [c] `prefix_of` cs /\
  match c with IsValidPort _ => eth_ret a c =? 0 | SocketId _ => false
  | _ => negb (eth_ret a c =? 0) end = true.
Proof.
  induction cs as [|c' cs IH]; intros pre c; [done|]. cbn [first_failure]. step_if.
  - intros [= <- <-]. split; [by eexists|done].
  - destruct (first_failure a cs) as [[pre' f]|] eqn:Ef; [|done]. intros [= <- <-].
    destruct (IH pre' f eq_refl) as [Hp Hc]. split; [|done]. cbn [app]. by apply prefix_cons.
Qed.

Lemma port_init_spec a port_id mtu :
  port_init a port_id mtu =
    match first_failure a (port_calls a port_id mtu) with
    | None => (port_calls a port_id mtu, 0)
    | Some (pre, c) =>
        (pre ++ [c], match c with IsValidPort _ => -1 | _ => eth_ret a c end)
    end.
Proof.
  unfold port_init, port_calls, unchecked. change (Z.to_nat 1) with 1%nat.
  cbn [queue_loop first_failure]. unfold checked.
  repeat (match goal with |- context [eth_ret a ?c =? 0] => destruct (eth_ret a c =? 0) end;
          cbn [negb fst snd app]; try done).
Qed.

(** ** The loop keeps the accounts *)

Definition clock_ok (c : Z * Z) : Prop := 0 <= c.1 < 9000000000 /\ 0 <= c.2 < NSEC_PER_SEC.

Lemma realtime_ok c : clock_ok c ->
  kt_get_realtime_ns c.1 c.2 = Ret (c.1 * NSEC_PER_SEC + c.2) /\
  0 <= c.1 * NSEC_PER_SEC + c.2 <= INT64_MAX.
Proof.
  destruct c as [x y]. unfold clock_ok, kt_get_realtime_ns, NSEC_PER_SEC. cbn [fst snd].
  intros [H1 H2]. rewrite i64_op_id by (unfold INT64_MIN, INT64_MAX; lia). cbn [bind].
  rewrite i64_op_id by (unfold INT64_MIN, INT64_MAX; lia). unfold INT64_MAX. split; [done|lia].
Qed.

Section LoopProps.
Context (ck : list Z -> Z) (default_sendmsg : Z -> msghdr -> Z -> Z).

(** What the environment must keep to at each tick of a run from [d]: the
    applications only call [sendmsg] (any number of times), the burst stays
    inside the ring, and clock, stack and DPDK give sensible values; some
    tick brings [SIGINT]. *)
Fixpoint ticks_ok (ticks : list tick) (d : kt_daemon) : Prop :=
  match ticks with
  | [] => False
  | t :: ticks =>
      if sigint t then True
      else
        let d1 := with_shared d (apps t (shared d)) in
        (exists tr, Forall (fun l => l = None) tr /\ sys_run ck default_sendmsg d tr d1) /\
        zlen (stack t) = 64 /\ burst_fits d1 /\ clock_ok (clock t) /\ 0 <= counter d < INT64_MAX /\
        (exists tb, dpdk_buf t = Some tb /\ zlen (Packet.data tb) = 2048) /\
        forall now d2 ev, kt_get_realtime_ns (clock t).1 (clock t).2 = Ret now ->
          loop_body ck d1 (stack t) now (dpdk_buf t) = Ret (d2, ev) -> ticks_ok ticks d2
  end.

Lemma run_app d tr d1 tr' d2 :
  sys_run ck default_sendmsg d tr d1 -> sys_run ck default_sendmsg d1 tr' d2 ->
  sys_run ck default_sendmsg d (tr ++ tr') d2.
Proof. induction 1; [done|]. intros H2. cbn [app]. econstructor; eauto. Qed.

Lemma daemon_loop_runs ticks : forall d N lost,
  daemon_wf d N lost -> ticks_ok ticks d ->
  exists d' evs tr, daemon_loop ck ticks 1 d = Ret (d', evs) /\
    sys_run ck default_sendmsg d tr d' /\ omap id tr = evs.
Proof.
  induction ticks as [|t ticks IH]; intros d N lost W Hok; [done|]. cbn [ticks_ok daemon_loop] in *.
  destruct (sigint t); cbn [handler Z.eqb].
  { exists d, [], []. split_and!; [done|constructor|done]. }
  destruct Hok as ((tr1 & Hnone & Hrun1) & Hst & Hfit & Hck & Hcnt & (tb & Hb & Htb) & Hnext).
  destruct (realtime_ok _ Hck) as [Enow Hnow]. rewrite Enow. cbn [bind].
  set (d1 := with_shared d (apps t (shared d))) in *.
  destruct (run_wf _ _ _ _ _ Hrun1 N lost W) as (lost1 & W1 & _).
  destruct (loop_body_spec ck d1 N lost1 (stack t) _ tb W1 Hst Hfit Hnow Hcnt Htb)
    as (d2 & ev & lost2 & E2 & W2 & _).
  rewrite Hb in *. rewrite E2. cbn [bind].
  destruct (IH d2 N lost2 W2 (Hnext _ _ _ Enow E2)) as (d' & evs & tr & E & Hrun & Hev).
  rewrite E. exists d', (ev :: evs), (tr1 ++ Some ev :: tr). split_and!; [done| |].
  - apply (run_app _ _ d1); [done|]. econstructor; [|done]. by econstructor.
  - rewrite omap_app. cbn [omap list_omap]. cbn. rewrite <- Hev.
    assert (E0 : omap id tr1 = []) by (clear -Hnone; by induction Hnone as [|? ? ->]).
    by rewrite E0.
Qed.
End LoopProps.

(** ** Draining *)

(** The packets an iteration may still have to deal with are due: none is more
    than 50 microseconds before its time. *)
Definition all_due (d : kt_daemon) (now : Z) : Prop :=
  forall i, i ∈ queued (prio_queue d) -> txtime (zget (metadata_pool (shared d)) i) - now <= tx_delta_ns.

Definition quiet_tick (t : tick) : Prop :=
  sigint t = false /\ (forall sh, apps t sh = sh) /\ zlen (stack t) = 64 /\ clock_ok (clock t) /\
  exists tb, dpdk_buf t = Some tb /\ zlen (Packet.data tb) = 2048.

Definition now_of (t : tick) : Z := (clock t).1 * NSEC_PER_SEC + (clock t).2.

(** How an iteration gets rid of a packet. *)
Definition handled (ev : event) : Prop :=
  match ev with Sent _ _ _ | Late _ => True | _ => False end.

Lemma empty_fits d N lost :
  daemon_wf d N lost -> contents (tx_ring (shared d)) = [] -> burst_fits d.
Proof.
  intros W Htx. unfold burst_fits. pose proof (zlen_contents (tx_ring (shared d))) as Hu.
  rewrite Htx, zlen_nil in Hu. rewrite <- Hu.
  pose proof (sw_tx _ _ (dw_shared _ _ _ W)) as (Hp & _). pose proof (pow2_size_pos _ Hp).
  pose proof (Z.mod_pos_bound (head (cons (tx_ring (shared d)))) (RingBuf.size (tx_ring (shared d)))
    ltac:(lia)). unfold burst_size. lia.
Qed.

(** The second half of an iteration leaves the transmission ring alone and
    counts at most one packet. *)
Lemma transmit_due_frame ck d now tb d' ev :
  transmit_due ck d now tb = Ret (d', ev) ->
  tx_ring (shared d') = tx_ring (shared d) /\ counter d <= counter d' <= counter d + 1.
Proof.
  unfold transmit_due. step_if; [intros [= <- <-]; split; [done|lia]|]. intros H. inv_res.
  revert H. step_if; [intros [= <- <-]; split; [done|lia]|].
  step_if; intros H; inv_res; repeat case_match; inv_res; cbn [shared counter tx_ring];
    try (split; [done|lia]).
  unfold i64_op in *. repeat case_match. inv_res. cbn [shared counter tx_ring]. split; [done|lia].
Qed.

(** A burst takes everything out of a ring with no more than 8 words. *)
Lemma loop_body_clears ck d N lost table now tb d' ev :
  daemon_wf d N lost -> zlen table = 64 -> burst_fits d -> zlen (contents (tx_ring (shared d))) <= burst_size ->
  loop_body ck d table now tb = Ret (d', ev) -> contents (tx_ring (shared d')) = [].
Proof.
  intros W Hst Hfit Hle H.
  destruct (absorb d N lost table W Hst Hfit) as (tx & q & t1 & av & E1 & E2 & _ & Hsp & _).
  unfold loop_body in H. rewrite E1 in H. cbn [bind metadata_pool] in H. rewrite E2 in H. cbn [bind] in H.
  apply transmit_due_frame in H as [-> _]. cbn [shared tx_ring]. apply (f_equal zlen) in Hsp.
  pose proof (zlen_contents (tx_ring (shared d))) as Hu. pose proof (zlen_nonneg (contents (tx_ring (shared d)))).
  rewrite zlen_app, zlen_zslice in Hsp by lia. apply length_zero_iff_nil. unfold zlen in *. lia.
Qed.

Lemma loop_body_frame ck d table now tb d' ev :
  loop_body ck d table now tb = Ret (d', ev) ->
  (forall N lost, daemon_wf d N lost -> zlen table = 64 -> burst_fits d ->
     contents (tx_ring (shared d)) = [] -> contents (tx_ring (shared d')) = []) /\
  counter d <= counter d' <= counter d + 1.
Proof.
  intros H. split.
  - intros N lost W Hst Hfit Htx. apply (loop_body_clears ck d N lost table now tb d' ev); try done. by rewrite Htx.
  - unfold loop_body in H. inv_res. repeat match goal with x : (_ * _)%type |- _ => destruct x end. inv_res.
    by apply transmit_due_frame in H as [_ Hc].
Qed.

(** What was not free and not lost before is still where it was. *)
Lemma perm_member (free q q' lost' lost : list Z) j :
  free ++ q ++ lost ≡ₚ free ++ q' ++ lost' -> NoDup (free ++ q' ++ lost') ->
  (j ∈ lost -> j ∈ lost') -> j ∈ q' -> j ∈ q.
Proof.
  intros P Hnd Hl Hj. assert (Hin : j ∈ free ++ q ++ lost) by (rewrite P, !elem_of_app; auto).
  apply NoDup_app in Hnd as (_ & Hd & Hnd). apply NoDup_app in Hnd as (_ & Hd' & _).
  rewrite !elem_of_app in Hin. destruct Hin as [Hf|[Hq|Hlo]]; [|done|].
  - exfalso. apply (Hd j Hf), elem_of_app. by left.
  - exfalso. by apply (Hd' j Hj), Hl.
Qed.

(** With nothing in the transmission ring, an iteration over due packets takes
    exactly one of them out of the queue. *)
Lemma due_iteration ck d N lost t :
  daemon_wf d N lost -> contents (tx_ring (shared d)) = [] -> 0 < PrioQueue.size (prio_queue d) ->
  quiet_tick t -> all_due d (now_of t) -> 0 <= counter d < INT64_MAX ->
  exists d' ev lost', loop_body ck d (stack t) (now_of t) (dpdk_buf t) = Ret (d', ev) /\
    daemon_wf d' N lost' /\ handled ev /\ contents (tx_ring (shared d')) = [] /\
    PrioQueue.size (prio_queue d') = PrioQueue.size (prio_queue d) - 1 /\
    (forall i, i ∈ queued (prio_queue d') -> i ∈ queued (prio_queue d)) /\
    metadata_pool (shared d') = metadata_pool (shared d) /\ 0 <= counter d' <= counter d + 1.
Proof.
  intros W Htx Hpos (Hsig & Happs & Hst & Hck & tb & Hb & Htb) Hdue Hcnt.
  destruct (realtime_ok _ Hck) as [_ Hnow]. fold (now_of t) in Hnow. rewrite Hb.
  assert (Hfit : burst_fits d) by (by apply empty_fits with N lost).
  destruct (loop_body_spec ck d N lost (stack t) (now_of t) tb) as (d' & ev & lost' & E & W' & I);
    try done.
  destruct (loop_body_frame ck _ _ _ _ _ _ E) as [Htx' Hcnt'].
  specialize (Htx' N lost W Hst Hfit Htx). exists d', ev, lost'.
  pose proof (buffers_account _ _ _ W) as A. pose proof (buffers_account _ _ _ W') as A'.
  rewrite Htx in A. rewrite Htx' in A'.
  pose proof (dw_perm _ _ _ W) as P. pose proof (dw_perm _ _ _ W') as P'.
  pose proof (indices_nodup _ _ _ W') as Hnd. rewrite Htx in P. rewrite Htx' in P', Hnd.
  unfold iteration in I. rewrite Htx in I. cbn [app] in P, P', Hnd, I.
  destruct I as (_ & Em & I). destruct ev as [|diff|diff|i diff b].
  - destruct I as (_ & _ & E0 & _). lia.
  - destruct I as (i & Hi & _ & -> & Hd & _). specialize (Hdue i Hi). lia.
  - destruct I as (i & Hi & -> & _ & _ & Ef & _). rewrite Ef, zlen_cons in A'. rewrite Ef in P', Hnd.
    split_and!; try done; try lia.
    intros j Hj. apply (perm_member (contents (free_ring (shared d))) _ (queued (prio_queue d')) (i :: lost) lost j);
      [by rewrite P, P'|done|intros Hin; by right|done].
  - destruct I as (Hi & -> & _ & _ & _ & Ef & _). rewrite Ef, zlen_app in A'. rewrite Ef in P', Hnd.
    change (zlen [i]) with 1 in A'. rewrite <- !app_assoc in P', Hnd. cbn [app] in P', Hnd.
    split_and!; try done; try lia.
    intros j Hj. apply (perm_member (contents (free_ring (shared d))) _ (queued (prio_queue d')) (i :: lost) lost j);
      [rewrite P, <- P'; solve_Permutation| |intros Hin; by right|done].
    assert (Pm : contents (free_ring (shared d)) ++ queued (prio_queue d') ++ i :: lost ≡ₚ
                 contents (free_ring (shared d)) ++ i :: queued (prio_queue d') ++ lost)
      by solve_Permutation. by rewrite Pm.
Qed.

Lemma drain_spec ck rest ticks : forall d N lost,
  daemon_wf d N lost -> contents (tx_ring (shared d)) = [] ->
  PrioQueue.size (prio_queue d) = zlen ticks -> Forall quiet_tick ticks ->
  Forall (fun t => all_due d (now_of t)) ticks -> 0 <= counter d -> counter d + zlen ticks < INT64_MAX ->
  exists d' evs lost', daemon_wf d' N lost' /\ PrioQueue.size (prio_queue d') = 0 /\
    length evs = length ticks /\ Forall handled evs /\ contents (tx_ring (shared d')) = [] /\
    daemon_loop ck (ticks ++ rest) 1 d =
      let* (d'', evs') := daemon_loop ck rest 1 d' in Ret (d'', evs ++ evs').
Proof.
  induction ticks as [|t ticks IH]; intros d N lost W Htx Hsz Hq Hdue Hc0 Hc1.
  - exists d, [], lost. split_and!; try done. cbn [app].
    by destruct (daemon_loop ck rest 1 d) as [[]| | |].
  - rewrite zlen_cons in Hsz, Hc1. pose proof (zlen_nonneg ticks).
    apply Forall_cons in Hq as [Hq Hqs]. apply Forall_cons in Hdue as [Hd Hds].
    destruct (due_iteration ck d N lost t) as (d1 & ev & lost1 & E & W1 & Hh & Htx1 & Hs1 & Hsub & Em & Hc);
      try done; try lia.
    destruct (IH d1 N lost1 W1 Htx1 ltac:(lia) Hqs) as (d' & evs & lost' & W' & S' & L' & H' & T' & E');
      [|lia|lia|].
    { eapply Forall_impl; [exact Hds|]. intros t' Ht' i Hi. rewrite Em. by apply Ht', Hsub. }
    exists d', (ev :: evs), lost'. split_and!; try done; [cbn; lia|by constructor|].
    pose proof Hq as (Hsig & Happs & _ & Hck & _). destruct (realtime_ok _ Hck) as [En _].
    cbn [app daemon_loop]. rewrite Hsig. cbn [Z.eqb]. rewrite En. cbn [bind]. fold (now_of t).
    rewrite Happs, with_shared_id, E. cbn [bind]. rewrite E'.
    by destruct (daemon_loop ck rest 1 d') as [[]| | |].
Qed.

(** Gives a shared memory object or a descriptor back. *)
Definition releases (a : action) : bool :=
  match a with Sys (ShmUnlink _) | Sys (Close _) | Sys (Munmap _ _) => true | _ => false end.

(** The possible ends of [kt_memory_create]. *)
Ltac create_ends :=
  repeat (match goal with
          | |- context [if ?c then _ else _] => destruct c
          | |- context [mmap_ret ?a] => destruct (mmap_ret a)
          end; cbn).

(** [kt_memory_create] gives nothing back but its own heap block. *)
Lemma create_keeps ans nm sz : Forall (fun a => releases a = false) (Sys <$> (kt_memory_create ans nm sz).1).
Proof. unfold kt_memory_create, _kt_memory_alloc. create_ends; by repeat constructor. Qed.

Lemma create_opens ans nm sz :
  malloc_ok ans = true -> Sys (ShmOpen nm 194 256) ∈ Sys <$> (kt_memory_create ans nm sz).1.
Proof.
  intros Hm. unfold kt_memory_create, _kt_memory_alloc. rewrite Hm. cbn [negb]. create_ends; by right; left.
Qed.

(** ** Properties *)

(** C24: [port_init] makes its calls in a fixed order (information, one receive and
    one transmit queue, an MTU of at most the requested one, descriptors, queues,
    start), stops at the first one that fails and returns its value (-1 for an
    invalid port); it returns 0 only after all of them succeeded, so that the
    device is never started with a part of its configuration missing. *)
Theorem port_init_stops_at_first_error a port_id mtu :
  let (tr, ret) := port_init a port_id mtu in
  match first_failure a (port_calls a port_id mtu) with
  | None => tr = port_calls a port_id mtu /\ ret = 0
  | Some (pre, c) =>
      tr = pre ++ [c] /\ tr `prefix_of` port_calls a port_id mtu /\ ret <> 0 /\
      ret = match c with IsValidPort _ => -1 | _ => eth_ret a c end
  end.
Proof.
  rewrite port_init_spec. destruct (first_failure _ _) as [[pre c]|] eqn:E; [|done].
  destruct (first_failure_prefix a _ pre c E) as [Hp Hc]. split_and!; try done.
  destruct c; cbn in Hc; zb; lia.
Qed.

Section MainProps.
Context (ck : list Z -> Z) (default_sendmsg : Z -> msghdr -> Z -> Z).
Context (words : Z -> list Z) (mbufs : Z -> Z -> list (list Z)) (metas : Z -> Z -> list kt_metadata).

(** C6: a run of the daemon from start to end.  When DPDK and both memories are
    granted, the daemon reaches its loop whatever [port_init] answers, and when
    [SIGINT] arrives it returns 0.  Its calls are exactly: create the data and the
    control memory, create the pool, set up the port, iterate, then unmap, unlink
    and close the control memory and the data memory, and clean up DPDK.  The
    iterations are those of a run of the system from a state in which every
    buffer is free. *)
Theorem ktsnd_main_runs_and_cleans_up w addr ctrl blk :
  0 <= eal_ret w -> granted_at (ans_data w) addr -> granted_at (ans_ctrl w) ctrl ->
  0 <= addr < 2 ^ 62 -> addr mod 4096 = 0 -> readable words mbufs metas -> zlen blk = 127 ->
  page_bytes w = 4096 -> heap_ok w = true -> pq_block w = Some blk -> pool_ok w = true ->
  (forall d, daemon_wf d 127 [] -> contents (tx_ring (shared d)) = [] -> counter d = 0 ->
     contents (free_ring (shared d)) = seqZ 0 127 -> PrioQueue.size (prio_queue d) = 0 ->
     ticks_ok ck default_sendmsg (ticks w) d) ->
  exists t1 m t2 mc evs d d' tr,
    daemon_wf d 127 [] /\ sys_run ck default_sendmsg d tr d' /\ omap id tr = evs /\
    kt_memory_create (ans_data w) KT_DEFAULT_SHARED_DATA_MEMORY_NAME KT_DEFAULT_MEMORY_SIZE = (t1, Some m) /\
    kt_memory_create (ans_ctrl w) KT_DEFAULT_SHARED_CTRL_MEMORY_NAME 4096 = (t2, Some mc) /\
    ktsnd_main ck words mbufs metas w =
      (EalInit :: (Sys <$> t1 ++ t2) ++ [PoolCreate] ++ (Eth <$> (port_init (eth w) 0 1500).1) ++
         (Iteration <$> evs) ++
         (Sys <$> [Munmap ctrl 4096; ShmUnlink "ktsnd_meta_memory"; Close (shm_open_ret (ans_ctrl w)); Free;
                   Munmap addr 1048576; ShmUnlink "ktsnd_data_memory"; Close (shm_open_ret (ans_data w)); Free]) ++
         [EalCleanup], Ret 0).
Proof.
  intros He Hd Hc Ha Hal R Hb Hpg Hh Hq Hpool Hticks.
  destruct (start_spec words mbufs metas (ans_data w) (ans_ctrl w) addr ctrl blk)
    as (t & m & mc & d & E & W & Cf & Ct & Sz & Cn & _ & t1 & t2 & -> & E1 & E2); try done.
  destruct (daemon_loop_runs ck default_sendmsg (ticks w) d 127 [] W) as (d' & evs & tr & El & Hrun & Hevs);
    [by apply Hticks|].
  exists t1, m, t2, mc, evs, d, d', tr. split_and!; try done.
  unfold ktsnd_main. rewrite (proj2 (Z.ltb_ge _ _)) by lia. rewrite Hpg, Hh, Hq, E, Hpool. cbn [negb].
  destruct (port_init (eth w) 0 1500) as [te ret]. rewrite El. cbn [fst].
  apply alloc_success in E1 as (_ & _ & _ & A1 & _ & N1 & F1 & S1 & _).
  apply alloc_success in E2 as (_ & _ & _ & A2 & _ & N2 & F2 & S2 & _).
  destruct Hd as (_ & _ & _ & Ad). destruct Hc as (_ & _ & _ & Ac).
  rewrite Ad in A1. rewrite Ac in A2. injection A1 as ->. injection A2 as ->.
  unfold ktsnd_cleanup, kt_memory_destroy. cbn [fst]. rewrite N1, N2, F1, F2, S1, S2.
  f_equal. rewrite !fmap_cons. cbn [app]. f_equal. rewrite <- !app_assoc. done.
Qed.

(** C23: the error paths of [main].  When DPDK does not initialise, the process ends
    with a failure and has touched nothing.  When the data memory cannot be created, for
    whatever reason ([malloc], [shm_open], [ftruncate] or [mmap]), [main] returns -1
    at once; when the control memory cannot be created, for any of these reasons, it
    returns -1 after that; a heap block that the page allocator does not get is used all the
    same; and without DPDK's pool [main] returns -1 before it touches the port.
    Whenever it returns -1, it has released nothing: no shared memory object is
    unmapped or unlinked and no descriptor closed, so the data object stays
    in the system, where the next start would have to create it exclusively. *)
Theorem ktsnd_main_error_paths w :
  let data := kt_memory_create (ans_data w) KT_DEFAULT_SHARED_DATA_MEMORY_NAME KT_DEFAULT_MEMORY_SIZE in
  let ctrl := kt_memory_create (ans_ctrl w) KT_DEFAULT_SHARED_CTRL_MEMORY_NAME (page_bytes w) in
  let main := ktsnd_main ck words mbufs metas w in
  (if eal_ret w <? 0 then main = ([EalInit], Abort)
   else match data.2, ctrl.2 with
   | None, _ => main = (EalInit :: (Sys <$> data.1), Ret (-1))
   | Some _, None => main = (EalInit :: (Sys <$> data.1 ++ ctrl.1), Ret (-1))
   | Some m, Some _ =>
       (heap_ok w = false -> main = (EalInit :: (Sys <$> data.1 ++ ctrl.1), UB)) /\
       (forall d l, pool_ok w = false ->
          setup_region words mbufs metas (heap_ok w) (pq_block w) (Memory.addr m) (Memory.size m) (page_bytes w) =
            Ret (d, l) ->
          main = (EalInit :: (Sys <$> data.1 ++ ctrl.1) ++ [PoolCreate], Ret (-1)))
   end) /\
  (forall tr, main = (tr, Ret (-1)) ->
     Forall (fun a => releases a = false) tr /\
     (malloc_ok (ans_data w) = true -> Sys (ShmOpen "ktsnd_data_memory" 194 256) ∈ tr)).
Proof.
  intros data ctrl main.
  pose proof (create_keeps (ans_data w) KT_DEFAULT_SHARED_DATA_MEMORY_NAME KT_DEFAULT_MEMORY_SIZE) as K1.
  pose proof (create_keeps (ans_ctrl w) KT_DEFAULT_SHARED_CTRL_MEMORY_NAME (page_bytes w)) as K2.
  pose proof (create_opens (ans_data w) KT_DEFAULT_SHARED_DATA_MEMORY_NAME KT_DEFAULT_MEMORY_SIZE) as O1.
  fold data in K1, O1. fold ctrl in K2. unfold main, ktsnd_main.
  destruct (eal_ret w <? 0); [done|].
  unfold ktsnd_start. fold data ctrl. destruct data as [t1 [m|]]; cbn [fst snd] in *.
  2: { split; [done|]. intros tr [= <-]. split; [by constructor|intros Hm; right; auto]. }
  destruct ctrl as [t2 [mc|]]; cbn [fst snd] in *.
  2: { split; [done|]. intros tr [= <-]. rewrite fmap_app. split; [constructor; [done|by apply Forall_app]|].
       intros Hm. right. apply elem_of_app. auto. }
  split; [split|].
  - intros ->. done.
  - intros d l -> ->. done.
  - destruct (setup_region _ _ _ _ _ _ _ _) as [[d l]| | |]; try done. cbn [bind].
    destruct (pool_ok w); cbn [negb].
    + destruct (port_init _ _ _) as [te ret]. by destruct (daemon_loop _ _ _ _) as [[]| | |].
    + intros tr [= <-]. rewrite fmap_app. split.
      * constructor; [done|]. rewrite !Forall_app. by split_and!; repeat constructor.
      * intros Hm. right. rewrite !elem_of_app. auto.
Qed.
End MainProps.

(** The queue drains.  If nothing is in the transmission ring and, at every one
    of the next iterations, no queued packet is more than 50 microseconds before
    its time, then as many iterations as there are queued packets empty the queue:
    each of them sends one packet or drops it as late, and none waits or finds
    nothing to do.  What follows is the loop from the empty queue. *)
Theorem queue_drains ck ticks rest d N lost :
  daemon_wf d N lost -> contents (tx_ring (shared d)) = [] ->
  PrioQueue.size (prio_queue d) = zlen ticks -> Forall quiet_tick ticks ->
  Forall (fun t => all_due d (now_of t)) ticks -> 0 <= counter d -> counter d + zlen ticks < INT64_MAX ->
  exists d' evs lost', daemon_wf d' N lost' /\ PrioQueue.size (prio_queue d') = 0 /\
    length evs = length ticks /\ Forall handled evs /\ contents (tx_ring (shared d')) = [] /\
    daemon_loop ck (ticks ++ rest) 1 d =
      let* (d'', evs') := daemon_loop ck rest 1 d' in Ret (d'', evs ++ evs').
Proof. apply drain_spec. Qed.

(** ** Witnesses *)

(** A device that accepts everything, with an MTU of 9000, and one whose MTU
    cannot be set. *)
Definition demo_eth : eth_answers :=
  mk_eth (fun c => match c with IsValidPort _ => 1 | _ => 0 end) 9000 1024 1024.

(** A tick in which an iteration happens at time [ns], and the tick of the
    signal. *)
Definition demo_tick (ns : Z) : tick := mk_tick false id (replicate 64 0) (0, ns) (Some demo_mbuf).
Definition demo_signal : tick := mk_tick true id (replicate 64 0) (0, 0) None.

Lemma demo_tick_quiet ns : 0 <= ns < NSEC_PER_SEC -> quiet_tick (demo_tick ns).
Proof.
  intros Hns. unfold quiet_tick, clock_ok. split_and!; try done; try (cbn; lia). by exists demo_mbuf.
Qed.

(** A world in which the daemon starts, iterates twice and is stopped. *)
Definition demo_world (pool : bool) : world :=
  mk_world 1 (demo_answers 1048576) (demo_answers 8192) 4096 true (Some (replicate 127 inhabitant))
    pool demo_eth [demo_tick 10; demo_tick 20; demo_signal].

(** Without applications every environment is fine. *)
Lemma quiet_ticks_ok ck ds ticks s : forall d N lost,
  daemon_wf d N lost -> contents (tx_ring (shared d)) = [] -> Forall quiet_tick ticks ->
  sigint s = true -> 0 <= counter d -> counter d + zlen ticks < INT64_MAX ->
  ticks_ok ck ds (ticks ++ [s]) d.
Proof.
  induction ticks as [|t ticks IH]; intros d N lost W Htx Hq Hs Hc0 Hc1; cbn [app ticks_ok].
  { by rewrite Hs. }
  apply Forall_cons in Hq as [(Hsig & Happs & Hst & Hck & tb & Hb & Htb) Hq].
  rewrite zlen_cons in Hc1. pose proof (zlen_nonneg ticks).
  rewrite Hsig, Happs, with_shared_id. pose proof (empty_fits d N lost W Htx) as Hfit.
  split_and!; try done; [exists []; split; [done|constructor]|lia|by exists tb|].
  intros now d2 ev En E. destruct (realtime_ok _ Hck) as [En' Hnow]. rewrite En in En'. injection En' as ->.
  rewrite Hb in E. destruct (loop_body_spec ck d N lost (stack t) _ tb W Hst Hfit Hnow ltac:(lia) Htb)
    as (d' & ev' & lost' & E' & W' & _). rewrite E in E'. injection E' as <- <-.
  destruct (loop_body_frame ck _ _ _ _ _ _ E) as [Htx' Hcnt'].
  apply (IH d2 N lost'); try done; try lia. by apply (Htx' N lost).
Qed.

Lemma ktsnd_main_runs_and_cleans_up_witness :
  exists tr, ktsnd_main demo_cksum (fun _ => replicate 496 0) zero_mbufs zero_metas (demo_world true) =
    (tr, Ret 0) /\ Sys (ShmUnlink "ktsnd_data_memory") ∈ tr.
Proof.
  destruct (ktsnd_main_runs_and_cleans_up demo_cksum (fun _ _ _ => -1) (fun _ => replicate 496 0)
    zero_mbufs zero_metas (demo_world true) 1048576 8192 (replicate 127 inhabitant))
    as (t1 & m & t2 & mc & evs & d & d' & tr & _ & _ & _ & _ & _ & E).
  - cbn. lia.
  - apply demo_granted.
  - apply demo_granted.
  - lia.
  - reflexivity.
  - apply zero_readable.
  - reflexivity.
  - reflexivity.
  - reflexivity.
  - reflexivity.
  - reflexivity.
  - intros d W Htx Hc _ _.
    apply (quiet_ticks_ok _ _ [demo_tick 10; demo_tick 20] demo_signal d 127 []); try done.
    + apply Forall_cons. split; [by apply demo_tick_quiet|].
      apply Forall_cons. split; [by apply demo_tick_quiet|constructor].
    + lia.
    + rewrite Hc. done.
  - eexists. split; [exact E|].
    apply elem_of_cons. right. rewrite !elem_of_app. do 4 right. left. cbn. do 5 right. left.
Defined.

(** A world without DPDK's pool. *)
Lemma ktsnd_main_error_paths_witness :
  exists tr, ktsnd_main demo_cksum (fun _ => replicate 496 0) zero_mbufs zero_metas (demo_world false) =
    (tr, Ret (-1)) /\ Sys (ShmOpen "ktsnd_data_memory" 194 256) ∈ tr /\
    Forall (fun a => releases a = false) tr.
Proof.
  destruct (ktsnd_main_error_paths demo_cksum (fun _ => replicate 496 0) zero_mbufs zero_metas
    (demo_world false)) as [[_ Hp] Hr].
  destruct (setup_region_spec (fun _ => replicate 496 0) zero_mbufs zero_metas (replicate 127 inhabitant) 1048576)
    as (d & E & _); [lia|reflexivity|apply zero_readable|reflexivity|].
  specialize (Hp d _ eq_refl E). eexists. split; [exact Hp|].
  destruct (Hr _ Hp) as [H1 H2]. split; [apply H2; reflexivity|exact H1].
Defined.

Lemma queue_drains_witness :
  exists d' evs lost', daemon_wf d' 3 lost' /\ PrioQueue.size (prio_queue d') = 0 /\
    length evs = 1%nat /\ Forall handled evs /\
    daemon_loop demo_cksum [demo_tick 990; demo_signal] 1 demo_due = Ret (d', evs).
Proof.
  destruct (queue_drains demo_cksum [demo_tick 990] [demo_signal] demo_due 3 [] demo_due_wf)
    as (d' & evs & lost' & W & Sz & L & H & _ & E); try reflexivity.
  - apply Forall_cons. split; [by apply demo_tick_quiet|done].
  - apply Forall_cons. split; [|done]. intros i Hi. change (i ∈ [2]) in Hi.
    apply list_elem_of_singleton in Hi as ->. zcompute.
  - exists d', evs, lost'. split; [exact W|]. split; [exact Sz|]. split; [exact L|]. split; [exact H|].
    change (daemon_loop demo_cksum [demo_tick 990; demo_signal] 1 demo_due = Ret (d', evs ++ [])) in E.
    rewrite app_nil_r in E. exact E.
Defined.
