(* ===== verification/Timing.v ===== *)
(** * From [sendmsg] to the wire, in time (src/libktsn.c, src/ktsnd.c)

    The daemon polls: a packet leaves when an iteration finds the clock within the
    50 microseconds before the packet's time.  A message on its way from
    [sendmsg] to the wire is punctual as long as the loop comes round often
    enough. *)

From S2P Require Import Prelude Memory RingBuf PrioQueue Libktsn Packet Daemon System DaemonMain.

(** Each reading of the clock is at most [P] after the one before it.  The clock
    may also go back. *)
Fixpoint steady (P prev : Z) (nows : list Z) : Prop :=
  match nows with [] => True | now :: nows => now <= prev + P /\ steady P now nows end.

Definition is_early (ev : event) : Prop := match ev with Early diff => tx_delta_ns < diff | _ => False end.

(** One iteration with a single packet in the system, on its way in the ring or
    in the queue already. *)
Definition lone (d : kt_daemon) (i : Z) : Prop :=
  contents (tx_ring (shared d)) ++ queued (prio_queue d) = [i].

(** Nothing is on its way. *)
Definition at_rest (d : kt_daemon) : Prop :=
  contents (tx_ring (shared d)) = [] /\ queued (prio_queue d) = [].

Lemma lone_short d i : lone d i -> zlen (contents (tx_ring (shared d))) <= 1.
Proof.
  intros H%(f_equal zlen). rewrite zlen_app in H. change (zlen [i]) with 1 in H.
  pose proof (zlen_nonneg (queued (prio_queue d))). lia.
Qed.

Lemma lone_fits d N lost i : daemon_wf d N lost -> lone d i -> burst_fits d.
Proof.
  intros W H%lone_short. rewrite zlen_contents in H. pose proof (sw_tx _ _ (dw_shared _ _ _ W)) as Wt.
  pose proof (one_slot_fits _ (head (cons (tx_ring (shared d)))) Wt). unfold burst_fits. lia.
Qed.

Lemma lone_iteration ck d N lost i t :
  daemon_wf d N lost -> lone d i -> quiet_tick t -> 0 <= counter d < INT64_MAX ->
  let diff := txtime (zget (metadata_pool (shared d)) i) - now_of t in
  exists d' ev lost', loop_body ck d (stack t) (now_of t) (dpdk_buf t) = Ret (d', ev) /\
    mbuf_pool (shared d') = mbuf_pool (shared d) /\ metadata_pool (shared d') = metadata_pool (shared d) /\
    daemon_wf d' N lost' /\ counter d <= counter d' <= counter d + 1 /\
    if tx_delta_ns <? diff then
      ev = Early diff /\ lost' = lost /\ lone d' i /\
      contents (free_ring (shared d')) = contents (free_ring (shared d)) /\ wire d' = wire d
    else if diff <? 0 then
      ev = Late diff /\ lost' = i :: lost /\ at_rest d' /\
      contents (free_ring (shared d')) = contents (free_ring (shared d)) /\ wire d' = wire d
    else exists b tb, dpdk_buf t = Some tb /\ ev = Sent i diff b /\ lost' = lost /\ at_rest d' /\
      prepare_packet ck tb (zget (mbuf_pool (shared d)) i) (zget (metadata_pool (shared d)) i) = Ret b /\
      contents (free_ring (shared d')) = contents (free_ring (shared d)) ++ [i] /\ wire d' = wire d ++ [b].
Proof.
  intros W Hl (Hsig & Happs & Hst & Hck & tb & Hb & Htb) Hcnt diff.
  destruct (realtime_ok _ Hck) as [_ Hnow]. fold (now_of t) in Hnow. rewrite Hb.
  pose proof (lone_fits d N lost i W Hl) as Hfit. pose proof (lone_short d i Hl) as Hsh.
  destruct (loop_body_spec ck d N lost (stack t) (now_of t) tb) as (d' & ev & lost' & E & W' & I); try done.
  destruct (loop_body_frame ck _ _ _ _ _ _ E) as [_ Hc'].
  assert (Htx' : contents (tx_ring (shared d')) = []).
  { apply (loop_body_clears ck d N lost (stack t) (now_of t) (Some tb) d' ev); try done. unfold burst_size. lia. }
  pose proof (dw_perm _ _ _ W) as P. rewrite <- (dw_perm _ _ _ W'), Htx', (app_assoc (contents (tx_ring _))), Hl in P.
  unfold iteration in I. rewrite Hl in I. destruct I as (Em & Ed & I). cbn [app] in P.
  exists d', ev, lost'. do 5 (split; [done|]). unfold lone, at_rest. rewrite Htx'.
  assert (Hq : forall k, queued (prio_queue d') ++ k ≡ₚ k -> queued (prio_queue d') = []).
  { intros k Hk%Permutation_length. rewrite length_app in Hk. apply length_zero_iff_nil. lia. }
  destruct ev as [|df|df|j df b].
  - destruct I as (_ & Ht & Es & _). pose proof (zlen_queued _ (dw_pq _ _ _ W)) as Hz.
    apply (f_equal zlen) in Hl. rewrite Ht, zlen_app, Hz, Es in Hl. discriminate Hl.
  - destruct I as (j & ->%list_elem_of_singleton & -> & -> & Hlt & Ef & Ew). fold diff in Hlt |- *.
    rewrite (proj2 (Z.ltb_lt _ _)) by done. split_and!; try done.
    rewrite Ef in P. apply Permutation_app_inv_l in P.
    apply (Permutation_app_inv_r lost [i] (queued (prio_queue d'))) in P. by apply Permutation_singleton_l in P.
  - destruct I as (j & ->%list_elem_of_singleton & -> & -> & Hlt & Ef & Ew & _). fold diff in Hlt |- *.
    rewrite (proj2 (Z.ltb_ge _ _)), (proj2 (Z.ltb_lt _ _)) by (unfold tx_delta_ns; lia). split_and!; try done.
    rewrite Ef in P. apply Permutation_app_inv_l in P. apply (Hq (i :: lost)). by symmetry.
  - destruct I as (->%list_elem_of_singleton & -> & -> & Hr & Hp & Ef & Hw & _). fold diff in Hr |- *.
    rewrite !(proj2 (Z.ltb_ge _ _)) by lia. exists b, tb. split_and!; try done.
    rewrite Ef, <- !app_assoc in P. apply Permutation_app_inv_l, Permutation_cons_inv in P. apply (Hq lost). by symmetry.
Qed.

(** A step of the loop at a quiet tick. *)
Lemma quiet_step ck t ticks d d' ev :
  quiet_tick t -> loop_body ck d (stack t) (now_of t) (dpdk_buf t) = Ret (d', ev) ->
  daemon_loop ck (t :: ticks) 1 d = let* (d'', evs) := daemon_loop ck ticks 1 d' in Ret (d'', ev :: evs).
Proof.
  intros (Hsig & Happs & _ & Hck & _) E. destruct (realtime_ok _ Hck) as [En _].
  cbn [daemon_loop]. rewrite Hsig. cbn [Z.eqb]. rewrite En. cbn [bind]. fold (now_of t).
  by rewrite Happs, with_shared_id, E.
Qed.

(** How a loop goes that sends the packet: iterations that leave it alone, one
    inside the 50 microseconds before its time that hands over frame [b], and then
    a system at rest with the buffer at the end of the free ring. *)
Definition sent_on_time (ck : list Z -> Z) (ticks rest : list tick) (d : kt_daemon) (N : Z) (lost : list Z)
    (i : Z) (b : rte_mbuf) : Prop :=
  let T := txtime (zget (metadata_pool (shared d)) i) in
  exists pre t post evs d' tb, ticks = pre ++ t :: post /\ dpdk_buf t = Some tb /\
    0 <= T - now_of t <= tx_delta_ns /\ length evs = length pre /\ Forall is_early evs /\
    prepare_packet ck tb (zget (mbuf_pool (shared d)) i) (zget (metadata_pool (shared d)) i) = Ret b /\
    zlen (Packet.data tb) = 2048 /\
    daemon_wf d' N lost /\ at_rest d' /\ wire d' = wire d ++ [b] /\
    contents (free_ring (shared d')) = contents (free_ring (shared d)) ++ [i] /\
    daemon_loop ck (ticks ++ rest) 1 d =
      let* (d'', evs') := daemon_loop ck (post ++ rest) 1 d' in Ret (d'', evs ++ Sent i (T - now_of t) b :: evs').

Lemma punctual_spec ck rest ticks : forall prev d N lost i,
  let T := txtime (zget (metadata_pool (shared d)) i) in
  daemon_wf d N lost -> lone d i ->
  Forall quiet_tick ticks -> 0 <= counter d -> counter d + zlen ticks < INT64_MAX ->
  steady tx_delta_ns prev (now_of <$> ticks) -> prev + tx_delta_ns <= T ->
  (exists t, last ticks = Some t /\ T - tx_delta_ns <= now_of t) ->
  exists b, sent_on_time ck ticks rest d N lost i b.
Proof.
  induction ticks as [|t ticks IH]; intros prev d N lost i T W Hlone Hq Hc0 Hc1 Hst Hprev Hlast.
  { destruct Hlast as (t & Ht & _). discriminate Ht. }
  rewrite fmap_cons in Hst. destruct Hst as [Hstep Hst]. apply Forall_cons in Hq as [Hq Hqs].
  rewrite zlen_cons in Hc1. pose proof (zlen_nonneg ticks).
  destruct (lone_iteration ck d N lost i t) as (d1 & ev & lost1 & E & Em & Ed & W1 & Hc & Hcase);
    try done; try lia. fold T in Hcase.
  pose proof (fun l => quiet_step ck t l d d1 ev Hq E) as Hloop. clear E.
  destruct (Z.ltb_spec tx_delta_ns (T - now_of t)) as [Hearly|Hdue].
  - destruct Hcase as (-> & -> & Hl1 & Ef1 & Ew1). destruct ticks as [|t' ticks].
    { destruct Hlast as (t' & [= <-] & Hl). lia. }
    destruct (IH (now_of t) d1 N lost i) as (b & pre & u & post & evs & d' & tb & Et & Hb & Hr & Hl & He & Hp & Htb & W' & R' & Ew' & Ef' & El);
      try done; try lia; rewrite ?Ed; try (fold T; lia).
    { exact Hlast. }
    rewrite Em, Ed in Hp. rewrite Ed in El, Hr. fold T in El, Hr. rewrite Ew1 in Ew'. rewrite Ef1 in Ef'.
    exists b, (t :: pre), u, post, (Early (T - now_of t) :: evs), d', tb. fold T. split_and!; try done; try lia.
    { by rewrite Et. }
    { cbn. lia. }
    { by constructor. }
    rewrite <- app_comm_cons, Hloop, El. by destruct (daemon_loop ck (post ++ rest) 1 d') as [[]| | |].
  - rewrite (proj2 (Z.ltb_ge (T - now_of t) 0)) in Hcase by lia.
    destruct Hcase as (b & tb & Hb & -> & -> & Hr1 & Hp & Ef & Ew). pose proof Hq as (_ & _ & _ & _ & tb' & Hb' & Htb).
    rewrite Hb in Hb'. injection Hb' as <-.
    exists b, [], t, ticks, [], d1, tb. fold T. split_and!; try done; try lia. exact (Hloop (ticks ++ rest)).
Qed.

(** A packet is punctual when the loop is.  A single packet waits in the queue,
    the first iteration comes at most at the packet's time, no two successive
    iterations are more than 50 microseconds apart, and they go on until less than
    that is left: then the packet is not dropped but handed to the card, by the first
    iteration that finds at most 50 microseconds left, and never after its time;
    the iterations before that one all leave it in the queue. *)
Lemma packet_is_punctual ck t0 ticks rest d N lost i :
  let T := txtime (zget (metadata_pool (shared d)) i) in
  daemon_wf d N lost -> lone d i ->
  Forall quiet_tick (t0 :: ticks) -> 0 <= counter d -> counter d + zlen (t0 :: ticks) < INT64_MAX ->
  steady tx_delta_ns (now_of t0) (now_of <$> ticks) -> now_of t0 <= T ->
  (exists t, last (t0 :: ticks) = Some t /\ T - tx_delta_ns <= now_of t) ->
  exists b, sent_on_time ck (t0 :: ticks) rest d N lost i b.
Proof.
  intros T W Hl Hq Hc0 Hc1 Hst Hfirst Hlast.
  apply (punctual_spec ck rest (t0 :: ticks) (T - tx_delta_ns)); try done; [|fold T; lia].
  rewrite fmap_cons. split; [lia|done].
Qed.

(** What the library hands over for a message to a known network, seen from the
    daemon: a system at rest has a single packet afterwards, with the time, the
    addresses and the payload of the message. *)
Lemma message_is_lone default_sendmsg d N lost g fd msg flags tx bs addr interface iov iovs i q :
  daemon_wf d N lost -> at_rest d -> contents (free_ring (shared d)) = i :: q ->
  g_shared g = shared d -> macs_ok g -> timed_socket g fd AF_INET -> find_txtime msg = Some tx ->
  msg_name msg = Some bs -> as_sockaddr_in bs = Ret addr ->
  kt_interface_get_by_net g (Some addr) = Some interface ->
  msg_iov msg = iov :: iovs -> zlen iov <= kt_mbuf_size - 42 -> 0 <= tx <= INT64_MAX ->
  exists g', sendmsg default_sendmsg g fd msg flags = Ret (g', Some (zlen iov)) /\
    let d0 := with_shared d (g_shared g') in
    daemon_wf d0 N lost /\ lone d0 i /\ contents (free_ring (shared d0)) = q /\
    txtime (zget (metadata_pool (shared d0)) i) = tx /\
    forall ck tb b, zlen (Packet.data tb) = 2048 ->
      prepare_packet ck tb (zget (mbuf_pool (shared d0)) i) (zget (metadata_pool (shared d0)) i) = Ret b ->
      parse_udp_frame (take (Z.to_nat (data_len b)) (Packet.data b)) =
        Some (mk_udp_frame kt_default_dst_mac (mac interface) 64
                (ntohl (s_addr (ifaddr interface))) (ntohl (s_addr addr))
                SRC_PORT (ntohs (sin_port addr)) iov).
Proof.
  intros W [Htx Hq] Hf Hg Hm Hs Hfind Hn Ha Hi Hv Hsz Hmax.
  pose proof (sendmsg_inet_delivers default_sendmsg g fd msg flags tx bs addr interface iov iovs N) as H.
  rewrite Hg, Hf in H.
  destruct H as (g' & E & W' & Cf & Ct & Hpay & Hmd & _); try done; [apply W|unfold kt_mbuf_size in *; lia|].
  rewrite Hg, Htx in Ct. cbn [app] in Ct. set (md := mk_metadata _ _ _ _ _ _ _ _) in Hmd.
  destruct (sendmsg_outcome default_sendmsg g fd msg flags N g' (Some (zlen iov))) as (_ & _ & _ & Ho); try done.
  { rewrite Hg. apply W. }
  assert (Wd : daemon_wf (with_shared d (g_shared g')) N lost).
  { destruct Ho as [->|(v & vs & tx' & Hv' & _ & Htx' & Hmv)]; [by rewrite Hg, with_shared_id|].
    rewrite Hfind in Htx'. injection Htx' as <-. rewrite Hv in Hv'. injection Hv' as <- <-. rewrite Hg in Hmv.
    by apply (send_daemon_wf d N lost _ tx iov). }
  assert (Hok : packet_ok md).
  { rewrite <- Hmd. apply (dw_pkts _ _ _ Wd). cbn [with_shared shared]. rewrite Ct. by left. }
  assert (Hir : 0 <= i < N) by (apply (indices_ok d N lost i W); rewrite Hf; by left).
  exists g'. split; [done|]. cbn [with_shared shared prio_queue] in *. unfold lone. cbn [with_shared shared prio_queue].
  split_and!; [done|by rewrite Ct, Hq|done|by rewrite Hmd|]. intros ck tb b Hroom Ep. rewrite Hmd in Ep.
  destruct (prepare_udp_parse ck tb (zget (mbuf_pool (g_shared g')) i) md) as (b' & Eb & P & _).
  - apply Hok.
  - done.
  - rewrite (sw_mbuf _ _ W') by done. apply Hok.
  - destruct Hok as (_ & _ & _ & Hudp). specialize (Hudp eq_refl). unfold kt_mbuf_size in Hudp. lia.
  - rewrite Ep in Eb. injection Eb as <-. rewrite P. unfold md. cbn [psize]. by rewrite Hpay.
Qed.

(** C1: end to end.  While nothing else is in the system, an application sends a
    timed UDP message to a known network, of at most 2006 bytes and however long in advance;
    no other message follows, and DPDK has buffers.
    When the loop comes round at least every 50 microseconds, first not after
    the time of the message and until its window has opened, then one
    iteration hands the card a frame, inside the 50 microseconds before the time
    of the message; all iterations before that leave the packet where it is.
    A receiver parses the frame to the hardware and IP address of the sending
    interface, the destination address and port the application named, and exactly the bytes it
    sent; nothing is lost and the buffer is back at the end of the free ring.
    When instead the first iteration comes after the time of the message, the message is
    dropped without a frame and its buffer is lost. *)
Theorem message_reaches_the_wire ck default_sendmsg t0 ticks rest d N lost g fd msg flags tx bs addr interface iov iovs i q :
  daemon_wf d N lost -> at_rest d -> contents (free_ring (shared d)) = i :: q ->
  g_shared g = shared d -> macs_ok g -> timed_socket g fd AF_INET -> find_txtime msg = Some tx ->
  msg_name msg = Some bs -> as_sockaddr_in bs = Ret addr ->
  kt_interface_get_by_net g (Some addr) = Some interface ->
  msg_iov msg = iov :: iovs -> zlen iov <= kt_mbuf_size - 42 -> 0 <= tx <= INT64_MAX ->
  Forall quiet_tick (t0 :: ticks) -> 0 <= counter d -> counter d + zlen (t0 :: ticks) < INT64_MAX ->
  exists g', sendmsg default_sendmsg g fd msg flags = Ret (g', Some (zlen iov)) /\
    let loop := fun ticks => daemon_loop ck ticks 1 in
    let d0 := with_shared d (g_shared g') in
    (now_of t0 <= tx -> steady tx_delta_ns (now_of t0) (now_of <$> ticks) ->
     (exists t, last (t0 :: ticks) = Some t /\ tx - tx_delta_ns <= now_of t) ->
     exists pre t post evs d' b, t0 :: ticks = pre ++ t :: post /\
       0 <= tx - now_of t <= tx_delta_ns /\ length evs = length pre /\ Forall is_early evs /\
       parse_udp_frame (take (Z.to_nat (data_len b)) (Packet.data b)) =
         Some (mk_udp_frame kt_default_dst_mac (mac interface) 64
                 (ntohl (s_addr (ifaddr interface))) (ntohl (s_addr addr))
                 SRC_PORT (ntohs (sin_port addr)) iov) /\
       daemon_wf d' N lost /\ at_rest d' /\ wire d' = wire d ++ [b] /\
       contents (free_ring (shared d')) = q ++ [i] /\
       loop ((t0 :: ticks) ++ rest) d0 =
         let* (d'', evs') := loop (post ++ rest) d' in Ret (d'', evs ++ Sent i (tx - now_of t) b :: evs')) /\
    (tx < now_of t0 ->
     exists d', daemon_wf d' N (i :: lost) /\ at_rest d' /\ wire d' = wire d /\
       contents (free_ring (shared d')) = q /\
       loop ((t0 :: ticks) ++ rest) d0 =
         let* (d'', evs') := loop (ticks ++ rest) d' in Ret (d'', Late (tx - now_of t0) :: evs')).
Proof.
  intros W Hr Hf Hg Hm Hs Hfind Hn Ha Hi Hv Hsz Hmax Hq Hc0 Hc1.
  destruct (message_is_lone default_sendmsg d N lost g fd msg flags tx bs addr interface iov iovs i q)
    as (g' & E & W0 & Hl & Cf & Ht & Hparse); try done.
  exists g'. split; [done|]. cbv zeta. set (d0 := with_shared d (g_shared g')) in *. split.
  - intros Hfirst Hst Hlast.
    destruct (packet_is_punctual ck t0 ticks rest d0 N lost i)
      as (b & pre & t & post & evs & d' & tb & Et & Hb & Hw & Hlen & He & Hp & Htb & W' & R' & Ew & Ef & El);
      try done; try (by rewrite Ht).
    rewrite Ht in Hw, El. rewrite Cf in Ef. exists pre, t, post, evs, d', b. split_and!; try done; [lia|lia|].
    by apply (Hparse ck tb).
  - intros Hlate. apply Forall_cons in Hq as [Hq _]. rewrite zlen_cons in Hc1. pose proof (zlen_nonneg ticks).
    destruct (lone_iteration ck d0 N lost i t0) as (d' & ev & lost' & El & _ & _ & W' & _ & Hcase);
      try done; [cbn; lia|]. rewrite Ht in Hcase.
    rewrite (proj2 (Z.ltb_ge _ _)), (proj2 (Z.ltb_lt _ _)) in Hcase by (unfold tx_delta_ns; lia).
    destruct Hcase as (-> & -> & R' & Ef & Ew). rewrite Cf in Ef.
    exists d'. split_and!; try done. rewrite <- app_comm_cons. by apply quiet_step.
Qed.

(** A message for 1000 microseconds, sent before 900 microseconds. *)
Definition advance_msg : msghdr :=
  mk_msghdr (Some demo_name) [[7; 8; 9]] [mk_cmsg SOL_SOCKET SCM_TXTIME 1000000].

Definition advance_daemon : kt_daemon :=
  match sendmsg (fun _ _ _ => -1) demo_lib 5 advance_msg 0 with
  | Ret (g, _) => with_shared start_daemon (g_shared g)
  | _ => start_daemon
  end.

(** The bound cannot be relaxed: with iterations one nanosecond further apart
    the message is dropped. *)
Lemma slow_loop_drops_the_packet :
  (let* (_, evs) := daemon_loop demo_cksum [demo_tick 949999; demo_tick 1000001; demo_signal] 1 advance_daemon in
   Ret evs) = Ret [Early 50001; Late (-1)].
Proof. vm_compute. reflexivity. Qed.

Lemma message_reaches_the_wire_witness :
  exists g', sendmsg (fun _ _ _ => -1) demo_lib 5 advance_msg 0 = Ret (g', Some 3) /\
    exists pre t post evs d' b, [demo_tick 900000; demo_tick 949999; demo_tick 999999] = pre ++ t :: post /\
      0 <= 1000000 - now_of t <= 50000 /\ length evs = length pre /\ Forall is_early evs /\
      parse_udp_frame (take (Z.to_nat (data_len b)) (Packet.data b)) =
        Some (mk_udp_frame kt_default_dst_mac [2; 0; 0; 0; 0; 7] 64 167772161 167772162 9999 8080 [7; 8; 9]) /\
      daemon_wf d' 3 [] /\ wire d' = [b] /\ contents (free_ring (shared d')) = [1; 2; 0] /\
      daemon_loop demo_cksum [demo_tick 900000; demo_tick 949999; demo_tick 999999; demo_signal] 1
        (with_shared start_daemon (g_shared g')) =
        let* (d'', evs') := daemon_loop demo_cksum (post ++ [demo_signal]) 1 d' in
        Ret (d'', evs ++ Sent 0 (1000000 - now_of t) b :: evs').
Proof.
  destruct (message_reaches_the_wire demo_cksum (fun _ _ _ => -1) (demo_tick 900000)
    [demo_tick 949999; demo_tick 999999] [demo_signal] start_daemon 3 [] demo_lib 5 advance_msg 0 1000000
    demo_name (mk_sockaddr_in 2 36895 33554442) demo_interface [7; 8; 9] [] 0 [1; 2] start_daemon_wf)
    as (g' & E & H & _).
  - split; reflexivity.
  - reflexivity.
  - reflexivity.
  - apply demo_macs_ok.
  - eexists. by split; [reflexivity|].
  - reflexivity.
  - reflexivity.
  - reflexivity.
  - reflexivity.
  - reflexivity.
  - zcompute.
  - zcompute.
  - repeat (apply Forall_cons; split; [apply demo_tick_quiet; zcompute|]). constructor.
  - zcompute.
  - zcompute.
  - exists g'. split; [exact E|].
    destruct H as (pre & t & post & evs & d' & b & Et & Hw & Hl & He & P & W & _ & Ew & Ef & El).
    { zcompute. }
    { zcompute. }
    { exists (demo_tick 999999). split; [reflexivity|zcompute]. }
    exists pre, t, post, evs, d', b. repeat (split; [assumption|]). exact El.
Defined.
