(* ===== verification/Waiting.v ===== *)
(** * Packets that wait behind others (src/ktsnd.c, src/src/kt_queue.c)

    An iteration of the daemon deals with one packet at most, the one at the root
    of the queue.  Whether the others leave in time depends on how many there are,
    how far apart their times are and how often the loop comes round; and a packet
    that the queue puts behind a much later one is never sent at all. *)

From S2P Require Import Prelude Memory RingBuf PrioQueue Libktsn Packet Daemon System DaemonMain Timing.

(** ** One iteration without new messages *)

Definition root (d : kt_daemon) : Z := PrioQueue.data (zget (elems (prio_queue d)) 0).
Definition due (d : kt_daemon) (i : Z) : Z := txtime (zget (metadata_pool (shared d)) i).

(** Only the packet at the root is looked at. *)
Lemma transmit_due_root ck d N lost now tb d' ev :
  daemon_wf d N lost -> 0 <= now <= INT64_MAX -> transmit_due ck d now tb = Ret (d', ev) ->
  match ev with
  | Idle => PrioQueue.size (prio_queue d) = 0 /\ d' = d
  | Early x => 0 < PrioQueue.size (prio_queue d) /\ x = due d (root d) - now /\ d' = d
  | Late x => x = due d (root d) - now /\ queued (prio_queue d) ≡ₚ root d :: queued (prio_queue d')
  | Sent i x _ =>
      x = due d (root d) - now /\ queued (prio_queue d) ≡ₚ root d :: queued (prio_queue d') /\ i = root d
  end.
Proof.
  intros W Hnow. pose proof (dw_pq _ _ _ W) as Wq. unfold transmit_due, kt_prio_queue_is_empty.
  destruct (Z.eqb_spec (PrioQueue.size (prio_queue d)) 0) as [Hz|Hnz]; [by intros [= <- <-]|].
  assert (Hpos : 0 < PrioQueue.size (prio_queue d)) by (destruct Wq; lia).
  destruct (root_node d N lost W Hpos) as (_ & _ & _ & Hp & _ & Ht & _).
  rewrite getmin_ret by done. cbn [bind]. unfold key, kt_get_time_diff_ns. rewrite Hp.
  rewrite i64_op_id by (unfold INT64_MIN, INT64_MAX in *; lia). cbn [bind].
  fold (root d). fold (due d (root d)).
  destruct (Z.ltb_spec tx_delta_ns (due d (root d) - now)); [by intros [= <- <-]|].
  destruct (Z.ltb_spec (due d (root d) - now) 0).
  - destruct (extract_min_spec (prio_queue d) false Wq Hpos) as (q' & r & -> & _ & _ & _ & Pn & _). cbn [bind].
    intros [= <- <-]. split; [done|]. cbn [prio_queue]. unfold queued. by rewrite Pn.
  - destruct (extract_min_spec (prio_queue d) true Wq Hpos) as (q' & r & -> & _ & _ & _ & Pn & _). cbn [bind].
    destruct tb as [tb|]; [|done]. intros HE. inv_res. repeat case_match; inv_res.
    repeat match goal with x : (_ * _)%type |- _ => destruct x end. inv_res.
    split_and!; try done. cbn [prio_queue]. unfold queued. by rewrite Pn.
Qed.

(** With nothing in the transmission ring the burst is empty. *)
Lemma quiet_body ck d N lost table now tb :
  daemon_wf d N lost -> contents (tx_ring (shared d)) = [] -> zlen table = 64 ->
  exists tx, loop_body ck d table now tb = transmit_due ck (absorbed d tx (prio_queue d)) now tb /\
    daemon_wf (absorbed d tx (prio_queue d)) N lost.
Proof.
  intros W Htx Hl. destruct (absorb d N lost table W Hl (empty_fits d N lost W Htx))
    as (tx & q & table' & av & E1 & E2 & W1 & _).
  pose proof (zlen_contents (tx_ring (shared d))) as Hu. rewrite Htx, zlen_nil in Hu.
  unfold burst_size in *. rewrite <- Hu in E1, E2. cbn in E2. injection E2 as <-.
  exists tx. split; [|done]. unfold loop_body, burst_size. by rewrite E1.
Qed.

(** What an iteration does to the packet at the root. *)
Definition serves (ck : list Z -> Z) (d : kt_daemon) (lost : list Z) (t : tick) (d' : kt_daemon) (ev : event)
    (lost' : list Z) : Prop :=
  match ev with
  | Idle => queued (prio_queue d) = [] /\ lost' = lost /\ prio_queue d' = prio_queue d
  | Early x =>
      queued (prio_queue d) <> [] /\ lost' = lost /\ prio_queue d' = prio_queue d /\
      x = due d (root d) - now_of t /\ tx_delta_ns < x
  | Late x =>
      queued (prio_queue d) ≡ₚ root d :: queued (prio_queue d') /\ lost' = root d :: lost /\
      x = due d (root d) - now_of t /\ x < 0
  | Sent i x b =>
      queued (prio_queue d) ≡ₚ root d :: queued (prio_queue d') /\ lost' = lost /\ i = root d /\
      x = due d (root d) - now_of t /\ 0 <= x <= tx_delta_ns /\
      exists tb, dpdk_buf t = Some tb /\
        prepare_packet ck tb (zget (mbuf_pool (shared d)) i) (zget (metadata_pool (shared d)) i) = Ret b
  end.

Definition sent_by (ev : event) : list Z := match ev with Sent i _ _ => [i] | _ => [] end.
Definition sent (evs : list event) : list Z := concat (sent_by <$> evs).

Lemma quiet_iteration ck d N lost t :
  daemon_wf d N lost -> contents (tx_ring (shared d)) = [] -> quiet_tick t -> 0 <= counter d < INT64_MAX ->
  exists d' ev lost',
    (forall rest, daemon_loop ck (t :: rest) 1 d =
       let* (d'', evs) := daemon_loop ck rest 1 d' in Ret (d'', ev :: evs)) /\
    daemon_wf d' N lost' /\ contents (tx_ring (shared d')) = [] /\
    mbuf_pool (shared d') = mbuf_pool (shared d) /\ metadata_pool (shared d') = metadata_pool (shared d) /\
    counter d <= counter d' <= counter d + 1 /\ serves ck d lost t d' ev lost'.
Proof.
  intros W Htx (Hsig & Happs & Hst & Hck & tb & Hb & Htb) Hcnt.
  destruct (realtime_ok _ Hck) as [En Hnow]. fold (now_of t) in Hnow.
  assert (Hfit : burst_fits d) by (by apply empty_fits with N lost).
  destruct (loop_body_spec ck d N lost (stack t) (now_of t) tb) as (d' & ev & lost' & E & W' & I); try done.
  destruct (loop_body_frame ck _ _ _ _ _ _ E) as [Htx' Hcnt']. specialize (Htx' N lost W Hst Hfit Htx).
  exists d', ev, lost'. destruct I as (Em & Ed & I). split_and!; try done; [|lia|lia|].
  { intros rest. cbn [daemon_loop]. rewrite Hsig. cbn [Z.eqb]. rewrite En. cbn [bind]. fold (now_of t).
    by rewrite Happs, with_shared_id, Hb, E. }
  destruct (quiet_body ck d N lost (stack t) (now_of t) (Some tb) W Htx Hst) as (tx & E1 & W1).
  rewrite E1 in E. pose proof (transmit_due_root ck _ N lost _ _ _ _ W1 Hnow E) as Hroot.
  change (root (absorbed d tx (prio_queue d))) with (root d) in Hroot.
  change (due (absorbed d tx (prio_queue d)) (root d)) with (due d (root d)) in Hroot.
  cbn [absorbed prio_queue] in Hroot. pose proof (zlen_queued _ (dw_pq _ _ _ W)) as Hz.
  assert (Hne : 0 < PrioQueue.size (prio_queue d) -> queued (prio_queue d) <> []).
  { intros Hp Hn. rewrite Hn, zlen_nil in Hz. lia. }
  pose proof (dw_perm _ _ _ W) as P. rewrite <- (dw_perm _ _ _ W'), Htx, Htx' in P. cbn [app] in P.
  destruct ev as [|x|x|i x b]; cbn [serves].
  - destruct I as (-> & _), Hroot as [Hs ->]. split_and!; try done.
    apply length_zero_iff_nil. unfold zlen in Hz. lia.
  - destruct I as (j & _ & -> & _ & Hlt & _), Hroot as (Hp & Hx & ->). split_and!; auto.
  - destruct Hroot as [Hx Pq]. destruct I as (j & _ & -> & _ & Hlt & Ef & _).
    rewrite Ef, Pq in P. apply Permutation_app_inv_l in P.
    assert (P' : [root d] ++ (queued (prio_queue d') ++ lost) ≡ₚ [j] ++ (queued (prio_queue d') ++ lost))
      by (cbn [app]; rewrite <- Permutation_middle in P; exact P).
    apply Permutation_app_inv_r, Permutation_singleton_inj in P' as <-. by split_and!.
  - destruct Hroot as (Hx & Pq & Hi). destruct I as (_ & -> & _ & Hr & Hp & _). split_and!; try done; try lia.
    by exists tb.
Qed.

(** ** Packets close to each other *)

(** What an iteration may show when nothing is late. *)
Definition on_time (ck : list Z -> Z) (sh : kt_shared) (t : tick) (ev : event) : Prop :=
  match ev with
  | Idle => True
  | Early x => tx_delta_ns < x
  | Late _ => False
  | Sent i x b =>
      x = txtime (zget (metadata_pool sh) i) - now_of t /\ 0 <= x <= tx_delta_ns /\
      exists tb, dpdk_buf t = Some tb /\
        prepare_packet ck tb (zget (mbuf_pool sh) i) (zget (metadata_pool sh) i) = Ret b
  end.

(** The iterations at which every packet due at [hi] or before may be sent. *)
Definition open_ticks (hi : Z) (ticks : list tick) : list tick :=
  filter (fun t => hi - tx_delta_ns <= now_of t) ticks.

Lemma root_queued d N lost :
  daemon_wf d N lost -> queued (prio_queue d) <> [] -> root d ∈ queued (prio_queue d).
Proof.
  intros W Hne. apply (root_node d N lost W). pose proof (zlen_queued _ (dw_pq _ _ _ W)).
  destruct (queued (prio_queue d)) as [|x l]; [done|]. rewrite zlen_cons in H. zlia.
Qed.

(** One iteration before the earliest time. *)
Lemma punctual_iteration ck d N lost lo hi t :
  daemon_wf d N lost -> contents (tx_ring (shared d)) = [] -> quiet_tick t -> 0 <= counter d < INT64_MAX ->
  (forall i, i ∈ queued (prio_queue d) -> lo <= due d i <= hi) -> (queued (prio_queue d) <> [] -> now_of t <= lo) ->
  exists d' ev,
    (forall rest, daemon_loop ck (t :: rest) 1 d =
       let* (d'', evs) := daemon_loop ck rest 1 d' in Ret (d'', ev :: evs)) /\
    daemon_wf d' N lost /\ contents (tx_ring (shared d')) = [] /\
    mbuf_pool (shared d') = mbuf_pool (shared d) /\ metadata_pool (shared d') = metadata_pool (shared d) /\
    counter d <= counter d' <= counter d + 1 /\ on_time ck (shared d) t ev /\
    queued (prio_queue d) ≡ₚ sent_by ev ++ queued (prio_queue d') /\
    (hi - tx_delta_ns <= now_of t -> queued (prio_queue d) <> [] -> sent_by ev <> []).
Proof.
  intros W Htx Hq Hcnt Hin Hnow.
  destruct (quiet_iteration ck d N lost t W Htx Hq Hcnt) as (d' & ev & lost' & E & W' & Htx' & Em & Ed & Hc & I).
  exists d', ev. pose proof (root_queued d N lost W) as Hr.
  destruct ev as [|x|x|i x b]; cbn [serves on_time sent_by app] in *.
  - destruct I as (Hn & -> & Eq). rewrite Eq, Hn. split_and!; try done; lia.
  - destruct I as (Hne & -> & Eq & Hx & Hlt). rewrite Eq. split_and!; try done; try lia.
    intros Ho _. specialize (Hin _ (Hr Hne)). lia.
  - destruct I as (Pq & -> & Hx & Hlt). exfalso.
    assert (Hne : queued (prio_queue d) <> []) by (intros Hn; rewrite Hn in Pq; by apply Permutation_nil_cons in Pq).
    specialize (Hin _ (Hr Hne)). specialize (Hnow Hne). lia.
  - destruct I as (Pq & -> & -> & Hx & Hb & tb & Htb & Hp). split_and!; try done; try lia. by exists tb.
Qed.

Lemma burst_spec ck P lo hi k rest ticks : forall prev d N lost,
  daemon_wf d N lost -> contents (tx_ring (shared d)) = [] ->
  (forall i, i ∈ queued (prio_queue d) -> lo <= due d i <= hi) ->
  0 <= P -> hi - lo + k * P <= tx_delta_ns -> Forall quiet_tick ticks ->
  0 <= counter d -> counter d + zlen ticks < INT64_MAX -> steady P prev (now_of <$> ticks) ->
  let m := zlen (queued (prio_queue d)) in
  m <= k -> (m <> 0 -> prev <= hi - tx_delta_ns + (k - m) * P) -> m <= zlen (open_ticks hi ticks) ->
  exists d' evs, daemon_wf d' N lost /\ contents (tx_ring (shared d')) = [] /\ queued (prio_queue d') = [] /\
    Forall2 (on_time ck (shared d)) ticks evs /\ sent evs ≡ₚ queued (prio_queue d) /\
    daemon_loop ck (ticks ++ rest) 1 d =
      let* (d'', evs') := daemon_loop ck rest 1 d' in Ret (d'', evs ++ evs').
Proof.
  induction ticks as [|t ticks IH]; intros prev d N lost W Htx Hin HP Hk Hq Hc0 Hc1 Hst m Hm Hprev Hopen.
  { exists d, []. assert (Hn : queued (prio_queue d) = []).
    { apply length_zero_iff_nil. unfold m, zlen in Hopen. cbn in Hopen. lia. }
    rewrite Hn. split_and!; try done. cbn [app]. by destruct (daemon_loop ck rest 1 d) as [[]| | |]. }
  rewrite fmap_cons in Hst. destruct Hst as [Hstep Hst]. apply Forall_cons in Hq as [Hq Hqs].
  rewrite zlen_cons in Hc1. pose proof (zlen_nonneg ticks). pose proof (zlen_nonneg (queued (prio_queue d))) as Hm0.
  fold m in Hm0. assert (Hpos : queued (prio_queue d) <> [] -> 1 <= m).
  { unfold m. destruct (queued (prio_queue d)); [done|]. rewrite zlen_cons. zlia. }
  destruct (punctual_iteration ck d N lost lo hi t) as (d1 & ev & E & W1 & Htx1 & Em & Ed & Hc & Ho & Pq & Hs);
    try done; try lia.
  { intros Hne. specialize (Hpos Hne). specialize (Hprev ltac:(lia)). nia. }
  assert (Hlen : m = zlen (sent_by ev) + zlen (queued (prio_queue d1))).
  { unfold m, zlen. rewrite (Permutation_length Pq), length_app. lia. }
  assert (Hev : 0 <= zlen (sent_by ev) <= 1) by (destruct ev; zcompute).
  assert (Hone : hi - tx_delta_ns <= now_of t -> m <> 0 -> zlen (sent_by ev) = 1).
  { intros Hh Hne. destruct ev; try done; exfalso; apply Hs; try done; intros Hn; unfold m in Hne; by rewrite Hn in Hne. }
  destruct (IH (now_of t) d1 N lost) as (d' & evs & W' & Htx' & Hq' & Ho' & Ps & E'); try done; try lia.
  - intros i Hi. unfold due. rewrite Ed. apply Hin. rewrite Pq. apply elem_of_app. by right.
  - intros Hne. specialize (Hprev ltac:(zlia)).
    destruct (decide (hi - tx_delta_ns <= now_of t)) as [Hh|Hh]; [specialize (Hone Hh ltac:(zlia)); nia|].
    assert (0 <= (k - zlen (queued (prio_queue d1))) * P) by (apply Z.mul_nonneg_nonneg; lia). lia.
  - unfold open_ticks in *. rewrite filter_cons in Hopen. case_decide as Hh; [rewrite zlen_cons in Hopen|lia].
    destruct (decide (m = 0)); [zlia|]. specialize (Hone Hh ltac:(done)). lia.
  - exists d', (ev :: evs). split_and!; try done.
    + constructor; [done|]. eapply Forall2_impl; [exact Ho'|]. intros u e. unfold on_time. by rewrite Em, Ed.
    + unfold sent in *. rewrite fmap_cons. cbn [concat]. by rewrite Ps, Pq.
    + cbn [app]. rewrite E, E'. by destruct (daemon_loop ck rest 1 d') as [[]| | |].
Qed.

(** ** Packets behind later ones *)

Fixpoint monotone (prev : Z) (nows : list Z) : Prop :=
  match nows with [] => True | now :: nows => prev <= now /\ monotone now nows end.

(** The packet is past its time, or the queue has one in front of it that is
    due more than 50 microseconds later; or its buffer is lost already. *)
Definition doomed (d : kt_daemon) (lost : list Z) (i now : Z) : Prop :=
  i ∈ lost \/
  i ∈ queued (prio_queue d) /\ (due d i < now \/ due d i < due d (root d) - tx_delta_ns).

(** An iteration that finds every packet due takes one out of the queue. *)
Lemma serves_shrinks ck d N lost t d' ev lost' hi :
  daemon_wf d N lost -> serves ck d lost t d' ev lost' ->
  (forall j, j ∈ queued (prio_queue d) -> due d j <= hi) ->
  queued (prio_queue d') ⊆ queued (prio_queue d) /\
  zlen (queued (prio_queue d')) <= zlen (queued (prio_queue d)) /\
  (hi - tx_delta_ns <= now_of t -> queued (prio_queue d) <> [] ->
   zlen (queued (prio_queue d')) = zlen (queued (prio_queue d)) - 1).
Proof.
  intros W I Hin. pose proof (root_queued d N lost W) as Hr.
  assert (Hpop : queued (prio_queue d) ≡ₚ root d :: queued (prio_queue d') ->
    queued (prio_queue d') ⊆ queued (prio_queue d) /\
    zlen (queued (prio_queue d)) = 1 + zlen (queued (prio_queue d'))).
  { intros Pq. split; [|unfold zlen; rewrite (Permutation_length Pq); cbn; lia].
    intros j Hj. rewrite Pq. by right. }
  destruct ev as [|x|x|i x b]; cbn [serves] in I.
  - destruct I as (Hn & _ & Eq). rewrite Eq. split_and!; try done; lia.
  - destruct I as (Hne & _ & Eq & Hx & Hlt). rewrite Eq. split_and!; try done; try lia.
    intros Ho _. specialize (Hin _ (Hr Hne)). lia.
  - destruct I as (Pq & _). destruct (Hpop Pq). split_and!; [done|lia|lia].
  - destruct I as (Pq & _). destruct (Hpop Pq). split_and!; [done|lia|lia].
Qed.

Lemma doomed_iteration ck d N lost i prev t :
  daemon_wf d N lost -> contents (tx_ring (shared d)) = [] -> quiet_tick t -> 0 <= counter d < INT64_MAX ->
  doomed d lost i prev -> prev <= now_of t ->
  exists d' ev lost',
    (forall rest, daemon_loop ck (t :: rest) 1 d =
       let* (d'', evs) := daemon_loop ck rest 1 d' in Ret (d'', ev :: evs)) /\
    daemon_wf d' N lost' /\ contents (tx_ring (shared d')) = [] /\
    counter d <= counter d' <= counter d + 1 /\ doomed d' lost' i (now_of t) /\ (i ∉ sent_by ev) /\
    metadata_pool (shared d') = metadata_pool (shared d) /\ serves ck d lost t d' ev lost'.
Proof.
  intros W Htx Hq Hcnt Hdm Hle.
  destruct (quiet_iteration ck d N lost t W Htx Hq Hcnt) as (d' & ev & lost' & E & W' & Htx' & Em & Ed & Hc & I).
  exists d', ev, lost'. split_and!; try done; try lia; destruct Hdm as [Hl|[Hi Hw]].
  - left. destruct ev; cbn [serves] in I; split_hyps; subst; try done. by right.
  - destruct ev as [|x|x|j x b]; cbn [serves] in I.
    + destruct I as (Hn & _). rewrite Hn in Hi. by apply not_elem_of_nil in Hi.
    + destruct I as (_ & -> & Eq & _). right. unfold due, root in *. rewrite Eq, Ed. split; [done|].
      destruct Hw; [left; lia|by right].
    + destruct I as (Pq & -> & Hx & Hlt). rewrite Pq in Hi. apply elem_of_cons in Hi as [-> |Hi]; [by left; left|].
      right. split; [done|]. left. unfold due, tx_delta_ns in *. rewrite Ed. lia.
    + destruct I as (Pq & -> & _ & Hx & Hb & _). rewrite Pq in Hi. right.
      assert (Hlt : due d i < now_of t) by lia.
      apply elem_of_cons in Hi as [-> |Hi]; [lia|]. split; [done|]. left. unfold due in *. rewrite Ed. lia.
  - destruct ev as [| | |j x b]; cbn [serves sent_by] in *; try apply not_elem_of_nil.
    destruct I as (Pq & -> & -> & _). intros ->%list_elem_of_singleton.
    pose proof (indices_nodup d N lost W) as Hnd. rewrite Pq, !NoDup_app in Hnd.
    destruct Hnd as (_ & _ & _ & _ & _ & Hd & _). by apply (Hd (root d)); [left|].
  - destruct ev as [| | |j x b]; cbn [serves sent_by] in *; try apply not_elem_of_nil.
    destruct I as (_ & _ & -> & Hx & Hb & _). intros ->%list_elem_of_singleton. lia.
Qed.

(** After as many iterations with every packet due as there are packets, the
    queue is empty. *)
Definition drained (d : kt_daemon) (ticks : list tick) (d' : kt_daemon) : Prop :=
  forall hi, (forall j, j ∈ queued (prio_queue d) -> due d j <= hi) ->
    zlen (queued (prio_queue d)) <= zlen (open_ticks hi ticks) -> queued (prio_queue d') = [].

Lemma drained_nil d : drained d [] d.
Proof. intros hi _ Hz. apply length_zero_iff_nil. unfold zlen in Hz. cbn in Hz. lia. Qed.

Lemma drained_cons ck d N lost t d1 ev lost1 ticks d' :
  daemon_wf d N lost -> serves ck d lost t d1 ev lost1 -> metadata_pool (shared d1) = metadata_pool (shared d) ->
  drained d1 ticks d' -> drained d (t :: ticks) d'.
Proof.
  intros W I Ed H hi Hin Hz. destruct (serves_shrinks ck d N lost t d1 ev lost1 hi W I Hin) as (Hsub & Hle & Hone).
  apply (H hi); [intros j Hj; unfold due; rewrite Ed; by apply Hin, Hsub|].
  unfold open_ticks in *. rewrite filter_cons in Hz. case_decide as Ho; [rewrite zlen_cons in Hz|lia].
  destruct (decide (queued (prio_queue d) = [])) as [Hn|Hn]; [|specialize (Hone Ho Hn); lia].
  rewrite Hn, zlen_nil in Hle. pose proof (zlen_nonneg (filter (fun t => hi - tx_delta_ns <= now_of t) ticks)). lia.
Qed.

Lemma doomed_spec ck i rest ticks : forall prev d N lost,
  daemon_wf d N lost -> contents (tx_ring (shared d)) = [] -> doomed d lost i prev ->
  Forall quiet_tick ticks -> 0 <= counter d -> counter d + zlen ticks < INT64_MAX ->
  monotone prev (now_of <$> ticks) ->
  exists d' evs lost', daemon_wf d' N lost' /\ length evs = length ticks /\ (i ∉ sent evs) /\
    i ∈ queued (prio_queue d') ++ lost' /\ drained d ticks d' /\
    daemon_loop ck (ticks ++ rest) 1 d =
      let* (d'', evs') := daemon_loop ck rest 1 d' in Ret (d'', evs ++ evs').
Proof.
  induction ticks as [|t ticks IH]; intros prev d N lost W Htx Hdm Hq Hc0 Hc1 Hmo.
  - exists d, [], lost. split_and!; try done.
    + apply not_elem_of_nil.
    + apply elem_of_app. destruct Hdm as [|[]]; auto.
    + apply drained_nil.
    + cbn [app]. by destruct (daemon_loop ck rest 1 d) as [[]| | |].
  - rewrite fmap_cons in Hmo. destruct Hmo as [Hle Hmo]. apply Forall_cons in Hq as [Hq Hqs].
    rewrite zlen_cons in Hc1. pose proof (zlen_nonneg ticks).
    destruct (doomed_iteration ck d N lost i prev t) as (d1 & ev & lost1 & E & W1 & Htx1 & Hc & Hdm1 & Hs & Ed & I);
      try done; try lia.
    destruct (IH (now_of t) d1 N lost1) as (d' & evs & lost' & W' & Hl & Hs' & Hi & Hdr & E'); try done; try lia.
    exists d', (ev :: evs), lost'. split_and!; try done; [cbn; lia| | |].
    + unfold sent in *. rewrite fmap_cons. cbn [concat]. by rewrite not_elem_of_app.
    + by apply (drained_cons ck d N lost t d1 ev lost1).
    + cbn [app]. rewrite E, E'. by destruct (daemon_loop ck rest 1 d') as [[]| | |].
Qed.

(** ** Properties *)


(** C19: a packet that the queue puts behind a later one is never sent.  When the
    root of the queue is due more than 50 microseconds after packet [i], then, as long
    as no new message arrives and the clock does not go back, no iteration hands packet
    [i] to the card, however often the loop comes round.  Its buffer does not come back
    either: [n] packets wait, and once [n] iterations have found all of them due (at
    [hi - 50] microseconds or later, [hi] the last of their times), the queue is
    empty and the buffer is lost. *)
Theorem overtaken_packet_is_never_sent ck i prev rest ticks d N lost hi :
  daemon_wf d N lost -> contents (tx_ring (shared d)) = [] ->
  i ∈ queued (prio_queue d) -> due d i < due d (root d) - tx_delta_ns ->
  Forall quiet_tick ticks -> 0 <= counter d -> counter d + zlen ticks < INT64_MAX ->
  monotone prev (now_of <$> ticks) -> (forall j, j ∈ queued (prio_queue d) -> due d j <= hi) ->
  exists d' evs lost', daemon_wf d' N lost' /\ length evs = length ticks /\ (i ∉ sent evs) /\
    i ∈ queued (prio_queue d') ++ lost' /\
    (zlen (queued (prio_queue d)) <= zlen (open_ticks hi ticks) ->
     queued (prio_queue d') = [] /\ i ∈ lost' /\ (i ∉ contents (free_ring (shared d')))) /\
    daemon_loop ck (ticks ++ rest) 1 d =
      let* (d'', evs') := daemon_loop ck rest 1 d' in Ret (d'', evs ++ evs').
Proof.
  intros W Htx Hi Hlt Hq Hc0 Hc1 Hmo Hin.
  destruct (doomed_spec ck i rest ticks prev d N lost) as (d' & evs & lost' & W' & Hl & Hs & Hi' & Hdr & E);
    try done; [by right; auto|].
  exists d', evs, lost'. split_and!; try done. intros Hz. specialize (Hdr hi Hin Hz). rewrite Hdr in Hi'.
  split_and!; try done. pose proof (indices_nodup d' N lost' W') as Hnd.
  rewrite !NoDup_app in Hnd. destruct Hnd as (_ & Hd & _). intros Hf. apply (Hd i Hf). rewrite !elem_of_app. auto.
Qed.

(** ** Witnesses

    Three packets in the queue, in the order of their indices. *)
Definition timed_md (time : Z) : kt_metadata :=
  mk_metadata KT_METADATA_TRANSPORT_UDP time [2; 0; 0; 0; 0; 7] kt_default_dst_mac 167772161 167772162 8080 3.

Definition three_waiting (t0 t1 t2 : Z) : kt_daemon :=
  mk_daemon
    (mk_shared
       (mk_ringbuf 0 "RB_tx" 4 8 3 3 (mk_headtail 3 3) (mk_headtail 3 3) [0; 1; 2; 0])
       (mk_ringbuf 0 "RB_free" 4 8 3 3 (mk_headtail 3 3) (mk_headtail 3 3) [0; 1; 2; 0])
       (replicate 3 (replicate 2048 0)) [timed_md t0; timed_md t1; timed_md t2])
    (mk_prio_queue [mk_pq_node t0 0; mk_pq_node t1 1; mk_pq_node t2 2] 3 3) 0 [].

Lemma timed_md_ok t : 0 <= t < NSEC_PER_SEC -> packet_ok (timed_md t).
Proof.
  intros Ht. unfold NSEC_PER_SEC in Ht. split; [unfold metadata_ok, u32_value, u16_value; zcompute|].
  split; [unfold INT64_MAX; cbn [timed_md txtime]; lia|]. zcompute.
Qed.

Lemma three_waiting_wf t0 t1 t2 :
  0 <= t0 < NSEC_PER_SEC -> 0 <= t1 < NSEC_PER_SEC -> 0 <= t2 < NSEC_PER_SEC ->
  daemon_wf (three_waiting t0 t1 t2) 3 [].
Proof.
  intros H0 H1 H2. unfold NSEC_PER_SEC in *.
  assert (Hi : forall t, 0 <= t < 1000000000 -> i64 t = t) by (intros; apply i64_id; unfold INT64_MIN, INT64_MAX; lia).
  split; try reflexivity.
  - split; try reflexivity; try (unfold ring_wf, pow2_size; split; [exists 2; cbn; lia|zcompute]).
    + intros i Hr. unfold zget. cbn [mbuf_pool shared three_waiting]. by rewrite lookup_total_replicate_2 by lia.
    + intros i Hr. assert (i = 0 \/ i = 1 \/ i = 2) as [->|[->| ->]] by lia; done.
    + apply (bool_decide_unpack _). vm_compute. done.
    + apply (bool_decide_unpack _). vm_compute. done.
  - unfold pq_wf. zcompute.
  - intros n Hn. cbn in Hn. repeat (apply elem_of_cons in Hn as [->|Hn]; [by unfold node_of; cbn; rewrite Hi|]).
    by apply not_elem_of_nil in Hn.
  - intros i Hr. cbn in Hr. repeat (apply elem_of_cons in Hr as [->|Hr]; [by apply timed_md_ok|]).
    by apply not_elem_of_nil in Hr.
Qed.


(** The state after the first of three packets 100 microseconds apart has been
    sent: the third one is at the root. *)
Definition overtaken : kt_daemon :=
  match daemon_loop demo_cksum [demo_tick 960000; demo_signal] 1 (three_waiting 1000000 1100000 1200000) with
  | Ret (d, _) => d
  | _ => three_waiting 0 0 0
  end.

Lemma overtaken_wf : daemon_wf overtaken 3 [].
Proof.
  destruct (quiet_iteration demo_cksum (three_waiting 1000000 1100000 1200000) 3 [] (demo_tick 960000))
    as (d' & ev & lost' & E & W & _ & _ & _ & _ & I).
  - apply three_waiting_wf; unfold NSEC_PER_SEC; lia.
  - vm_compute. reflexivity.
  - apply demo_tick_quiet. zcompute.
  - zcompute.
  - specialize (E [demo_signal]).
    change (daemon_loop demo_cksum [demo_signal] 1 d') with (@Ret (kt_daemon * list event) (d', [])) in E.
    cbn [bind] in E. unfold overtaken. rewrite E.
    assert (Hev : (let* (_, evs) := daemon_loop demo_cksum [demo_tick 960000; demo_signal] 1
              (three_waiting 1000000 1100000 1200000) in Ret (sent evs)) = Ret [0]) by (vm_compute; reflexivity).
    rewrite E in Hev. cbn [bind] in Hev. destruct ev; try discriminate Hev. by destruct I as (_ & -> & _).
Qed.

(** Packet 1 is due at 1100000 and is not sent at 1060000 or 1099999; the two
    iterations after the window of the other one has opened empty the queue. *)
Lemma overtaken_packet_is_never_sent_witness :
  exists d' evs lost', daemon_wf d' 3 lost' /\ length evs = 4%nat /\ (1 ∉ sent evs) /\
    queued (prio_queue d') = [] /\ 1 ∈ lost' /\
    daemon_loop demo_cksum
      [demo_tick 1060000; demo_tick 1099999; demo_tick 1150000; demo_tick 1160000; demo_signal] 1 overtaken =
      Ret (d', evs).
Proof.
  destruct (overtaken_packet_is_never_sent demo_cksum 1 960000 [demo_signal]
    [demo_tick 1060000; demo_tick 1099999; demo_tick 1150000; demo_tick 1160000] overtaken 3 [] 1200000 overtaken_wf)
    as (d' & evs & lost' & W & Hl & Hs & _ & Hi & E).
  - vm_compute. reflexivity.
  - apply (bool_decide_unpack _). vm_compute. done.
  - zcompute.
  - repeat (apply Forall_cons; split; [apply demo_tick_quiet; zcompute|]). constructor.
  - zcompute.
  - zcompute.
  - zcompute.
  - intros j Hj. assert (Hq : queued (prio_queue overtaken) = [2; 1]) by (vm_compute; reflexivity).
    rewrite Hq in Hj.
    repeat (apply elem_of_cons in Hj as [->|Hj]; [apply Z.leb_le; vm_compute; reflexivity|]). exfalso. exact (not_elem_of_nil _ Hj).
  - destruct Hi as (Hq & Hi & _); [vm_compute; discriminate|].
    exists d', evs, lost'. repeat (split; [assumption|]).
    change (daemon_loop demo_cksum ([demo_tick 1060000; demo_tick 1099999; demo_tick 1150000; demo_tick 1160000] ++
      [demo_signal]) 1 overtaken = Ret (d', evs)).
    rewrite E. change (daemon_loop demo_cksum [demo_signal] 1 d') with (@Ret (kt_daemon * list event) (d', [])).
    cbn [bind]. by rewrite app_nil_r.
Defined.
