(* ===== verification/ConcModel.v ===== *)
(** * Applications and daemon at the grain of single accesses

    System.v lets calls of [sendmsg] and iterations of the daemon follow each
    other.  Here they overlap: any number of application threads and the daemon
    run at the same time, and every access to a ring (RingConc.v) is a step of its
    own, as are the copy of a payload, the write of a metadata record, the
    insertion of a burst and the handling of the packet at the root.

    A thread of an application runs the part of [sendmsg_inet] and
    [sendmsg_packet] (src/libktsn.c) after the interface is known, which is
    [transmit] of Libktsn.v: take an index from the free ring, fill the buffer,
    put the index into the transmission ring.  The daemon runs the loop of
    src/ktsnd.c. *)

From S2P Require Import RingConc RingClient Prelude Memory RingBuf PrioQueue Libktsn Packet Daemon.

(** ** State *)

(** The arguments of a send once the interface is known: payload, the two
    hardware addresses, the transmission time and how the metadata is written. *)
Record call := mk_call {
  c_iov : list Z;
  c_hw : list Z;
  c_dmac : list Z;
  c_txtime : Z;
  c_md : kt_metadata -> list Z -> list Z -> Z -> kt_metadata
}.

(** Where a thread of an application is: not sending, in the dequeue from the
    free ring, about to copy the payload, about to write the metadata, in the
    enqueue. *)
Inductive app_pc :=
  | ARest
  | AGet (c : call)
  | AFill (c : call) (i : Z)
  | ADesc (c : call) (i : Z)
  | APut (c : call) (i : Z).

(** Where the daemon is: between iterations, in the dequeue of the burst, about
    to look at the queue, in the enqueue to the free ring. *)
Inductive daemon_pc :=
  | DRest
  | DGet
  | DLook
  | DPut (i : Z).

(** Thread [a] of both rings is application [a]; the thread after them is the
    daemon. *)
Record csys := mk_csys {
  c_free : machine;
  c_tx : machine;
  c_mbufs : list (list Z);
  c_metas : list kt_metadata;
  c_apps : list app_pc;
  c_daemon : daemon_pc;
  c_queue : kt_prio_queue;
  c_counter : Z;
  c_wire : list rte_mbuf
}.

Definition daemon_tid (s : csys) : nat := length (c_apps s).

Definition set_free (s : csys) (m : machine) : csys :=
  mk_csys m (c_tx s) (c_mbufs s) (c_metas s) (c_apps s) (c_daemon s) (c_queue s) (c_counter s) (c_wire s).
Definition set_tx (s : csys) (m : machine) : csys :=
  mk_csys (c_free s) m (c_mbufs s) (c_metas s) (c_apps s) (c_daemon s) (c_queue s) (c_counter s) (c_wire s).
Definition set_pools (s : csys) (mbufs : list (list Z)) (metas : list kt_metadata) : csys :=
  mk_csys (c_free s) (c_tx s) mbufs metas (c_apps s) (c_daemon s) (c_queue s) (c_counter s) (c_wire s).
Definition set_app (s : csys) (a : nat) (p : app_pc) : csys :=
  mk_csys (c_free s) (c_tx s) (c_mbufs s) (c_metas s) (<[a := p]> (c_apps s)) (c_daemon s) (c_queue s)
    (c_counter s) (c_wire s).
Definition set_daemon (s : csys) (p : daemon_pc) (q : kt_prio_queue) : csys :=
  mk_csys (c_free s) (c_tx s) (c_mbufs s) (c_metas s) (c_apps s) p q (c_counter s) (c_wire s).
Definition set_sent (s : csys) (c : Z) (w : list rte_mbuf) : csys :=
  mk_csys (c_free s) (c_tx s) (c_mbufs s) (c_metas s) (c_apps s) (c_daemon s) (c_queue s) c w.

(** The message in a buffer: payload and metadata. *)
Definition message : Type := list Z * kt_metadata.
Definition pkt_at (s : csys) (i : Z) : message :=
  let md := zget (c_metas s) i in (zslice (zget (c_mbufs s) i) 0 (psize md), md).

(** What a step shows: a call that found no free buffer, a message that became
    visible to the daemon, the end of a call that had a buffer, a packet dropped
    as late, a packet handed to the network card. *)
Inductive obs :=
  | NoBuffer (a : nat)
  | Published (a : nat) (c : call) (i : Z) (p : message)
  | Returned (a : nat) (c : call) (ret : Z)
  | Dropped (now i : Z) (p : message)
  | Transmitted (now i : Z) (p : message) (frame : rte_mbuf).

(** [Send] starts a call, [Step] lets an application do its next access;
    [Start] starts an iteration (with the content of the array on the stack),
    [Next] lets the daemon do its next access, with the clock and the DPDK buffer
    it gets if it looks at the queue.  [spurious] is a failing weak
    compare-and-exchange. *)
Inductive cevent :=
  | Send (a : nat) (c : call)
  | Step (a : nat) (spurious : bool)
  | Start (table : list Z)
  | Next (spurious : bool) (now : Z) (tb : rte_mbuf).

(** ** Steps *)

Section Steps.
Context (rte_ipv4_cksum : list Z -> Z).

Definition send_step (s : csys) (a : nat) (c : call) : res (csys * list obs) :=
  match c_apps s !! a with
  | Some ARest =>
      let* (m, _) := machine_step (c_free s) (Call a (get_job [0] 1)) in
      Ret (set_app (set_free s m) a (AGet c), [])
  | _ => Ret (s, [])
  end.

Definition app_step (s : csys) (a : nat) (spurious : bool) : res (csys * list obs) :=
  match c_apps s !! a, threads (c_free s) !! a, threads (c_tx s) !! a with
  | Some (AGet c), Some tf, _ =>
      match t_pc tf with
      | Done _ nb_free _ =>
          if nb_free =? 0 then Ret (set_app s a ARest, [NoBuffer a])
          else index <- znth (t_table tf) 0;; Ret (set_app s a (AFill c index), [])
      | _ => let* (m, _) := machine_step (c_free s) (Run a spurious) in Ret (set_free s m, [])
      end
  | Some (AFill c i), _, _ =>
      mbuf <- znth (c_mbufs s) i;;
      mbuf <- memcpy mbuf (c_iov c) (zlen (c_iov c));;
      mbufs <- zset (c_mbufs s) i mbuf;;
      Ret (set_app (set_pools s mbufs (c_metas s)) a (ADesc c i), [])
  | Some (ADesc c i), _, _ =>
      m <- znth (c_metas s) i;;
      src <- memcpy (eth_src m) (c_hw c) 6;;
      dst <- memcpy (eth_dst m) (c_dmac c) 6;;
      metas <- zset (c_metas s) i (c_md c m src dst (zlen (c_iov c)));;
      let* (mt, _) := machine_step (c_tx s) (Call a (put_job i)) in
      Ret (set_app (set_tx (set_pools s (c_mbufs s) metas) mt) a (APut c i), [])
  | Some (APut c i), _, Some td =>
      match t_pc td with
      | Done _ nb_enqueued _ =>
          Ret (set_app s a ARest,
               [Returned a c (if negb (nb_enqueued =? 1) then - ENOBUFS else zlen (c_iov c))])
      | _ =>
          let* (m, (_, l)) := machine_step (c_tx s) (Run a spurious) in
          Ret (set_tx s m, match l with Commit Producer _ => [Published a c i (pkt_at s i)] | _ => [] end)
      end
  | _, _, _ => Ret (s, [])
  end.

Definition start_step (s : csys) (table : list Z) : res (csys * list obs) :=
  match c_daemon s with
  | DRest =>
      let* (m, _) := machine_step (c_tx s) (Call (daemon_tid s) (get_job table burst_size)) in
      Ret (set_daemon (set_tx s m) DGet (c_queue s), [])
  | _ => Ret (s, [])
  end.

(** The part of an iteration between the burst and the return of the buffer. *)
Definition look_step (s : csys) (now : Z) (tb : rte_mbuf) : res (csys * list obs) :=
  let q := c_queue s in
  if kt_prio_queue_is_empty q then Ret (set_daemon s DRest q, [])
  else
    txtime <- kt_prio_queue_getmin q;;
    diff <- kt_get_time_diff_ns now txtime;;
    if tx_delta_ns <? diff then Ret (set_daemon s DRest q, [])
    else if diff <? 0 then
      let i := PrioQueue.data (zget (elems q) 0) in
      let* (_, q, _) := kt_prio_queue_extract_min q false in
      Ret (set_daemon s DRest q, [Dropped now i (pkt_at s i)])
    else
      let* (_, q, written) := kt_prio_queue_extract_min q true in
      match written with
      | Some mbuf_index =>
          mbuf <- znth (c_mbufs s) mbuf_index;;
          metadata <- znth (c_metas s) mbuf_index;;
          tx_buf <- prepare_packet rte_ipv4_cksum tb mbuf metadata;;
          let* (m, _) := machine_step (c_free s) (Call (daemon_tid s) (put_job mbuf_index)) in
          Ret (set_sent (set_daemon (set_free s m) (DPut mbuf_index) q) (c_counter s) (c_wire s ++ [tx_buf]),
               [Transmitted now mbuf_index (pkt_at s mbuf_index) tx_buf])
      | None => UB
      end.

Definition next_step (s : csys) (spurious : bool) (now : Z) (tb : rte_mbuf) : res (csys * list obs) :=
  match c_daemon s, threads (c_free s) !! daemon_tid s, threads (c_tx s) !! daemon_tid s with
  | DGet, _, Some td =>
      match t_pc td with
      | Done _ nb_elem _ =>
          q <- insert_burst (Z.to_nat nb_elem) 0 (t_table td) (c_metas s) (c_queue s);;
          Ret (set_daemon s DLook q, [])
      | _ => let* (m, _) := machine_step (c_tx s) (Run (daemon_tid s) spurious) in Ret (set_tx s m, [])
      end
  | DLook, _, _ => look_step s now tb
  | DPut i, Some tf, _ =>
      match t_pc tf with
      | Done _ _ _ =>
          c <- i64_op (c_counter s + 1);;
          Ret (set_sent (set_daemon s DRest (c_queue s)) c (c_wire s), [])
      | _ => let* (m, _) := machine_step (c_free s) (Run (daemon_tid s) spurious) in Ret (set_free s m, [])
      end
  | _, _, _ => Ret (s, [])
  end.

Definition cstep (s : csys) (e : cevent) : res (csys * list obs) :=
  match e with
  | Send a c => send_step s a c
  | Step a spurious => app_step s a spurious
  | Start table => start_step s table
  | Next spurious now tb => next_step s spurious now tb
  end.
End Steps.

(** ** What a run may do *)

Definition call_ok (c : call) : Prop :=
  zlen (c_iov c) <= kt_mbuf_size - 42 /\ zlen (c_hw c) = 6 /\ zlen (c_dmac c) = 6 /\
  0 <= c_txtime c <= INT64_MAX /\ writes (c_txtime c) (c_md c).

(** Messages fit a frame, the burst does not cross the end of the ring, and clock,
    counter and DPDK give sensible values. *)
Definition admissible (s : csys) (e : cevent) : Prop :=
  match e with
  | Send _ c => call_ok c
  | Step _ _ => True
  | Start table => zlen table = 64
  | Next _ now tb =>
      0 <= now <= INT64_MAX /\ zlen (Packet.data tb) = 2048 /\ 0 <= c_counter s < INT64_MAX /\
      forall t, threads (c_tx s) !! daemon_tid s = Some t -> reserves_in_ring (RingConc.shared (c_tx s)) t
  end.

(** A run of [n] steps from [s], with what it shows. *)
Inductive crun (ck : list Z -> Z) (s : csys) : Z -> csys -> list obs -> Prop :=
  | crun_nil : crun ck s 0 s []
  | crun_snoc n s1 h e s2 o :
      crun ck s n s1 h -> admissible s1 e -> cstep ck s1 e = Ret (s2, o) ->
      crun ck s (n + 1) s2 (h ++ o).

(** Any number of applications at rest beside a daemon between two iterations. *)
Definition cinit (d : kt_daemon) (K : nat) : csys :=
  mk_csys (init_machine (free_ring (shared d)) (S K)) (init_machine (tx_ring (shared d)) (S K))
    (mbuf_pool (shared d)) (metadata_pool (shared d)) (replicate K ARest) DRest (prio_queue d)
    (counter d) (wire d).
