(* ===== verification/ConcInv.v ===== *)
(** * The invariant of applications and daemon in parallel

    Which buffers a thread of ConcModel.v holds, what is known of a thread between
    two steps, and the proof that every step returns and keeps it: each buffer is
    in one of the two queues, with one thread, in the priority queue, or lost.
    The rings are used through RingClient.v only. *)

From S2P Require Import RingConc RingClient Prelude Memory RingBuf PrioQueue Libktsn Packet Daemon ConcModel.

(** ** Ownership *)

(** A thread of the system: what it does, and its places in the two rings. *)
Inductive client := App (p : app_pc) | Loop (p : daemon_pc).

Definition view (s : csys) (tid : nat) : option (client * thread * thread) :=
  match threads (c_free s) !! tid, threads (c_tx s) !! tid with
  | Some tf, Some tx =>
      Some (match c_apps s !! tid with Some p => App p | None => Loop (c_daemon s) end, tf, tx)
  | _, _ => None
  end.

(** An index that is being put into a ring, unless it is there. *)
Definition unput (i : Z) (t : thread) : list Z :=
  match t_pc t with Done _ n _ => if n =? 0 then [i] else [] | _ => [i] end.

(** The buffers a thread holds outside the queues. *)
Definition holding (ff ft : fifo) (tid : nat) (v : client * thread * thread) : list Z :=
  match v with
  | (App ARest, _, _) => []
  | (App (AGet _), tf, _) => got ff tid tf
  | (App (AFill _ i), _, _) | (App (ADesc _ i), _, _) => [i]
  | (App (APut _ i), _, tx) => unput i tx
  | (Loop DGet, _, tx) => got ft tid tx
  | (Loop (DPut i), tf, _) => unput i tf
  | (Loop _, _, _) => []
  end.

Definition owned (s : csys) (ff ft : fifo) (tid : nat) : list Z :=
  match view s tid with Some v => holding ff ft tid v | None => [] end.

Definition tids (s : csys) : list nat := seq 0 (S (daemon_tid s)).
Definition all_owned (s : csys) (ff ft : fifo) : list Z := concat (owned s ff ft <$> tids s).

(** The buffers with a message between the end of an enqueue and the return of
    the buffer. *)
Definition taken (s : csys) (ft : fifo) : list Z :=
  match c_daemon s with DGet => owned s ft ft (daemon_tid s) | _ => [] end.
Definition inside (s : csys) (ft : fifo) : list Z := queue ft ++ taken s ft ++ queued (c_queue s).

(** ** What a run shows *)

(** [p] is the message of call [c]. *)
Definition carries (c : call) (p : message) : Prop :=
  p.1 = c_iov c /\ exists m, p.2 = c_md c m (c_hw c) (c_dmac c) (zlen (c_iov c)).

Definition obs_ok (ck : list Z -> Z) (o : obs) : Prop :=
  match o with
  | NoBuffer _ => True
  | Published _ c _ p => call_ok c /\ carries c p
  | Returned _ c ret => ret = zlen (c_iov c)
  | Dropped now _ p => txtime p.2 < now
  | Transmitted now _ p frame =>
      0 <= txtime p.2 - now <= tx_delta_ns /\
      exists tb mbuf, zslice mbuf 0 (psize p.2) = p.1 /\ prepare_packet ck tb mbuf p.2 = Ret frame
  end.

Definition published_by (o : obs) : list message :=
  match o with Published _ _ _ p => [p] | _ => [] end.
Definition handled_by (o : obs) : list message :=
  match o with Dropped _ _ p | Transmitted _ _ p _ => [p] | _ => [] end.
Definition lost_by (o : obs) : list Z := match o with Dropped _ i _ => [i] | _ => [] end.

Definition published_msgs (h : list obs) : list message := concat (published_by <$> h).
Definition handled_msgs (h : list obs) : list message := concat (handled_by <$> h).
Definition dropped (h : list obs) : list Z := concat (lost_by <$> h).

(** ** The invariant *)

Definition store_ok (N : Z) (mbufs : list (list Z)) (metas : list kt_metadata) : Prop :=
  zlen mbufs = N /\ zlen metas = N /\
  forall i, 0 <= i < N -> zlen (zget mbufs i) = kt_mbuf_size /\
    zlen (eth_src (zget metas i)) = 6 /\ zlen (eth_dst (zget metas i)) = 6.

Definition queue_ok (N : Z) (metas : list kt_metadata) (q : kt_prio_queue) : Prop :=
  pq_wf q /\ cap q = N /\ forall n, n ∈ nodes q -> n = node_of metas (PrioQueue.data n).

(** A thread that has called a ring. *)
Definition called (t : thread) : Prop := t_pc t <> RingConc.Idle.

(** What is known of a thread between two steps. *)
Definition client_ok (s : csys) (v : client * thread * thread) : Prop :=
  match v with
  | (App p, tf, tx) =>
      match p with
      | ARest => resting tf = true /\ resting tx = true
      | AGet c =>
          call_ok c /\ t_job tf = get_job [0] 1 /\ in_ring (RingConc.shared (c_free s)) tf /\ resting tx = true /\ called tf
      | AFill c i => call_ok c /\ resting tf = true /\ resting tx = true
      | ADesc c i =>
          call_ok c /\ resting tf = true /\ resting tx = true /\
          zslice (zget (c_mbufs s) i) 0 (zlen (c_iov c)) = c_iov c
      | APut c i =>
          call_ok c /\ resting tf = true /\ t_job tx = put_job i /\ t_table tx = [i] /\ called tx /\
          match t_pc tx with Done _ k _ => k = 1 | _ => carries c (pkt_at s i) end
      end
  | (Loop p, tf, tx) =>
      match p with
      | DRest | DLook => resting tf = true /\ resting tx = true
      | DGet =>
          resting tf = true /\ in_ring (RingConc.shared (c_tx s)) tx /\ called tx /\
          exists table, t_job tx = get_job table burst_size /\ zlen table = 64
      | DPut i =>
          t_job tf = put_job i /\ t_table tf = [i] /\ resting tx = true /\ called tf /\
          match t_pc tf with Done _ k _ => k = 1 | _ => True end
      end
  end.

(** What a step of thread [tid] leaves as it is. *)
Record frame (tid : nat) (s : csys) (ff ft : fifo) (s' : csys) (ff' ft' : fifo) : Prop := {
  fr_view : forall j, j <> tid -> view s' j = view s j;
  fr_tid : daemon_tid s' = daemon_tid s;
  fr_free : same_shape (RingConc.shared (c_free s)) (RingConc.shared (c_free s'));
  fr_tx : same_shape (RingConc.shared (c_tx s)) (RingConc.shared (c_tx s'));
  fr_flen : length (threads (c_free s')) = length (threads (c_free s));
  fr_tlen : length (threads (c_tx s')) = length (threads (c_tx s));
  fr_given : forall j, j <> tid -> given ff' j = given ff j /\ given ft' j = given ft j
}.

(** A step moves messages from the applications to the inside, and from there to
    the card or away. *)
Definition flow (s : csys) (ft : fifo) (o : list obs) (s' : csys) (ft' : fifo) : Prop :=
  published_msgs o ++ (pkt_at s <$> inside s ft) ≡ₚ handled_msgs o ++ (pkt_at s' <$> inside s' ft').

(** ** Moving words between one thread and the rest *)

Lemma concat_update (f g : nat -> list Z) (l : list nat) k (x y : list Z) :
  NoDup l -> k ∈ l -> (forall j, j <> k -> g j = f j) -> x ++ f k ≡ₚ y ++ g k ->
  x ++ concat (f <$> l) ≡ₚ y ++ concat (g <$> l).
Proof.
  intros Hnd Hk Hne P. apply list_elem_of_split in Hk as (l1 & l2 & ->).
  assert (Hl : forall l' : list nat, k ∉ l' -> f <$> l' = g <$> l').
  { intros l' Hn. apply list_fmap_ext. intros i j Hj. symmetry. apply Hne. intros ->.
    by apply Hn, (list_elem_of_lookup_2 _ _ _ Hj). }
  apply NoDup_app in Hnd as (_ & Hd & Hnd). apply NoDup_cons in Hnd as [Hn2 _].
  rewrite !fmap_app, !fmap_cons, !concat_app. cbn [concat].
  rewrite (Hl l1), (Hl l2); [|done|intros Hin; by apply (Hd k Hin); left].
  transitivity ((x ++ f k) ++ concat (g <$> l1) ++ concat (g <$> l2)); [solve_Permutation|].
  rewrite P. solve_Permutation.
Qed.

Lemma tids_nodup s : NoDup (tids s).
Proof. apply NoDup_seq. Qed.

Lemma elem_of_tids s tid : tid ∈ tids s <-> (tid <= daemon_tid s)%nat.
Proof. unfold tids. rewrite elem_of_seq. lia. Qed.

Lemma carries_packet_ok c p : call_ok c -> carries c p -> packet_ok p.2 /\ psize p.2 = zlen (c_iov c).
Proof.
  intros (Hl & Hh & Hd & Ht & Hw) (_ & m & ->).
  destruct (Hw m (c_hw c) (c_dmac c) (zlen (c_iov c))) as (_ & _ & Es & Et & Hok); [zlia|done|done|].
  unfold packet_ok, kt_mbuf_size in *. rewrite Es, Et. split_and!; try done; lia.
Qed.

Section Proofs.
(** Where the counters of the two rings were at the start, and the number of
    buffers. *)
Variables lof lot : role -> Z.
Variable N : Z.

Record core (n : Z) (s : csys) (ff ft : fifo) (lost : list Z) : Prop := {
  co_free : ring_ok lof n (c_free s) ff;
  co_tx : ring_ok lot n (c_tx s) ft;
  co_fcap : capacity (RingConc.shared (c_free s)) = N;
  co_tcap : capacity (RingConc.shared (c_tx s)) = N;
  co_slack : RingBuf.size (RingConc.shared (c_tx s)) + 7 <= zlen (ring (RingConc.shared (c_tx s)));
  co_flen : length (threads (c_free s)) = S (daemon_tid s);
  co_tlen : length (threads (c_tx s)) = S (daemon_tid s);
  co_store : store_ok N (c_mbufs s) (c_metas s);
  co_queue : queue_ok N (c_metas s) (c_queue s);
  co_clients : forall tid v, view s tid = Some v -> client_ok s v;
  co_perm : queue ff ++ queue ft ++ all_owned s ff ft ++ queued (c_queue s) ++ lost ≡ₚ seqZ 0 N;
  co_pkts : forall i, i ∈ inside s ft -> packet_ok (zget (c_metas s) i)
}.

Arguments co_free {n s ff ft lost}.
Arguments co_tx {n s ff ft lost}.
Arguments co_fcap {n s ff ft lost}.
Arguments co_tcap {n s ff ft lost}.
Arguments co_slack {n s ff ft lost}.
Arguments co_flen {n s ff ft lost}.
Arguments co_tlen {n s ff ft lost}.
Arguments co_store {n s ff ft lost}.
Arguments co_queue {n s ff ft lost}.
Arguments co_clients {n s ff ft lost}.
Arguments co_perm {n s ff ft lost}.
Arguments co_pkts {n s ff ft lost}.

Context (ck : list Z -> Z).

Lemma view_some n s ff ft lost tid :
  core n s ff ft lost -> tid ∈ tids s -> exists v, view s tid = Some v.
Proof.
  intros C Ht%elem_of_tids. unfold view.
  destruct (lookup_lt_is_Some_2 (threads (c_free s)) tid) as [tf ->]; [rewrite (co_flen C); lia|].
  destruct (lookup_lt_is_Some_2 (threads (c_tx s)) tid) as [tx ->]; [rewrite (co_tlen C); lia|].
  eauto.
Qed.

Lemma view_tid n s ff ft lost tid v : core n s ff ft lost -> view s tid = Some v -> tid ∈ tids s.
Proof.
  intros C Hv. apply elem_of_tids. unfold view in Hv.
  destruct (threads (c_free s) !! tid) as [tf|] eqn:E; [|done]. apply lookup_lt_Some in E.
  rewrite (co_flen C) in E. lia.
Qed.

Lemma owned_view s ff ft tid v : view s tid = Some v -> owned s ff ft tid = holding ff ft tid v.
Proof. intros E. unfold owned. by rewrite E. Qed.

Lemma app_view n s ff ft lost a p :
  core n s ff ft lost -> c_apps s !! a = Some p ->
  exists tf tx, threads (c_free s) !! a = Some tf /\ threads (c_tx s) !! a = Some tx /\
    view s a = Some (App p, tf, tx) /\ a <> daemon_tid s /\ client_ok s (App p, tf, tx).
Proof.
  intros C Ha. pose proof (lookup_lt_Some _ _ _ Ha) as Hlt.
  destruct (view_some n s ff ft lost a C) as [v Hv]; [apply elem_of_tids; unfold daemon_tid; lia|].
  pose proof (co_clients C _ _ Hv) as Hok. unfold view in *. rewrite Ha in *.
  destruct (threads (c_free s) !! a) as [tf|]; [|done]. destruct (threads (c_tx s) !! a) as [tx|]; [|done].
  injection Hv as <-. exists tf, tx. unfold daemon_tid. split_and!; try done. lia.
Qed.

Lemma loop_view n s ff ft lost :
  core n s ff ft lost ->
  exists tf tx, threads (c_free s) !! daemon_tid s = Some tf /\ threads (c_tx s) !! daemon_tid s = Some tx /\
    view s (daemon_tid s) = Some (Loop (c_daemon s), tf, tx) /\ client_ok s (Loop (c_daemon s), tf, tx).
Proof.
  intros C. destruct (view_some n s ff ft lost (daemon_tid s) C) as [v Hv]; [apply elem_of_tids; lia|].
  pose proof (co_clients C _ _ Hv) as Hok. unfold view in *.
  rewrite (lookup_ge_None_2 (c_apps s)) in * by done.
  destruct (threads (c_free s) !! _) as [tf|]; [|done]. destruct (threads (c_tx s) !! _) as [tx|]; [|done].
  injection Hv as <-. by exists tf, tx.
Qed.

(** ** Every buffer is in one place *)

Lemma owned_all s ff ft tid i : tid ∈ tids s -> i ∈ owned s ff ft tid -> i ∈ all_owned s ff ft.
Proof.
  intros Ht Hi. unfold all_owned. apply list_elem_of_In, in_concat.
  exists (owned s ff ft tid). split; [|by apply list_elem_of_In].
  apply list_elem_of_In, list_elem_of_fmap. eauto.
Qed.

(** The words of one thread apart from everything else. *)
Lemma perm_split n s ff ft lost tid :
  core n s ff ft lost -> tid ∈ tids s ->
  exists rest, owned s ff ft tid ++ queue ff ++ queue ft ++ queued (c_queue s) ++ lost ++ rest ≡ₚ seqZ 0 N /\
    forall j, j <> tid -> j ∈ tids s -> owned s ff ft j ⊆ rest.
Proof.
  intros C Ht. destruct (list_elem_of_split _ _ Ht) as (l1 & l2 & E).
  exists (concat (owned s ff ft <$> l1) ++ concat (owned s ff ft <$> l2)). split.
  - rewrite <- (co_perm C). unfold all_owned. rewrite E, !fmap_app, fmap_cons, concat_app.
    cbn [concat]. solve_Permutation.
  - intros j Hj Hin i Hi. rewrite E in Hin. rewrite <- concat_app, <- fmap_app.
    apply list_elem_of_In, in_concat. exists (owned s ff ft j). split; [|by apply list_elem_of_In].
    apply list_elem_of_In, list_elem_of_fmap. exists j. split; [done|].
    rewrite elem_of_app, elem_of_cons in Hin. apply elem_of_app. tauto.
Qed.

Lemma owned_unique n s ff ft lost tid v i :
  core n s ff ft lost -> view s tid = Some v -> i ∈ holding ff ft tid v ->
  0 <= i < N /\ (i ∉ queue ft) /\ (i ∉ queued (c_queue s)) /\
  forall j, j <> tid -> i ∉ owned s ff ft j.
Proof.
  intros C Hv Hi. pose proof (view_tid _ _ _ _ _ _ _ C Hv) as Ht. rewrite <- (owned_view s) in Hi by done.
  destruct (perm_split n s ff ft lost tid C Ht) as (rest & P & Hr).
  assert (Hnd : NoDup (owned s ff ft tid ++ queue ff ++ queue ft ++ queued (c_queue s) ++ lost ++ rest))
    by (rewrite P; apply NoDup_seqZ).
  apply NoDup_app in Hnd as (_ & Hd & _). specialize (Hd i Hi). rewrite !elem_of_app in Hd.
  assert (Hs : i ∈ seqZ 0 N) by (rewrite <- P; apply elem_of_app; by left). apply elem_of_seqZ in Hs.
  split_and!; [lia|lia|tauto|tauto|]. intros j Hj Hin.
  assert (j ∈ tids s).
  { destruct (view s j) as [w|] eqn:Hw; [by eapply view_tid|]. unfold owned in Hin. rewrite Hw in Hin.
    by apply not_elem_of_nil in Hin. }
  apply Hd. right; right; right; right. by apply (Hr j).
Qed.

Lemma core_length n s ff ft lost :
  core n s ff ft lost ->
  zlen (queue ff) + zlen (queue ft) + zlen (all_owned s ff ft) + PrioQueue.size (c_queue s) + zlen lost = N.
Proof.
  intros C. pose proof (Permutation_length (co_perm C)) as H.
  rewrite !length_app, length_seqZ in H. destruct (co_queue C) as (Wq & _ & _).
  rewrite <- (zlen_queued _ Wq). destruct (co_store C) as (Hn & _).
  pose proof (zlen_nonneg (c_mbufs s)). unfold zlen in *. lia.
Qed.

(** ** Room in the rings *)

(** What a thread holds of a ring are buffers of its own. *)
Lemma claims_owned n s ff ft lost tid cl tf tx :
  core n s ff ft lost -> view s tid = Some (cl, tf, tx) ->
  threads (c_free s) !! tid = Some tf -> threads (c_tx s) !! tid = Some tx ->
  claim_size tf <= zlen (owned s ff ft tid) /\ claim_size tx <= zlen (owned s ff ft tid).
Proof.
  intros C Hv Hf Ht. rewrite (owned_view s _ _ _ _ Hv). pose proof (co_clients C _ _ Hv) as Hok.
  pose proof (zlen_nonneg (holding ff ft tid (cl, tf, tx))) as Hn.
  assert (Hput : forall t i, (claim_size t <= if resting t then 0 else 1) -> claim_size t <= zlen (unput i t)).
  { intros t i. unfold resting, unput. intros H. destruct (t_pc t); try case_match; rewrite ?zlen_cons, ?zlen_nil; lia. }
  destruct cl as [p|p]; destruct p; cbn [client_ok holding] in *; split_hyps;
    repeat match goal with H : resting ?t = true |- _ => rewrite (resting_claim t H); clear H end;
    split; try lia;
    (eapply got_claim; [apply (co_free C)|..]; done) || (eapply got_claim; [apply (co_tx C)|..]; done) ||
    apply Hput;
    (eapply put_claim; [|apply (co_free C)|]; done) || (eapply put_claim; [|apply (co_tx C)|]; done).
Qed.

Lemma room_gen n s ff ft lost tid v lo m f :
  core n s ff ft lost -> view s tid = Some v -> ring_ok lo n m f ->
  length (threads m) = S (daemon_tid s) -> 
  (forall j t, threads m !! j = Some t ->
     claim_size t <= zlen (owned s ff ft j) /\ (j = tid -> claim_size t = 0)) ->
  1 <= zlen (owned s ff ft tid) -> zlen (queue f) + zlen (all_owned s ff ft) <= N -> occupied f + 1 <= N.
Proof.
  intros C Hv Hr Hl Hc Hz Hq. set (w j := zlen (owned s ff ft j) - if decide (j = tid) then 1 else 0).
  pose proof (room_bound lo n m f (fun j _ => w j) Hr) as Hb. cbn beta in Hb.
  pose proof (sum_by_imap w (threads m) 0) as Hi. cbn [Nat.add] in Hi. rewrite Hi, Hl in Hb. clear Hi.
  unfold all_owned in Hq. rewrite zlen_concat in Hq. unfold tids in Hq.
  pose proof (sum_by_less (zlen ∘ owned s ff ft) w (seq 0 (S (daemon_tid s))) tid) as Hs.
  enough (occupied f <= zlen (queue f) + sum_by w (seq 0 (S (daemon_tid s))) /\
    sum_by w (seq 0 (S (daemon_tid s))) + 1 <= sum_by (zlen ∘ owned s ff ft) (seq 0 (S (daemon_tid s)))) by lia.
  split; [apply Hb|apply Hs].
  - intros j t Hj. destruct (Hc j t Hj). unfold w. case_decide as E; [rewrite E in *|]; lia.
  - by apply (view_tid _ _ _ _ _ _ _ C Hv).
  - intros j. unfold w. cbn. case_decide; lia.
  - unfold w. cbn. case_decide; [lia|done].
Qed.

Lemma thread_view n s ff ft lost j :
  core n s ff ft lost ->
  (forall t, threads (c_free s) !! j = Some t -> exists cl tx, view s j = Some (cl, t, tx) /\
     threads (c_tx s) !! j = Some tx) /\
  (forall t, threads (c_tx s) !! j = Some t -> exists cl tf, view s j = Some (cl, tf, t) /\
     threads (c_free s) !! j = Some tf).
Proof.
  intros C. unfold view. pose proof (co_flen C). pose proof (co_tlen C).
  split; intros t Hj; rewrite Hj; pose proof (lookup_lt_Some _ _ _ Hj).
  - destruct (lookup_lt_is_Some_2 (threads (c_tx s)) j) as [tx E]; [lia|]. rewrite E. eauto.
  - destruct (lookup_lt_is_Some_2 (threads (c_free s)) j) as [tf E]; [lia|]. rewrite E. eauto.
Qed.

Lemma enqueue_room n s ff ft lost tid cl tf tx :
  core n s ff ft lost -> view s tid = Some (cl, tf, tx) ->
  threads (c_free s) !! tid = Some tf -> threads (c_tx s) !! tid = Some tx ->
  1 <= zlen (owned s ff ft tid) ->
  (claim tf = None -> occupied ff + 1 <= N) /\ (claim tx = None -> occupied ft + 1 <= N).
Proof.
  intros C Hv Hf Ht Hz. pose proof (core_length _ _ _ _ _ C) as Hlen.
  destruct (co_queue C) as ((Hs & _) & _). pose proof (zlen_nonneg lost). pose proof (zlen_nonneg (queue ff)).
  pose proof (zlen_nonneg (queue ft)).
  split; intros Hc; eapply (room_gen n s ff ft lost tid); try done; try lia;
    try (apply (co_free C)); try (apply (co_tx C)); try (apply (co_flen C)); try (apply (co_tlen C));
    intros j t Hj; destruct (thread_view n s ff ft lost j C) as [HF HT].
  - destruct (HF t Hj) as (cl' & tx' & Hv' & Hx). split.
    + by apply (claims_owned n s ff ft lost j cl' t tx').
    + intros ->. assert (t = tf) as -> by congruence. unfold claim_size. by rewrite Hc.
  - destruct (HT t Hj) as (cl' & tf' & Hv' & Hx). split.
    + by apply (claims_owned n s ff ft lost j cl' tf' t).
    + intros ->. assert (t = tx) as -> by congruence. unfold claim_size. by rewrite Hc.
Qed.

(** ** One step of one thread *)

Lemma holding_given ff ft ff' ft' tid v :
  given ff' tid = given ff tid -> given ft' tid = given ft tid -> holding ff' ft' tid v = holding ff ft tid v.
Proof.
  intros Ef Et. unfold holding, got. destruct v as [[[p|p] tf] tx]; destruct p; try done; by rewrite ?Ef, ?Et.
Qed.

(** The buffer a thread has written is still as it wrote it. *)
Lemma client_frame s s' ff ft tid w :
  same_shape (RingConc.shared (c_free s)) (RingConc.shared (c_free s')) ->
  same_shape (RingConc.shared (c_tx s)) (RingConc.shared (c_tx s')) ->
  (forall i, i ∈ holding ff ft tid w ->
     zget (c_mbufs s') i = zget (c_mbufs s) i /\ zget (c_metas s') i = zget (c_metas s) i) ->
  client_ok s w -> client_ok s' w.
Proof.
  intros (Ef & _) (Et & _) Hb Hok. destruct w as [[[p|p] tf] tx]; destruct p; cbn [client_ok holding] in *;
    unfold in_ring in *; rewrite ?Ef, ?Et; try done.
  - destruct (Hb i ltac:(by left)) as [-> _]. done.
  - split_hyps. split_and!; try done. unfold unput in Hb. destruct (t_pc tx); try done;
      destruct (Hb i ltac:(by left)) as [E1 E2]; unfold pkt_at; by rewrite E2, E1.
Qed.

Lemma flow_pkts s ft o s' ft' :
  flow s ft o s' ft' -> Forall (obs_ok ck) o -> (forall i, i ∈ inside s ft -> packet_ok (zget (c_metas s) i)) ->
  forall i, i ∈ inside s' ft' -> packet_ok (zget (c_metas s') i).
Proof.
  intros F Ho Hp i Hi. change (packet_ok (pkt_at s' i).2).
  assert (Hin : pkt_at s' i ∈ published_msgs o ++ (pkt_at s <$> inside s ft)).
  { rewrite F. apply elem_of_app. right. apply list_elem_of_fmap. eauto. }
  apply elem_of_app in Hin as [Hin|Hin].
  - unfold published_msgs in Hin. apply list_elem_of_In, in_concat in Hin as (l & Hl & Hp').
    apply list_elem_of_In, list_elem_of_fmap in Hl as (x & -> & Hx). rewrite Forall_forall in Ho.
    specialize (Ho x Hx). destruct x as [| a c j p | | |]; try done. destruct Hp' as [<-|[]].
    destruct Ho as [Hc Hcar]. by apply (carries_packet_ok c p).
  - apply list_elem_of_fmap in Hin as (j & -> & Hj). by apply Hp.
Qed.

(** What a step has to show. *)
Definition good (n : Z) (s : csys) (ff ft : fifo) (lost : list Z) (r : res (csys * list obs)) : Prop :=
  exists s' o ff' ft', r = Ret (s', o) /\ core (n + 1) s' ff' ft' (dropped o ++ lost) /\
    flow s ft o s' ft' /\ Forall (obs_ok ck) o /\ daemon_tid s' = daemon_tid s.

Lemma good_step n s ff ft lost tid v s' ff' ft' v' o :
  core n s ff ft lost -> view s tid = Some v -> view s' tid = Some v' -> frame tid s ff ft s' ff' ft' ->
  ring_ok lof (n + 1) (c_free s') ff' -> ring_ok lot (n + 1) (c_tx s') ft' ->
  store_ok N (c_mbufs s') (c_metas s') ->
  (forall i, 0 <= i < N -> i ∉ holding ff ft tid v ->
     zget (c_mbufs s') i = zget (c_mbufs s) i /\ zget (c_metas s') i = zget (c_metas s) i) ->
  queue_ok N (c_metas s') (c_queue s') -> client_ok s' v' ->
  queue ff' ++ queue ft' ++ holding ff' ft' tid v' ++ queued (c_queue s') ++ dropped o ≡ₚ
    queue ff ++ queue ft ++ holding ff ft tid v ++ queued (c_queue s) ->
  flow s ft o s' ft' -> Forall (obs_ok ck) o -> good n s ff ft lost (Ret (s', o)).
Proof.
  intros C Hv Hv' [Fv Ft Ff Fx Flf Flt Fg] Rf Rt St Hb Qu Hc P Fl Ho.
  exists s', o, ff', ft'. split_and!; try done.
  pose proof Ff as (_ & Ecf & _). pose proof Fx as (Es & Ect & El).
  split; try done.
  - by rewrite Ecf, (co_fcap C).
  - by rewrite Ect, (co_tcap C).
  - rewrite Es, El. apply (co_slack C).
  - by rewrite Flf, Ft, (co_flen C).
  - by rewrite Flt, Ft, (co_tlen C).
  - intros j w Hw. destruct (decide (j = tid)) as [->|Hne]; [congruence|]. rewrite Fv in Hw by done.
    eapply (client_frame s s' ff ft j); try done; [|by apply (co_clients C j)].
    intros i Hi. destruct (owned_unique n s ff ft lost j w i C Hw Hi) as (Hr & _ & _ & Hx).
    apply Hb; [done|]. rewrite <- (owned_view s) by done. auto.
  - rewrite <- (co_perm C). unfold all_owned. 
    pose proof (concat_update (owned s ff ft) (owned s' ff' ft') (tids s) tid
      (queue ff ++ queue ft ++ queued (c_queue s) ++ lost)
      (queue ff' ++ queue ft' ++ queued (c_queue s') ++ dropped o ++ lost) (tids_nodup s)) as Hcu.
    assert (Et : tids s' = tids s) by (unfold tids; by rewrite Ft).
    rewrite Et. etrans; [etrans; [|symmetry; apply Hcu]|].
    + solve_Permutation.
    + by eapply view_tid.
    + intros j Hj. unfold owned. rewrite (Fv j Hj). destruct (view s j); [|done].
      by apply holding_given; apply (Fg j Hj).
    + rewrite (owned_view s _ _ _ _ Hv), (owned_view s' _ _ _ _ Hv').
      transitivity (lost ++ (queue ff ++ queue ft ++ holding ff ft tid v ++ queued (c_queue s)));
        [solve_Permutation|]. rewrite <- P. solve_Permutation.
    + solve_Permutation.
  - by apply (flow_pkts s ft o s' ft'); try done; apply (co_pkts C).
Qed.

Lemma taken_eq s ft p tf tx :
  view s (daemon_tid s) = Some (Loop p, tf, tx) -> c_daemon s = p ->
  taken s ft = match p with DGet => got ft (daemon_tid s) tx | _ => [] end.
Proof. intros Hv Hp. unfold taken, owned. rewrite Hv, Hp. by destruct p. Qed.

Lemma taken_owned n s ff ft lost : core n s ff ft lost -> taken s ft ⊆ owned s ff ft (daemon_tid s).
Proof.
  intros C i Hi. destruct (loop_view n s ff ft lost C) as (tf & tx & _ & _ & Hv & _).
  rewrite (taken_eq s ft _ tf tx Hv eq_refl) in Hi. rewrite (owned_view _ _ _ _ _ Hv).
  destruct (c_daemon s); try done; by apply not_elem_of_nil in Hi.
Qed.

(** No application holds a buffer that is inside. *)
Lemma inside_app n s ff ft lost a v i :
  core n s ff ft lost -> view s a = Some v -> a <> daemon_tid s -> i ∈ inside s ft ->
  0 <= i < N /\ i ∉ holding ff ft a v.
Proof.
  intros C Hv Ha Hi. split.
  - assert (Hs : i ∈ seqZ 0 N); [|apply elem_of_seqZ in Hs; lia].
    rewrite <- (co_perm C), !elem_of_app. unfold inside in Hi. rewrite !elem_of_app in Hi.
    destruct Hi as [Hi|[Hi|Hi]]; [tauto| |tauto]. right; right; left.
    eapply (owned_all s ff ft (daemon_tid s)); [apply elem_of_tids; lia|by eapply taken_owned].
  - intros Hin. destruct (owned_unique n s ff ft lost a v i C Hv Hin) as (_ & H1 & H2 & H3).
    unfold inside in Hi. rewrite !elem_of_app in Hi. destruct Hi as [Hi|[Hi|Hi]]; [done| |done].
    by eapply (H3 (daemon_tid s)), taken_owned.
Qed.

(** A step of an application: it changes its own entries, buffers it holds, and
    puts [new] behind the queue of the transmission ring. *)
Lemma good_app n s ff ft lost a p tf tx s' ff' ft' p' tf' tx' o new :
  core n s ff ft lost -> c_apps s !! a = Some p -> view s a = Some (App p, tf, tx) ->
  c_apps s' = <[a := p']> (c_apps s) -> c_daemon s' = c_daemon s -> c_queue s' = c_queue s ->
  threads (c_free s') = <[a := tf']> (threads (c_free s)) ->
  threads (c_tx s') = <[a := tx']> (threads (c_tx s)) ->
  same_shape (RingConc.shared (c_free s)) (RingConc.shared (c_free s')) ->
  same_shape (RingConc.shared (c_tx s)) (RingConc.shared (c_tx s')) ->
  (forall j, j <> a -> given ff' j = given ff j) -> (forall j, j <> a -> given ft' j = given ft j) ->
  ring_ok lof (n + 1) (c_free s') ff' -> ring_ok lot (n + 1) (c_tx s') ft' ->
  store_ok N (c_mbufs s') (c_metas s') ->
  (forall i, 0 <= i < N -> i ∉ holding ff ft a (App p, tf, tx) ->
     zget (c_mbufs s') i = zget (c_mbufs s) i /\ zget (c_metas s') i = zget (c_metas s) i) ->
  client_ok s' (App p', tf', tx') ->
  queue ft' = queue ft ++ new -> published_msgs o = pkt_at s' <$> new -> handled_msgs o = [] -> dropped o = [] ->
  queue ff' ++ new ++ holding ff' ft' a (App p', tf', tx') ≡ₚ queue ff ++ holding ff ft a (App p, tf, tx) ->
  Forall (obs_ok ck) o -> good n s ff ft lost (Ret (s', o)).
Proof.
  intros C Ha Hv Eap Ed Eq Ef Et Sf Sx Gf Gt Rf Rt St Hb Hc Qt Po Hh Hd P Ho.
  assert (Hlt : (a < daemon_tid s)%nat) by (by apply lookup_lt_Some in Ha).
  assert (Etid : daemon_tid s' = daemon_tid s) by (unfold daemon_tid; by rewrite Eap, length_insert).
  assert (Fr : frame a s ff ft s' ff' ft').
  { split; try done; [|by rewrite Ef, length_insert|by rewrite Et, length_insert|auto].
    intros j Hj. unfold view. by rewrite Ef, Et, Eap, Ed, !list_lookup_insert_ne by done. }
  assert (Hv' : view s' a = Some (App p', tf', tx')).
  { pose proof (co_flen C). pose proof (co_tlen C). unfold view, daemon_tid in *.
    rewrite Ef, Et, Eap, !list_lookup_insert_eq by lia. done. }
  assert (Hin : inside s' ft' = queue ft ++ new ++ taken s ft ++ queued (c_queue s)).
  { unfold inside, taken, owned. rewrite Qt, Ed, Eq, Etid, (fr_view _ _ _ _ _ _ _ Fr) by lia.
    rewrite <- app_assoc. destruct (c_daemon s); try done. destruct (view s (daemon_tid s)); [|done].
    do 3 f_equal. apply holding_given; apply Gt; lia. }
  assert (Hsame : forall i, i ∈ inside s ft -> pkt_at s' i = pkt_at s i).
  { intros i Hi. assert (Hr : 0 <= i < N /\ i ∉ holding ff ft a (App p, tf, tx)).
    { apply (inside_app n s ff ft lost a _ i C Hv); [lia|done]. }
    destruct (Hb i) as [E1 E2]; [apply Hr..|]. unfold pkt_at. by rewrite E2, E1. }
  eapply (good_step n s ff ft lost a (App p, tf, tx) s' ff' ft'); try done.
  - rewrite Eq. destruct (co_queue C) as (W & Hcap & Hn). split_and!; try done.
    intros m Hm. rewrite (Hn m Hm) at 1. unfold node_of. f_equal.
    assert (E : pkt_at s' (PrioQueue.data m) = pkt_at s (PrioQueue.data m)).
    { apply Hsame. unfold inside. rewrite !elem_of_app. right; right. apply list_elem_of_fmap. eauto. }
    apply (f_equal snd) in E. cbn in E. by rewrite E.
  - rewrite Hd, Qt, Eq.
    transitivity (queue ft ++ queued (c_queue s) ++ (queue ff' ++ new ++ holding ff' ft' a (App p', tf', tx')));
      [solve_Permutation|]. rewrite P. solve_Permutation.
  - unfold flow. rewrite Hin, Po, Hh. unfold inside. rewrite !fmap_app.
    assert (E : forall l, l ⊆ inside s ft -> pkt_at s' <$> l = pkt_at s <$> l).
    { intros l Hl. apply list_fmap_ext. intros k x Hx. apply Hsame, Hl. by eapply list_elem_of_lookup_2. }
    rewrite !(E (queue ft)), !(E (taken s ft)), !(E (queued (c_queue s)))
      by (intros x Hx; unfold inside; rewrite !elem_of_app; tauto).
    solve_Permutation.
Qed.

Lemma same_shape_refl rb : same_shape rb rb.
Proof. done. Qed.

Lemma call_step m tid t j :
  threads m !! tid = Some t -> resting t = true ->
  machine_step m (Call tid j) = Ret (mk_machine (RingConc.shared m) (<[tid := start j]> (threads m)), (tid, Tau)).
Proof. intros Hl Hr. cbn [machine_step]. by rewrite Hl, Hr. Qed.

Lemma good_skip n s ff ft lost : core n s ff ft lost -> good n s ff ft lost (Ret (s, [])).
Proof.
  intros C. exists s, [], ff, ft. split_and!; [done| |by unfold flow|constructor|done].
  destruct C. split; try done; (eapply ring_mono; [done|lia]).
Qed.

(** ** The applications *)

Lemma send_good n s ff ft lost a c :
  core n s ff ft lost -> call_ok c -> good n s ff ft lost (send_step s a c).
Proof.
  intros C Hc. unfold send_step. destruct (c_apps s !! a) as [[]|] eqn:Ha; try (by apply good_skip).
  destruct (app_view n s ff ft lost a _ C Ha) as (tf & tx & Hf & Ht & Hv & Hne & Hrf & Hrt).
  rewrite (call_step _ _ tf) by done. cbn [bind].
  assert (Hj : job_ok (RingConc.shared (c_free s)) (get_job [0] 1)).
  { destruct (co_free C) as (g & Hinv & _). pose proof (inv_ring _ _ _ _ Hinv).
    split_and!; [done|done|done|done|]. cbn. lia. }
  eapply (good_app n s ff ft lost a ARest tf tx _ ff ft (AGet c) (start (get_job [0] 1)) tx [] []);
    try done; cbn; try (by rewrite app_nil_r).
  - by rewrite list_insert_id.
  - apply (ring_mono lof n); [|lia]. by apply (ring_call lof n _ ff a tf _ (co_free C)).
  - eapply ring_mono; [apply (co_tx C)|lia].
  - apply (co_store C).
Qed.

Section Sending.
Context (n : Z) (s : csys) (ff ft : fifo) (lost : list Z) (a : nat) (c : call) (tf tx : thread).
Context (C : core n s ff ft lost).
Context (Hf : threads (c_free s) !! a = Some tf) (Ht : threads (c_tx s) !! a = Some tx).
Context (Hb : 8 * n + N < 2 ^ 32).

Lemma get_good sp :
  c_apps s !! a = Some (AGet c) -> view s a = Some (App (AGet c), tf, tx) ->
  client_ok s (App (AGet c), tf, tx) -> resting tf = false ->
  good n s ff ft lost (let* (m, _) := machine_step (c_free s) (Run a sp) in Ret (set_free s m, [])).
Proof.
  intros Ha Hv (Hc & Hj & Hin & Hrt & Hcd) Hr. cbn [machine_step]. rewrite Hf.
  destruct (get_step lof n (c_free s) ff a tf [0] 1 sp) as (rb & tf' & l & ff' & E & Hok & Hj' & Hsh & Hg & _ & Hq & Hi);
    [apply (co_free C)|done|done|lia|done|by rewrite (co_fcap C)|].
  rewrite E. cbn [bind].
  eapply (good_app n s ff ft lost a (AGet c) tf tx _ ff' ft (AGet c) tf' tx [] []); try done; cbn.
  - by rewrite list_insert_id.
  - by rewrite list_insert_id.
  - eapply ring_mono; [apply (co_tx C)|lia].
  - apply (co_store C).
  - split_and!; try done; [|by apply (step_not_idle _ _ _ _ _ _ E)]. apply Hi; [done|].
    destruct (co_free C) as (g & Hinv & _). destruct (inv_threads _ _ _ _ Hinv a tf Hf) as (_ & _ & Hpc).
    pose proof (pow2_size_pos _ (inv_size _ _ _ _ Hinv)). unfold reserves_in_ring, t_max in *. rewrite Hj in Hpc.
    destruct (t_pc tf); try done. cbn in Hpc. pose proof (Z.mod_pos_bound old_head (RingBuf.size (RingConc.shared (c_free s)))). lia.
  - by rewrite app_nil_r.
  - rewrite (Permutation_app_comm (queue ff')), Hq. solve_Permutation.
Qed.

(** The first index of the table is the one that was taken. *)
Lemma got_good h k av :
  c_apps s !! a = Some (AGet c) -> view s a = Some (App (AGet c), tf, tx) ->
  client_ok s (App (AGet c), tf, tx) -> t_pc tf = Done h k av ->
  good n s ff ft lost
    (if k =? 0 then Ret (set_app s a ARest, [NoBuffer a])
     else index <- znth (t_table tf) 0;; Ret (set_app s a (AFill c index), [])).
Proof.
  intros Ha Hv (Hc & Hj & Hin & Hrt & Hcd) Hpc.
  assert (Hrf : resting tf = true) by (unfold resting; by rewrite Hpc).
  destruct (get_done lof n (c_free s) ff a tf [0] 1 h k av) as (Hk & Hl & Hg); try done; [apply (co_free C)|].
  assert (Hh : holding ff ft a (App (AGet c), tf, tx) = zslice (t_table tf) 0 k) by done.
  change (zlen [0]) with 1 in Hl. destruct (Z.eqb_spec k 0) as [->|Hne].
  - eapply (good_app n s ff ft lost a (AGet c) tf tx _ ff ft ARest tf tx _ []); try done; cbn [set_app c_free c_tx].
    1,2: by rewrite list_insert_id.
    1,2: eapply ring_mono; [apply C|lia].
    + apply (co_store C).
    + by rewrite app_nil_r.
    + rewrite Hh. done.
    + by repeat constructor.
  - assert (k = 1) as -> by lia. rewrite znth_get by lia. cbn [bind].
    eapply (good_app n s ff ft lost a (AGet c) tf tx _ ff ft (AFill c _) tf tx _ []); try done;
      cbn [set_app c_free c_tx].
    1,2: by rewrite list_insert_id.
    1,2: eapply ring_mono; [apply C|lia].
    + apply (co_store C).
    + by rewrite app_nil_r.
    + rewrite Hh, zslice_cons by lia. done.
Qed.

Lemma pool_update {A} `{Inhabited A} (l : list A) i x j k :
  zlen l = N -> 0 <= i < N -> 0 <= j < N -> k = [i] -> j ∉ k -> zget (zupd l i x) j = zget l j.
Proof. intros Hl Hi Hj -> Hn. apply zget_zupd_ne; [lia|lia|]. intros ->. by apply Hn; left. Qed.

Lemma fill_good i :
  c_apps s !! a = Some (AFill c i) -> view s a = Some (App (AFill c i), tf, tx) ->
  client_ok s (App (AFill c i), tf, tx) ->
  good n s ff ft lost
    (mbuf <- znth (c_mbufs s) i;;
     mbuf <- memcpy mbuf (c_iov c) (zlen (c_iov c));;
     mbufs <- zset (c_mbufs s) i mbuf;;
     Ret (set_app (set_pools s mbufs (c_metas s)) a (ADesc c i), [])).
Proof.
  intros Ha Hv (Hc & Hrf & Hrt).
  destruct (owned_unique n s ff ft lost a _ i C Hv) as (Hi & _); [by left|].
  destruct (co_store C) as (Hm & Hd & Hz). destruct (Hz i Hi) as (Hlen & _).
  pose proof Hc as (Hiov & _). unfold kt_mbuf_size in *.
  rewrite znth_get by lia. cbn [bind]. rewrite memcpy_prefix by lia. cbn [bind].
  rewrite zset_upd by lia. cbn [bind].
  eapply (good_app n s ff ft lost a (AFill c i) tf tx _ ff ft (ADesc c i) tf tx _ []); try done;
    cbn [set_app set_pools c_free c_tx c_mbufs c_metas].
  1,2: by rewrite list_insert_id.
  1,2: eapply ring_mono; [apply C|lia].
  - split_and!; [by rewrite zlen_zupd|done|]. intros j Hj. split; [|apply (Hz j Hj)].
    rewrite zget_zupd by lia. destruct (Z.eqb_spec i j) as [<-|]; [|apply (Hz j Hj)].
    unfold zlen, kt_mbuf_size in *. rewrite length_app, length_drop. lia.
  - intros j Hj Hn. split; [|done]. by apply (pool_update _ _ _ _ _ Hm Hi Hj eq_refl).
  - split_and!; try done. cbn [set_app set_pools c_mbufs]. rewrite zget_zupd_eq by lia.
    unfold zslice, zlen. rewrite Nat2Z.id. change (Z.to_nat 0) with 0%nat. rewrite drop_0. by apply take_app_length.
  - by rewrite app_nil_r.
Qed.

Lemma desc_good i :
  c_apps s !! a = Some (ADesc c i) -> view s a = Some (App (ADesc c i), tf, tx) ->
  client_ok s (App (ADesc c i), tf, tx) ->
  good n s ff ft lost
    (m <- znth (c_metas s) i;;
     src <- memcpy (eth_src m) (c_hw c) 6;;
     dst <- memcpy (eth_dst m) (c_dmac c) 6;;
     metas <- zset (c_metas s) i (c_md c m src dst (zlen (c_iov c)));;
     let* (mt, _) := machine_step (c_tx s) (Call a (put_job i)) in
     Ret (set_app (set_tx (set_pools s (c_mbufs s) metas) mt) a (APut c i), [])).
Proof.
  intros Ha Hv (Hc & Hrf & Hrt & Hfill).
  destruct (owned_unique n s ff ft lost a _ i C Hv) as (Hi & _); [by left|].
  destruct (co_store C) as (Hm & Hd & Hz). destruct (Hz i Hi) as (Hlen & Hs6 & Hd6).
  pose proof Hc as (Hiov & Hhw & Hdm & _ & Hw).
  rewrite znth_get by lia. cbn [bind]. rewrite !memcpy_whole by done. cbn [bind].
  rewrite zset_upd by lia. cbn [bind]. rewrite (call_step _ _ tx) by done. cbn [bind].
  set (md := c_md c _ _ _ _).
  destruct (Hw (zget (c_metas s) i) (c_hw c) (c_dmac c) (zlen (c_iov c))) as (E1 & E2 & E3 & _); [zlia|done|done|].
  fold md in E1, E2, E3.
  eapply (good_app n s ff ft lost a (ADesc c i) tf tx _ ff ft (APut c i) tf (start (put_job i)) _ []); try done;
    cbn [set_app set_pools set_tx c_free c_tx c_mbufs c_metas].
  - by rewrite list_insert_id.
  - eapply ring_mono; [apply C|lia].
  - apply (ring_mono lot n); [|lia]. apply (ring_call lot n _ ft a tx _ (co_tx C)); try done.
  - split_and!; [done|by rewrite zlen_zupd|]. intros j Hj. split; [apply (Hz j Hj)|].
    rewrite zget_zupd by lia. destruct (Z.eqb_spec i j) as [<-|]; [by rewrite E1, E2|apply (Hz j Hj)].
  - intros j Hj Hn. split; [done|]. by apply (pool_update _ _ _ _ _ Hd Hi Hj eq_refl).
  - split_and!; try done. cbn [start t_pc put_job j_table]. unfold carries, pkt_at. cbn [set_app set_tx set_pools c_mbufs c_metas fst snd].
    rewrite zget_zupd_eq by lia. rewrite E3. split; [done|]. by eexists.
  - by rewrite app_nil_r.
Qed.

Lemma put_good i sp :
  c_apps s !! a = Some (APut c i) -> view s a = Some (App (APut c i), tf, tx) ->
  client_ok s (App (APut c i), tf, tx) -> resting tx = false ->
  good n s ff ft lost
    (let* (m, (_, l)) := machine_step (c_tx s) (Run a sp) in
     Ret (set_tx s m, match l with Commit Producer _ => [Published a c i (pkt_at s i)] | _ => [] end)).
Proof.
  intros Ha Hv (Hc & Hrf & Hj & Htb & Hcd & Hcar) Hr. cbn [machine_step]. rewrite Ht.
  assert (Hcr : carries c (pkt_at s i)) by (unfold resting in Hr; by destruct (t_pc tx)).
  assert (Hown : holding ff ft a (App (APut c i), tf, tx) = [i]).
  { cbn. unfold unput, resting in *. by destruct (t_pc tx). }
  destruct (put_step lot n (c_tx s) ft a tx i sp) as (rb & tx' & l & ft' & E & Hok & Hj' & Htb' & Hsh & Hg & Hq);
    [apply (co_tx C)|done|done|done|done|by rewrite (co_tcap C)|].
  rewrite E. cbn [bind].
  assert (Hroom : claim tx = None -> occupied ft + 1 <= N).
  { apply (enqueue_room n s ff ft lost a _ tf tx C Hv Hf Ht). rewrite (owned_view _ _ _ _ _ Hv), Hown. done. }
  rewrite (co_tcap C) in Hq.
  destruct Hq as [(-> & Hq & h & av & Hpc)|(Hl & Hq & Hor)].
  - eapply (good_app n s ff ft lost a (APut c i) tf tx _ ff ft' (APut c i) tf tx' _ [i]); try done;
      cbn [set_tx c_free c_tx c_apps].
    1,2: by rewrite list_insert_id.
    + intros j _. by rewrite Hg.
    + eapply ring_mono; [apply C|lia].
    + apply (co_store C).
    + split_and!; try done; unfold called; by rewrite Hpc.
    + rewrite Hown. cbn. unfold unput. by rewrite Hpc.
    + by apply Forall_singleton.
  - assert (Hr' : resting tx' = false) by (destruct Hor as [|[Hfull Hcl]]; [done|specialize (Hroom Hcl); lia]).
    replace (match l with Commit Producer _ => _ | _ => _ end) with (@nil obs)
      by (destruct l as [| | |[] ws]; try done; by specialize (Hl ws)).
    eapply (good_app n s ff ft lost a (APut c i) tf tx _ ff ft' (APut c i) tf tx' _ []); try done;
      cbn [set_tx c_free c_tx c_apps].
    1,2: by rewrite list_insert_id.
    + intros j _. by rewrite Hg.
    + eapply ring_mono; [apply C|lia].
    + apply (co_store C).
    + split_and!; try done; [by apply (step_not_idle _ _ _ _ _ _ E)|]. unfold resting in Hr'. by destruct (t_pc tx').
    + by rewrite app_nil_r.
    + rewrite Hown. cbn. unfold unput, resting in *. by destruct (t_pc tx').
Qed.

Lemma put_done i h k av :
  c_apps s !! a = Some (APut c i) -> view s a = Some (App (APut c i), tf, tx) ->
  client_ok s (App (APut c i), tf, tx) -> t_pc tx = Done h k av ->
  good n s ff ft lost
    (Ret (set_app s a ARest, [Returned a c (if negb (k =? 1) then - ENOBUFS else zlen (c_iov c))])).
Proof.
  intros Ha Hv (Hc & Hrf & Hj & Htb & Hcd & Hk) Hpc. rewrite Hpc in Hk. subst k.
  eapply (good_app n s ff ft lost a (APut c i) tf tx _ ff ft ARest tf tx _ []); try done;
    cbn [set_app c_free c_tx].
  1,2: by rewrite list_insert_id.
  1,2: eapply ring_mono; [apply C|lia].
  - apply (co_store C).
  - split; [done|]. unfold resting. by rewrite Hpc.
  - by rewrite app_nil_r.
  - cbn. unfold unput. by rewrite Hpc.
  - by repeat constructor.
Qed.
End Sending.

Lemma app_good n s ff ft lost a sp :
  core n s ff ft lost -> 8 * n + N < 2 ^ 32 -> good n s ff ft lost (app_step s a sp).
Proof.
  intros C Hb. unfold app_step. destruct (c_apps s !! a) as [p|] eqn:Ha; [|by apply good_skip].
  destruct (app_view n s ff ft lost a p C Ha) as (tf & tx & Hf & Ht & Hv & Hne & Hok). rewrite Hf, Ht.
  destruct p as [|c|c i|c i|c i].
  - by apply good_skip.
  - destruct (t_pc tf) eqn:Hpc; try (apply (get_good n s ff ft lost a c tf tx); try done; by unfold resting; rewrite Hpc).
    + exfalso. by cbn in Hok; split_hyps.
    + by apply (got_good n s ff ft lost a c tf tx C Hf Ht old_head n0 space).
  - by apply (fill_good n s ff ft lost a c tf tx).
  - by apply (desc_good n s ff ft lost a c tf tx).
  - destruct (t_pc tx) eqn:Hpc; try (apply (put_good n s ff ft lost a c tf tx); try done; by unfold resting; rewrite Hpc).
    + exfalso. by cbn in Hok; split_hyps.
    + by apply (put_done n s ff ft lost a c tf tx C Hf Ht i old_head n0 space).
Qed.

(** ** The daemon *)

Definition burst_of (p : daemon_pc) (ft : fifo) (tid : nat) (tx : thread) : list Z :=
  match p with DGet => got ft tid tx | _ => [] end.

(** A step of the daemon: it changes its own entries and the queue, and the
    packets [out] leave. *)
Lemma good_loop n s ff ft lost tf tx s' ff' ft' tf' tx' o out :
  core n s ff ft lost -> view s (daemon_tid s) = Some (Loop (c_daemon s), tf, tx) ->
  c_apps s' = c_apps s -> c_mbufs s' = c_mbufs s -> c_metas s' = c_metas s ->
  threads (c_free s') = <[daemon_tid s := tf']> (threads (c_free s)) ->
  threads (c_tx s') = <[daemon_tid s := tx']> (threads (c_tx s)) ->
  same_shape (RingConc.shared (c_free s)) (RingConc.shared (c_free s')) ->
  same_shape (RingConc.shared (c_tx s)) (RingConc.shared (c_tx s')) ->
  (forall j, j <> daemon_tid s -> given ff' j = given ff j) ->
  (forall j, j <> daemon_tid s -> given ft' j = given ft j) ->
  ring_ok lof (n + 1) (c_free s') ff' -> ring_ok lot (n + 1) (c_tx s') ft' ->
  queue_ok N (c_metas s) (c_queue s') -> client_ok s' (Loop (c_daemon s'), tf', tx') ->
  queue ff' ++ queue ft' ++ holding ff' ft' (daemon_tid s) (Loop (c_daemon s'), tf', tx') ++
    queued (c_queue s') ++ dropped o ≡ₚ
    queue ff ++ queue ft ++ holding ff ft (daemon_tid s) (Loop (c_daemon s), tf, tx) ++ queued (c_queue s) ->
  published_msgs o = [] -> handled_msgs o = pkt_at s <$> out ->
  queue ft ++ burst_of (c_daemon s) ft (daemon_tid s) tx ++ queued (c_queue s) ≡ₚ
    out ++ queue ft' ++ burst_of (c_daemon s') ft' (daemon_tid s) tx' ++ queued (c_queue s') ->
  Forall (obs_ok ck) o -> good n s ff ft lost (Ret (s', o)).
Proof.
  intros C Hv Eap Em Ed Ef Et Sf Sx Gf Gt Rf Rt Qu Hc P Po Hh Pin Ho.
  assert (Etid : daemon_tid s' = daemon_tid s) by (unfold daemon_tid; by rewrite Eap).
  pose proof (co_flen C) as Hlf. pose proof (co_tlen C) as Hlt.
  assert (Fr : frame (daemon_tid s) s ff ft s' ff' ft').
  { split; try done; [|by rewrite Ef, length_insert|by rewrite Et, length_insert|auto].
    intros j Hj. unfold view. rewrite Ef, Et, Eap, !list_lookup_insert_ne by done.
    destruct (c_apps s !! j) eqn:E; [done|]. apply lookup_ge_None_1 in E. unfold daemon_tid in *.
    by rewrite (lookup_ge_None_2 (threads (c_free s))) by lia. }
  assert (Hv' : view s' (daemon_tid s) = Some (Loop (c_daemon s'), tf', tx')).
  { unfold view. rewrite Ef, Et, Eap, !list_lookup_insert_eq, (lookup_ge_None_2 (c_apps s)) by (done || lia). done. }
  eapply (good_step n s ff ft lost (daemon_tid s) _ s' ff' ft'); try done.
  - rewrite Em, Ed. apply (co_store C).
  - intros i _ _. by rewrite Em, Ed.
  - by rewrite Ed.
  - unfold flow, inside. rewrite Po, Hh.
    rewrite (taken_eq s ft _ tf tx Hv eq_refl).
    rewrite <- Etid in Hv'. rewrite (taken_eq s' ft' _ tf' tx' Hv' eq_refl), Etid.
    assert (Epk : forall l : list Z, pkt_at s' <$> l = pkt_at s <$> l).
    { intros l. apply list_fmap_ext. intros k x _. unfold pkt_at. by rewrite Em, Ed. }
    rewrite Epk, <- fmap_app. apply fmap_Permutation. exact Pin.
Qed.

Section Looping.
Context (n : Z) (s : csys) (ff ft : fifo) (lost : list Z) (tf tx : thread).
Context (C : core n s ff ft lost).
Context (Hf : threads (c_free s) !! daemon_tid s = Some tf) (Ht : threads (c_tx s) !! daemon_tid s = Some tx).
Context (Hv : view s (daemon_tid s) = Some (Loop (c_daemon s), tf, tx)).
Context (Hok : client_ok s (Loop (c_daemon s), tf, tx)).

Lemma start_good table :
  c_daemon s = DRest -> zlen table = 64 -> good n s ff ft lost (start_step s table).
Proof.
  intros Hd Hl. unfold start_step. rewrite Hd in *. destruct Hok as [Hrf Hrt].
  rewrite (call_step _ _ tx) by done. cbn [bind].
  assert (Hj : job_ok (RingConc.shared (c_tx s)) (get_job table burst_size)).
  { pose proof (co_slack C). unfold job_ok, burst_size. cbn. rewrite Hl. lia. }
  eapply (good_loop n s ff ft lost tf tx _ ff ft tf (start (get_job table burst_size)) [] []); try done;
    rewrite ?Hd; try done; cbn [set_daemon set_tx c_free c_tx c_queue c_daemon].
  - by rewrite list_insert_id.
  - eapply ring_mono; [apply C|lia].
  - apply (ring_mono lot n); [|lia]. by apply (ring_call lot n _ ft _ tx _ (co_tx C)).
  - apply (co_queue C).
  - split_and!; try done. by exists table.
  - cbn. by rewrite app_nil_r.
Qed.

Lemma take_good sp :
  c_daemon s = DGet -> resting tx = false -> reserves_in_ring (RingConc.shared (c_tx s)) tx ->
  8 * n + N < 2 ^ 32 ->
  good n s ff ft lost (let* (m, _) := machine_step (c_tx s) (Run (daemon_tid s) sp) in Ret (set_tx s m, [])).
Proof.
  intros Hd Hr Hres Hb. rewrite Hd in *. destruct Hok as (Hrf & Hin & Hcd & table & Hj & Hl).
  cbn [machine_step]. rewrite Ht.
  destruct (get_step lot n (c_tx s) ft (daemon_tid s) tx table burst_size sp)
    as (rb & tx' & l & ft' & E & Hok' & Hj' & Hsh & Hg & _ & Hq & Hi);
    [apply (co_tx C)|done|done|unfold burst_size; lia|done|by rewrite (co_tcap C)|].
  rewrite E. cbn [bind].
  eapply (good_loop n s ff ft lost tf tx _ ff ft' tf tx' [] []); try done;
    cbn [set_tx c_free c_tx c_queue c_daemon]; rewrite ?Hd; try done.
  - by rewrite list_insert_id.
  - eapply ring_mono; [apply C|lia].
  - apply (co_queue C).
  - split_and!; try done; [auto|by apply (step_not_idle _ _ _ _ _ _ E)|by exists table].
  - cbn. rewrite app_nil_r, (app_assoc (queue ft')), (Permutation_app_comm (queue ft')), Hq.
    solve_Permutation.
  - cbn. rewrite (app_assoc (queue ft')), (Permutation_app_comm (queue ft')), Hq. solve_Permutation.
Qed.

Lemma owned_le tid : tid ∈ tids s -> zlen (owned s ff ft tid) <= zlen (all_owned s ff ft).
Proof.
  intros (l1 & l2 & E)%list_elem_of_split. unfold all_owned. rewrite E, fmap_app, fmap_cons, concat_app.
  cbn [concat]. rewrite !zlen_app. zlia.
Qed.

Lemma took_good h k av :
  c_daemon s = DGet -> t_pc tx = Done h k av ->
  good n s ff ft lost
    (q <- insert_burst (Z.to_nat k) 0 (t_table tx) (c_metas s) (c_queue s);; Ret (set_daemon s DLook q, [])).
Proof.
  intros Hd Hpc. rewrite Hd in *. destruct Hok as (Hrf & Hin & Hcd & table & Hj & Hl).
  destruct (get_done lot n (c_tx s) ft (daemon_tid s) tx table burst_size h k av) as (Hk & Hl' & Hg);
    try done; [apply (co_tx C)|].
  unfold burst_size in Hk. rewrite Hl in Hl'.
  pose proof (core_length _ _ _ _ _ C) as Hlen. destruct (co_queue C) as (Wq & Cq & Nq).
  pose proof (owned_le (daemon_tid s) ltac:(apply elem_of_tids; lia)) as Ho.
  rewrite (owned_view _ _ _ _ _ Hv) in Ho. cbn [holding] in Ho. rewrite <- Hg, zlen_zslice in Ho by lia.
  destruct (co_store C) as (_ & Hm & _).
  destruct (insert_burst_spec (c_metas s) (Z.to_nat k) 0 (t_table tx) (c_queue s))
    as (q & E & W & Cp & Pn & _); [done|zlia|lia|lia| |].
  { intros j Hjj. rewrite Hm. eapply (owned_unique n s ff ft lost _ _ _ C Hv). cbn [holding]. rewrite <- Hg.
    rewrite <- (zget_zslice _ 0 k j) by lia. apply elem_of_zget. rewrite zlen_zslice by lia. lia. }
  rewrite E. cbn [bind]. rewrite Z2Nat.id, Hg in Pn by lia.
  pose proof (queued_absorb _ _ _ _ Pn) as Pq.
  eapply (good_loop n s ff ft lost tf tx _ ff ft tf tx [] []); try done;
    cbn [set_daemon c_free c_tx c_queue c_daemon]; rewrite ?Hd; try done.
  1,2: by rewrite list_insert_id.
  1,2: eapply ring_mono; [apply C|lia].
  - split_and!; [done|congruence|]. intros m Hmm. rewrite Pn in Hmm. apply elem_of_app in Hmm as [Hmm|Hmm].
    + apply list_elem_of_fmap in Hmm as (i & -> & _). done.
    + by apply Nq.
  - split; [done|]. unfold resting. by rewrite Hpc.
  - cbn. rewrite Pq, app_nil_r. solve_Permutation.
  - cbn. by rewrite Pq.
Qed.

(** The packet at the root of the queue. *)
Lemma root_packet :
  0 < PrioQueue.size (c_queue s) ->
  let m := zget (elems (c_queue s)) 0 in let i := PrioQueue.data m in
  0 <= i < N /\ prio m = txtime (zget (c_metas s) i) /\ packet_ok (zget (c_metas s) i).
Proof.
  intros Hs m i. destruct (co_queue C) as (Wq & _ & Nq).
  assert (Hm : m ∈ nodes (c_queue s)) by (apply nodes_lookup; [done|]; exists 0; split; [lia|done]).
  assert (Hi : i ∈ queued (c_queue s)) by (apply list_elem_of_fmap; eauto).
  assert (Hp : packet_ok (zget (c_metas s) i)).
  { apply (co_pkts C). unfold inside. rewrite !elem_of_app. auto. }
  split_and!; try done.
  1,2: assert (Hr : i ∈ seqZ 0 N) by (rewrite <- (co_perm C), !elem_of_app; auto); apply elem_of_seqZ in Hr; lia.
  rewrite (Nq m Hm). fold i. cbn [prio node_of]. destruct Hp as (_ & Ht' & _).
  apply i64_id. unfold INT64_MIN, INT64_MAX in *. lia.
Qed.

(** Taking the root out of the queue, with what is shown of it. *)
Lemma pop_good s' ff' tf' o q' i :
  c_daemon s = DLook -> c_queue s' = q' -> i = PrioQueue.data (zget (elems (c_queue s)) 0) ->
  nodes (c_queue s) ≡ₚ zget (elems (c_queue s)) 0 :: nodes q' -> pq_wf q' -> cap q' = cap (c_queue s) ->
  c_apps s' = c_apps s -> c_mbufs s' = c_mbufs s -> c_metas s' = c_metas s -> c_tx s' = c_tx s ->
  threads (c_free s') = <[daemon_tid s := tf']> (threads (c_free s)) ->
  RingConc.shared (c_free s') = RingConc.shared (c_free s) ->
  ring_ok lof n (c_free s') ff -> ff' = ff -> client_ok s' (Loop (c_daemon s'), tf', tx) ->
  holding ff ft (daemon_tid s) (Loop (c_daemon s'), tf', tx) ++ dropped o = [i] ->
  c_daemon s' <> DGet ->
  published_msgs o = [] -> handled_msgs o = [pkt_at s i] -> Forall (obs_ok ck) o -> good n s ff ft lost (Ret (s', o)).
Proof.
  intros Hd Eq Ei Pn W Cp Eap Em Ed Et Ef Es Rf -> Hc Hh Hng Po Ho Hobs.
  destruct (co_queue C) as (_ & Cq & Nq).
  assert (Pq : queued (c_queue s) ≡ₚ i :: queued q') by (unfold queued; by rewrite Pn, Ei).
  eapply (good_loop n s ff ft lost tf tx s' ff ft tf' tx o [i]); try done.
  - by rewrite Et, list_insert_id.
  - by rewrite Es.
  - by rewrite Et.
  - eapply ring_mono; [done|lia].
  - rewrite Et. eapply ring_mono; [apply C|lia].
  - rewrite Eq. split_and!; [done|congruence|]. intros m Hm. apply Nq. rewrite Pn. by right.
  - rewrite Eq, Hd, Pq. cbn [holding app].
    transitivity (queue ff ++ queue ft ++ queued q' ++
      (holding ff ft (daemon_tid s) (Loop (c_daemon s'), tf', tx) ++ dropped o)); [solve_Permutation|].
    rewrite Hh. solve_Permutation.
  - rewrite Eq, Hd, Pq. destruct (c_daemon s'); cbn; try done; solve_Permutation.
Qed.

Lemma look_good now tb :
  c_daemon s = DLook -> 0 <= now <= INT64_MAX -> zlen (Packet.data tb) = 2048 ->
  good n s ff ft lost (look_step ck s now tb).
Proof.
  intros Hd Hnow Htb. destruct (co_queue C) as (Wq & Cq & Nq). destruct (co_store C) as (Hm & Hmd & Hz).
  pose proof Hok as Hrest. rewrite Hd in Hrest. destruct Hrest as [Hrf Hrt].
  assert (Hstay : good n s ff ft lost (Ret (set_daemon s DRest (c_queue s), []))).
  { eapply (good_loop n s ff ft lost tf tx _ ff ft tf tx [] []); try done;
      cbn [set_daemon c_free c_tx c_queue c_daemon]; rewrite ?Hd; try done; cbn; rewrite ?app_nil_r; try done.
    1,2: by rewrite list_insert_id.
    1,2: eapply ring_mono; [apply C|lia]. }
  unfold look_step, kt_prio_queue_is_empty. destruct (Z.eqb_spec (PrioQueue.size (c_queue s)) 0) as [Hs|Hs]; [done|].
  assert (Hpos : 0 < PrioQueue.size (c_queue s)) by (destruct Wq; lia).
  destruct (root_packet Hpos) as (Hi & Hp & Hpk). rewrite getmin_ret by done. cbn [bind]. unfold key, kt_get_time_diff_ns.
  set (i := PrioQueue.data _) in *. rewrite Hp. pose proof Hpk as (Hmok & Htx & Hsz & Hudp).
  rewrite i64_op_id by (unfold INT64_MIN, INT64_MAX in *; lia). cbn [bind].
  destruct (Z.ltb_spec tx_delta_ns (txtime (zget (c_metas s) i) - now)) as [|Hle]; [done|].
  destruct (Z.ltb_spec (txtime (zget (c_metas s) i) - now) 0) as [Hlate|Hdue].
  - destruct (extract_min_spec (c_queue s) false) as (q' & r & Ex & W & Cp & _ & Pn & _); [done|done|].
    rewrite Ex. cbn [bind].
    apply (pop_good _ ff tf _ q' i); try done; cbn [set_daemon c_free]; [by rewrite list_insert_id|apply C|].
    apply Forall_singleton. cbn. fold i. lia.
  - destruct (extract_min_spec (c_queue s) true) as (q' & r & Ex & W & Cp & _ & Pn & _); [done|done|].
    rewrite Ex. cbn [bind]. fold i. rewrite !znth_get by lia. cbn [bind].
    destruct (Hz i Hi) as (Hlen & _).
    destruct (prepare_total ck tb (zget (c_mbufs s) i) (zget (c_metas s) i)) as (b & Eb); try done;
      try (unfold kt_mbuf_size in *; lia); [unfold kt_mbuf_size in *; lia..|].
    rewrite Eb. cbn [bind]. rewrite (call_step _ _ tf) by done. cbn [bind].
    apply (pop_good _ ff (start (put_job i)) _ q' i); try done; cbn [set_sent set_daemon set_free c_free].
    + by apply (ring_call lof n _ ff _ tf _ (co_free C)).
    + apply Forall_singleton. cbn. split; [lia|]. by exists tb, (zget (c_mbufs s) i).
Qed.

Lemma give_good i sp :
  c_daemon s = DPut i -> resting tf = false -> 8 * n + N < 2 ^ 32 ->
  good n s ff ft lost (let* (m, _) := machine_step (c_free s) (Run (daemon_tid s) sp) in Ret (set_free s m, [])).
Proof.
  intros Hd Hr Hb. rewrite Hd in *. destruct Hok as (Hj & Htab & Hrt & Hcd & _).
  assert (Hown : holding ff ft (daemon_tid s) (Loop (DPut i), tf, tx) = [i]).
  { cbn. unfold unput, resting in *. by destruct (t_pc tf). }
  cbn [machine_step]. rewrite Hf.
  destruct (put_step lof n (c_free s) ff (daemon_tid s) tf i sp)
    as (rb & tf' & l & ff' & E & Hok' & Hj' & Htb' & Hsh & Hg & Hq);
    [apply (co_free C)|done|done|done|done|by rewrite (co_fcap C)|].
  rewrite E. cbn [bind]. rewrite (co_fcap C) in Hq.
  assert (Hroom : claim tf = None -> occupied ff + 1 <= N).
  { apply (enqueue_room n s ff ft lost _ _ tf tx C Hv Hf Ht). by rewrite (owned_view _ _ _ _ _ Hv), Hown. }
  assert (Hcase : queue ff' ++ unput i tf' = queue ff ++ [i] /\
            match t_pc tf' with Done _ k _ => k = 1 | _ => True end).
  { unfold unput. destruct Hq as [(_ & -> & h & av & ->)|(_ & -> & Hor)]; [by rewrite app_nil_r|].
    assert (Hr' : resting tf' = false) by (destruct Hor as [|[Hfull Hcl]]; [done|specialize (Hroom Hcl); lia]).
    unfold resting in Hr'. by destruct (t_pc tf'). }
  destruct Hcase as [Hcase Hdone].
  eapply (good_loop n s ff ft lost tf tx _ ff' ft tf' tx [] []); try done;
    cbn [set_free c_free c_tx c_queue c_daemon]; rewrite ?Hd; try done.
  - by rewrite list_insert_id.
  - intros j _. by rewrite Hg.
  - eapply ring_mono; [apply C|lia].
  - apply (co_queue C).
  - split_and!; try done. by apply (step_not_idle _ _ _ _ _ _ E).
  - rewrite Hown. cbn [holding]. rewrite app_nil_r.
    transitivity ((queue ff' ++ unput i tf') ++ queue ft ++ queued (c_queue s)); [solve_Permutation|].
    rewrite Hcase. solve_Permutation.
Qed.

Lemma gave_good i h k av :
  c_daemon s = DPut i -> t_pc tf = Done h k av -> 0 <= c_counter s < INT64_MAX ->
  good n s ff ft lost
    (c <- i64_op (c_counter s + 1);; Ret (set_sent (set_daemon s DRest (c_queue s)) c (c_wire s), [])).
Proof.
  intros Hd Hpc Hcnt. rewrite Hd in *. destruct Hok as (Hj & Htab & Hrt & Hcd & Hk). rewrite Hpc in Hk. subst k.
  rewrite i64_op_id by (unfold INT64_MIN, INT64_MAX in *; lia). cbn [bind].
  eapply (good_loop n s ff ft lost tf tx _ ff ft tf tx [] []); try done;
    cbn [set_sent set_daemon c_free c_tx c_queue c_daemon]; rewrite ?Hd; try done.
  1,2: by rewrite list_insert_id.
  1,2: eapply ring_mono; [apply C|lia].
  - apply (co_queue C).
  - split; [|done]. unfold resting. by rewrite Hpc.
  - cbn. unfold unput. rewrite Hpc. by rewrite app_nil_r.
Qed.
End Looping.

(** ** Any step *)

Lemma step_good n s ff ft lost e :
  core n s ff ft lost -> 8 * n + N < 2 ^ 32 -> admissible s e -> good n s ff ft lost (cstep ck s e).
Proof.
  intros C Hb Ha. destruct (loop_view n s ff ft lost C) as (tf & tx & Hf & Ht & Hv & Hok).
  destruct e as [a c|a sp|table|sp now tb]; cbn [cstep admissible] in *.
  - by apply send_good.
  - by apply app_good.
  - destruct (c_daemon s) eqn:Hd; unfold start_step; try (rewrite Hd; by apply good_skip).
    rewrite <- Hd in Hv, Hok. by apply (start_good n s ff ft lost tf tx).
  - destruct Ha as (Hnow & Htb & Hcnt & Hres). unfold next_step. rewrite Hf, Ht.
    destruct (c_daemon s) eqn:Hd; rewrite <- Hd in Hv, Hok.
    + by apply good_skip.
    + destruct (t_pc tx) eqn:Hpc;
        try (apply (take_good n s ff ft lost tf tx); try done; [by unfold resting; rewrite Hpc|by apply Hres]).
      * exfalso. rewrite Hd in Hok. by cbn in Hok; split_hyps.
      * by eapply (took_good n s ff ft lost tf tx).
    + by apply (look_good n s ff ft lost tf tx).
    + destruct (t_pc tf) eqn:Hpc;
        try (apply (give_good n s ff ft lost tf tx C Hf Ht Hv Hok i); try done; by unfold resting; rewrite Hpc).
      * exfalso. rewrite Hd in Hok. by cbn in Hok; split_hyps.
      * by eapply (gave_good n s ff ft lost tf tx).
Qed.

Lemma run_good s0 n s h ff0 ft0 lost0 :
  crun ck s0 n s h -> core 0 s0 ff0 ft0 lost0 -> 8 * n + N < 2 ^ 32 ->
  exists ff ft lost, core n s ff ft lost /\ lost ≡ₚ dropped h ++ lost0 /\ flow s0 ft0 h s ft /\
    Forall (obs_ok ck) h /\ daemon_tid s = daemon_tid s0.
Proof.
  intros R C0. induction R as [|n s1 h e s2 o _ IH Ha E]; intros Hb.
  - exists ff0, ft0, lost0. split_and!; try done; by unfold flow.
  - destruct IH as (ff & ft & lost & C & Hl & F & Ho & Ht); [lia|].
    destruct (step_good n s1 ff ft lost e C ltac:(lia) Ha) as (s' & o' & ff' & ft' & E' & C' & F' & Ho' & Ht').
    rewrite E in E'. injection E' as <- <-. exists ff', ft', (dropped o ++ lost). split_and!; try done.
    + unfold dropped in *. rewrite fmap_app, concat_app, Hl. solve_Permutation.
    + unfold flow, published_msgs, handled_msgs in *. rewrite !fmap_app, !concat_app.
      rewrite <- (assoc_L app (concat (handled_by <$> h))), <- F'.
      transitivity (concat (published_by <$> o) ++ (concat (published_by <$> h) ++ (pkt_at s0 <$> inside s0 ft0)));
        [solve_Permutation|]. rewrite F. solve_Permutation.
    + by apply Forall_app.
    + congruence.
Qed.
End Proofs.

Arguments co_free {lof lot N n s ff ft lost}.
Arguments co_tx {lof lot N n s ff ft lost}.
Arguments co_fcap {lof lot N n s ff ft lost}.
Arguments co_tcap {lof lot N n s ff ft lost}.
Arguments co_slack {lof lot N n s ff ft lost}.
Arguments co_flen {lof lot N n s ff ft lost}.
Arguments co_tlen {lof lot N n s ff ft lost}.
Arguments co_store {lof lot N n s ff ft lost}.
Arguments co_queue {lof lot N n s ff ft lost}.
Arguments co_clients {lof lot N n s ff ft lost}.
Arguments co_perm {lof lot N n s ff ft lost}.
Arguments co_pkts {lof lot N n s ff ft lost}.
