(* ===== verification/ConcSystem.v ===== *)
(** * Applications and daemon in parallel: what holds of every run

    Theorems on the runs of ConcModel.v, from the invariant of ConcInv.v: no
    buffer is used by two threads at once, no step goes wrong, and at rest the
    state is one of Daemon.v with every message accounted for. *)

From S2P Require Import RingConc RingClient Prelude Memory RingBuf PrioQueue Libktsn Packet Daemon Init ConcModel ConcInv.

(** ** What is stated *)

Definition at_rest (p : app_pc) : bool := match p with ARest => true | _ => false end.
Definition quiet (s : csys) : bool :=
  forallb at_rest (c_apps s) && match c_daemon s with DRest => true | _ => false end.

(** A state in which nobody is in the middle of anything, as the daemon of
    Daemon.v between two iterations. *)
Definition resume (s : csys) : kt_daemon :=
  mk_daemon (mk_shared (RingConc.shared (c_tx s)) (RingConc.shared (c_free s)) (c_mbufs s) (c_metas s))
    (c_queue s) (c_counter s) (c_wire s).

(** The messages that wait in such a state. *)
Definition message_in (sh : kt_shared) (i : Z) : message :=
  let md := zget (metadata_pool sh) i in (zslice (zget (mbuf_pool sh) i) 0 (psize md), md).
Definition waiting (d : kt_daemon) : list message :=
  message_in (shared d) <$> contents (tx_ring (shared d)) ++ queued (prio_queue d).

(** The buffers a thread reads or writes with its next step. *)
Definition uses (s : csys) (tid : nat) : list Z :=
  match c_apps s !! tid with
  | Some (AFill _ i) | Some (ADesc _ i) => [i]
  | Some _ => []
  | None =>
      match c_daemon s, threads (c_tx s) !! tid with
      | DGet, Some t => match t_pc t with Done _ n _ => zslice (t_table t) 0 n | _ => [] end
      | DLook, _ => if kt_prio_queue_is_empty (c_queue s) then [] else [PrioQueue.data (zget (elems (c_queue s)) 0)]
      | _, _ => []
      end
  end.

Section Runs.
Variables (lof lot : role -> Z) (N : Z).

(** ** No buffer has two users *)

Lemma uses_owned n s ff ft lost tid v :
  core lof lot N n s ff ft lost -> view s tid = Some v ->
  uses s tid ⊆+ holding ff ft tid v ++ (if decide (tid = daemon_tid s) then queued (c_queue s) else []).
Proof.
  intros C Hv. pose proof (co_clients C _ _ Hv) as Hok. pose proof (view_tid lof lot N _ _ _ _ _ _ _ C Hv) as Htid.
  apply elem_of_tids in Htid. unfold uses. unfold view in Hv.
  destruct (threads (c_free s) !! tid) as [tf|] eqn:Hf; [|done].
  destruct (threads (c_tx s) !! tid) as [tx|] eqn:Ht; [|done]. injection Hv as <-.
  destruct (c_apps s !! tid) as [p|] eqn:Ha.
  - destruct p; cbn [holding]; try apply submseteq_nil_l; by apply submseteq_inserts_r.
  - rewrite decide_True by (apply lookup_ge_None_1 in Ha; unfold daemon_tid in *; lia).
    destruct (c_daemon s) eqn:Hd; cbn [holding app]; try apply submseteq_nil_l.
    + destruct (t_pc tx) eqn:Hpc; try apply submseteq_nil_l. cbn in Hok. destruct Hok as (_ & Hin & _ & table & Hj & _).
      destruct (get_done lot n (c_tx s) ft tid tx table burst_size old_head n0 space) as (_ & _ & <-);
        try done; [apply C|]. by apply submseteq_inserts_r.
    + unfold kt_prio_queue_is_empty. destruct (Z.eqb_spec (PrioQueue.size (c_queue s)) 0); [apply submseteq_nil_l|].
      apply singleton_submseteq_l. destruct (co_queue C) as (Wq & _). apply list_elem_of_fmap.
      exists (zget (elems (c_queue s)) 0). split; [done|]. apply nodes_lookup; [done|].
      exists 0. split; [destruct Wq; lia|done].
Qed.

Lemma uses_all n s ff ft lost :
  core lof lot N n s ff ft lost -> concat (uses s <$> tids s) ⊆+ all_owned s ff ft ++ queued (c_queue s).
Proof.
  intros C. unfold all_owned, tids.
  assert (Happs : forall l, (forall j, j ∈ l -> (j < daemon_tid s)%nat) ->
            concat (uses s <$> l) ⊆+ concat (owned s ff ft <$> l)).
  { induction l as [|j l IH]; intros Hl; [done|]. rewrite !fmap_cons. cbn [concat].
    assert (Hj : (j < daemon_tid s)%nat) by (apply Hl; by left).
    apply submseteq_app; [|apply IH; intros; apply Hl; by right].
    destruct (view_some lof lot N n s ff ft lost j C) as [v Hv]; [apply elem_of_tids; lia|].
    pose proof (uses_owned n s ff ft lost j v C Hv) as H. rewrite decide_False, app_nil_r in H by lia.
    by rewrite (owned_view _ _ _ _ _ Hv). }
  rewrite seq_S, !fmap_app, !concat_app. cbn [fmap list_fmap concat Nat.add]. rewrite !app_nil_r, <- app_assoc.
  apply submseteq_app; [apply Happs; intros j Hj%elem_of_seq; lia|].
  destruct (loop_view lof lot N n s ff ft lost C) as (tf & tx & _ & _ & Hv & _).
  pose proof (uses_owned n s ff ft lost _ _ C Hv) as H. rewrite decide_True in H by done.
  by rewrite (owned_view _ _ _ _ _ Hv).
Qed.

Lemma uses_unique n s ff ft lost :
  core lof lot N n s ff ft lost ->
  NoDup (concat (uses s <$> tids s)) /\ Forall (fun i => 0 <= i < N) (concat (uses s <$> tids s)).
Proof.
  intros C. pose proof (uses_all n s ff ft lost C) as (k & P)%submseteq_Permutation.
  assert (Q : concat (uses s <$> tids s) ++ (k ++ queue ff ++ queue ft ++ lost) ≡ₚ seqZ 0 N).
  { rewrite <- (co_perm C).
    transitivity (queue ff ++ queue ft ++ (all_owned s ff ft ++ queued (c_queue s)) ++ lost); [|solve_Permutation].
    rewrite P. solve_Permutation. }
  split.
  - assert (Hnd : NoDup (concat (uses s <$> tids s) ++ (k ++ queue ff ++ queue ft ++ lost)))
      by (rewrite Q; apply NoDup_seqZ). by apply NoDup_app in Hnd as [Hnd _].
  - apply Forall_forall. intros i Hi. assert (Hs : i ∈ seqZ 0 N); [|apply elem_of_seqZ in Hs; lia].
    rewrite <- Q. apply elem_of_app. by left.
Qed.

(** ** Rest *)

Lemma rest_threads n s ff ft lost :
  core lof lot N n s ff ft lost -> quiet s = true ->
  Forall (fun t => resting t = true) (threads (c_free s)) /\
  Forall (fun t => resting t = true) (threads (c_tx s)) /\ all_owned s ff ft = [] /\ taken s ft = [].
Proof.
  intros C [Hq Hd]%andb_true_iff.
  assert (Hr : forall tid cl tf tx, view s tid = Some (cl, tf, tx) ->
            resting tf = true /\ resting tx = true /\ owned s ff ft tid = []).
  { intros tid cl tf tx Hv. pose proof (co_clients C _ _ Hv) as Hok. rewrite (owned_view _ _ _ _ _ Hv).
    unfold view in Hv. destruct (threads (c_free s) !! tid); [|done]. destruct (threads (c_tx s) !! tid); [|done].
    injection Hv as <- -> ->. destruct (c_apps s !! tid) as [p|] eqn:Ha.
    - rewrite forallb_forall in Hq. specialize (Hq p). destruct p;
        try (discriminate Hq; by eapply list_elem_of_In, list_elem_of_lookup_2). by destruct Hok.
    - destruct (c_daemon s); try done. by destruct Hok. }
  split_and!.
  - apply Forall_lookup. intros tid t Ht. destruct (proj1 (thread_view lof lot N n s ff ft lost tid C) t Ht) as (cl & tx & Hv & _).
    by destruct (Hr _ _ _ _ Hv).
  - apply Forall_lookup. intros tid t Ht. destruct (proj2 (thread_view lof lot N n s ff ft lost tid C) t Ht) as (cl & tf & Hv & _).
    by destruct (Hr _ _ _ _ Hv) as (_ & ? & _).
  - unfold all_owned. induction (tids s) as [|j l IH]; [done|]. rewrite fmap_cons. cbn [concat]. rewrite IH, app_nil_r.
    destruct (view s j) as [[[cl tf] tx]|] eqn:Hv; [|unfold owned; by rewrite Hv]. by destruct (Hr _ _ _ _ Hv) as (_ & _ & ?).
  - unfold taken. by destruct (c_daemon s).
Qed.

Lemma rest_wf n s ff ft lost :
  core lof lot N n s ff ft lost -> quiet s = true ->
  daemon_wf (resume s) N lost /\ pkt_at s <$> inside s ft = waiting (resume s).
Proof.
  intros C Hq. destruct (rest_threads n s ff ft lost C Hq) as (Rf & Rt & Ho & Htk).
  destruct (ring_rest lof n _ _ (co_free C) Rf) as [Wf Cf]. destruct (ring_rest lot n _ _ (co_tx C) Rt) as [Wt Ct].
  destruct (co_store C) as (Hm & Hd & Hz). destruct (co_queue C) as (Wq & Cq & Nq).
  pose proof (co_perm C) as P. rewrite Ho in P. cbn [app] in P.
  assert (Hin : inside s ft = contents (RingConc.shared (c_tx s)) ++ queued (c_queue s)).
  { unfold inside. by rewrite Htk, Ct. }
  split; [|unfold waiting; by rewrite Hin].
  split; cbn [resume shared prio_queue tx_ring free_ring mbuf_pool metadata_pool]; rewrite ?Cf, ?Ct; try done.
  - assert (Hnd : NoDup ((queue ff ++ queue ft) ++ (queued (c_queue s) ++ lost)))
      by (rewrite <- app_assoc, P; apply NoDup_seqZ).
    split; cbn [tx_ring free_ring mbuf_pool metadata_pool]; rewrite ?Cf, ?Ct; try done;
      try apply C; try (intros i Hi; apply (Hz i Hi)).
    + apply Forall_forall. intros i Hi. assert (Hs : i ∈ seqZ 0 N); [|apply elem_of_seqZ in Hs; lia].
      rewrite <- P, app_assoc. apply elem_of_app. by left.
    + by apply NoDup_app in Hnd as [Hnd _].
  - intros i Hi. apply (co_pkts C). by rewrite Hin, Ct.
Qed.
End Runs.

(** ** The start *)

(** The words behind the transmission ring that a burst may touch are there. *)
Definition ring_slack (d : kt_daemon) : Prop :=
  let rb := tx_ring (shared d) in RingBuf.size rb + 7 <= zlen (ring rb).

Lemma init_core d N lost K :
  daemon_wf d N lost -> ring_slack d ->
  core (init_count (free_ring (shared d))) (init_count (tx_ring (shared d))) N 0 (cinit d K)
    (init_fifo (free_ring (shared d))) (init_fifo (tx_ring (shared d))) lost.
Proof.
  intros W Hs. pose proof (dw_shared _ _ _ W) as Wsh.
  assert (Hview : forall tid v, view (cinit d K) tid = Some v ->
            client_ok (cinit d K) v /\ forall ff ft, holding ff ft tid v = []).
  { intros tid v Hv. unfold view in Hv. cbn [cinit c_free c_tx c_apps init_machine threads] in Hv.
    destruct (replicate (S K) idle_thread !! tid) as [t|] eqn:E; [|done].
    apply lookup_replicate in E as [-> _]. injection Hv as <-.
    destruct (replicate K ARest !! tid) as [p|] eqn:E; [|done]. by apply lookup_replicate in E as [-> _]. }
  assert (Ho : forall ff ft, all_owned (cinit d K) ff ft = []).
  { intros ff ft. unfold all_owned. induction (tids _) as [|j l IH]; [done|]. rewrite fmap_cons. cbn [concat].
    rewrite IH, app_nil_r. unfold owned. destruct (view (cinit d K) j) eqn:Hv; [|done]. by apply Hview. }
  split; try done.
  - apply ring_init. apply Wsh.
  - apply ring_init. apply Wsh.
  - apply Wsh.
  - apply Wsh.
  - cbn. unfold daemon_tid. cbn. by rewrite !length_replicate.
  - cbn. unfold daemon_tid. cbn. by rewrite !length_replicate.
  - split_and!; [apply Wsh..|]. intros i Hi. split; [by apply (sw_mbuf _ _ Wsh)|by apply (sw_mac _ _ Wsh)].
  - split_and!; apply W.
  - intros tid v Hv. exact (proj1 (Hview tid v Hv)).
  - rewrite Ho. apply W.
  - intros i Hi. by apply (dw_pkts _ _ _ W).
Qed.

Lemma run_from_start ck d N lost K n s h :
  daemon_wf d N lost -> ring_slack d -> crun ck (cinit d K) n s h -> 8 * n + N < 2 ^ 32 ->
  exists lof lot ff ft lost', core lof lot N n s ff ft lost' /\ lost' ≡ₚ dropped h ++ lost /\
    Forall (obs_ok ck) h /\ waiting d ++ published_msgs h ≡ₚ handled_msgs h ++ (pkt_at s <$> inside s ft) /\
    daemon_tid s = K.
Proof.
  intros W Hs R Hb. pose proof (init_core d N lost K W Hs) as C0.
  destruct (run_good _ _ N ck _ n s h _ _ lost R C0 Hb) as (ff & ft & lost' & C & Hl & F & Ho & Ht).
  eexists _, _, ff, ft, lost'. split_and!; [exact C|done|done| |].
  - rewrite <- F, (Permutation_app_comm (waiting d)). by f_equiv.
  - rewrite Ht. unfold daemon_tid. cbn. by rewrite length_replicate.
Qed.

(** ** Schedules *)

(** The daemon is about to reserve words across the end of the transmission
    ring. *)
Definition crossing (s : csys) : bool :=
  match threads (c_tx s) !! daemon_tid s with
  | Some t =>
      match t_pc t with
      | Cas h n _ => RingBuf.size (RingConc.shared (c_tx s)) <? h mod RingBuf.size (RingConc.shared (c_tx s)) + n
      | _ => false
      end
  | None => false
  end.

(** [exec] runs a schedule and stops where an event is not one of a run. *)
Definition checks (s : csys) (e : cevent) : bool :=
  match e with
  | Send _ _ | Step _ _ => true
  | Start table => zlen table =? 64
  | Next _ now tb =>
      (0 <=? now) && (now <=? INT64_MAX) && (zlen (Packet.data tb) =? 2048) &&
      (0 <=? c_counter s) && (c_counter s <? INT64_MAX) &&
      negb (crossing s)
  end.

Fixpoint exec (ck : list Z -> Z) (s : csys) (es : list cevent) : res (csys * list obs) :=
  match es with
  | [] => Ret (s, [])
  | e :: es =>
      if checks s e then
        let* (s, o) := cstep ck s e in
        let* (s, h) := exec ck s es in
        Ret (s, o ++ h)
      else Abort
  end.

Definition calls_ok (e : cevent) : Prop := match e with Send _ c => call_ok c | _ => True end.

Lemma checks_admissible s e : checks s e = true -> calls_ok e -> admissible s e.
Proof.
  destruct e as [a c|a sp|table|sp now tb]; cbn; intros H Hc; try done; [lia|].
  repeat (apply andb_true_iff in H as [H ?]). split_and!; try lia.
  unfold crossing in *. intros t Ht. rewrite Ht in *. unfold reserves_in_ring. destruct (t_pc t); try done. lia.
Qed.

Lemma crun_app ck s0 n s1 h1 m s2 h2 :
  crun ck s0 n s1 h1 -> crun ck s1 m s2 h2 -> crun ck s0 (n + m) s2 (h1 ++ h2).
Proof.
  intros R1 R2. induction R2 as [|m s h e s' o _ IH Ha E]; [by rewrite Z.add_0_r, app_nil_r|].
  rewrite Z.add_assoc, app_assoc. by eapply crun_snoc.
Qed.

Lemma exec_crun ck es : forall s s' h,
  exec ck s es = Ret (s', h) -> Forall calls_ok es -> crun ck s (zlen es) s' h.
Proof.
  induction es as [|e es IH]; intros s s' h E Hc; cbn [exec] in E.
  - inv_res. constructor.
  - destruct (checks s e) eqn:Hk; [|done]. apply Forall_cons in Hc as [He Hc].
    destruct (cstep ck s e) as [[s1 o]| | |] eqn:E1; try done. cbn [bind] in E.
    destruct (exec ck s1 es) as [[s2 h2]| | |] eqn:E2; try done. cbn [bind] in E. inv_res.
    rewrite zlen_cons. eapply crun_app; [|by eapply IH].
    apply (crun_snoc ck s 0 s [] e s1 o); [constructor|by apply checks_admissible|done].
Qed.

(** ** Properties *)

(** C3: applications and daemon never get into each other's way, however their
    single accesses interleave.  From any state with every buffer accounted for,
    in every run of any number of application threads and the daemon, each further
    step returns: no access is out of bounds, no arithmetic overflows, no
    enqueue of a ring goes wrong.  And the buffers that the threads are about to read or
    write are all different.  Bursts may not cross the end of the ring, messages
    must fit a frame, clock, counter and DPDK buffer must be in range, and the run is
    shorter than the wrap-around of the 32-bit counters. *)
Theorem parallel_steps_are_safe ck d N lost K n s h e :
  daemon_wf d N lost -> ring_slack d -> crun ck (cinit d K) n s h -> 8 * n + N < 2 ^ 32 -> admissible s e ->
  (exists s' o, cstep ck s e = Ret (s', o)) /\
  NoDup (concat (uses s <$> tids s)) /\ Forall (fun i => 0 <= i < N) (concat (uses s <$> tids s)).
Proof.
  intros W Hs R Hb Ha. destruct (run_from_start ck d N lost K n s h W Hs R Hb) as (lof & lot & ff & ft & lost' & C & _).
  split; [|by eapply uses_unique].
  destruct (step_good lof lot N ck n s ff ft lost' e C Hb Ha) as (s' & o & _ & _ & E & _). eauto.
Qed.

(** C2: no message is lost, duplicated or mixed up between the threads, in every run whose
    bursts do not cross the end of the ring, whose messages fit a frame, with clock,
    counter and DPDK buffers in range, and that is shorter than the wrap-around of the
    32-bit counters.  There a message becomes visible to the daemon with exactly the payload and
    the metadata of its call, a call that got a buffer returns the length of its
    message, a frame is handed to the card within the 50 microseconds before its
    time and is built from one message, and only a message whose time has passed
    is dropped.  Whenever nobody is in the middle of anything, the shared memory
    and the queue are a state of the sequential model again; the messages that
    were waiting at the start or were published since are those transmitted,
    those dropped and those still waiting, each once, and the buffers lost are
    those of the dropped messages. *)
Theorem parallel_messages_are_kept ck d N lost K n s h :
  daemon_wf d N lost -> ring_slack d -> crun ck (cinit d K) n s h -> 8 * n + N < 2 ^ 32 ->
  Forall (obs_ok ck) h /\
  (quiet s = true ->
   exists lost', daemon_wf (resume s) N lost' /\ lost' ≡ₚ dropped h ++ lost /\
     waiting d ++ published_msgs h ≡ₚ handled_msgs h ++ waiting (resume s)).
Proof.
  intros W Hs R Hb.
  destruct (run_from_start ck d N lost K n s h W Hs R Hb) as (lof & lot & ff & ft & lost' & C & Hl & Ho & F & _).
  split; [done|]. intros Hq. destruct (rest_wf lof lot N n s ff ft lost' C Hq) as [W' Hw].
  exists lost'. by rewrite <- Hw.
Qed.

(** The properties apply to the daemon as it starts: a page has room for the 7
    words behind the 128 slots of a ring. *)
Lemma started_daemon_is_ready words mbufs metas ans_data ans_ctrl addr ctrl blk :
  granted_at ans_data addr -> granted_at ans_ctrl ctrl ->
  0 <= addr < 2 ^ 62 -> addr mod 4096 = 0 -> readable words mbufs metas -> zlen blk = 127 ->
  exists t m mc d, ktsnd_start words mbufs metas ans_data ans_ctrl 4096 true (Some blk) =
      (t, Ret (Some (m, mc, d, daemon_layout))) /\
    daemon_wf d 127 [] /\ ring_slack d /\ waiting d = [].
Proof.
  intros Hd Hc Ha Hal R Hb.
  destruct (start_spec words mbufs metas ans_data ans_ctrl addr ctrl blk)
    as (t & m & mc & d & E & W & _ & Ct & Sz & _ & (Es & El) & _); try done.
  exists t, m, mc, d. split_and!; try done.
  - unfold ring_slack. lia.
  - unfold waiting. rewrite Ct. pose proof (zlen_queued _ (dw_pq _ _ _ W)) as Hz.
    by rewrite (proj1 (length_zero_iff_nil (queued (prio_queue d)))) by (unfold zlen in Hz; lia).
Qed.

(** ** Witnesses

    Three buffers, two applications that send at the same time, and the daemon. *)
Definition par_daemon : kt_daemon :=
  mk_daemon
    (mk_shared
       (mk_ringbuf 0 "RB_tx" 4 8 3 3 (mk_headtail 0 0) (mk_headtail 0 0) (replicate 11 0))
       (mk_ringbuf 0 "RB_free" 4 8 3 3 (mk_headtail 3 3) (mk_headtail 0 0) [0; 1; 2; 0])
       (replicate 3 (replicate 2048 0)) (replicate 3 demo_md))
    (mk_prio_queue (replicate 3 inhabitant) 3 0) 0 [].

Lemma par_daemon_wf : daemon_wf par_daemon 3 [].
Proof.
  split; try reflexivity.
  - split; try reflexivity; try (unfold ring_wf, pow2_size; split; [exists 2; cbn; lia|zcompute]).
    + intros i Hi. unfold zget. cbn [mbuf_pool shared par_daemon]. by rewrite lookup_total_replicate_2 by lia.
    + intros i Hi. unfold zget. cbn [metadata_pool shared par_daemon]. by rewrite lookup_total_replicate_2 by lia.
    + apply (bool_decide_unpack _). vm_compute. done.
    + apply (bool_decide_unpack _). vm_compute. done.
  - unfold pq_wf. zcompute.
  - intros n Hn. by apply not_elem_of_nil in Hn.
  - intros i Hi. by apply not_elem_of_nil in Hi.
Qed.

Definition par_call (iov : list Z) (tx : Z) : call :=
  mk_call iov [2; 0; 0; 0; 0; 7] kt_default_dst_mac tx
    (udp_metadata tx demo_interface (mk_sockaddr_in 2 36895 33554442)).

Lemma par_call_ok iov tx : zlen iov <= 2006 -> 0 <= tx <= INT64_MAX -> call_ok (par_call iov tx).
Proof. intros Hl Ht. split; [exact Hl|]. split_and!; try done; apply Ht. Qed.

(** Both applications take a buffer, copy, describe and enqueue in turns; the
    daemon takes the burst while they are still at it. *)
Definition par_schedule : list cevent :=
  [Send 0 (par_call [7; 8; 9] 1000); Send 1 (par_call [1; 2] 2000)] ++
  concat (replicate 16 [Step 0 false; Step 1 false]) ++ [Start (replicate 64 0)] ++
  concat (replicate 18 [Next false 980 demo_mbuf; Step 1 false; Step 0 true; Step 0 false]).

Definition par_end (es : list cevent) : csys * list obs :=
  match exec demo_cksum (cinit par_daemon 2) es with Ret r => r | _ => (cinit par_daemon 2, []) end.

Lemma par_schedule_ok : Forall calls_ok par_schedule.
Proof.
  unfold par_schedule. apply Forall_app. split; [|by repeat constructor].
  repeat constructor; try done; apply par_call_ok; zcompute.
Qed.

Definition both_schedule : list cevent :=
  take 2 par_schedule ++ replicate 8 (Step 0 false) ++ replicate 8 (Step 1 false).

Lemma both_schedule_ok : Forall calls_ok both_schedule.
Proof. repeat constructor; try done; apply par_call_ok; zcompute. Qed.

Lemma par_end_run es :
  match exec demo_cksum (cinit par_daemon 2) es with Ret _ => true | _ => false end = true -> Forall calls_ok es ->
  crun demo_cksum (cinit par_daemon 2) (zlen es) (par_end es).1 (par_end es).2.
Proof.
  intros H Hc. apply exec_crun; [|done]. unfold par_end. by destruct (exec _ _ _) as [[]| | |].
Qed.

Lemma parallel_steps_are_safe_witness :
  let s := (par_end both_schedule).1 in
  uses s <$> tids s = [[0]; [1]; []] /\ NoDup (concat (uses s <$> tids s)) /\
  exists s' o, cstep demo_cksum s (Step 0 false) = Ret (s', o).
Proof.
  intros s.
  destruct (parallel_steps_are_safe demo_cksum par_daemon 3 [] 2 (zlen both_schedule) s (par_end both_schedule).2
    (Step 0 false) par_daemon_wf) as (E & Hnd & _).
  - zcompute.
  - apply par_end_run; [vm_compute; reflexivity|apply both_schedule_ok].
  - zcompute.
  - exact I.
  - split; [vm_compute; reflexivity|]. split; [exact Hnd|exact E].
Defined.

(** The first message is transmitted, the second one still waits. *)
Lemma parallel_messages_are_kept_witness :
  let '(s, h) := par_end par_schedule in
  Forall (obs_ok demo_cksum) h /\ fst <$> published_msgs h = [[7; 8; 9]; [1; 2]] /\ fst <$> handled_msgs h = [[7; 8; 9]] /\
  fst <$> waiting (resume s) = [[1; 2]] /\ daemon_wf (resume s) 3 [].
Proof.
  destruct (parallel_messages_are_kept demo_cksum par_daemon 3 [] 2 (zlen par_schedule) (par_end par_schedule).1
    (par_end par_schedule).2 par_daemon_wf) as (Ho & Hq).
  - zcompute.
  - apply par_end_run; [vm_compute; reflexivity|apply par_schedule_ok].
  - zcompute.
  - destruct Hq as (lost & W & Hl & _); [vm_compute; reflexivity|].
    assert (Hd : dropped (par_end par_schedule).2 ++ [] = []) by (vm_compute; reflexivity).
    rewrite Hd in Hl. apply Permutation_nil_r in Hl. subst lost.
    assert (E : fst <$> published_msgs (par_end par_schedule).2 = [[7; 8; 9]; [1; 2]] /\
                fst <$> handled_msgs (par_end par_schedule).2 = [[7; 8; 9]] /\
                fst <$> waiting (resume (par_end par_schedule).1) = [[1; 2]]) by (vm_compute; repeat split).
    destruct E as (E1 & E2 & E3). destruct (par_end par_schedule) as [s h]. cbn [fst snd] in *.
    by split_and!.
Defined.
