(* ===== verification/ConcSeq.v ===== *)
(** * Uninterrupted threads are the sequential program

    The steps of ConcModel.v and the functions of Libktsn.v and Daemon.v describe
    the same code at two grains.  A thread that nobody interrupts computes what
    the function computes, undefined behaviour included. *)

From S2P Require Import RingConc RingClient Prelude Memory RingBuf PrioQueue Libktsn Packet Daemon System ConcModel ConcInv ConcSystem.

(** ** One thread alone *)

Section Alone.
Context (step : csys -> res (csys * list obs)) (stop : csys -> bool).

Fixpoint alone (fuel : nat) (s : csys) : res (csys * list obs) :=
  match fuel with
  | O => Diverge
  | S fuel =>
      if stop s then Ret (s, [])
      else let* (s, o) := step s in let* (s, h) := alone fuel s in Ret (s, o ++ h)
  end.

(** A call of a ring inside: [put] is the state as a function of the ring and of
    the thread in it, [show] what an access shows. *)
Lemma alone_ring (put : kt_ringbuf -> thread -> csys) (show : label -> list obs) :
  (forall rb t, resting t = false -> stop (put rb t) = false /\
     step (put rb t) = (let* (rb', t', l) := thread_step false rb t in Ret (put rb' t', show l))) ->
  forall f F rb t rb' t', run_alone f rb t = Ret (rb', t') -> (f <= F)%nat ->
  exists F' o, (F - f <= F')%nat /\
    alone F (put rb t) = (r <- alone F' (put rb' t');; Ret (r.1, o ++ r.2)).
Proof.
  intros Hs. induction f as [|f IH]; intros F rb t rb' t' E Hle; cbn [run_alone] in E; [done|].
  destruct (resting t) eqn:Hr.
  { inv_res. exists F, []. split; [lia|]. by destruct (alone F (put rb' t')) as [[]| | |]. }
  destruct F as [|F]; [lia|]. destruct (Hs rb t Hr) as [Hst Hsp].
  destruct (thread_step false rb t) as [[[rb1 t1] l]| | |] eqn:Et; try done. cbn [bind] in E.
  destruct (IH F rb1 t1 rb' t' E ltac:(lia)) as (F' & o & HF & Ha).
  exists F', (show l ++ o). split; [lia|]. cbn [alone]. rewrite Hst, Hsp. cbn [bind]. rewrite Ha.
  destruct (alone F' (put rb' t')) as [[]| | |]; cbn [bind fst snd]; try done. by rewrite app_assoc.
Qed.

Lemma alone_next F s :
  stop s = false -> (0 < F)%nat ->
  alone F s = (let* (s, o) := step s in let* (s, h) := alone (pred F) s in Ret (s, o ++ h)).
Proof. intros Hs HF. destruct F as [|F]; [lia|]. cbn [alone pred]. by rewrite Hs. Qed.

Lemma alone_stop F s : stop s = true -> (0 < F)%nat -> alone F s = Ret (s, []).
Proof. intros Hs HF. destruct F as [|F]; [lia|]. cbn [alone]. by rewrite Hs. Qed.
End Alone.

(** A state with another ring and another thread in it. *)
Definition in_free (s : csys) (tid : nat) (rb : kt_ringbuf) (t : thread) : csys :=
  set_free s (mk_machine rb (<[tid := t]> (threads (c_free s)))).
Definition in_tx (s : csys) (tid : nat) (rb : kt_ringbuf) (t : thread) : csys :=
  set_tx s (mk_machine rb (<[tid := t]> (threads (c_tx s)))).

(** ** A call of an application *)

Definition app_stop (a : nat) (s : csys) : bool :=
  match c_apps s !! a with Some ARest => true | _ => false end.

(** What the call returned. *)
Definition ret_of (h : list obs) : Z :=
  match last h with Some (Returned _ _ v) => v | _ => - ENOBUFS end.

Definition send_alone (s : csys) (a : nat) (c : call) : res (csys * list obs) :=
  let* (s, _) := send_step s a c in alone (fun s => app_step s a false) (app_stop a) 40 s.

Lemma ret_of_snoc o a c v : ret_of (o ++ [Returned a c v]) = v.
Proof. unfold ret_of. by rewrite last_snoc. Qed.

Section SendAlone.
Context (a : nat) (c : call).
Let step (s : csys) := app_step s a false.
Let run := alone step (app_stop a).

Lemma getting_steps s :
  c_apps s !! a = Some (AGet c) -> (a < length (threads (c_free s)))%nat ->
  forall rb t, resting t = false -> app_stop a (in_free s a rb t) = false /\
    step (in_free s a rb t) = (let* (rb', t', l) := thread_step false rb t in Ret (in_free s a rb' t', [])).
Proof.
  intros Ha Hlt rb t Hr. unfold app_stop, step, app_step, in_free. cbn [set_free c_apps c_free c_tx threads].
  rewrite Ha, list_lookup_insert_eq by done. split; [done|]. cbn [machine_step threads RingConc.shared].
  rewrite list_lookup_insert_eq by done.
  destruct (t_pc t) eqn:Hpc; unfold resting in Hr; rewrite Hpc in Hr; try done;
    destruct (thread_step false rb t) as [[[rb' t'] l]| | |]; cbn [bind]; try done;
    by rewrite list_insert_insert_eq.
Qed.

Definition show_put (s : csys) (i : Z) (l : label) : list obs :=
  match l with Commit Producer _ => [Published a c i (pkt_at s i)] | _ => [] end.

Lemma putting_steps s i :
  c_apps s !! a = Some (APut c i) -> (a < length (threads (c_tx s)))%nat ->
  forall rb t, resting t = false -> app_stop a (in_tx s a rb t) = false /\
    step (in_tx s a rb t) =
      (let* (rb', t', l) := thread_step false rb t in Ret (in_tx s a rb' t', show_put s i l)).
Proof.
  intros Ha Hlt rb t Hr. unfold app_stop, step, app_step, in_tx. cbn [set_tx c_apps c_free c_tx threads].
  rewrite Ha. split; [done|]. rewrite list_lookup_insert_eq by done. cbn [machine_step threads RingConc.shared].
  rewrite list_lookup_insert_eq by done.
  destruct (threads (c_free s) !! a);
    destruct (t_pc t) eqn:Hpc; unfold resting in Hr; rewrite Hpc in Hr; try done;
    destruct (thread_step false rb t) as [[[rb' t'] l]| | |]; cbn [bind]; try done;
    by rewrite list_insert_insert_eq.
Qed.

(** From the buffer to the end of the call. *)
Lemma fill_alone s i tx F o :
  c_apps s !! a = Some (AFill c i) -> threads (c_tx s) !! a = Some tx -> resting tx = true ->
  ring_wf (RingConc.shared (c_tx s)) -> (20 <= F)%nat ->
  (r <- run F s;; Ret (resume r.1, ret_of (o ++ r.2))) =
  (mbuf <- znth (c_mbufs s) i;;
   mbuf <- memcpy mbuf (c_iov c) (zlen (c_iov c));;
   mbufs <- zset (c_mbufs s) i mbuf;;
   m <- znth (c_metas s) i;;
   src <- memcpy (eth_src m) (c_hw c) 6;;
   dst <- memcpy (eth_dst m) (c_dmac c) 6;;
   mds <- zset (c_metas s) i (c_md c m src dst (zlen (c_iov c)));;
   let* (nb, _, tx) := kt_ringbuf_enqueue_burst (RingConc.shared (c_tx s)) [i] 8 1 in
   Ret (mk_daemon (mk_shared tx (RingConc.shared (c_free s)) mbufs mds) (c_queue s) (c_counter s) (c_wire s),
        if negb (nb =? 1) then - ENOBUFS else zlen (c_iov c))).
Proof.
  intros Ha Ht Hrt Wt HF. pose proof (lookup_lt_Some _ _ _ Ha) as Hla. pose proof (lookup_lt_Some _ _ _ Ht) as Hlt.
  unfold run. rewrite alone_next by (unfold app_stop; rewrite ?Ha; done || lia). unfold step at 1, app_step. rewrite Ha.
  destruct (znth (c_mbufs s) i) as [mb| | |]; try reflexivity. cbn [bind].
  destruct (memcpy mb _ _) as [mb'| | |]; try reflexivity. cbn [bind].
  destruct (zset (c_mbufs s) i mb') as [mbufs| | |]; try reflexivity. cbn [bind].
  set (s1 := set_app _ a (ADesc c i)).
  assert (Ha1 : c_apps s1 !! a = Some (ADesc c i)) by (cbn; by rewrite list_lookup_insert_eq).
  rewrite (alone_next _ _ _ s1) by (unfold app_stop; rewrite ?Ha1; done || lia). unfold step at 1, app_step. rewrite Ha1.
  change (c_metas s1) with (c_metas s). change (c_tx s1) with (c_tx s).
  destruct (znth (c_metas s) i) as [m| | |]; try reflexivity. cbn [bind].
  destruct (memcpy (eth_src m) _ _) as [src| | |]; try reflexivity. cbn [bind].
  destruct (memcpy (eth_dst m) _ _) as [dst| | |]; try reflexivity. cbn [bind].
  destruct (zset (c_metas s) i _) as [mds| | |]; try reflexivity. cbn [bind].
  rewrite (call_step _ _ tx) by done. cbn [bind].
  set (s2 := set_app (set_pools s mbufs mds) a (APut c i)).
  assert (Ha2 : c_apps s2 !! a = Some (APut c i)) by (cbn; by rewrite list_lookup_insert_eq).
  replace (set_app _ a (APut c i)) with
    (in_tx s2 a (RingConc.shared (c_tx s)) (start (put_job i)))
    by (unfold in_tx, s2, s1, set_app, set_tx, set_pools; cbn; by rewrite list_insert_insert_eq).
  destruct (put_alone (RingConc.shared (c_tx s)) i Wt) as (nb & av & rb & h & Ee & Er). rewrite Ee. cbn [bind].
  destruct (alone_ring step (app_stop a) _ _ (putting_steps s2 i Ha2 Hlt) 9 (pred (pred F)) _ _ _ _ Er ltac:(lia))
    as (F' & o' & HF' & Er'). rewrite Er'. clear Er'.
  set (s3 := in_tx s2 _ _ _).
  assert (Ha3 : c_apps s3 !! a = Some (APut c i)) by done.
  assert (Ht3 : threads (c_tx s3) !! a = Some (mk_thread (put_job i) [i] (Done h nb av)))
    by (cbn; by rewrite list_lookup_insert_eq).
  rewrite (alone_next _ _ _ s3) by (unfold app_stop; rewrite ?Ha3; done || lia). unfold step at 1, app_step. rewrite Ha3, Ht3.
  cbn [t_pc]. set (ret := if negb (nb =? 1) then _ else _).
  assert (Es : app_stop a (set_app s3 a ARest) = true)
    by (unfold app_stop; cbn; rewrite !list_lookup_insert_eq; [done|by rewrite length_insert]).
  destruct (threads (c_free s3) !! a); cbn [bind];
    rewrite (alone_stop _ _ _ _ Es) by lia; cbn [bind fst snd app]; rewrite !app_assoc, ret_of_snoc; done.
Qed.

Lemma send_alone_spec s tf tx :
  c_apps s !! a = Some ARest ->
  threads (c_free s) !! a = Some tf -> resting tf = true -> threads (c_tx s) !! a = Some tx -> resting tx = true ->
  ring_wf (RingConc.shared (c_free s)) -> ring_wf (RingConc.shared (c_tx s)) ->
  (r <- send_alone s a c;; Ret (resume r.1, ret_of r.2)) =
  (r <- transmit (shared (resume s)) [c_iov c] (c_hw c) (c_dmac c) (c_md c);; Ret (with_shared (resume s) r.1, r.2)).
Proof.
  intros Ha Hf Hrf Ht Hrt Wf Wt. pose proof (lookup_lt_Some _ _ _ Ha) as Hla. pose proof (lookup_lt_Some _ _ _ Hf) as Hlf.
  unfold send_alone, send_step. rewrite Ha, (call_step _ _ tf) by done. cbn [bind].
  set (s1 := set_app s a (AGet c)).
  assert (Ha1 : c_apps s1 !! a = Some (AGet c)) by (cbn; by rewrite list_lookup_insert_eq).
  change (set_app (set_free s _) a (AGet c)) with
    (in_free s1 a (RingConc.shared (c_free s)) (start (get_job [0] 1))).
  destruct (get_alone (RingConc.shared (c_free s)) [0] 1) as (k & av & tbl & rb & h & Ed & Hz & Hk & Er); try done.
  { destruct Wf as (_ & _ & _ & ? & _). lia. }
  destruct (alone_ring step (app_stop a) _ (fun _ => []) (getting_steps s1 Ha1 Hlf) 9 40 _ _ _ _ Er ltac:(lia))
    as (F & o & HF & Er'). unfold step in Er'. rewrite Er'. clear Er'.
  unfold transmit, sizeof_u64. cbn [resume shared free_ring tx_ring mbuf_pool metadata_pool]. rewrite Ed. cbn [bind].
  set (s2 := in_free s1 a rb _).
  assert (Ha2 : c_apps s2 !! a = Some (AGet c)) by done.
  assert (Hf2 : threads (c_free s2) !! a = Some (mk_thread (get_job [0] 1) tbl (Done h k av)))
    by (cbn; by rewrite list_lookup_insert_eq).
  rewrite (alone_next _ _ _ s2) by (unfold app_stop; rewrite ?Ha2; done || lia). unfold app_step at 1. rewrite Ha2, Hf2.
  cbn [t_pc t_table]. destruct (k =? 0) eqn:Hk0.
  - assert (Es : app_stop a (set_app s2 a ARest) = true)
      by (unfold app_stop; cbn; rewrite !list_lookup_insert_eq; [done|by rewrite length_insert]).
    cbn [bind]. rewrite (alone_stop _ _ _ _ Es) by lia. cbn [bind fst snd app]. unfold ret_of. by rewrite last_snoc.
  - destruct tbl as [|x [|y tbl]]; [done| |exfalso; rewrite !zlen_cons, zlen_nil in Hz; pose proof (zlen_nonneg tbl); lia].
    rewrite !znth_head. cbn [bind fst snd]. set (s3 := set_app s2 a (AFill c x)).
    pose proof (fill_alone s3 x tx (pred F) o) as Hfill. unfold run, step in Hfill.
    rewrite bind_assoc.
    etrans; [|etrans; [apply Hfill|]]; try done; try lia.
    + destruct (alone _ _ (pred F) s3) as [[]| | |]; reflexivity.
    + cbn; by rewrite list_lookup_insert_eq by (by rewrite length_insert).
    + cbn [s3 s2 s1 set_app in_free set_free c_mbufs c_metas c_tx c_free c_queue c_counter c_wire RingConc.shared].
      rewrite !bind_assoc. run_binds.
Qed.
End SendAlone.

(** ** An iteration of the daemon *)

Definition loop_stop (s : csys) : bool := match c_daemon s with DRest => true | _ => false end.

Definition loop_alone (ck : list Z -> Z) (s : csys) (table : list Z) (now : Z) (tb : rte_mbuf)
    : res (csys * list obs) :=
  let* (s, _) := start_step s table in alone (fun s => next_step ck s false now tb) loop_stop 40 s.

Section LoopAlone.
Context (ck : list Z -> Z) (now : Z) (tb : rte_mbuf).
Let step (s : csys) := next_step ck s false now tb.
Let run := alone step loop_stop.

Lemma taking_steps s :
  c_daemon s = DGet -> (daemon_tid s < length (threads (c_tx s)))%nat ->
  forall rb t, resting t = false -> loop_stop (in_tx s (daemon_tid s) rb t) = false /\
    step (in_tx s (daemon_tid s) rb t) =
      (let* (rb', t', l) := thread_step false rb t in Ret (in_tx s (daemon_tid s) rb' t', [])).
Proof.
  intros Hd Hlt rb t Hr. unfold loop_stop, step, next_step, in_tx. cbn [set_tx c_daemon c_free c_tx threads].
  change (daemon_tid (set_tx s _)) with (daemon_tid s). rewrite Hd, list_lookup_insert_eq by done.
  split; [done|]. cbn [machine_step threads RingConc.shared]. rewrite list_lookup_insert_eq by done.
  destruct (t_pc t) eqn:Hpc; unfold resting in Hr; rewrite Hpc in Hr; try done;
    destruct (thread_step false rb t) as [[[rb' t'] l]| | |]; cbn [bind]; try done;
    by rewrite list_insert_insert_eq.
Qed.

Lemma giving_steps s i :
  c_daemon s = DPut i -> (daemon_tid s < length (threads (c_free s)))%nat ->
  forall rb t, resting t = false -> loop_stop (in_free s (daemon_tid s) rb t) = false /\
    step (in_free s (daemon_tid s) rb t) =
      (let* (rb', t', l) := thread_step false rb t in Ret (in_free s (daemon_tid s) rb' t', [])).
Proof.
  intros Hd Hlt rb t Hr. unfold loop_stop, step, next_step, in_free. cbn [set_free c_daemon c_free c_tx threads].
  change (daemon_tid (set_free s _)) with (daemon_tid s). rewrite Hd, list_lookup_insert_eq by done.
  split; [done|]. cbn [machine_step threads RingConc.shared]. rewrite list_lookup_insert_eq by done.
  destruct (t_pc t) eqn:Hpc; unfold resting in Hr; rewrite Hpc in Hr; try done;
    destruct (thread_step false rb t) as [[[rb' t'] l]| | |]; cbn [bind]; try done;
    by rewrite list_insert_insert_eq.
Qed.

(** The return of the buffer. *)
Lemma give_alone s i F tf :
  c_daemon s = DLook -> threads (c_free s) !! daemon_tid s = Some tf -> ring_wf (RingConc.shared (c_free s)) ->
  (20 <= F)%nat -> forall q w,
  (r <- run F (in_free (set_sent (set_daemon s (DPut i) q) (c_counter s) w) (daemon_tid s)
                (RingConc.shared (c_free s)) (start (put_job i)));; Ret (resume r.1)) =
  (let* (_, _, fr) := kt_ringbuf_enqueue_burst (RingConc.shared (c_free s)) [i] 8 1 in
   c <- i64_op (c_counter s + 1);;
   Ret (mk_daemon (mk_shared (RingConc.shared (c_tx s)) fr (c_mbufs s) (c_metas s)) q c w)).
Proof.
  intros Hd Hf Wf HF q w. pose proof (lookup_lt_Some _ _ _ Hf) as Hlf.
  set (s1 := set_sent _ _ w).
  destruct (put_alone (RingConc.shared (c_free s)) i Wf) as (nb & av & rb & h & Ee & Er). rewrite Ee. cbn [bind].
  destruct (alone_ring step loop_stop _ (fun _ => []) (giving_steps s1 i eq_refl Hlf) 9 F _ _ _ _ Er ltac:(lia))
    as (F' & o' & HF' & Er'). unfold run. change (daemon_tid s) with (daemon_tid s1). rewrite Er'. clear Er'.
  set (s2 := in_free s1 _ rb _).
  assert (Hf2 : threads (c_free s2) !! daemon_tid s2 = Some (mk_thread (put_job i) [i] (Done h nb av)))
    by (change (daemon_tid s2) with (daemon_tid s); cbn; by rewrite list_lookup_insert_eq).
  rewrite (alone_next _ _ _ s2) by (done || lia). unfold step at 1, next_step. rewrite Hf2.
  change (c_daemon s2) with (DPut i). cbv iota. cbn [t_pc]. change (c_counter s2) with (c_counter s).
  destruct (i64_op (c_counter s + 1)) as [cn| | |]; try reflexivity. cbn [bind].
  rewrite alone_stop by (done || lia). reflexivity.
Qed.

Lemma look_alone s tf F :
  c_daemon s = DLook -> threads (c_free s) !! daemon_tid s = Some tf -> resting tf = true ->
  ring_wf (RingConc.shared (c_free s)) -> (21 <= F)%nat ->
  (r <- run F s;; Ret (resume r.1)) = (r <- transmit_due ck (resume s) now (Some tb);; Ret r.1).
Proof.
  intros Hd Hf Hrf Wf HF. unfold run. rewrite alone_next by (unfold loop_stop; rewrite ?Hd; done || lia).
  unfold step at 1, next_step. rewrite Hd. unfold look_step, transmit_due.
  cbn [resume prio_queue shared mbuf_pool metadata_pool free_ring tx_ring counter wire].
  assert (Hstay : forall q o, (r <- (let* (s, h) := alone step loop_stop (pred F) (set_daemon s DRest q) in Ret (s, o ++ h));;
                     Ret (resume r.1)) =
            Ret (mk_daemon (shared (resume s)) q (c_counter s) (c_wire s))).
  { intros q o. rewrite alone_stop by (done || lia). reflexivity. }
  destruct (kt_prio_queue_is_empty (c_queue s)); [cbn [bind]; by rewrite Hstay|].
  destruct (kt_prio_queue_getmin (c_queue s)) as [txt| | |]; try reflexivity. cbn [bind].
  destruct (kt_get_time_diff_ns now txt) as [diff| | |]; try reflexivity. cbn [bind].
  destruct (tx_delta_ns <? diff); [cbn [bind]; by rewrite Hstay|].
  destruct (diff <? 0).
  { destruct (kt_prio_queue_extract_min (c_queue s) false) as [[[r q] w]| | |]; try reflexivity. cbn [bind].
    by rewrite Hstay. }
  destruct (kt_prio_queue_extract_min (c_queue s) true) as [[[r q] [i|]]| | |]; try reflexivity. cbn [bind].
  destruct (znth (c_mbufs s) i) as [mb| | |]; try reflexivity. cbn [bind].
  destruct (znth (c_metas s) i) as [md| | |]; try reflexivity. cbn [bind].
  destruct (prepare_packet ck tb mb md) as [b| | |]; try reflexivity. cbn [bind].
  rewrite (call_step _ _ tf) by done. cbn [bind]. set (w := c_wire s ++ [b]).
  pose proof (give_alone s i (pred F) tf Hd Hf Wf ltac:(lia) q w) as Hg. unfold run in Hg.
  change (set_sent (set_daemon (set_free s _) _ _) _ _) with
    (in_free (set_sent (set_daemon s (DPut i) q) (c_counter s) w) (daemon_tid s) (RingConc.shared (c_free s))
       (start (put_job i))).
  etrans; [|etrans; [apply Hg|]].
  - by destruct (alone _ _ _ _) as [[]| | |].
  - unfold sizeof_u64. destruct (kt_ringbuf_enqueue_burst _ _ _ _) as [[[]]| | |]; try reflexivity. cbn [bind].
    by destruct (i64_op (c_counter s + 1)).
Qed.

Lemma loop_alone_spec s tf tx table :
  c_daemon s = DRest -> zlen table = 64 ->
  threads (c_free s) !! daemon_tid s = Some tf -> resting tf = true ->
  threads (c_tx s) !! daemon_tid s = Some tx -> resting tx = true ->
  ring_wf (RingConc.shared (c_free s)) -> ring_wf (RingConc.shared (c_tx s)) -> ring_slack (resume s) ->
  (r <- loop_alone ck s table now tb;; Ret (resume r.1)) =
  (r <- loop_body ck (resume s) table now (Some tb);; Ret r.1).
Proof.
  intros Hd Hl Hf Hrf Ht Hrt Wf Wt Hs. pose proof (lookup_lt_Some _ _ _ Ht) as Hlt.
  unfold loop_alone, start_step. rewrite Hd, (call_step _ _ tx) by done. cbn [bind].
  set (s1 := set_daemon s DGet (c_queue s)).
  change (set_daemon (set_tx s _) DGet _) with
    (in_tx s1 (daemon_tid s1) (RingConc.shared (c_tx s)) (start (get_job table burst_size))).
  unfold ring_slack in Hs. cbn [resume shared tx_ring] in Hs. unfold loop_body, sizeof_u64.
  destruct (get_alone (RingConc.shared (c_tx s)) table burst_size) as (k & av & tbl & rb & h & Ed & Hz & Hk & Er);
    [done|unfold burst_size; lia|lia|unfold burst_size; lia|].
  destruct (alone_ring step loop_stop _ (fun _ => []) (taking_steps s1 eq_refl Hlt) 16 40 _ _ _ _ Er ltac:(lia))
    as (F & o & HF & Er'). unfold step in Er'. rewrite Er'. clear Er'.
  cbn [resume shared free_ring tx_ring mbuf_pool metadata_pool prio_queue counter wire]. rewrite Ed. cbn [bind].
  set (s2 := in_tx s1 _ rb _).
  assert (Ht2 : threads (c_tx s2) !! daemon_tid s2 = Some (mk_thread (get_job table burst_size) tbl (Done h k av)))
    by (change (daemon_tid s2) with (daemon_tid s); cbn; by rewrite list_lookup_insert_eq).
  rewrite (alone_next _ _ _ s2) by (done || lia). unfold next_step at 1. rewrite Ht2.
  change (c_daemon s2) with DGet. cbn [t_pc t_table]. change (c_metas s2) with (c_metas s).
  change (c_queue s2) with (c_queue s).
  destruct (insert_burst (Z.to_nat k) 0 tbl (c_metas s) (c_queue s)) as [q| | |]; try reflexivity. cbn [bind].
  pose proof (look_alone (set_daemon s2 DLook q) tf (pred F) eq_refl Hf Hrf Wf ltac:(lia)) as Hlook.
  unfold run, step in Hlook. etrans; [|exact Hlook].
  by destruct (alone _ _ (pred F) _) as [[]| | |].
Qed.
End LoopAlone.

(** ** Property *)

(** C22: the parallel model and the sequential one describe the same code.  In any
    state of any run in which nobody is in the middle of anything, a send that is
    not interrupted leaves exactly the shared memory, and returns exactly the
    value, that the function of the library computes, and an uninterrupted
    iteration leaves exactly the state that the loop body of the daemon computes;
    where one is undefined, so is the other. *)
Theorem uninterrupted_threads_are_sequential ck d N lost K n s h :
  daemon_wf d N lost -> ring_slack d -> crun ck (cinit d K) n s h -> 8 * n + N < 2 ^ 32 -> quiet s = true ->
  (forall a c, (a < K)%nat ->
     (r <- send_alone s a c;; Ret (resume r.1, ret_of r.2)) =
     (r <- transmit (shared (resume s)) [c_iov c] (c_hw c) (c_dmac c) (c_md c);;
      Ret (with_shared (resume s) r.1, r.2))) /\
  (forall table now tb, zlen table = 64 ->
     (r <- loop_alone ck s table now tb;; Ret (resume r.1)) =
     (r <- loop_body ck (resume s) table now (Some tb);; Ret r.1)).
Proof.
  intros W Hs R Hb Hq.
  destruct (run_from_start ck d N lost K n s h W Hs R Hb) as (lof & lot & ff & ft & lost' & C & _ & _ & _ & HK).
  destruct (rest_threads lof lot N n s ff ft lost' C Hq) as (Rf & Rt & _).
  destruct (ring_rest lof n _ _ (co_free C) Rf) as [Wf _]. destruct (ring_rest lot n _ _ (co_tx C) Rt) as [Wt _].
  rewrite Forall_lookup in Rf, Rt. apply andb_true_iff in Hq as [Happs Hd].
  assert (Hth : forall tid, (tid <= K)%nat -> exists tf tx,
            threads (c_free s) !! tid = Some tf /\ threads (c_tx s) !! tid = Some tx).
  { intros tid Ht. destruct (lookup_lt_is_Some_2 (threads (c_free s)) tid) as [tf Ef]; [rewrite (co_flen C); lia|].
    destruct (lookup_lt_is_Some_2 (threads (c_tx s)) tid) as [tx Et]; [rewrite (co_tlen C); lia|]. eauto. }
  split.
  - intros a c Ha. destruct (Hth a ltac:(lia)) as (tf & tx & Ef & Et).
    assert (Hap : c_apps s !! a = Some ARest).
    { destruct (lookup_lt_is_Some_2 (c_apps s) a) as [p Ep]; [unfold daemon_tid in HK; lia|].
      rewrite forallb_forall in Happs. specialize (Happs p). rewrite Ep. destruct p; try done;
        discriminate Happs; by eapply list_elem_of_In, list_elem_of_lookup_2. }
    apply (send_alone_spec a c s tf tx); eauto.
  - intros table now tb Hl. destruct (Hth (daemon_tid s) ltac:(lia)) as (tf & tx & Ef & Et).
    apply (loop_alone_spec ck now tb s tf tx table); eauto; [|apply (co_slack C)].
    by destruct (c_daemon s).
Qed.

Lemma uninterrupted_threads_are_sequential_witness :
  (r <- send_alone (cinit par_daemon 2) 1 (par_call [4; 5] 3000);; Ret (ret_of r.2)) = Ret 2 /\
  (r <- send_alone (cinit par_daemon 2) 1 (par_call [4; 5] 3000);; Ret (resume r.1, ret_of r.2)) =
  (r <- transmit (shared par_daemon) [[4; 5]] [2; 0; 0; 0; 0; 7] kt_default_dst_mac
          (c_md (par_call [4; 5] 3000));; Ret (with_shared par_daemon r.1, r.2)).
Proof.
  split; [vm_compute; reflexivity|].
  apply (uninterrupted_threads_are_sequential demo_cksum par_daemon 3 [] 2 0 (cinit par_daemon 2) [] par_daemon_wf).
  - zcompute.
  - apply crun_nil.
  - zcompute.
  - reflexivity.
  - lia.
Defined.
