(* ===== verification/ConcFinish.v ===== *)
(** * Every parallel run can be brought to rest

    The rings of src/src/kt_ringbuf.c make a thread wait for another one (the loop
    on the tail) and let it retry (the compare-and-exchange), and a call of an
    application or an iteration of the daemon uses both of them.  Here: from every
    state that a run of ConcModel.v can reach there is a continuation that starts
    nothing new and ends with every call returned, and every fair schedule is one.
    The steps are counted by [work_left], the accesses the calls under way still
    need. *)

From S2P Require Import RingConc RingClient Prelude Memory RingBuf PrioQueue Libktsn Packet Daemon ConcModel ConcInv ConcSystem.

(** ** What is left to do *)

(** The parts of a call that are still ahead. *)
Definition app_rank (p : app_pc) : Z :=
  match p with ARest => 0 | APut _ _ => 1 | ADesc _ _ => 2 | AFill _ _ => 3 | AGet _ => 4 end.
Definition daemon_rank (p : daemon_pc) : Z :=
  match p with DRest => 0 | DPut _ => 1 | DLook => 2 | DGet => 3 end.

Definition parts_left (s : csys) : Z := sum_by app_rank (c_apps s) + daemon_rank (c_daemon s).

(** No call of a ring with [k] threads needs more accesses than this. *)
Definition call_cost (k : Z) : Z := 2 * k + 15.

Definition work_left (s : csys) : Z :=
  call_cost (zlen (c_apps s) + 1) * parts_left s + machine_weight (c_free s) + machine_weight (c_tx s).

(** A bound for [K] applications. *)
Definition work (K : nat) : Z := 6 * (Z.of_nat K + 1) * call_cost (Z.of_nat K + 1).

(** Nobody is in a call, but for a daemon in front of a burst across the end of
    the ring. *)
Definition settled (s : csys) : bool :=
  forallb at_rest (c_apps s) && (match c_daemon s with DRest => true | _ => false end || crossing s).

(** An event that continues a call, at clock [now] and with DPDK buffer [tb]. *)
Definition continues (now : Z) (tb : rte_mbuf) (e : cevent) : Prop :=
  (exists a, e = Step a false) \/ e = Next false now tb.

(** An event that continues a call, at any clock. *)
Definition proceeds (e : cevent) : Prop :=
  match e with Step _ false | Next false _ _ => True | _ => False end.

(** Steps in any order, in which each application and the daemon have at least
    one. *)
Definition round (K : nat) (es : list cevent) : Prop :=
  Forall proceeds es /\ (forall a, (a < K)%nat -> Step a false ∈ es) /\ exists now tb, Next false now tb ∈ es.

(** Only an iteration counts packets. *)
Definition counter_ok (s : csys) : Prop := c_daemon s = DRest \/ 0 <= c_counter s < INT64_MAX.

Lemma work_less s s' :
  length (c_apps s') = length (c_apps s) -> parts_left s' + 1 <= parts_left s ->
  machine_weight (c_free s') + machine_weight (c_tx s') <
    machine_weight (c_free s) + machine_weight (c_tx s) + call_cost (zlen (c_apps s) + 1) ->
  work_left s' < work_left s.
Proof.
  intros El Hp Hw. unfold work_left, zlen in *. rewrite El. unfold call_cost in *.
  set (k := Z.of_nat (length (c_apps s))) in *. assert (0 <= k) by lia. nia.
Qed.

Lemma work_app s s' a p p' :
  c_apps s !! a = Some p -> c_apps s' = <[a := p']> (c_apps s) -> c_daemon s' = c_daemon s ->
  app_rank p' < app_rank p -> machine_weight (c_free s') = machine_weight (c_free s) ->
  machine_weight (c_tx s') < machine_weight (c_tx s) + call_cost (zlen (c_apps s) + 1) -> work_left s' < work_left s.
Proof.
  intros Ha Ea Ed Hp Ef Ht. apply work_less; [by rewrite Ea, length_insert| |lia].
  unfold parts_left. rewrite Ea, Ed, (sum_by_insert _ _ _ p) by done. lia.
Qed.

Lemma work_loop s s' :
  c_apps s' = c_apps s -> daemon_rank (c_daemon s') < daemon_rank (c_daemon s) -> c_tx s' = c_tx s ->
  machine_weight (c_free s') < machine_weight (c_free s) + call_cost (zlen (c_apps s) + 1) ->
  work_left s' < work_left s.
Proof.
  intros Ea Hp Et Hf. apply work_less; [by rewrite Ea| |rewrite Et; lia].
  unfold parts_left. rewrite Ea. lia.
Qed.

(** Who can be in a call of which ring. *)
Lemma in_free_ring s cl tf tx :
  client_ok s (cl, tf, tx) -> resting tf = false ->
  (exists c, cl = App (AGet c)) \/ (exists i, cl = Loop (DPut i)) /\ resting tx = true.
Proof.
  intros Hok Hr. destruct cl as [[| | | |]|[| | |]]; cbn [client_ok] in Hok; split_hyps; eauto; congruence.
Qed.

Lemma in_tx_ring s cl tf tx :
  client_ok s (cl, tf, tx) -> resting tx = false ->
  (exists c i, cl = App (APut c i)) \/ cl = Loop DGet.
Proof.
  intros Hok Hr. destruct cl as [[| | | |]|[| | |]]; cbn [client_ok] in Hok; split_hyps; eauto; congruence.
Qed.

Section Bound.
Variables (lof lot : role -> Z) (N : Z).

Lemma jobs_small n s ff ft lost :
  core lof lot N n s ff ft lost ->
  Forall (fun t => resting t = false -> t_max t <= 8) (threads (c_free s)) /\
  Forall (fun t => resting t = false -> t_max t <= 8) (threads (c_tx s)).
Proof.
  intros C. split; apply Forall_lookup; intros tid t Ht Hr; destruct (thread_view _ _ _ n s ff ft lost tid C) as [VF VT].
  - destruct (VF t Ht) as (cl & tx & Hv & _). pose proof (co_clients C _ _ Hv) as Hok.
    destruct (in_free_ring _ _ _ _ Hok Hr) as [[c ->]|[[i ->] _]]; destruct Hok as (Hj & Hj' & _);
      unfold t_max; rewrite ?Hj, ?Hj'; cbn; lia.
  - destruct (VT t Ht) as (cl & tf & Hv & _). pose proof (co_clients C _ _ Hv) as Hok.
    destruct (in_tx_ring _ _ _ _ Hok Hr) as [(c & i & ->)| ->]; cbn [client_ok] in Hok.
    + destruct Hok as (_ & _ & Hj & _). unfold t_max. rewrite Hj. cbn. lia.
    + destruct Hok as (_ & _ & _ & table & Hj & _). unfold t_max, burst_size in *. rewrite Hj. cbn. lia.
Qed.

Lemma work_bound n s ff ft lost K :
  core lof lot N n s ff ft lost -> daemon_tid s = K -> work_left s <= work K.
Proof.
  intros C HK. destruct (jobs_small n s ff ft lost C) as [Jf Jt].
  pose proof (weight_bound lof n _ _ (co_free C) Jf) as [_ Bf]. pose proof (weight_bound lot n _ _ (co_tx C) Jt) as [_ Bt].
  assert (Hp : parts_left s <= 4 * zlen (c_apps s) + 3).
  { unfold parts_left. assert (daemon_rank (c_daemon s) <= 3) by (destruct (c_daemon s); cbn; lia).
    enough (sum_by app_rank (c_apps s) <= 4 * zlen (c_apps s)) by lia.
    induction (c_apps s) as [|p l IH]; [done|]. rewrite zlen_cons. unfold sum_by in *. cbn [foldr].
    destruct p; cbn [app_rank]; lia. }
  unfold zlen in Bf, Bt. rewrite (co_flen C) in Bf. rewrite (co_tlen C) in Bt.
  unfold work_left, work, call_cost. unfold daemon_tid, zlen in *. rewrite HK in *.
  set (k := Z.of_nat K) in *. rewrite Nat2Z.inj_succ in Bf, Bt. fold k in Bf, Bt. assert (0 <= k) by lia. nia.
Qed.

(** ** Steps of the applications *)

Lemma app_get s a c tf rb u l :
  c_apps s !! a = Some (AGet c) -> threads (c_free s) !! a = Some tf -> resting tf = false ->
  thread_step false (RingConc.shared (c_free s)) tf = Ret (rb, u, l) ->
  app_step s a false = Ret (set_free s (mk_machine rb (<[a := u]> (threads (c_free s)))), []).
Proof.
  intros Ha Hf Hr E. unfold app_step. rewrite Ha, Hf. cbn [machine_step]. rewrite Hf, E.
  unfold resting in Hr. by destruct (t_pc tf), (threads (c_tx s) !! a).
Qed.

Lemma app_put s a c i tx rb u l :
  c_apps s !! a = Some (APut c i) -> threads (c_tx s) !! a = Some tx -> resting tx = false ->
  thread_step false (RingConc.shared (c_tx s)) tx = Ret (rb, u, l) ->
  exists o, app_step s a false = Ret (set_tx s (mk_machine rb (<[a := u]> (threads (c_tx s)))), o).
Proof.
  intros Ha Ht Hr E. unfold app_step. rewrite Ha, Ht. cbn [machine_step]. rewrite Ht, E.
  unfold resting in Hr. destruct (t_pc tx), (threads (c_free s) !! a); try done; by eexists.
Qed.

Lemma view_loop n s ff ft lost tid p tf tx :
  core lof lot N n s ff ft lost -> view s tid = Some (Loop p, tf, tx) -> tid = daemon_tid s /\ c_daemon s = p.
Proof.
  intros C Hv. pose proof (view_tid _ _ _ _ _ _ _ _ _ _ C Hv) as Ht%elem_of_tids. unfold view in Hv.
  destruct (threads (c_free s) !! tid); [|done]. destruct (threads (c_tx s) !! tid); [|done].
  destruct (c_apps s !! tid) eqn:Ha; [done|]. apply lookup_ge_None_1 in Ha. injection Hv as <- _ _.
  unfold daemon_tid in *. split; [lia|done].
Qed.

Lemma view_app s tid p tf tx : view s tid = Some (App p, tf, tx) -> c_apps s !! tid = Some p.
Proof.
  unfold view. destruct (threads (c_free s) !! tid); [|done]. destruct (threads (c_tx s) !! tid); [|done].
  destruct (c_apps s !! tid); [|done]. by intros [= -> _ _].
Qed.

Lemma crossing_resting s t :
  threads (c_tx s) !! daemon_tid s = Some t -> resting t = true \/ claim t <> None -> crossing s = false.
Proof.
  intros Ht H. unfold crossing. rewrite Ht. unfold claim, holds, resting in H. by destruct (t_pc t), H.
Qed.

Lemma cost_pos {A} (l : list A) : 0 < call_cost (zlen l + 1).
Proof. unfold call_cost. zlia. Qed.

Lemma app_work n s ff ft lost a p tf tx s' o :
  core lof lot N n s ff ft lost -> c_apps s !! a = Some p -> p <> ARest ->
  client_ok s (App p, tf, tx) -> threads (c_free s) !! a = Some tf -> threads (c_tx s) !! a = Some tx ->
  resting tf = true -> resting tx = true -> app_step s a false = Ret (s', o) ->
  work_left s' < work_left s /\ c_daemon s' = c_daemon s /\ c_counter s' = c_counter s.
Proof.
  intros C Ha Hp Hok Hf Ht Hrf Hrt E. pose proof (cost_pos (c_apps s)) as Hcost.
  unfold app_step in E. rewrite Ha, Hf, Ht in E.
  destruct p as [|c|c i|c i|c i]; [done|..]; cbn [client_ok] in Hok.
  - destruct Hok as (_ & _ & _ & _ & Hcd). unfold called, resting in *. destruct (t_pc tf); try done.
    destruct (n0 =? 0); inv_res; (split; [|done]); eapply (work_app s _ a); done || (cbn; lia).
  - inv_res. split; [|done]. eapply (work_app s _ a); done || (cbn; lia).
  - rewrite (call_step _ _ tx) in E by done. cbn [bind] in E. inv_res. split; [|done].
    eapply (work_app s _ a); try done.
    pose proof (call_weight (c_tx s) a tx (put_job i) Ht Hrt) as Hw. cbn [set_app set_tx c_tx put_job j_max] in *.
    assert (Hk : zlen (threads (c_tx s)) = zlen (c_apps s) + 1)
      by (unfold zlen; rewrite (co_tlen C); unfold daemon_tid; lia).
    unfold call_cost. lia.
  - destruct Hok as (_ & _ & _ & _ & Hcd & _). unfold called, resting in *. destruct (t_pc tx); try done.
    inv_res. split; [|done]. eapply (work_app s _ a); done || (cbn; lia).
Qed.

(** A step that continues a call either brings all calls nearer to their end or
    changes nothing, because its thread rests or waits for another one. *)
Lemma ring_step_or_wait lo n m f tid t rb u l :
  ring_ok lo n m f -> threads m !! tid = Some t -> thread_step false (RingConc.shared m) t = Ret (rb, u, l) ->
  mk_machine rb (<[tid := u]> (threads m)) = m \/
  machine_weight (mk_machine rb (<[tid := u]> (threads m))) < machine_weight m.
Proof.
  intros (g & Hinv & _) Hl E. destruct (step_weight lo m g f tid t rb u l Hinv Hl E) as [(-> & -> & _)|Hw]; [left|auto].
  rewrite list_insert_id by done. by destruct m.
Qed.

Lemma free_step_or_wait n s ff ft lost tid t rb u l :
  core lof lot N n s ff ft lost -> threads (c_free s) !! tid = Some t ->
  thread_step false (RingConc.shared (c_free s)) t = Ret (rb, u, l) ->
  let s' := set_free s (mk_machine rb (<[tid := u]> (threads (c_free s)))) in s' = s \/ work_left s' < work_left s.
Proof.
  intros C Hl E. destruct (ring_step_or_wait lof n _ _ _ _ _ _ _ (co_free C) Hl E) as [-> |Hw]; [left; by destruct s|].
  right. unfold work_left, parts_left. cbn [set_free c_apps c_free c_tx c_daemon]. lia.
Qed.

Lemma tx_step_or_wait n s ff ft lost tid t rb u l :
  core lof lot N n s ff ft lost -> threads (c_tx s) !! tid = Some t ->
  thread_step false (RingConc.shared (c_tx s)) t = Ret (rb, u, l) ->
  let s' := set_tx s (mk_machine rb (<[tid := u]> (threads (c_tx s)))) in s' = s \/ work_left s' < work_left s.
Proof.
  intros C Hl E. destruct (ring_step_or_wait lot n _ _ _ _ _ _ _ (co_tx C) Hl E) as [-> |Hw]; [left; by destruct s|].
  right. unfold work_left, parts_left. cbn [set_tx c_apps c_free c_tx c_daemon]. lia.
Qed.

Lemma work_nonneg n s ff ft lost : core lof lot N n s ff ft lost -> 0 <= work_left s.
Proof.
  intros C. destruct (co_free C) as (gf & If & _), (co_tx C) as (gt & It & _).
  pose proof (machine_weight_nonneg _ _ _ _ If). pose proof (machine_weight_nonneg _ _ _ _ It).
  assert (0 <= parts_left s).
  { unfold parts_left. assert (0 <= daemon_rank (c_daemon s)) by (destruct (c_daemon s); cbn; lia).
    enough (0 <= sum_by app_rank (c_apps s)) by lia. induction (c_apps s) as [|p l IH]; [done|].
    unfold sum_by in *. cbn [foldr]. destruct p; cbn [app_rank]; lia. }
  unfold work_left. pose proof (cost_pos (c_apps s)). nia.
Qed.

Lemma app_step_or_wait n s ff ft lost a s' o :
  core lof lot N n s ff ft lost -> 8 * n + N < 2 ^ 32 -> app_step s a false = Ret (s', o) ->
  s' = s \/ work_left s' < work_left s.
Proof.
  intros C Hb E. destruct (jobs_small n s ff ft lost C) as [Jf Jt]. rewrite Forall_lookup in Jf, Jt.
  destruct (c_apps s !! a) as [p|] eqn:Ha; [|unfold app_step in E; rewrite Ha in E; inv_res; by left].
  destruct (app_view _ _ _ n s ff ft lost a p C Ha) as (tf & tx & Hf & Ht & _ & _ & Hok).
  assert (p = ARest \/ p <> ARest) as [->|Hp] by (destruct p; auto; by right).
  { unfold app_step in E. rewrite Ha in E. inv_res. by left. }
  destruct (resting tf) eqn:Hrf; [destruct (resting tx) eqn:Hrt|].
  - right. by apply (app_work n s ff ft lost a p tf tx s' o).
  - destruct (in_tx_ring _ _ _ _ Hok Hrt) as [(c & i & [= ->])|]; [|done].
    destruct (ring_step lot n (c_tx s) ft a tx false) as (rb & u & l & _ & Es & _);
      [apply C|done|by apply (Jt a)|by rewrite (co_tcap C)|].
    destruct (app_put s a c i tx rb u l Ha Ht Hrt Es) as [o' E']. rewrite E in E'. injection E' as -> _.
    by apply (tx_step_or_wait n s ff ft lost a tx rb u l).
  - destruct (in_free_ring _ _ _ _ Hok Hrf) as [[c [= ->]]|[[i ?] _]]; [|done].
    destruct (ring_step lof n (c_free s) ff a tf false) as (rb & u & l & _ & Es & _);
      [apply C|done|by apply (Jf a)|by rewrite (co_fcap C)|].
    rewrite (app_get s a c tf rb u l Ha Hf Hrf Es) in E. injection E as <- _.
    by apply (free_step_or_wait n s ff ft lost a tf rb u l).
Qed.

End Bound.

Section Finish.
Variables (lof lot : role -> Z) (N : Z) (ck : list Z -> Z) (now : Z) (tb : rte_mbuf).
Context (Hnow : 0 <= now <= INT64_MAX) (Htb : zlen (Packet.data tb) = 2048).

(** ** Steps of the daemon *)

Lemma loop_get s tx rb u l :
  c_daemon s = DGet -> threads (c_tx s) !! daemon_tid s = Some tx -> resting tx = false ->
  thread_step false (RingConc.shared (c_tx s)) tx = Ret (rb, u, l) ->
  next_step ck s false now tb = Ret (set_tx s (mk_machine rb (<[daemon_tid s := u]> (threads (c_tx s)))), []).
Proof.
  intros Hd Ht Hr E. unfold next_step. rewrite Hd, Ht. cbn [machine_step]. rewrite Ht, E.
  unfold resting in Hr. by destruct (t_pc tx), (threads (c_free s) !! daemon_tid s).
Qed.

Lemma loop_put s i tf rb u l :
  c_daemon s = DPut i -> threads (c_free s) !! daemon_tid s = Some tf -> resting tf = false ->
  thread_step false (RingConc.shared (c_free s)) tf = Ret (rb, u, l) ->
  next_step ck s false now tb = Ret (set_free s (mk_machine rb (<[daemon_tid s := u]> (threads (c_free s)))), []).
Proof.
  intros Hd Hf Hr E. unfold next_step. rewrite Hd, Hf. cbn [machine_step]. rewrite Hf, E.
  unfold resting in Hr. by destruct (t_pc tf), (threads (c_tx s) !! daemon_tid s).
Qed.

(** ** One step nearer to the end *)

Definition advances (s : csys) : Prop :=
  exists e s' o, continues now tb e /\ checks s e = true /\ cstep ck s e = Ret (s', o) /\
    work_left s' < work_left s /\ counter_ok s'.

Lemma app_advances s a s' o :
  app_step s a false = Ret (s', o) -> work_left s' < work_left s -> counter_ok s' -> advances s.
Proof. intros E Hw Hc. exists (Step a false), s', o. split_and!; try done. left. eauto. Qed.

Lemma loop_advances s s' o :
  next_step ck s false now tb = Ret (s', o) -> work_left s' < work_left s -> counter_ok s' ->
  counter_ok s -> c_daemon s <> DRest -> crossing s = false -> advances s.
Proof.
  intros E Hw Hc' [?|Hc] Hd Hx; [done|]. exists (Next false now tb), s', o. split_and!; try done; [by right|].
  cbn [checks]. rewrite Hx. lia.
Qed.

Lemma free_advances n s ff ft lost tid t :
  core lof lot N n s ff ft lost -> 8 * n + N < 2 ^ 32 -> counter_ok s ->
  threads (c_free s) !! tid = Some t -> resting t = false -> advances s.
Proof.
  intros C Hb Hc Ht Hr.
  destruct (ring_progress lof n (c_free s) ff tid t) as (i & x & rb & u & l & Hi & Hx & _ & E & Hw);
    [apply C|by rewrite (co_fcap C)|done|done|].
  destruct (proj1 (thread_view _ _ _ n s ff ft lost i C) x Hi) as (cl & tx & Hv & Hi').
  assert (Hlt : work_left (set_free s (mk_machine rb (<[i := u]> (threads (c_free s))))) < work_left s)
    by (unfold work_left; cbn [set_free c_apps c_free c_tx]; unfold parts_left; cbn [set_free c_apps c_daemon]; lia).
  destruct (in_free_ring _ _ _ _ (co_clients C _ _ Hv) Hx) as [[c ->]|[[j ->] Hrt]].
  - eapply app_advances; [eapply app_get; eauto using view_app|done|exact Hc].
  - destruct (view_loop lof lot N _ _ _ _ _ _ _ _ _ C Hv) as [-> Hd].
    eapply loop_advances; [by eapply loop_put|done|exact Hc|done|by rewrite Hd|].
    eapply crossing_resting; eauto.
Qed.

Lemma tx_advances n s ff ft lost tid t :
  core lof lot N n s ff ft lost -> 8 * n + N < 2 ^ 32 -> counter_ok s ->
  threads (c_tx s) !! tid = Some t -> resting t = false -> (tid = daemon_tid s -> crossing s = false) ->
  advances s.
Proof.
  intros C Hb Hc Ht Hr Hd'.
  destruct (ring_progress lot n (c_tx s) ft tid t) as (i & x & rb & u & l & Hi & Hx & Hcl & E & Hw);
    [apply C|by rewrite (co_tcap C)|done|done|].
  destruct (proj2 (thread_view _ _ _ n s ff ft lost i C) x Hi) as (cl & tf & Hv & Hi').
  assert (Hlt : work_left (set_tx s (mk_machine rb (<[i := u]> (threads (c_tx s))))) < work_left s)
    by (unfold work_left; cbn [set_tx c_apps c_free c_tx]; unfold parts_left; cbn [set_tx c_apps c_daemon]; lia).
  destruct (in_tx_ring _ _ _ _ (co_clients C _ _ Hv) Hx) as [(c & j & ->)| ->].
  - destruct (app_put s i c j x rb u l) as [o Eo]; eauto using view_app. eapply app_advances; [exact Eo|done|exact Hc].
  - destruct (view_loop lof lot N _ _ _ _ _ _ _ _ _ C Hv) as [-> Hd].
    eapply loop_advances; [by eapply loop_get|done|exact Hc|done|by rewrite Hd|].
    destruct Hcl as [Eq|Hcl]; [by apply Hd'|eapply crossing_resting; eauto].
Qed.

(** ** The steps outside the rings *)

Lemma look_work n s ff ft lost tf s' o :
  core lof lot N n s ff ft lost -> c_daemon s = DLook -> threads (c_free s) !! daemon_tid s = Some tf ->
  resting tf = true -> look_step ck s now tb = Ret (s', o) ->
  work_left s' < work_left s /\ c_counter s' = c_counter s.
Proof.
  intros C Hd Hf Hr E. pose proof (cost_pos (c_apps s)) as Hcost. unfold look_step in E.
  assert (Hk : zlen (threads (c_free s)) = zlen (c_apps s) + 1)
    by (unfold zlen; rewrite (co_flen C); unfold daemon_tid; lia).
  pose proof (fun i => call_weight (c_free s) (daemon_tid s) tf (put_job i) Hf Hr) as Hw. cbn [put_job j_max] in Hw.
  revert E. repeat step_if; intros HE; inv_res; repeat case_match; inv_res;
    repeat match goal with x : (_ * _)%type |- _ => destruct x end; inv_res;
    try (split; [apply work_loop; rewrite ?Hd; done || (cbn; lia)|done]).
  case_match; [|done]. rewrite (call_step _ _ tf) in HE by done. inv_res. split; [|done].
  apply work_loop; rewrite ?Hd; try done. cbn [set_sent set_daemon set_free c_free]. unfold call_cost.
  match goal with |- context [put_job ?i] => specialize (Hw i) end. lia.
Qed.

Lemma loop_work n s ff ft lost tf tx s' o :
  core lof lot N n s ff ft lost -> client_ok s (Loop (c_daemon s), tf, tx) -> c_daemon s <> DRest ->
  threads (c_free s) !! daemon_tid s = Some tf -> threads (c_tx s) !! daemon_tid s = Some tx ->
  resting tf = true -> resting tx = true -> next_step ck s false now tb = Ret (s', o) ->
  work_left s' < work_left s /\ (c_daemon s' = DRest \/ c_counter s' = c_counter s).
Proof.
  intros C Hok Hd Hf Ht Hrf Hrt E. pose proof (cost_pos (c_apps s)) as Hcost.
  unfold next_step in E. rewrite Hf, Ht in E.
  destruct (c_daemon s) as [| | |i] eqn:Hpc; [done|..]; cbn [client_ok] in Hok.
  - destruct Hok as (_ & _ & Hcd & _). unfold called, resting in *. destruct (t_pc tx); try done.
    inv_res. split; [|by right]. apply work_loop; rewrite ?Hpc; done || (cbn; lia).
  - destruct (look_work n s ff ft lost tf s' o C Hpc Hf Hrf E) as [Hw Hc]. auto.
  - destruct Hok as (_ & _ & _ & Hcd & _). unfold called, resting in *. destruct (t_pc tf); try done.
    inv_res. split; [|by left]. apply work_loop; rewrite ?Hpc; done || (cbn; lia).
Qed.

(** ** Nobody has to wait forever *)

Lemma app_at_work n s ff ft lost a p :
  core lof lot N n s ff ft lost -> 8 * n + N < 2 ^ 32 -> counter_ok s -> c_apps s !! a = Some p -> p <> ARest ->
  advances s.
Proof.
  intros C Hb Hc Ha Hp.
  destruct (app_view _ _ _ n s ff ft lost a p C Ha) as (tf & tx & Hf & Ht & _ & Hne & Hok).
  destruct (resting tf) eqn:Hrf; [|by eapply free_advances].
  destruct (resting tx) eqn:Hrt; [|by eapply tx_advances].
  destruct (app_good lof lot N ck n s ff ft lost a false C Hb) as (s' & o & _ & _ & E & _).
  destruct (app_work lof lot N n s ff ft lost a p tf tx s' o) as (Hw & Ed & Ec); try done.
  eapply app_advances; try done. unfold counter_ok. by rewrite Ed, Ec.
Qed.

Lemma loop_at_work n s ff ft lost :
  core lof lot N n s ff ft lost -> 8 * n + N < 2 ^ 32 -> counter_ok s -> c_daemon s <> DRest -> crossing s = false ->
  advances s.
Proof.
  intros C Hb Hc Hd Hx. destruct (loop_view _ _ _ n s ff ft lost C) as (tf & tx & Hf & Ht & _ & Hok).
  destruct (resting tf) eqn:Hrf; [|by eapply free_advances].
  destruct (resting tx) eqn:Hrt; [|by eapply tx_advances].
  assert (Hadm : admissible s (Next false now tb)).
  { apply checks_admissible; [|done]. destruct Hc as [?|Hc]; [done|]. cbn [checks]. rewrite Hx. lia. }
  destruct (step_good lof lot N ck n s ff ft lost _ C Hb Hadm) as (s' & o & _ & _ & E & _). cbn [cstep] in E.
  destruct (loop_work n s ff ft lost tf tx s' o) as (Hw & Hor); try done.
  eapply loop_advances; try done. unfold counter_ok in *. destruct Hor as [?|Ec]; [auto|].
  destruct Hc; [done|]. right. by rewrite Ec.
Qed.

Lemma settled_or_advances n s ff ft lost :
  core lof lot N n s ff ft lost -> 8 * n + N < 2 ^ 32 -> counter_ok s -> settled s = true \/ advances s.
Proof.
  intros C Hb Hc. unfold settled. destruct (forallb at_rest (c_apps s)) eqn:Hr.
  - cbn [andb]. destruct (crossing s) eqn:Hx; [left; apply orb_true_r|]. rewrite orb_false_r.
    destruct (c_daemon s) eqn:Hd; [by left|right..]; eapply loop_at_work; try done; by rewrite Hd.
  - right. assert (Hex : ~ Forall at_rest (c_apps s)).
    { intros H. rewrite <- not_true_iff_false in Hr. apply Hr, forallb_forall. intros p Hp%list_elem_of_In.
      rewrite Forall_forall in H. apply Is_true_eq_true. by apply H. }
    apply not_Forall_Exists in Hex; [|apply _]. apply Exists_exists in Hex as (p & (a & Ha)%list_elem_of_lookup & Hp).
    eapply (app_at_work n s ff ft lost a p); try done. intros ->. by apply Hp.
Qed.

Lemma brought_to_rest s : forall n ff ft lost,
  core lof lot N n s ff ft lost -> 8 * (n + work_left s) + N < 2 ^ 32 -> counter_ok s ->
  exists es s' h, exec ck s es = Ret (s', h) /\ Forall (continues now tb) es /\ zlen es <= work_left s /\
    settled s' = true.
Proof.
  remember (Z.to_nat (work_left s)) as w eqn:Ew. revert s Ew.
  induction w as [w IH] using lt_wf_ind. intros s -> n ff ft lost C Hb Hc.
  pose proof (work_nonneg lof lot N n s ff ft lost C) as Hpos.
  destruct (settled_or_advances n s ff ft lost C) as [Hs|(e & s1 & o & He & Hk & E & Hw & Hc1)]; [lia|done| |].
  { exists [], s, []. by split_and!. }
  assert (Ha : admissible s e) by (apply checks_admissible; [done|]; by destruct He as [[a ->]| ->]).
  destruct (step_good lof lot N ck n s ff ft lost e C ltac:(lia) Ha) as (s1' & o' & ff' & ft' & E' & C' & _).
  rewrite E in E'. injection E' as <- <-. pose proof (work_nonneg lof lot N _ _ _ _ _ C') as Hpos'.
  destruct (IH (Z.to_nat (work_left s1)) ltac:(lia) s1 eq_refl (n + 1) ff' ft' _ C' ltac:(lia) Hc1)
    as (es & s2 & h & E2 & Hes & Hlen & Hs).
  exists (e :: es), s2, (o ++ h). cbn [exec]. rewrite Hk, E. cbn [bind]. rewrite E2. cbn [bind].
  split_and!; try done; [by constructor|]. rewrite zlen_cons. lia.
Qed.

Lemma loop_step_or_wait n s ff ft lost s' o :
  core lof lot N n s ff ft lost -> 8 * n + N < 2 ^ 32 -> next_step ck s false now tb = Ret (s', o) ->
  s' = s \/ work_left s' < work_left s.
Proof.
  intros C Hb E. destruct (jobs_small lof lot N n s ff ft lost C) as [Jf Jt]. rewrite Forall_lookup in Jf, Jt.
  destruct (loop_view _ _ _ n s ff ft lost C) as (tf & tx & Hf & Ht & _ & Hok).
  assert (c_daemon s = DRest \/ c_daemon s <> DRest) as [Hd|Hd] by (destruct (c_daemon s); auto; by right).
  { unfold next_step in E. rewrite Hd in E. inv_res. by left. }
  destruct (resting tf) eqn:Hrf; [destruct (resting tx) eqn:Hrt|].
  - right. by apply (loop_work n s ff ft lost tf tx s' o).
  - destruct (in_tx_ring _ _ _ _ Hok Hrt) as [(c & i & ?)|[= Hpc]]; [done|].
    destruct (ring_step lot n (c_tx s) ft (daemon_tid s) tx false) as (rb & u & l & _ & Es & _);
      [apply C|done|by apply (Jt (daemon_tid s))|by rewrite (co_tcap C)|].
    rewrite (loop_get s tx rb u l Hpc Ht Hrt Es) in E. injection E as <- _.
    by apply (tx_step_or_wait lof lot N n s ff ft lost (daemon_tid s) tx rb u l).
  - destruct (in_free_ring _ _ _ _ Hok Hrf) as [[c ?]|[[i [= Hpc]] _]]; [done|].
    destruct (ring_step lof n (c_free s) ff (daemon_tid s) tf false) as (rb & u & l & _ & Es & _);
      [apply C|done|by apply (Jf (daemon_tid s))|by rewrite (co_fcap C)|].
    rewrite (loop_put s i tf rb u l Hpc Hf Hrf Es) in E. injection E as <- _.
    by apply (free_step_or_wait lof lot N n s ff ft lost (daemon_tid s) tf rb u l).
Qed.
End Finish.

(** ** Fair schedules *)

Section Fair.
Variables (lof lot : role -> Z) (N : Z) (ck : list Z -> Z).

Lemma checks_next s sp now tb :
  checks s (Next sp now tb) = true ->
  0 <= now <= INT64_MAX /\ zlen (Packet.data tb) = 2048 /\ counter_ok s /\ crossing s = false.
Proof.
  cbn [checks]. intros H. repeat (apply andb_true_iff in H as [H ?]). unfold counter_ok.
  split_and!; try lia. by apply negb_true_iff.
Qed.

Lemma step_or_wait n s ff ft lost e s' o :
  core lof lot N n s ff ft lost -> 8 * n + N < 2 ^ 32 -> proceeds e -> checks s e = true ->
  cstep ck s e = Ret (s', o) -> s' = s \/ work_left s' < work_left s.
Proof.
  intros C Hb Hp Hk E. destruct e as [|a []| |[] now tb]; try done; cbn [cstep] in E.
  - by apply (app_step_or_wait lof lot N n s ff ft lost a s' o).
  - by apply (loop_step_or_wait lof lot N ck now tb n s ff ft lost s' o).
Qed.

(** A stretch of steps brings the calls nearer to their end, or none of them
    changes anything. *)
Lemma stretch es : forall n s ff ft lost s' h,
  core lof lot N n s ff ft lost -> 8 * (n + zlen es) + N < 2 ^ 32 -> Forall proceeds es ->
  exec ck s es = Ret (s', h) ->
  (exists ff' ft' lost', core lof lot N (n + zlen es) s' ff' ft' lost') /\ daemon_tid s' = daemon_tid s /\
  (work_left s' < work_left s \/
   s' = s /\ forall e, e ∈ es -> checks s e = true /\ exists o, cstep ck s e = Ret (s, o)).
Proof.
  induction es as [|e es IH]; intros n s ff ft lost s' h C Hb Hp E; cbn [exec] in E.
  { inv_res. rewrite zlen_nil, Z.add_0_r. split_and!; eauto. right. split; [done|]. intros e He.
    by apply not_elem_of_nil in He. }
  apply Forall_cons in Hp as [He Hp]. rewrite zlen_cons in Hb. pose proof (zlen_nonneg es).
  destruct (checks s e) eqn:Hk; [|done].
  assert (Ha : admissible s e) by (apply checks_admissible; [done|]; by destruct e).
  destruct (step_good lof lot N ck n s ff ft lost e C ltac:(lia) Ha) as (s1 & o1 & ff1 & ft1 & E1 & C1 & _ & _ & T1).
  rewrite E1 in E. cbn [bind] in E. destruct (exec ck s1 es) as [[s2 h2]| | |] eqn:E2; try done.
  cbn [bind] in E. injection E as <- <-.
  destruct (IH (n + 1) s1 ff1 ft1 _ s2 h2 C1 ltac:(lia) Hp E2) as (C2 & T2 & Hor).
  rewrite zlen_cons. replace (n + (1 + zlen es)) with (n + 1 + zlen es) by lia. split; [done|]. split; [congruence|].
  destruct (step_or_wait n s ff ft lost e s1 o1 C ltac:(lia) He Hk E1) as [-> |Hw].
  - destruct Hor as [?|[-> Hall]]; [by left|right]. split; [done|]. intros e' [-> |He']%elem_of_cons; eauto.
  - left. destruct Hor as [?|[-> _]]; lia.
Qed.

Lemma round_advances n s ff ft lost es s' h :
  core lof lot N n s ff ft lost -> 8 * (n + zlen es) + N < 2 ^ 32 -> round (daemon_tid s) es ->
  exec ck s es = Ret (s', h) -> work_left s' < work_left s \/ s' = s /\ quiet s = true.
Proof.
  intros C Hb (Hp & Hall & now & tb & Hnext) E. pose proof (zlen_nonneg es).
  destruct (stretch es n s ff ft lost s' h C Hb Hp E) as (_ & _ & [?|[-> Hw]]); [by left|right]. split; [done|].
  destruct (Hw _ Hnext) as [(Hnow & Htb & Hc & Hx)%checks_next (o & En)].
  destruct (settled_or_advances lof lot N ck now tb Hnow Htb n s ff ft lost C ltac:(lia) Hc)
    as [Hs|(e & s1 & o1 & [[a ->]| ->] & _ & E1 & Hlt & _)].
  - unfold settled in Hs. by rewrite Hx, orb_false_r in Hs.
  - exfalso. destruct (decide (a < daemon_tid s)%nat) as [Hlt'|Hge].
    + destruct (Hw _ (Hall a Hlt')) as [_ (o' & E')]. rewrite E1 in E'. injection E' as -> _. lia.
    + cbn [cstep] in E1. unfold app_step in E1. rewrite lookup_ge_None_2 in E1 by (unfold daemon_tid in *; lia).
      injection E1 as <- _. lia.
  - exfalso. rewrite E1 in En. injection En as -> _. lia.
Qed.

Lemma quiet_stays es : forall s s' h,
  quiet s = true -> Forall proceeds es -> exec ck s es = Ret (s', h) -> s' = s.
Proof.
  induction es as [|e es IH]; intros s s' h Hq Hp E; cbn [exec] in E; [by inv_res|].
  apply Forall_cons in Hp as [He Hp]. destruct (checks s e); [|done].
  assert (Es : cstep ck s e = Ret (s, [])).
  { apply andb_true_iff in Hq as [Ha Hd]. destruct e as [|a []| |[] now tb]; try done; cbn [cstep].
    - unfold app_step. destruct (c_apps s !! a) as [p|] eqn:Hl; [|done].
      rewrite forallb_forall in Ha. specialize (Ha p (proj1 (list_elem_of_In _ _) (list_elem_of_lookup_2 _ _ _ Hl))).
      by destruct p.
    - unfold next_step. by destruct (c_daemon s). }
  rewrite Es in E. cbn [bind] in E. destruct (exec ck s es) as [[s2 h2]| | |] eqn:E2; try done.
  cbn [bind] in E. injection E as <- <-. by eapply IH.
Qed.

Lemma exec_app es1 es2 s :
  exec ck s (es1 ++ es2) =
  let* (s1, h1) := exec ck s es1 in let* (s2, h2) := exec ck s1 es2 in Ret (s2, h1 ++ h2).
Proof.
  revert s. induction es1 as [|e es1 IH]; intros s; cbn [app exec bind].
  - by destruct (exec ck s es2) as [[]| | |].
  - destruct (checks s e); [|done]. destruct (cstep ck s e) as [[s1 o]| | |]; try done. cbn [bind]. rewrite IH.
    destruct (exec ck s1 es1) as [[s2 h2]| | |]; try done. cbn [bind].
    destruct (exec ck s2 es2) as [[]| | |]; try done. cbn [bind]. by rewrite app_assoc.
Qed.

Lemma rounds_rest rounds : forall n s ff ft lost s' h,
  core lof lot N n s ff ft lost -> 8 * (n + zlen (concat rounds)) + N < 2 ^ 32 ->
  Forall (round (daemon_tid s)) rounds -> work_left s < zlen rounds -> exec ck s (concat rounds) = Ret (s', h) ->
  quiet s' = true.
Proof.
  induction rounds as [|es rounds IH]; intros n s ff ft lost s' h C Hb Hr Hw E.
  { pose proof (work_nonneg lof lot N n s ff ft lost C). change (zlen []) with 0 in Hw. lia. }
  apply Forall_cons in Hr as [Hes Hr]. cbn [concat] in *. rewrite zlen_app in Hb. rewrite zlen_cons in Hw.
  pose proof (zlen_nonneg (concat rounds)). rewrite exec_app in E.
  destruct (exec ck s es) as [[s1 h1]| | |] eqn:E1; try done. cbn [bind] in E.
  destruct (exec ck s1 (concat rounds)) as [[s2 h2]| | |] eqn:E2; try done. cbn [bind] in E. injection E as <- <-.
  destruct (stretch es n s ff ft lost s1 h1 C ltac:(lia) (proj1 Hes) E1) as ((ff1 & ft1 & lost1 & C1) & T1 & _).
  destruct (round_advances n s ff ft lost es s1 h1 C ltac:(lia) Hes E1) as [Hlt|[-> Hq]].
  - eapply (IH (n + zlen es)); try done; [lia| |lia]. by rewrite T1.
  - assert (s2 = s) as ->; [|done]. eapply (quiet_stays (concat rounds)); try done.
    apply Forall_concat. eapply Forall_impl; [exact Hr|]. by intros ? [].
Qed.
End Fair.

(** ** Properties *)

(** C17: no interleaving can get stuck or force the program to run on.  From every
    state that any number of applications and the daemon can reach, however their
    single accesses to the two lock-free rings interleaved, the calls and the
    iteration that are under way can be completed without starting another one,
    whatever the clock shows, in at most [work K] steps: each application has returned, and the
    daemon is between two iterations or stands in front of a burst that would
    cross the end of the ring.  In the first case the memory is a state of the
    sequential model, to which its theorems apply. *)
Theorem parallel_calls_can_finish ck d N lost K n s h now tb :
  daemon_wf d N lost -> ring_slack d -> crun ck (cinit d K) n s h -> 0 <= c_counter s < INT64_MAX ->
  0 <= now <= INT64_MAX -> zlen (Packet.data tb) = 2048 -> 8 * (n + work K) + N < 2 ^ 32 ->
  exists es s' h', exec ck s es = Ret (s', h') /\ Forall (continues now tb) es /\ zlen es <= work K /\
    settled s' = true /\
    (crossing s' = false -> quiet s' = true /\ exists lost', daemon_wf (resume s') N lost').
Proof.
  intros W Hs R Hc Hnow Htb Hb. assert (0 <= work K) by (unfold work, call_cost; nia).
  destruct (run_from_start ck d N lost K n s h W Hs R ltac:(lia)) as (lof & lot & ff & ft & lost' & C & _ & _ & _ & HK).
  pose proof (work_bound lof lot N n s ff ft lost' K C HK) as Hw.
  destruct (brought_to_rest lof lot N ck now tb Hnow Htb s n ff ft lost' C ltac:(lia) ltac:(by right))
    as (es & s' & h' & E & He & Hl & Hset).
  exists es, s', h'. split_and!; try done; [lia|]. intros Hx.
  unfold settled in Hset. rewrite Hx, orb_false_r in Hset. split; [exact Hset|].
  assert (R' : crun ck (cinit d K) (n + zlen es) s' (h ++ h')).
  { eapply crun_app; [exact R|]. apply exec_crun; [done|]. eapply Forall_impl; [exact He|].
    by intros e [[a ->]| ->]. }
  destruct (run_from_start ck d N lost K _ s' _ W Hs R' ltac:(lia)) as (lof' & lot' & ff' & ft' & lost2 & C' & _).
  exists lost2. by eapply rest_wf.
Qed.

(** C16: every fair schedule completes what is under way.  From every state that any
    number of applications and the daemon can reach, let the threads go on in any order
    that does not leave one of them out for ever: rounds of steps, in each of which
    every application and the daemon have at least one step, in any order and number.
    If no burst crosses the end of the ring and no compare-and-exchange fails
    without reason, then after more than [work K] rounds each call has returned and the
    iteration is over, whatever the clock showed: the calls under way do not starve each other, and no thread
    waits for ever for another one to move a tail.  The memory is a state of the sequential
    model again. *)
Theorem fair_runs_come_to_rest ck d N lost K n s h rounds s' h' :
  daemon_wf d N lost -> ring_slack d -> crun ck (cinit d K) n s h ->
  Forall (round K) rounds -> work K < zlen rounds -> exec ck s (concat rounds) = Ret (s', h') ->
  8 * (n + zlen (concat rounds)) + N < 2 ^ 32 ->
  quiet s' = true /\ exists lost', daemon_wf (resume s') N lost'.
Proof.
  intros W Hs R Hr Hw E Hb. pose proof (zlen_nonneg (concat rounds)).
  destruct (run_from_start ck d N lost K n s h W Hs R ltac:(lia)) as (lof & lot & ff & ft & lost' & C & _ & _ & _ & HK).
  pose proof (work_bound lof lot N n s ff ft lost' K C HK) as Hwb.
  assert (Hq : quiet s' = true).
  { eapply (rounds_rest lof lot N ck rounds n s); try done; [by rewrite HK|lia]. }
  split; [done|].
  assert (R' : crun ck (cinit d K) (n + zlen (concat rounds)) s' (h ++ h')).
  { eapply crun_app; [exact R|]. apply exec_crun; [done|]. apply Forall_concat. eapply Forall_impl; [exact Hr|].
    intros es [Hp _]. eapply Forall_impl; [exact Hp|]. by intros []. }
  destruct (run_from_start ck d N lost K _ s' _ W Hs R' Hb) as (lof' & lot' & ff' & ft' & lost2 & C' & _).
  exists lost2. by eapply rest_wf.
Qed.

(** Two applications in the middle of their calls: both finish, and the daemon
    has not started. *)
Lemma parallel_calls_can_finish_witness :
  let s := (par_end both_schedule).1 in
  settled s = false /\
  exists es s' h', exec demo_cksum s es = Ret (s', h') /\ zlen es <= 378 /\ settled s' = true.
Proof.
  intros s.
  destruct (parallel_calls_can_finish demo_cksum par_daemon 3 [] 2 (zlen both_schedule) s (par_end both_schedule).2
    980 demo_mbuf par_daemon_wf) as (es & s' & h' & E & _ & Hl & Hs & _).
  - zcompute.
  - apply par_end_run; [vm_compute; reflexivity|apply both_schedule_ok].
  - zcompute.
  - zcompute.
  - zcompute.
  - zcompute.
  - split; [vm_compute; reflexivity|]. exists es, s', h'. split; [exact E|]. split; [exact Hl|exact Hs].
Defined.

(** The same two in turns with a daemon that has just started. *)
Definition turn : list cevent := [Step 0 false; Step 1 false; Next false 980 demo_mbuf].
Definition started_schedule : list cevent := both_schedule ++ [Start (replicate 64 0)].

Lemma turn_round : round 2 turn.
Proof.
  split; [by repeat constructor|]. split; [|exists 980, demo_mbuf; do 2 right; left].
  intros [|[|a]] Ha; [left|right; left|lia].
Qed.

Lemma fair_runs_come_to_rest_witness :
  let s := (par_end started_schedule).1 in
  quiet s = false /\
  exists s' h', exec demo_cksum s (concat (replicate 379 turn)) = Ret (s', h') /\ quiet s' = true.
Proof.
  intros s. split; [vm_compute; reflexivity|].
  destruct (exec demo_cksum s (concat (replicate 379 turn))) as [[s' h']| | |] eqn:E.
  2,3,4: exfalso; assert (H : match exec demo_cksum s (concat (replicate 379 turn)) with Ret _ => true | _ => false end = true)
    by (vm_compute; reflexivity); rewrite E in H; discriminate H.
  exists s', h'. split; [reflexivity|].
  destruct (fair_runs_come_to_rest demo_cksum par_daemon 3 [] 2 (zlen started_schedule) s
    (par_end started_schedule).2 (replicate 379 turn) s' h' par_daemon_wf) as [Hq _].
  - zcompute.
  - apply par_end_run; [vm_compute; reflexivity|]. apply Forall_app. split; [apply both_schedule_ok|by repeat constructor].
  - apply Forall_replicate. exact turn_round.
  - zcompute.
  - exact E.
  - zcompute.
  - exact Hq.
Defined.
