(* ===== verification/SocketDaemon.v ===== *)
(** * The socket variant of the daemon (src/ktsnd_socket.c)

    The same data structures and the same burst as the DPDK daemon, but the loop
    looks at its queue only after a burst that was not empty, takes a packet as
    soon as it is less than 10 microseconds from its time, and drops none.  Its
    start-up asks for rings of 100 words, which is not a power of two. *)

From S2P Require Import Prelude Allocator PageAlloc Memory RingBuf PrioQueue Libktsn Packet Daemon Init System DaemonMain.

Definition wakeup_ns : Z := 10000.

(** One iteration; the result says which buffer was released. *)
Definition socket_loop_body (d : kt_daemon) (table : list Z) (now : Z) : res (kt_daemon * option Z) :=
  let sh := shared d in
  let* (nb_elem, _, table, tx) := kt_ringbuf_dequeue_burst (tx_ring sh) table sizeof_u64 burst_size in
  let sh := mk_shared tx (free_ring sh) (mbuf_pool sh) (metadata_pool sh) in
  if nb_elem =? 0 then Ret (mk_daemon sh (prio_queue d) (counter d) (wire d), None)
  else
    q <- insert_burst (Z.to_nat nb_elem) 0 table (metadata_pool sh) (prio_queue d);;
    if 0 <? PrioQueue.size q then
      txtime <- kt_prio_queue_getmin q;;
      limit <- i64_op (txtime - wakeup_ns);;
      if limit <? now then
        let* (r, q, written) := kt_prio_queue_extract_min q true in
        if r <? 0 then Ret (mk_daemon sh q (counter d) (wire d), None)
        else
          match written with
          | None => UB
          | Some mbuf_index =>
              let* (_, _, fr) := kt_ringbuf_enqueue_burst (free_ring sh) [mbuf_index] sizeof_u64 1 in
              Ret (mk_daemon (mk_shared (tx_ring sh) fr (mbuf_pool sh) (metadata_pool sh)) q
                     (counter d) (wire d),
                   Some mbuf_index)
          end
      else Ret (mk_daemon sh q (counter d) (wire d), None)
    else Ret (mk_daemon sh q (counter d) (wire d), None).

(** [handler] of this program. *)
Definition socket_handler (signum g_run : Z) : Z := 0.

(** [while (g_run)], with the ticks of [DaemonMain]; the result lists the buffers
    released. *)
Fixpoint socket_loop (ticks : list tick) (g_run : Z) (d : kt_daemon) : res (kt_daemon * list (option Z)) :=
  match ticks with
  | [] => Diverge
  | t :: ticks =>
      let g_run := if sigint t then socket_handler SIGINT g_run else g_run in
      if g_run =? 0 then Ret (d, [])
      else
        now <- kt_get_realtime_ns (clock t).1 (clock t).2;;
        let* (d, r) := socket_loop_body (with_shared d (apps t (shared d))) (stack t) now in
        let* (d, rs) := socket_loop ticks g_run d in
        Ret (d, r :: rs)
  end.

(** ** Start-up *)

Definition socket_ring_elem_count : Z := 100.

Section SocketStart.
Context (words_at : Z -> list Z).
Context (mbufs_at : Z -> Z -> list (list Z)).
Context (metas_at : Z -> Z -> list kt_metadata).

(** The objects in the data region; the free ring is given all [ring_elem_count]
    indices, and the pools and the queue have that many entries. *)
Definition socket_setup_region (malloc_ok : bool) (blk : option (list kt_pq_node))
    (addr size page_size : Z) : res (kt_daemon * kt_mem_layout) :=
  page_al <- kt_page_allocator_make malloc_ok addr size page_size;;
  let* (page_al, tx_ring) := kt_ringbuf_create words_at page_al "RB_tx" socket_ring_elem_count 1 in
  let* (page_al, free_ring) := kt_ringbuf_create words_at page_al "RB_free" socket_ring_elem_count 1 in
  match tx_ring, free_ring with
  | Some tx_ring, Some free_ring =>
      free_ring <- enqueue_each free_ring (seqZ 0 socket_ring_elem_count);;
      let* (page_al, mbuf_pool) := al_alloc page_al (u64 (kt_mbuf_size * socket_ring_elem_count)) in
      let* (page_al, metadata_pool) := al_alloc page_al (u64 (sizeof_kt_metadata * socket_ring_elem_count)) in
      match mbuf_pool, metadata_pool with
      | Some mbuf_pool, Some metadata_pool =>
          Ret (mk_daemon (mk_shared tx_ring free_ring (mbufs_at mbuf_pool socket_ring_elem_count)
                            (metas_at metadata_pool socket_ring_elem_count))
                 (kt_prio_queue_init blk socket_ring_elem_count) 0 [],
               mk_mem_layout (u64 (RingBuf.addr tx_ring - addr)) (u64 (RingBuf.addr free_ring - addr))
                 (u64 (mbuf_pool - addr)) (u64 (metadata_pool - addr)))
      | _, _ => UB
      end
  | _, _ => UB
  end.

(** [main]: the result is the system calls on the memories, the buffers released
    and the exit status. *)
Definition ktsnd_socket_main (ans_data ans_ctrl : shm_answers) (page_size : Z) (malloc_ok : bool)
    (blk : option (list kt_pq_node)) (ticks : list tick)
    : list syscall * res (list (option Z) * Z) :=
  let (t1, memory) :=
    kt_memory_create ans_data KT_DEFAULT_SHARED_DATA_MEMORY_NAME KT_DEFAULT_MEMORY_SIZE in
  match memory with
  | None => (t1, Ret ([], -1))
  | Some memory =>
      let (t2, memory_ctrl) := kt_memory_create ans_ctrl KT_DEFAULT_SHARED_CTRL_MEMORY_NAME page_size in
      match memory_ctrl with
      | None => (t1 ++ t2, Ret ([], -1))
      | Some memory_ctrl =>
          match
            let* (d, _) :=
              socket_setup_region malloc_ok blk (Memory.addr memory) (Memory.size memory) page_size in
            socket_loop ticks 1 d
          with
          | Ret (_, rs) =>
              (t1 ++ t2 ++ (kt_memory_destroy memory_ctrl).1 ++ (kt_memory_destroy memory).1, Ret (rs, 0))
          | UB => (t1 ++ t2, UB)
          | Abort => (t1 ++ t2, Abort)
          | Diverge => (t1 ++ t2, Diverge)
          end
      end
  end.
End SocketStart.

(** ** The loop between two messages *)

(** A tick without signal and without new messages, at any time. *)
Definition idle_tick (t : tick) : Prop :=
  sigint t = false /\ (forall sh, apps t sh = sh) /\ clock_ok (clock t).

(** Nothing is taken out of a ring whose counters are equal, whatever its size. *)
Lemma empty_burst rb tbl esz n :
  tail (prod rb) = head (cons rb) -> 0 < n -> kt_ringbuf_dequeue_burst rb tbl esz n = Ret (0, 0, tbl, rb).
Proof.
  intros He Hn. unfold kt_ringbuf_dequeue_burst, __kt_ringbuf_do_dequeue_elems.
  cbn [__kt_ringbuf_move_cons_head]. rewrite He, Z.sub_diag. change (u32 0) with 0.
  by rewrite (proj2 (Z.ltb_lt _ _) Hn).
Qed.

(** C36: a packet in the queue of the socket daemon waits for the next message.  While no message
    is in the transmission ring (its counters are equal, whatever its size), the loop never
    looks at its queue: for any number of iterations without a new message, and however far past
    their times the queued packets are, none is released and rings, queue and pools
    stay as they are. *)
Theorem socket_loop_stalls ticks rest d :
  tail (prod (tx_ring (shared d))) = head (cons (tx_ring (shared d))) -> Forall idle_tick ticks ->
  socket_loop (ticks ++ rest) 1 d =
    let* (d', rs) := socket_loop rest 1 d in Ret (d', replicate (length ticks) None ++ rs).
Proof.
  intros He Ht. induction Ht as [|t ticks (Hsig & Happs & Hck) _ IH]; cbn [app length replicate].
  { by destruct (socket_loop rest 1 d) as [[]| | |]. }
  cbn [socket_loop]. rewrite Hsig. cbn [Z.eqb]. destruct (realtime_ok _ Hck) as [-> _]. cbn [bind].
  rewrite Happs, with_shared_id. unfold socket_loop_body. rewrite empty_burst by (done || unfold burst_size; lia).
  cbn [bind Z.eqb]. destruct d as [[tx fr mb md] q c w]. cbn [shared tx_ring free_ring mbuf_pool metadata_pool
    prio_queue counter wire]. rewrite IH. by destruct (socket_loop rest 1 _) as [[]| | |].
Qed.

(** ** The rings of the start-up *)

Definition socket_layout : kt_mem_layout :=
  mk_mem_layout (37 * 4096) (38 * 4096) (39 * 4096) (89 * 4096).

Lemma create_ring100 words a b nm base :
  bump a b -> page_size a = 4096 -> page_count a = 255 -> PageAlloc.data a = base -> b + 1 <= 255 ->
  exists a', kt_ringbuf_create words a nm socket_ring_elem_count 1 =
      Ret (a', Some (fresh_ring (base + b * 4096) nm 100 1 (words (base + b * 4096)))) /\
    bump a' (b + 1) /\ page_size a' = 4096 /\ page_count a' = 255 /\ PageAlloc.data a' = base.
Proof.
  intros Hb Eps Epc Ed Hfit. unfold kt_ringbuf_create, socket_ring_elem_count.
  destruct (region_alloc a b 228 1 base) as (a' & E & H); try done.
  exists a'. change (u32 (sizeof_kt_ringbuf + u32 (100 * 1))) with 228. rewrite E. done.
Qed.

(** The free ring of a fresh region after the loop over its 100 indices. *)
Definition socket_free_ring (p : Z) : kt_ringbuf :=
  mk_ringbuf p "RB_free" 100 1 99 99 (mk_headtail 99 99) (mk_headtail 0 0) hundred_words.

Lemma fill_hundred p :
  enqueue_each (fresh_ring p "RB_free" 100 1 (replicate 496 0)) (seqZ 0 socket_ring_elem_count) =
    Ret (socket_free_ring p) /\
  dequeue_each (socket_free_ring p) 99 = Ret hundred_out.
Proof. split; vm_compute; reflexivity. Qed.

(** C37: the start-up of the socket daemon builds all its objects inside the region,
    but its rings have 100 slots and the index mask of such a ring is not that of
    a queue: of the 100 buffers of the pool, the index of the first is never handed
    out, and the 99 entries the free ring reports hold only 15 different
    buffers. *)
Theorem socket_start_loses_buffers mbufs metas blk addr :
  0 <= addr < 2 ^ 62 -> addr mod 4096 = 0 ->
  exists d, socket_setup_region (fun _ => replicate 496 0) mbufs metas true blk addr (1024 * 1024) 4096
      = Ret (d, socket_layout) /\
    kt_ringbuf_count (free_ring (shared d)) = 99 /\ kt_ringbuf_count (tx_ring (shared d)) = 0 /\
    exists l, dequeue_each (free_ring (shared d)) 99 = Ret l /\
      length l = 99%nat /\ length (remove_dups l) = 15%nat /\ ~ In 0 l.
Proof.
  intros Ha Hal. unfold socket_setup_region, kt_page_allocator_make. cbn [guard_ub].
  destruct (init_1MiB addr Ha Hal) as (a & E & Hb & E1 & E2 & _ & _ & E5). rewrite E. cbn [bind].
  set (ws := fun _ => replicate 496 0).
  destruct (create_ring100 ws a 0 "RB_tx" (addr + 37 * 4096)) as (a1 & C1 & B1 & F1 & F2 & F3); try done.
  rewrite C1. cbn [bind].
  destruct (create_ring100 ws a1 1 "RB_free" (addr + 37 * 4096)) as (a2 & C2 & B2 & G1 & G2 & G3); try done.
  rewrite C2. cbn [bind]. unfold ws. rewrite (proj1 (fill_hundred _)). cbn [bind].
  change (u64 (kt_mbuf_size * socket_ring_elem_count)) with 204800.
  change (u64 (sizeof_kt_metadata * socket_ring_elem_count)) with 4800.
  destruct (region_alloc a2 2 204800 50 (addr + 37 * 4096)) as (a3 & D3 & B3 & H1 & H2 & H3); try done.
  rewrite D3. cbn [bind].
  destruct (region_alloc a3 52 4800 2 (addr + 37 * 4096)) as (a4 & D4 & _); try done.
  rewrite D4. cbn [bind]. eexists. split; [f_equal; apply f_equal2; [reflexivity|]|].
  { unfold socket_layout, socket_free_ring. cbn [RingBuf.addr fresh_ring].
    f_equal; rewrite <- ?Z.add_assoc; apply u64_offset; lia. }
  cbn [shared free_ring tx_ring]. split; [reflexivity|]. split; [reflexivity|].
  exists hundred_out. split; [apply fill_hundred|]. split; [vm_compute; reflexivity|].
  split; [vm_compute; reflexivity|].
  assert (Hz : forallb (fun x => negb (x =? 0)) hundred_out = true) by (vm_compute; reflexivity).
  intros Hin. rewrite forallb_forall in Hz. discriminate (Hz 0 Hin).
Qed.

(** ** Witnesses *)

Lemma socket_start_loses_buffers_witness :
  exists d, socket_setup_region (fun _ => replicate 496 0) zero_mbufs zero_metas true None 1048576
      (1024 * 1024) 4096 = Ret (d, socket_layout) /\
    exists l, dequeue_each (free_ring (shared d)) 99 = Ret l /\ length (remove_dups l) = 15%nat.
Proof.
  destruct (socket_start_loses_buffers zero_mbufs zero_metas None 1048576) as (d & E & _ & _ & l & El & _ & Hl & _);
    [lia|reflexivity|].
  exists d. split; [exact E|]. exists l. split; [exact El|exact Hl].
Defined.

(** From the start-up: an application sends a message for 1000 microseconds, which
    the loop takes over at 100 microseconds. *)
Definition send_at_1ms (sh : kt_shared) : kt_shared :=
  match sendmsg (fun _ _ _ => -1) (mk_lib [mk_socket 5 3 1 (Some AF_INET)] [demo_interface] sh) 5
          (mk_msghdr (Some demo_name) [[7; 8; 9]] [mk_cmsg SOL_SOCKET SCM_TXTIME 1000000]) 0 with
  | Ret (g, _) => g_shared g
  | _ => sh
  end.

Definition socket_waiting : res kt_daemon :=
  let* (d, _) := socket_setup_region (fun _ => replicate 496 0) zero_mbufs zero_metas true
                   (Some (replicate 100 inhabitant)) 1048576 (1024 * 1024) 4096 in
  let* (d, _) := socket_loop [mk_tick false send_at_1ms (replicate 64 0) (0, 100000) None; demo_signal] 1 d in
  Ret d.

Lemma socket_waiting_state :
  (d <- socket_waiting;;
   Ret (kt_ringbuf_count (tx_ring (shared d)), queued (prio_queue d), prio <$> nodes (prio_queue d),
        tail (prod (tx_ring (shared d))) =? head (cons (tx_ring (shared d))))) = Ret (0, [28], [1000000], true).
Proof. vm_compute. reflexivity. Qed.

(** A second later the packet is still there. *)
Lemma socket_loop_stalls_witness :
  exists d, socket_waiting = Ret d /\ queued (prio_queue d) = [28] /\
    socket_loop [demo_tick 999999; demo_tick 1000000; demo_tick 999999999; demo_signal] 1 d =
      Ret (d, [None; None; None]).
Proof.
  pose proof socket_waiting_state as Hst. destruct socket_waiting as [d| | |]; try discriminate Hst.
  cbn [bind] in Hst. injection Hst as _ Hq _ He. exists d. split; [reflexivity|]. split; [exact Hq|].
  change (socket_loop ([demo_tick 999999; demo_tick 1000000; demo_tick 999999999] ++ [demo_signal]) 1 d =
    Ret (d, [None; None; None])).
  rewrite (socket_loop_stalls [demo_tick 999999; demo_tick 1000000; demo_tick 999999999] [demo_signal] d).
  - reflexivity.
  - apply Z.eqb_eq. exact He.
  - repeat (apply Forall_cons; split; [split; [reflexivity|split; [reflexivity|zcompute]]|]). constructor.
Defined.
