(* ===== verification/TsnPerf.v ===== *)
(** * The talker/listener benchmark (src/apps/tsn_perf.c)

    The command line, and the talker: a loop that wakes up a fixed delay before
    each transmission time, stamps the message with its counter and sends it
    with [sendmsg].  The option values are those [atoi] and [atol] return; the
    results of [sendmsg] and of [inet_addr] are arguments. *)

From S2P Require Import Prelude Memory RingBuf Libktsn.

Definition DEFAULT_PRIORITY : Z := 0.
Definition DEFAULT_MSG_SIZE : Z := 512.
Definition DEFAULT_N_MSGS : Z := 1000.
Definition DEFAULT_PORT : Z := 9999.
Definition DEFAULT_ADDR : string := "192.168.100.12".
Definition DEFAULT_INTERVAL : Z := 1000000.
Definition DEFAULT_WAKEUP_DELAY : Z := 100000.

(** [struct app_config] *)
Record app_config := mk_config {
  is_talker : bool;
  port : Z;
  cfg_addr : string;
  n_msgs : Z;
  msg_size : Z;
  use_txtime : bool;
  wakeup_delay : Z;
  interval : Z;
  priority : Z;
  verbose : bool
}.

Definition default_config : app_config :=
  mk_config true DEFAULT_PORT "" DEFAULT_N_MSGS DEFAULT_MSG_SIZE false DEFAULT_WAKEUP_DELAY
    DEFAULT_INTERVAL DEFAULT_PRIORITY false.

(** What [getopt] reports, with the converted argument; [OptOther] is everything
    the [switch] sends to [default]. *)
Inductive option_char :=
  | OptPort (v : Z)
  | OptCount (v : Z)
  | OptSize (v : Z)
  | OptAddr (s : string)
  | OptInterval (v : Z)
  | OptWakeup (v : Z)
  | OptTxtime
  | OptVerbose
  | OptOther.

(** The [char addr[64]] member keeps 63 characters. *)
Definition copy_addr (s : string) : string := String.substring 0 63 s.

Definition apply_option (c : app_config) (o : option_char) : res app_config :=
  let '(mk_config tk p a n s u w i pr v) := c in
  match o with
  | OptPort x => Ret (mk_config tk x a n s u w i pr v)
  | OptCount x => Ret (mk_config tk p a x s u w i pr v)
  | OptSize x => Ret (mk_config tk p a n x u w i pr v)
  | OptAddr x => Ret (mk_config tk p (copy_addr x) n s u w i pr v)
  | OptInterval x => Ret (mk_config tk p a n s u w x pr v)
  | OptWakeup x => Ret (mk_config tk p a n s u x i pr v)
  | OptTxtime => Ret (mk_config tk p a n s true w i pr v)
  | OptVerbose => Ret (mk_config tk p a n s u w i pr true)
  | OptOther => Abort
  end.

Fixpoint apply_options (c : app_config) (l : list option_char) : res app_config :=
  match l with
  | [] => Ret c
  | o :: l => c <- apply_option c o;; apply_options c l
  end.

Definition set_n_msgs (c : app_config) (n : Z) : app_config :=
  mk_config (is_talker c) (port c) (cfg_addr c) n (msg_size c) (use_txtime c) (wakeup_delay c)
    (interval c) (priority c) (verbose c).
Definition set_talker (c : app_config) (b : bool) : app_config :=
  mk_config b (port c) (cfg_addr c) (n_msgs c) (msg_size c) (use_txtime c) (wakeup_delay c)
    (interval c) (priority c) (verbose c).
Definition set_addr (c : app_config) (a : string) : app_config :=
  mk_config (is_talker c) (port c) a (n_msgs c) (msg_size c) (use_txtime c) (wakeup_delay c)
    (interval c) (priority c) (verbose c).

(** [main] up to the choice between talker and listener.  [role] is
    [getenv("APP_ROLE")], which [strcmp] reads without a test for [NULL]. *)
Definition configure (opts : list option_char) (role : option string) : res app_config :=
  config <- apply_options (set_addr default_config (copy_addr DEFAULT_ADDR)) opts;;
  if port config =? 0 then Abort
  else if (msg_size config <=? 0) || (1450 <? msg_size config) then Abort
  else
    let config := if n_msgs config <=? 0 then set_n_msgs config 1 else config in
    match role with
    | None => UB
    | Some r =>
        Ret (if String.eqb r "talker" then set_talker config true
             else if String.eqb r "listener" then set_talker config false
             else config)
    end.

(** ** The talker *)

Record timespec := mk_timespec { tv_sec : Z; tv_nsec : Z }.

Definition timespec_of (ns : Z) : timespec :=
  mk_timespec (Z.quot ns NSEC_PER_SEC) (Z.rem ns NSEC_PER_SEC).

(** The bytes of a 16-bit and a 32-bit member in host order. *)
Definition le_bytes2 (x : Z) : list Z := [Z.land x 255; Z.land (Z.shiftr x 8) 255].
Definition le_bytes4 (x : Z) : list Z :=
  [Z.land x 255; Z.land (Z.shiftr x 8) 255; Z.land (Z.shiftr x 16) 255; Z.land (Z.shiftr x 24) 255].

(** [sk_addr], 16 bytes; [htons] of the low 16 bits of the port. *)
Definition sk_addr_bytes (inet_addr : string -> Z) (c : app_config) : list Z :=
  le_bytes2 AF_INET ++ le_bytes2 (ntohs (u16 (port c))) ++ le_bytes4 (inet_addr (cfg_addr c)) ++
  replicate 8 0.

(** [msg_cnt[0] = counter] on the buffer of [msg_size] bytes. *)
Definition write_counter (message : list Z) (counter : Z) : res (list Z) :=
  if zlen message <? 4 then UB else Ret (le_bytes4 (u32 counter) ++ drop 4 message).

Definition talker_msg (name : list Z) (c : app_config) (txtime : Z) (message : list Z) : msghdr :=
  mk_msghdr (Some name) [message]
    (if use_txtime c then [mk_cmsg SOL_SOCKET SCM_TXTIME (u64 txtime)] else []).

Section Talker.
(** The result of the [k]-th call of [sendmsg]. *)
Context (send : nat -> msghdr -> Z).
Context (inet_addr : string -> Z).

(** The loop: what it did is the list of wake-up times, messages and results.
    Nobody clears [g_run] in a talker. *)
Fixpoint talker_loop (fuel k : nat) (c : app_config) (name : list Z) (counter txtime wakeup_time : Z)
    (message : list Z) : res (list (timespec * msghdr * Z)) :=
  match fuel with
  | O => Diverge
  | S fuel =>
      if counter <? n_msgs c then
        message <- write_counter message counter;;
        let msg := talker_msg name c txtime message in
        let ret := i32 (send k msg) in
        counter' <- (if ret <? 1 then Ret counter else int_op (counter + 1));;
        txtime' <- i64_op (txtime + interval c);;
        wakeup' <- i64_op (wakeup_time + interval c);;
        rest <- talker_loop fuel (S k) c name counter' txtime' wakeup' message;;
        Ret ((timespec_of wakeup_time, msg, ret) :: rest)
      else Ret []
  end.

(** [do_talker] after the socket was opened, at time [now]. *)
Definition do_talker (fuel : nat) (c : app_config) (now : Z) : res (list (timespec * msghdr * Z)) :=
  let message := replicate (Z.to_nat (msg_size c)) 97 in
  now_norm <- i64_op (Z.quot now NSEC_PER_SEC * NSEC_PER_SEC);;
  txtime <- i64_op (now_norm + NSEC_PER_SEC * 2);;
  wakeup_time <- i64_op (txtime - wakeup_delay c);;
  talker_loop fuel 0 c (sk_addr_bytes inet_addr c) 1 txtime wakeup_time message.
End Talker.

(** ** The schedule *)

Section Schedule.
Context (send : nat -> msghdr -> Z) (inet_addr : string -> Z).

(** What the talker does in its round number [j] when every send succeeds. *)
Definition round (k : nat) (c : app_config) (name : list Z) (counter txtime wakeup_time : Z)
    (message : list Z) (j : nat) : timespec * msghdr * Z :=
  let msg := talker_msg name c (txtime + Z.of_nat j * interval c)
               (le_bytes4 (u32 (counter + Z.of_nat j)) ++ drop 4 message) in
  (timespec_of (wakeup_time + Z.of_nat j * interval c), msg, i32 (send (k + j)%nat msg)).

Lemma write_counter_ok message counter :
  4 <= zlen message -> write_counter message counter = Ret (le_bytes4 (u32 counter) ++ drop 4 message).
Proof. intros H. unfold write_counter. by rewrite (proj2 (Z.ltb_ge _ _)) by lia. Qed.

Lemma zlen_stamped message counter :
  4 <= zlen message -> zlen (le_bytes4 (u32 counter) ++ drop 4 message) = zlen message.
Proof. unfold zlen. intros H. rewrite length_app, length_drop. cbn. lia. Qed.

Lemma round_shift k c name counter txtime wakeup message j :
  round (S k) c name (counter + 1) (txtime + interval c) (wakeup + interval c)
    (le_bytes4 (u32 counter) ++ drop 4 message) j =
  round k c name counter txtime wakeup message (S j).
Proof.
  unfold round. cbv zeta.
  replace (counter + 1 + Z.of_nat j) with (counter + Z.of_nat (S j)) by lia.
  replace (txtime + interval c + Z.of_nat j * interval c)
    with (txtime + Z.of_nat (S j) * interval c) by lia.
  replace (wakeup + interval c + Z.of_nat j * interval c)
    with (wakeup + Z.of_nat (S j) * interval c) by lia.
  replace (S k + j)%nat with (k + S j)%nat by lia. done.
Qed.

Lemma talker_loop_spec c name (Hsend : forall k msg, 1 <= i32 (send k msg)) m :
  forall fuel k counter txtime wakeup message,
  n_msgs c = counter + Z.of_nat m -> 1 <= counter -> n_msgs c <= INT32_MAX ->
  4 <= zlen message -> 0 <= interval c ->
  0 <= txtime -> txtime + Z.of_nat m * interval c <= INT64_MAX ->
  INT64_MIN <= wakeup <= txtime -> (m < fuel)%nat ->
  talker_loop send fuel k c name counter txtime wakeup message =
    Ret (round k c name counter txtime wakeup message <$> seq 0 m).
Proof.
  induction m as [|m IH]; intros fuel k counter txtime wakeup message Hn Hc Hmax Hl Hi Ht Hb Hw Hf;
    (destruct fuel as [|fuel]; [lia|]); cbn [talker_loop].
  - by rewrite (proj2 (Z.ltb_ge _ _)) by lia.
  - rewrite (proj2 (Z.ltb_lt _ _)) by lia. rewrite write_counter_ok by done. cbn [bind].
    set (msg := talker_msg _ _ _ _). pose proof (Hsend k msg) as Hok.
    rewrite (proj2 (Z.ltb_ge (i32 (send k msg)) 1)) by lia.
    rewrite int_op_id by (unfold INT32_MIN, INT32_MAX in *; lia). cbn [bind].
    rewrite !i64_op_id by (unfold INT64_MIN, INT64_MAX in *; nia). cbn [bind].
    rewrite IH; [|lia|lia|done|by rewrite zlen_stamped|done|lia|nia|unfold INT64_MIN in *; lia|lia].
    cbn [bind seq fmap list_fmap]. f_equal. f_equal.
    + unfold round. cbv zeta. rewrite Z.mul_0_l, !Z.add_0_r, Nat.add_0_r. done.
    + rewrite <- (fmap_S_seq 0 m), <- list_fmap_compose. apply list_fmap_ext.
      intros i j _. apply round_shift.
Qed.
End Schedule.

Lemma le_bytes4_decode x : 0 <= x < 2 ^ 32 -> le_decode (le_bytes4 x) = x.
Proof.
  intros H. cbn. change 255 with (Z.ones 8). rewrite !Z.land_ones, !Z.shiftr_div_pow2 by lia. dlia.
Qed.

Lemma timespec_of_spec ns :
  0 <= ns -> tv_sec (timespec_of ns) * NSEC_PER_SEC + tv_nsec (timespec_of ns) = ns /\
    0 <= tv_nsec (timespec_of ns) < NSEC_PER_SEC.
Proof.
  intros H. unfold timespec_of, NSEC_PER_SEC. cbn [tv_sec tv_nsec].
  pose proof (Z.quot_rem ns 1000000000 ltac:(lia)). pose proof (Z.rem_bound_pos ns 1000000000 ltac:(lia)). lia.
Qed.

(** ** Properties *)

Lemma apply_options_talker l : forall c c',
  apply_options c l = Ret c' -> is_talker c' = is_talker c.
Proof.
  induction l as [|o l IH]; intros c c' E; cbn [apply_options] in E; [by injection E as ->|].
  apply bind_Ret in E as (c1 & E1 & E). rewrite (IH _ _ E).
  destruct c, o; cbn in E1; try discriminate; by injection E1 as <-.
Qed.

(** A configuration that [main] accepts has a port, messages of 1 to 1450 bytes
    and at least one message; the role is listener exactly when the environment
    says so. *)
Theorem configure_valid opts role c :
  configure opts role = Ret c ->
  port c <> 0 /\ 1 <= msg_size c <= 1450 /\ 1 <= n_msgs c /\
  (is_talker c = false <-> role = Some "listener"%string).
Proof.
  unfold configure. intros E. apply bind_Ret in E as (c0 & E0 & E).
  assert (Ht : is_talker c0 = true) by (by apply apply_options_talker in E0).
  destruct (Z.eqb_spec (port c0) 0) as [|Hp]; [done|].
  destruct ((msg_size c0 <=? 0) || (1450 <? msg_size c0)) eqn:Hs; [done|]. zb.
  set (c1 := if n_msgs c0 <=? 0 then _ else _) in E.
  assert (Hc1 : port c1 = port c0 /\ msg_size c1 = msg_size c0 /\ 1 <= n_msgs c1 /\ is_talker c1 = true).
  { unfold c1. destruct (Z.leb_spec (n_msgs c0) 0); cbn; split_and!; (done || lia). }
  destruct Hc1 as (H1 & H2 & H3 & H4). destruct role as [r|]; [|done]. injection E as <-.
  destruct (String.eqb_spec r "talker") as [->|N1]; [|destruct (String.eqb_spec r "listener") as [->|N2]];
    cbn [set_talker port msg_size n_msgs is_talker]; rewrite ?H1, ?H2, ?H4;
    (split; [done|]; split; [lia|]; split; [done|]); split; intros; congruence.
Qed.

Section Talking.
Context (send : nat -> msghdr -> Z) (inet_addr : string -> Z).

(** The time of the first message: the second whole second after [now]. *)
Definition first_txtime (now : Z) : Z := (now / NSEC_PER_SEC + 2) * NSEC_PER_SEC.

(** The whole log of a talker whose sends succeed. *)
Lemma do_talker_log c now fuel :
  (forall k msg, 1 <= i32 (send k msg)) ->
  4 <= msg_size c -> 1 <= n_msgs c <= INT32_MAX -> 0 <= interval c -> 0 <= now ->
  0 <= wakeup_delay c <= first_txtime now ->
  first_txtime now + n_msgs c * interval c <= INT64_MAX -> (Z.to_nat (n_msgs c) <= fuel)%nat ->
  do_talker send inet_addr fuel c now =
    Ret (round send 0 c (sk_addr_bytes inet_addr c) 1 (first_txtime now) (first_txtime now - wakeup_delay c)
           (replicate (Z.to_nat (msg_size c)) 97) <$> seq 0 (Z.to_nat (n_msgs c - 1))).
Proof.
  intros Hsend Hsz Hn Hi Hnow Hw Hmax Hf. unfold do_talker.
  assert (Hq : Z.quot now NSEC_PER_SEC = now / NSEC_PER_SEC) by (apply Z.quot_div_nonneg; [done|reflexivity]).
  assert (Hd : 0 <= now / NSEC_PER_SEC) by (apply Z.div_pos; [done|reflexivity]).
  assert (Hsum : now / NSEC_PER_SEC * NSEC_PER_SEC + NSEC_PER_SEC * 2 = first_txtime now).
  { unfold first_txtime. lia. }
  set (t0 := first_txtime now) in *. rewrite Hq. unfold INT64_MAX in Hmax.
  rewrite i64_op_id by (unfold INT64_MIN, INT64_MAX, NSEC_PER_SEC in *; nia). cbn [bind].
  rewrite Hsum, i64_op_id by (unfold INT64_MIN, INT64_MAX, NSEC_PER_SEC in *; nia). cbn [bind].
  rewrite i64_op_id by (unfold INT64_MIN, INT64_MAX, NSEC_PER_SEC in *; nia). cbn [bind].
  set (message := replicate _ 97).
  assert (Hl : zlen message = msg_size c) by (unfold message; rewrite zlen_replicate; lia).
  rewrite (talker_loop_spec send c (sk_addr_bytes inet_addr c) Hsend (Z.to_nat (n_msgs c - 1)));
    try (unfold INT32_MAX, INT64_MIN, INT64_MAX in *; nia || lia).
  done.
Qed.

(** C35: the talker, when every send succeeds, the messages have room for the counter
    and the times stay within 64 bits, ends after [n_msgs - 1] messages.
    Message number [j] carries the counter [j + 1] and the transmission time
    [first + j * interval], where the first time is a whole second between one and
    two seconds after the start, and is sent after sleeping until [wakeup_delay]
    before that time; the time is in the message only with [use_txtime]. *)
Theorem talker_schedule c now fuel :
  (forall k msg, 1 <= i32 (send k msg)) ->
  4 <= msg_size c -> 1 <= n_msgs c <= INT32_MAX -> 0 <= interval c -> 0 <= now ->
  0 <= wakeup_delay c <= first_txtime now ->
  first_txtime now + n_msgs c * interval c <= INT64_MAX -> (Z.to_nat (n_msgs c) <= fuel)%nat ->
  now + NSEC_PER_SEC < first_txtime now <= now + 2 * NSEC_PER_SEC /\
  exists log, do_talker send inet_addr fuel c now = Ret log /\ zlen log = n_msgs c - 1 /\
    forall j, 0 <= j < n_msgs c - 1 ->
      let tx := first_txtime now + j * interval c in
      exists ts msg ret payload, log !! Z.to_nat j = Some (ts, msg, ret) /\
        tv_sec ts * NSEC_PER_SEC + tv_nsec ts = tx - wakeup_delay c /\ 0 <= tv_nsec ts < NSEC_PER_SEC /\
        msg_name msg = Some (sk_addr_bytes inet_addr c) /\ msg_iov msg = [payload] /\
        zlen payload = msg_size c /\ le_decode (take 4 payload) = j + 1 /\
        find_txtime msg = if use_txtime c then Some tx else None.
Proof.
  intros Hsend Hsz Hn Hi Hnow Hw Hmax Hf.
  assert (Hfirst : now + NSEC_PER_SEC < first_txtime now <= now + 2 * NSEC_PER_SEC).
  { unfold first_txtime, NSEC_PER_SEC. dlia. }
  split; [done|]. rewrite do_talker_log by done. set (t0 := first_txtime now) in *.
  set (message := replicate _ 97).
  assert (Hl : zlen message = msg_size c) by (unfold message; rewrite zlen_replicate; lia).
  eexists. split; [done|]. split; [rewrite zlen_fmap; unfold zlen; rewrite length_seq; lia|].
  intros j Hj. eexists _, _, _, _. split.
  { rewrite list_lookup_fmap, lookup_seq_lt by lia. reflexivity. }
  unfold round. cbv zeta. cbn [talker_msg msg_name msg_iov]. rewrite Nat.add_0_l, Z2Nat.id by lia.
  replace (t0 - wakeup_delay c + j * interval c) with (t0 + j * interval c - wakeup_delay c) by lia.
  destruct (timespec_of_spec (t0 + j * interval c - wakeup_delay c)) as [E1 E2]; [nia|].
  split_and!; try done; try lia.
  - rewrite zlen_stamped by lia. done.
  - change (take 4 (le_bytes4 (u32 (1 + j)) ++ drop 4 message)) with (le_bytes4 (u32 (1 + j))).
    unfold INT32_MAX in Hn. rewrite u32_id, le_bytes4_decode by lia. lia.
  - unfold find_txtime, talker_msg. destruct (use_txtime c); [|done]. cbn.
    assert (0 <= j * interval c <= n_msgs c * interval c) by nia.
    rewrite u64_id; [done|]. unfold INT64_MAX, NSEC_PER_SEC in *. lia.
Qed.

Lemma failing_loop c name :
  (forall k msg, i32 (send k msg) < 1) -> 1 < n_msgs c ->
  forall fuel k t w m log, talker_loop send fuel k c name 1 t w m <> Ret log.
Proof.
  intros Hsend Hn fuel. induction fuel as [|fuel IH]; intros k t w m log E; [done|].
  cbn [talker_loop] in E. rewrite (proj2 (Z.ltb_lt _ _)) in E by lia.
  apply bind_Ret in E as (m' & _ & E). cbv zeta in E.
  rewrite (proj2 (Z.ltb_lt _ _) (Hsend k _)) in E. cbn [bind] in E. inv_res. by eapply IH.
Qed.

(** A talker whose sends keep failing never ends: a failed message is not
    counted, and nothing else stops the loop. *)
Theorem failing_talker_never_ends c now :
  (forall k msg, i32 (send k msg) < 1) -> 1 < n_msgs c ->
  forall fuel log, do_talker send inet_addr fuel c now <> Ret log.
Proof.
  intros Hsend Hn fuel log E. unfold do_talker in E. inv_res. by eapply failing_loop.
Qed.
End Talking.

(** Messages of one to three bytes are accepted by the command line, and the
    counter is then written past their end. *)
Theorem short_message_overruns send inet_addr c now fuel :
  0 <= msg_size c < 4 -> 1 < n_msgs c -> 0 <= now <= 2 ^ 62 -> 0 <= wakeup_delay c <= 2 ^ 62 ->
  (0 < fuel)%nat -> do_talker send inet_addr fuel c now = UB.
Proof.
  intros Hs Hn Hnow Hw Hf. unfold do_talker. destruct fuel as [|fuel]; [lia|].
  assert (Hq : Z.quot now NSEC_PER_SEC * NSEC_PER_SEC <= now /\ 0 <= Z.quot now NSEC_PER_SEC).
  { unfold NSEC_PER_SEC. rewrite Z.quot_div_nonneg by lia. dlia. }
  unfold NSEC_PER_SEC in *.
  rewrite !i64_op_id by (unfold INT64_MIN, INT64_MAX; lia). cbn [bind].
  rewrite !i64_op_id by (unfold INT64_MIN, INT64_MAX; lia). cbn [bind].
  rewrite !i64_op_id by (unfold INT64_MIN, INT64_MAX; lia). cbn [bind].
  cbn [talker_loop]. rewrite (proj2 (Z.ltb_lt _ _)) by lia.
  unfold write_counter. rewrite zlen_replicate, (proj2 (Z.ltb_lt _ 4)) by lia. done.
Qed.

(** ** Witnesses *)

Definition demo_config : app_config :=
  mk_config true 9999 "10.0.0.2" 4 8 true 100000 1000000 0 false.

Lemma configure_valid_witness :
  configure [OptTxtime; OptCount 4; OptSize 8; OptAddr "10.0.0.2"] (Some "talker"%string) = Ret demo_config /\
  1 <= msg_size demo_config <= 1450.
Proof.
  assert (E : configure [OptTxtime; OptCount 4; OptSize 8; OptAddr "10.0.0.2"] (Some "talker"%string)
              = Ret demo_config) by reflexivity.
  split; [exact E|]. destruct (configure_valid _ _ _ E) as (_ & H & _). exact H.
Defined.

Lemma talker_schedule_witness :
  exists log, do_talker (fun _ _ => 8) (fun _ => 33554442) 10 demo_config 5500000000 = Ret log /\
    zlen log = 3.
Proof.
  destruct (talker_schedule (fun _ _ => 8) (fun _ => 33554442) demo_config 5500000000 10)
    as (_ & log & E & L & _); try (by zcompute).
  - cbn. lia.
  - exists log. split; [exact E|exact L].
Defined.

Lemma failing_talker_never_ends_witness :
  do_talker (fun _ _ => -105) (fun _ => 33554442) 3 demo_config 5500000000 = Diverge /\
  do_talker (fun _ _ => -105) (fun _ => 33554442) 3 demo_config 5500000000 <> Ret [].
Proof.
  split; [vm_compute; reflexivity|].
  apply (failing_talker_never_ends (fun _ _ => -105) (fun _ => 33554442) demo_config 5500000000);
    [intros; zcompute|zcompute].
Defined.
