(* ===== verification/PerfMain.v ===== *)
(** * The benchmark as a program (src/apps/tsn_perf.c)

    Opening the sockets, the listener, and [main], which runs the talker of
    [TsnPerf] or the listener.  The socket functions are outside the program:
    their results are arguments, and the calls made are returned. *)

From S2P Require Import Prelude Memory RingBuf Libktsn System TsnPerf.

(** ** Opening the sockets *)

Inductive sock_call :=
  | CallSocket (domain type protocol : Z)
  | CallSetPriority (fd priority : Z)
  | CallSetTimestamping (fd flags : Z)
  | CallSetTxtime (fd clockid flags : Z)
  | CallBind (fd : Z) (addr : list Z)
  | CallClose (fd : Z)
  | CallRecvfrom (fd len : Z).

Definition CLOCK_TAI : Z := 11.
Definition SOF_TIMESTAMPING_TX_HARDWARE : Z := 1.
Definition SOF_TIMESTAMPING_RAW_HARDWARE : Z := 64.

Section Sockets.
Context (ans : sock_call -> Z).

(** A missing [SO_PRIORITY] or [SO_TIMESTAMPING] ends the program, a missing
    [SO_TXTIME] is only reported. *)
Definition init_tx_socket (priority : Z) : list sock_call * res Z :=
  let c1 := CallSocket AF_INET SOCK_DGRAM 0 in
  let sock := ans c1 in
  if sock <? 0 then ([c1], Ret (-1))
  else
    let c2 := CallSetPriority sock priority in
    if ans c2 <? 0 then ([c1; c2], Abort)
    else
      let c3 := CallSetTimestamping sock
                  (Z.lor SOF_TIMESTAMPING_TX_HARDWARE SOF_TIMESTAMPING_RAW_HARDWARE) in
      if ans c3 <? 0 then ([c1; c2; c3], Abort)
      else ([c1; c2; c3; CallSetTxtime sock CLOCK_TAI 0], Ret sock).

Definition init_rx_socket (inet_addr : string -> Z) (c : app_config) : list sock_call * Z :=
  let c1 := CallSocket AF_INET SOCK_DGRAM 0 in
  let sockfd := ans c1 in
  if sockfd <? 0 then ([c1], -1)
  else
    let c2 := CallBind sockfd (sk_addr_bytes inet_addr c) in
    if ans c2 <? 0 then ([c1; c2; CallClose sockfd], -1) else ([c1; c2], sockfd).
End Sockets.

(** ** The listener *)

Definition sig_handler (signum g_run : Z) : Z := 0.

(** What happens around one test of [g_run]: whether the signal arrived, the
    result of [recvfrom] with the bytes it stored, and the clock. *)
Record rx_tick := mk_rx_tick { rx_signal : bool; rx_ret : Z; rx_bytes : list Z; rx_now : Z }.

Definition listener_buffer : Z := 4096.

(** [*(int32_t * )msg] *)
Definition read_counter (msg : list Z) : Z := i32 (le_decode (take 4 msg)).

(** [msg] is the array on the stack: [recvfrom] overwrites its start.  The result
    is the calls made and the lines printed. *)
Fixpoint listener_loop (ticks : list rx_tick) (g_run sockfd : Z) (c : app_config) (msg : list Z)
    : res (list sock_call * list (Z * Z)) :=
  match ticks with
  | [] => Diverge
  | t :: ticks =>
      let g_run := if rx_signal t then sig_handler 2 g_run else g_run in
      if g_run =? 0 then Ret ([], [])
      else
        let call := CallRecvfrom sockfd listener_buffer in
        if 0 <? rx_ret t then
          let msg := zslice (rx_bytes t) 0 (rx_ret t) ++ drop (Z.to_nat (rx_ret t)) msg in
          let counter := read_counter msg in
          if verbose c then
            _ <- int_op (counter + 1);;
            let* (cs, lines) := listener_loop ticks g_run sockfd c msg in
            Ret (call :: cs, (counter, rx_now t) :: lines)
          else
            let* (cs, lines) := listener_loop ticks g_run sockfd c msg in Ret (call :: cs, lines)
        else
          let* (cs, lines) := listener_loop ticks g_run sockfd c msg in Ret (call :: cs, lines)
  end.

Section Perf.
Context (ans : sock_call -> Z) (inet_addr : string -> Z).

(** The result of [init_rx_socket] goes to [recvfrom] without a test. *)
Definition do_listener (ticks : list rx_tick) (c : app_config) (msg : list Z)
    : res (list sock_call * list (Z * Z)) :=
  let (t, sockfd) := init_rx_socket ans inet_addr c in
  let* (cs, lines) := listener_loop ticks 1 sockfd c msg in
  Ret (t ++ cs, lines).

(** What [main] did: the messages of the talker or the lines of the listener. *)
Inductive outcome :=
  | Talked (log : list (timespec * msghdr * Z))
  | Heard (lines : list (Z * Z)).

Context (send : nat -> msghdr -> Z).

(** [do_talker] with its socket: it returns at once when there is none. *)
Definition talker (fuel : nat) (c : app_config) (now : Z) : res (list (timespec * msghdr * Z)) :=
  sockfd <- (init_tx_socket ans (i32 (priority c))).2;;
  if sockfd <? 0 then Ret [] else do_talker send inet_addr fuel c now.

Definition tsn_perf_main (fuel : nat) (opts : list option_char) (role : option string) (now : Z)
    (ticks : list rx_tick) (msg : list Z) : res (outcome * Z) :=
  config <- configure opts role;;
  if is_talker config then log <- talker fuel config now;; Ret (Talked log, 0)
  else r <- do_listener ticks config msg;; Ret (Heard r.2, 0).
End Perf.

(** ** What the listener prints *)

(** A tick of a listener before the signal: nothing arrived, or a datagram of at
    least four bytes that fits the array and whose counter can be incremented. *)
Definition rx_ok (t : rx_tick) : Prop :=
  rx_signal t = false /\
  (0 < rx_ret t -> 4 <= rx_ret t <= listener_buffer /\ zlen (rx_bytes t) = rx_ret t /\
     read_counter (rx_bytes t) < INT32_MAX).

(** The lines for the datagrams received. *)
Fixpoint heard (ticks : list rx_tick) : list (Z * Z) :=
  match ticks with
  | [] => []
  | t :: ticks =>
      if 0 <? rx_ret t then (read_counter (rx_bytes t), rx_now t) :: heard ticks else heard ticks
  end.

Lemma i32_range x : INT32_MIN <= i32 x <= INT32_MAX.
Proof. unfold i32, INT32_MIN, INT32_MAX. dlia. Qed.

(** [recvfrom] into the array: the datagram, then what was there before. *)
Lemma received_prefix bs msg n :
  zlen bs = n -> 4 <= n -> read_counter (zslice bs 0 n ++ drop (Z.to_nat n) msg) = read_counter bs.
Proof.
  intros Hl Hn. unfold read_counter, zslice. change (Z.to_nat 0) with 0%nat. rewrite drop_0.
  unfold zlen in Hl. rewrite (take_ge bs) by lia. by rewrite take_app_le by lia.
Qed.

Lemma listener_loop_spec ticks s sockfd c : forall msg,
  Forall rx_ok ticks -> rx_signal s = true -> verbose c = true -> zlen msg = listener_buffer ->
  listener_loop (ticks ++ [s]) 1 sockfd c msg =
    Ret (replicate (length ticks) (CallRecvfrom sockfd listener_buffer), heard ticks).
Proof.
  induction ticks as [|t ticks IH]; intros msg Hok Hs Hv Hm; cbn [app listener_loop].
  { by rewrite Hs. }
  apply Forall_cons in Hok as [(Hsig & Hret) Hok]. rewrite Hsig. cbn [Z.eqb heard length replicate].
  destruct (Z.ltb_spec 0 (rx_ret t)) as [Hp|Hp].
  - destruct (Hret Hp) as (Hr & Hb & Hc). rewrite received_prefix, Hv by lia.
    pose proof (i32_range (le_decode (take 4 (rx_bytes t)))) as Hrange. fold (read_counter (rx_bytes t)) in Hrange.
    rewrite int_op_id by lia. cbn [bind]. rewrite IH; try done.
    rewrite zlen_app, zlen_zslice by lia. unfold zlen in *. rewrite length_drop.
    unfold listener_buffer in *. lia.
  - by rewrite IH.
Qed.

Lemma heard_all ticks :
  Forall (fun t => 0 < rx_ret t) ticks ->
  heard ticks = (fun t => (read_counter (rx_bytes t), rx_now t)) <$> ticks.
Proof.
  induction 1 as [|t ticks Ht _ IH]; [done|]. cbn [heard].
  rewrite (proj2 (Z.ltb_lt _ _) Ht), IH. done.
Qed.

(** ** Properties *)

(** The listener in verbose mode prints one line per datagram, in order, with
    the counter in its first four bytes and the time of its arrival; failed
    receptions print nothing.  It receives on the descriptor of its socket until
    the signal, also when opening or binding the socket failed and the descriptor
    is -1. *)
Theorem listener_prints_counters ans inet_addr c ticks s msg :
  Forall rx_ok ticks -> rx_signal s = true -> verbose c = true -> zlen msg = listener_buffer ->
  let (t, sockfd) := init_rx_socket ans inet_addr c in
  do_listener ans inet_addr (ticks ++ [s]) c msg =
    Ret (t ++ replicate (length ticks) (CallRecvfrom sockfd listener_buffer), heard ticks) /\
  (ans (CallSocket AF_INET SOCK_DGRAM 0) < 0 -> sockfd = -1).
Proof.
  intros Hok Hs Hv Hm. destruct (init_rx_socket ans inet_addr c) as [t sockfd] eqn:E. split.
  - unfold do_listener. rewrite E, listener_loop_spec by done. done.
  - intros Hneg. unfold init_rx_socket in E. rewrite (proj2 (Z.ltb_lt _ _) Hneg) in E.
    by injection E as _ <-.
Qed.

(** The datagram of a message as the listener gets it at time [now]. *)
Definition deliver (now : Z) (e : timespec * msghdr * Z) : rx_tick :=
  let payload := match msg_iov e.1.2 with iov :: _ => iov | [] => [] end in
  mk_rx_tick false (zlen payload) payload now.

(** C26: from the talker to the listener.  When every send succeeds and every
    datagram arrives in order, the listener prints the counters 1, 2, ... up to
    [n_msgs - 1], each exactly once. *)
Theorem benchmark_counts send inet_addr c now fuel now' s msg sockfd :
  (forall k m, 1 <= i32 (send k m)) ->
  4 <= msg_size c <= 1450 -> 1 <= n_msgs c <= INT32_MAX -> 0 <= interval c -> 0 <= now ->
  0 <= wakeup_delay c <= first_txtime now ->
  first_txtime now + n_msgs c * interval c <= INT64_MAX -> (Z.to_nat (n_msgs c) <= fuel)%nat ->
  rx_signal s = true -> verbose c = true -> zlen msg = listener_buffer ->
  exists log cs, do_talker send inet_addr fuel c now = Ret log /\
    listener_loop ((deliver now' <$> log) ++ [s]) 1 sockfd c msg =
      Ret (cs, (fun j => (j, now')) <$> seqZ 1 (n_msgs c - 1)).
Proof.
  intros Hsend Hsz Hn Hi Hnow Hw Hmax Hf Hs Hv Hm. rewrite do_talker_log by (done || lia).
  eexists _, _. split; [done|].
  set (name := sk_addr_bytes inet_addr c). set (message := replicate _ 97).
  assert (Hl : zlen message = msg_size c) by (unfold message; rewrite zlen_replicate; lia).
  set (rd := round send 0 c name 1 (first_txtime now) (first_txtime now - wakeup_delay c) message).
  assert (Hpay : forall j, (Z.of_nat j < n_msgs c - 1) ->
    let t := deliver now' (rd j) in
    rx_ok t /\ rx_ret t = msg_size c /\ read_counter (rx_bytes t) = 1 + Z.of_nat j /\ rx_now t = now').
  { intros j Hj. unfold rd, round, deliver. cbv zeta. cbn [talker_msg msg_iov fst snd rx_ret rx_bytes rx_now].
    assert (Ec : read_counter (le_bytes4 (u32 (1 + Z.of_nat j)) ++ drop 4 message) = 1 + Z.of_nat j).
    { unfold read_counter.
      change (take 4 (le_bytes4 (u32 (1 + Z.of_nat j)) ++ drop 4 message)) with (le_bytes4 (u32 (1 + Z.of_nat j))).
      unfold INT32_MAX in Hn. rewrite u32_id, le_bytes4_decode by lia.
      apply i32_id. unfold INT32_MIN, INT32_MAX. lia. }
    unfold rx_ok, listener_buffer. cbn [rx_signal rx_ret rx_bytes rx_now].
    rewrite Ec, zlen_stamped by lia. split_and!; try done; lia. }
  rewrite listener_loop_spec; try done.
  - rewrite heard_all, <- !list_fmap_compose.
    + f_equal. f_equal. unfold seqZ. rewrite <- list_fmap_compose. apply list_fmap_ext. intros i j Hij.
      apply lookup_seq in Hij as [-> Hlt]. cbn [compose].
      destruct (Hpay (0 + i)%nat) as (_ & _ & -> & ->); [lia|]. f_equal. lia.
    + apply Forall_fmap, Forall_fmap, Forall_seq. intros j Hj. cbn [compose].
      destruct (Hpay j) as (_ & -> & _); lia.
  - apply Forall_fmap, Forall_fmap, Forall_seq. intros j Hj. cbn [compose].
    destruct (Hpay j) as (H & _); [lia|]. exact H.
Qed.

(** Opening the sockets.  The talker's socket is usable only after its priority
    and time-stamping were accepted, whatever [SO_TXTIME] answers; otherwise the
    function reports no socket or the program ends.  The listener's socket is
    returned only when it is bound, and closed again when binding fails. *)
Theorem socket_set_up_outcomes ans inet_addr c prio :
  let fd := ans (CallSocket AF_INET SOCK_DGRAM 0) in
  (fd < 0 -> (init_tx_socket ans prio).2 = Ret (-1) /\ (init_rx_socket ans inet_addr c).2 = -1) /\
  (0 <= fd ->
    ((init_tx_socket ans prio).2 = Ret fd <->
       0 <= ans (CallSetPriority fd prio) /\ 0 <= ans (CallSetTimestamping fd 65)) /\
    ((init_tx_socket ans prio).2 = Abort <->
       ~ (0 <= ans (CallSetPriority fd prio) /\ 0 <= ans (CallSetTimestamping fd 65))) /\
    let bound := ans (CallBind fd (sk_addr_bytes inet_addr c)) in
    (init_rx_socket ans inet_addr c).2 = (if 0 <=? bound then fd else -1) /\
    (CallClose fd ∈ (init_rx_socket ans inet_addr c).1 <-> bound < 0)).
Proof.
  intros fd. unfold init_tx_socket, init_rx_socket. fold fd. change (Z.lor _ _) with 65.
  split; [intros H; by rewrite (proj2 (Z.ltb_lt _ _)) by lia|].
  intros H. rewrite (proj2 (Z.ltb_ge _ _)) by lia. split_and!.
  - repeat step_if; split; intros Ha; try done; try lia.
  - repeat step_if; split; intros Ha; try done; try lia.
  - set (b := ans (CallBind _ _)). destruct (Z.leb_spec 0 b); step_if; (done || lia).
  - set (b := ans (CallBind _ _)). step_if; split; intros Ha; try lia.
    + do 2 right. left.
    + cbn in Ha. rewrite !elem_of_cons in Ha. destruct Ha as [Ha|[Ha|Ha]]; [done|done|].
      by apply not_elem_of_nil in Ha.
Qed.

(** ** Witnesses *)

Definition demo_ans (c : sock_call) : Z := match c with CallSocket _ _ _ => 7 | _ => 0 end.
Definition demo_verbose : app_config :=
  mk_config false 9999 "10.0.0.2" 4 64 true 100000 1000000 0 true.
Definition demo_rx (ret : Z) (bs : list Z) : rx_tick := mk_rx_tick false ret bs 1000.
Definition demo_rx_signal : rx_tick := mk_rx_tick true (-1) [] 0.

Lemma listener_prints_counters_witness :
  do_listener demo_ans (fun _ => 33554442)
    [demo_rx (-1) []; demo_rx 4 [3; 1; 0; 0]; demo_rx_signal] demo_verbose (replicate 4096 0) =
  Ret ([CallSocket 2 2 0; CallBind 7 (sk_addr_bytes (fun _ => 33554442) demo_verbose);
        CallRecvfrom 7 4096; CallRecvfrom 7 4096], [(259, 1000)]).
Proof.
  apply (listener_prints_counters demo_ans (fun _ => 33554442) demo_verbose
    [demo_rx (-1) []; demo_rx 4 [3; 1; 0; 0]] demo_rx_signal (replicate 4096 0));
    [|reflexivity|reflexivity|reflexivity].
  apply Forall_cons. split; [split; [reflexivity|cbn; lia]|].
  apply Forall_cons. split; [split; [reflexivity|zcompute]|constructor].
Defined.

Lemma benchmark_counts_witness :
  exists log cs, do_talker (fun _ _ => 64) (fun _ => 33554442) 4 demo_verbose 5500000000 = Ret log /\
    listener_loop ((deliver 1000 <$> log) ++ [demo_rx_signal]) 1 7 demo_verbose (replicate 4096 0) =
      Ret (cs, [(1, 1000); (2, 1000); (3, 1000)]).
Proof.
  apply (benchmark_counts (fun _ _ => 64) (fun _ => 33554442) demo_verbose 5500000000 4 1000 demo_rx_signal
    (replicate 4096 0) 7); try reflexivity; try (cbn; lia); try zcompute; try (intros; zcompute).
Defined.

Lemma socket_set_up_outcomes_witness :
  (init_tx_socket demo_ans 0).2 = Ret 7 /\ (init_rx_socket demo_ans (fun _ => 1) demo_verbose).2 = 7.
Proof.
  destruct (socket_set_up_outcomes demo_ans (fun _ => 1) demo_verbose 0) as [_ H].
  destruct H as (H1 & _ & H3 & _); [cbn; lia|]. split; [apply H1; cbn; lia|exact H3].
Defined.

(** Every message a talker sends fits the daemon: with the message sizes the
    command line allows, up to 1450 bytes, and times a 64-bit clock reaches, each
    one satisfies what the system requires of a timed message, so that no send of
    the benchmark overruns a buffer or a frame. *)
Theorem talker_messages_are_sendable ans send inet_addr c now fuel sockfd :
  (init_tx_socket ans (i32 (priority c))).2 = Ret sockfd -> 0 <= sockfd ->
  (forall k m, 1 <= i32 (send k m)) ->
  4 <= msg_size c <= 1450 -> 1 <= n_msgs c <= INT32_MAX -> 0 <= interval c -> 0 <= now ->
  0 <= wakeup_delay c <= first_txtime now ->
  first_txtime now + n_msgs c * interval c <= INT64_MAX -> (Z.to_nat (n_msgs c) <= fuel)%nat ->
  exists log, talker ans inet_addr send fuel c now = Ret log /\
    Forall (fun e => sendable e.1.2) log.
Proof.
  intros Hs Hfd Hsend Hsz Hn Hi Hnow Hw Hmax Hf. unfold talker. rewrite Hs. cbn [bind].
  rewrite (proj2 (Z.ltb_ge _ _)), do_talker_log by (done || lia).
  eexists. split; [done|]. apply Forall_fmap, Forall_seq. intros j Hj. cbn [compose].
  unfold round. cbv zeta. cbn [fst snd]. split.
  - intros tx. unfold find_txtime, talker_msg. destruct (use_txtime c); [|done]. cbn. intros [= <-].
    assert (0 <= Z.of_nat j * interval c <= n_msgs c * interval c) by nia.
    rewrite u64_id by (unfold INT64_MAX in *; lia). lia.
  - intros iov iovs E. unfold talker_msg, msg_iov in E.
    apply (f_equal (fun l : list (list Z) => default [] (l !! 0%nat))) in E. cbn [lookup list_lookup default from_option] in E.
    unfold id in E. subst iov. rewrite zlen_stamped; rewrite zlen_replicate; unfold kt_mbuf_size; lia.
Qed.

Lemma talker_messages_are_sendable_witness :
  exists log, talker demo_ans (fun _ => 33554442) (fun _ _ => 64) 4 demo_verbose 5500000000 = Ret log /\
    Forall (fun e => sendable e.1.2) log.
Proof.
  apply (talker_messages_are_sendable demo_ans (fun _ _ => 64) (fun _ => 33554442) demo_verbose 5500000000 4 7);
    try reflexivity; try (cbn; lia); try zcompute; try (intros; zcompute).
Defined.
