(* ===== verification/OpcUaSub.v ===== *)
(** * The OPC UA subscriber (src/apps/opcua_sub.c, src/apps/ua_pubsub_networkmessage.h)

    The types of a decoded network message, the callback that prints its fields,
    the listening step and [main].  The decoder, the calendar conversion and the
    channel belong to open62541: their results are arguments of the model. *)

From S2P Require Import Prelude Libktsn.

(** ** Types of ua_pubsub_networkmessage.h

    A pointer to an array is the list of the elements that can be read there
    (the empty list for [NULL]).  The descriptions of types and names that are
    only used by the JSON encoder ([fieldNames], [dataSetMetaDataType]) are
    left out. *)

Definition UA_StatusCode : Type := Z.
Definition UA_STATUSCODE_GOOD : UA_StatusCode := 0.

(** The entries of [UA_TYPES] that the program compares with, and the others. *)
Inductive UA_DataType := TypeByte | TypeUInt32 | TypeDateTime | TypeOther (index : Z).
#[global] Instance UA_DataType_eq_dec : EqDecision UA_DataType.
Proof. solve_decision. Defined.

(** [value_data] holds the bytes that may be read behind the data pointer. *)
Record UA_Variant := mk_variant { value_type : option UA_DataType; value_data : list Z }.
Record UA_DataValue := mk_data_value { value : UA_Variant }.

Record UA_DataSetPayloadHeader := mk_payload_header { count : Z; dataSetWriterIds : list Z }.

Inductive UA_FieldEncoding :=
  | UA_FIELDENCODING_VARIANT | UA_FIELDENCODING_RAWDATA
  | UA_FIELDENCODING_DATAVALUE | UA_FIELDENCODING_UNKNOWN.
#[global] Instance UA_FieldEncoding_eq_dec : EqDecision UA_FieldEncoding.
Proof. solve_decision. Defined.

Inductive UA_DataSetMessageType :=
  | UA_DATASETMESSAGE_DATAKEYFRAME | UA_DATASETMESSAGE_DATADELTAFRAME
  | UA_DATASETMESSAGE_EVENT | UA_DATASETMESSAGE_KEEPALIVE.
#[global] Instance UA_DataSetMessageType_eq_dec : EqDecision UA_DataSetMessageType.
Proof. solve_decision. Defined.

Record UA_DataSetMessageHeader := mk_dsm_header {
  dataSetMessageValid : bool;
  fieldEncoding : UA_FieldEncoding;
  dataSetMessageSequenceNrEnabled : bool;
  dsm_timestampEnabled : bool;
  statusEnabled : bool;
  configVersionMajorVersionEnabled : bool;
  configVersionMinorVersionEnabled : bool;
  dataSetMessageType : UA_DataSetMessageType;
  picoSecondsIncluded : bool;
  dataSetMessageSequenceNr : Z;
  dsm_timestamp : Z;
  picoSeconds : Z;
  status : Z;
  configVersionMajorVersion : Z;
  configVersionMinorVersion : Z
}.

Record UA_DataSetMessage_DataKeyFrameData := mk_key_frame {
  fieldCount : Z;
  dataSetFields : list UA_DataValue;
  rawFields : list Z
}.

Record UA_DataSetMessage_DeltaFrameField := mk_delta_field {
  fieldIndex : Z;
  fieldValue : UA_DataValue
}.

Record UA_DataSetMessage_DataDeltaFrameData := mk_delta_frame {
  delta_fieldCount : Z;
  deltaFrameFields : list UA_DataSetMessage_DeltaFrameField
}.

(** The union [data]: the member that was written last. *)
Inductive frame_data :=
  | keyFrameData (k : UA_DataSetMessage_DataKeyFrameData)
  | deltaFrameData (d : UA_DataSetMessage_DataDeltaFrameData).

Record UA_DataSetMessage := mk_data_set_message {
  header : UA_DataSetMessageHeader;
  data : frame_data;
  configuredSize : Z
}.

Record UA_DataSetPayload := mk_payload { sizes : list Z; dataSetMessages : list UA_DataSetMessage }.

Inductive UA_NetworkMessageType :=
  | UA_NETWORKMESSAGE_DATASET | UA_NETWORKMESSAGE_DISCOVERY_REQUEST
  | UA_NETWORKMESSAGE_DISCOVERY_RESPONSE.
#[global] Instance UA_NetworkMessageType_eq_dec : EqDecision UA_NetworkMessageType.
Proof. solve_decision. Defined.

Record UA_NetworkMessageGroupHeader := mk_group_header {
  writerGroupIdEnabled : bool;
  groupVersionEnabled : bool;
  networkMessageNumberEnabled : bool;
  sequenceNumberEnabled : bool;
  writerGroupId : Z;
  groupVersion : Z;
  networkMessageNumber : Z;
  sequenceNumber : Z
}.

Definition UA_NETWORKMESSAGE_MAX_NONCE_LENGTH : nat := 16.

Record UA_NetworkMessageSecurityHeader := mk_security_header {
  networkMessageSigned : bool;
  networkMessageEncrypted : bool;
  securityFooterEnabled : bool;
  forceKeyReset : bool;
  securityTokenId : Z;
  messageNonce : list Z;
  messageNonceSize : Z;
  securityFooterSize : Z
}.

(** Identifiers whose types open62541 declares ([messageId], [publisherId],
    [dataSetClassId]) are kept as the bytes they occupy. *)
Record UA_NetworkMessage := mk_network_message {
  version : Z;
  messageIdEnabled : bool;
  messageId : list Z;
  publisherIdEnabled : bool;
  groupHeaderEnabled : bool;
  payloadHeaderEnabled : bool;
  dataSetClassIdEnabled : bool;
  securityEnabled : bool;
  timestampEnabled : bool;
  picosecondsEnabled : bool;
  chunkMessage : bool;
  promotedFieldsEnabled : bool;
  networkMessageType : UA_NetworkMessageType;
  publisherIdType : Z;
  publisherId : list Z;
  dataSetClassId : list Z;
  groupHeader : UA_NetworkMessageGroupHeader;
  payloadHeader : UA_DataSetPayloadHeader;
  timestamp : Z;
  picoseconds : Z;
  promotedFieldsSize : Z;
  promotedFields : list UA_Variant;
  securityHeader : UA_NetworkMessageSecurityHeader;
  payload : UA_DataSetPayload;
  securityFooter : list Z
}.

(** What [memset(&networkMessage, 0, ...)] leaves. *)
Definition zero_message : UA_NetworkMessage :=
  mk_network_message 0 false [] false false false false false false false false false
    UA_NETWORKMESSAGE_DATASET 0 [] []
    (mk_group_header false false false false 0 0 0 0) (mk_payload_header 0 []) 0 0 0 []
    (mk_security_header false false false false 0 (replicate UA_NETWORKMESSAGE_MAX_NONCE_LENGTH 0) 0 0)
    (mk_payload [] []) [].

(** ** What the program does that can be seen *)

(** year, month, day, hour, minute and second *)
Definition date_parts : Type := Z * Z * Z * Z * Z * Z.

Inductive log_line :=
  | MessageLength (n : Z)
  | ContentByte (v : Z)
  | ContentUInt32 (v : Z)
  | ContentDateTime (d : date_parts)
  | BufferAllocationFailed
  | MessageReceiveFailed
  | ReceivedCtrlC
  | ListeningOn (device : string).

Record connection_config := mk_connection_config {
  cc_name : string; cc_transportProfileUri : string; cc_enabled : bool;
  cc_interface : string; cc_url : string }.

Inductive action :=
  | Log (l : log_line)
  | ClearMessage
  | ClearBuffer
  | CreateChannel (c : connection_config)
  | Regist
  | CloseChannel
  | Usage (progname : string).

(** ** The callback *)

(** [for (i = 0; i < n; i++) body(a[i])], collecting what the bodies print. *)
Fixpoint for_each {A B} (fuel : nat) (body : A -> res (list B)) (a : list A) (n i : Z) : res (list B) :=
  match fuel with
  | O => Diverge
  | S fuel =>
      if i <? n then
        let* x := znth a i in
        let* out := body x in
        let* rest := for_each fuel body a n (i + 1) in
        Ret (out ++ rest)
      else Ret []
  end.

Definition for_count {A B} (body : A -> res (list B)) (a : list A) (n : Z) : res (list B) :=
  for_each (S (Z.to_nat n)) body a n 0.

(** Reading a value of [n] bytes through a pointer. *)
Definition load (n : Z) (bs : list Z) : res Z :=
  if zlen bs <? n then UB else Ret (le_decode (take (Z.to_nat n) bs)).

Section Callback.
Context (UA_NetworkMessage_decodeBinary : list Z -> UA_NetworkMessage -> UA_NetworkMessage * UA_StatusCode).
Context (UA_DateTime_toStruct : Z -> date_parts).

Definition print_field (f : UA_DataValue) : res (list log_line) :=
  let currentType := value_type (value f) in
  if decide (currentType = Some TypeByte) then
    let* v := load 1 (value_data (value f)) in Ret [ContentByte v]
  else if decide (currentType = Some TypeUInt32) then
    let* v := load 4 (value_data (value f)) in Ret [ContentUInt32 v]
  else if decide (currentType = Some TypeDateTime) then
    let* v := load 8 (value_data (value f)) in Ret [ContentDateTime (UA_DateTime_toStruct (i64 v))]
  else Ret [].

Definition print_message (dsm : UA_DataSetMessage) : res (list log_line) :=
  if decide (dataSetMessageType (header dsm) <> UA_DATASETMESSAGE_DATAKEYFRAME) then Ret []
  else if decide (fieldEncoding (header dsm) = UA_FIELDENCODING_RAWDATA) then Ret []
  else
    match data dsm with
    | keyFrameData k => for_count print_field (dataSetFields k) (fieldCount k)
    | deltaFrameData _ => UB
    end.

(** The status of the decoder is not looked at; the callback reports success on
    every path. *)
Definition customDecodeAndProcessCallback (buffer : list Z) : res (list action * UA_StatusCode) :=
  let first := Log (MessageLength (zlen buffer)) in
  let networkMessage := (UA_NetworkMessage_decodeBinary buffer zero_message).1 in
  let cleanup := [ClearMessage] in
  if decide (networkMessageType networkMessage <> UA_NETWORKMESSAGE_DATASET) then
    Ret (first :: cleanup, UA_STATUSCODE_GOOD)
  else if payloadHeaderEnabled networkMessage && (count (payloadHeader networkMessage) <? 1) then
    Ret (first :: cleanup, UA_STATUSCODE_GOOD)
  else
    let* ls := for_count print_message (dataSetMessages (payload networkMessage))
                 (count (payloadHeader networkMessage)) in
    Ret (first :: (Log <$> ls) ++ cleanup, UA_STATUSCODE_GOOD).

(** ** Listening *)

(** What happens around one test of [running]: whether a signal arrived, the
    status of the allocation, the messages that the channel hands to the callback
    within its 100 milliseconds, and the status that its [receive] returns. *)
Record sub_tick := mk_sub_tick {
  sub_signal : bool; alloc_status : UA_StatusCode; received : list (list Z); receive_status : UA_StatusCode }.

Fixpoint receive (buffers : list (list Z)) : res (list action) :=
  match buffers with
  | [] => Ret []
  | b :: buffers =>
      let* (acts, _) := customDecodeAndProcessCallback b in
      let* rest := receive buffers in
      Ret (acts ++ rest)
  end.

(** The second test is of [retval], not of [rv], as in the source. *)
Definition subscriberListen (t : sub_tick) : res (list action * UA_StatusCode) :=
  let retval := alloc_status t in
  if negb (retval =? UA_STATUSCODE_GOOD) then Ret ([Log BufferAllocationFailed], retval)
  else
    let* acts := receive (received t) in
    let rv := receive_status t in
    if negb (retval =? UA_STATUSCODE_GOOD) then Ret (acts ++ [Log MessageReceiveFailed], retval)
    else Ret (acts ++ [ClearBuffer], rv).

(** The handler of [SIGINT] and [SIGTERM]: the new value of [running]. *)
Definition stopHandler (sign : Z) (running : bool) : list action * bool := ([Log ReceivedCtrlC], false).

Fixpoint subscriber_loop (ticks : list sub_tick) (running : bool) : res (list action) :=
  match ticks with
  | [] => Diverge
  | t :: ticks =>
      let '(sig, running) := if sub_signal t then stopHandler 2 running else ([], running) in
      if running then
        let* (acts, _) := subscriberListen t in
        let* rest := subscriber_loop ticks running in
        Ret (sig ++ acts ++ rest)
      else Ret sig
  end.

Definition EXIT_SUCCESS : Z := 0.
Definition EXIT_FAILURE : Z := 1.
Definition ethernet_url : string := "opc.eth://01-00-5E-00-00-01".
Definition eth_uadp_profile : string := "http://opcfoundation.org/UA-Profile/Transport/pubsub-eth-uadp".

(** [channel] says whether [createPubSubChannel] returned a channel; its result
    is used without a test. *)
Definition subscriber_main (argv : list string) (channel : connection_config -> bool)
    (ticks : list sub_tick) : res (list action * Z) :=
  let* progname := znth argv 0 in
  if negb (zlen argv =? 2) then Ret ([Usage progname], EXIT_FAILURE)
  else
    let* device := znth argv 1 in
    if String.eqb device "-h" then Ret ([Usage progname], EXIT_SUCCESS)
    else
      let connectionConfig :=
        mk_connection_config "UADP Connection 1" eth_uadp_profile true device ethernet_url in
      if channel connectionConfig then
        let* acts := subscriber_loop ticks true in
        Ret ([CreateChannel connectionConfig; Regist; Log (ListeningOn device)] ++ acts ++
             [CloseChannel], 0)
      else UB.
End Callback.

(** ** What is printed *)

(** A loop over an array whose body returns exactly on the elements that
    satisfy [ok] returns exactly when the array is long enough and all the
    elements it visits satisfy [ok]. *)
Section ForEach.
Context {A B : Type} (body : A -> res (list B)) (ok : A -> bool) (g : A -> list B).
Hypothesis body_spec : forall x, body x = if ok x then Ret (g x) else UB.

Lemma for_each_spec (a done' todo : list A) fuel n :
  a = done' ++ todo -> zlen done' <= n -> (Z.to_nat (n - zlen done') < fuel)%nat ->
  for_each fuel body a n (zlen done') =
    if (n <=? zlen a) && forallb ok (take (Z.to_nat (n - zlen done')) todo)
    then Ret (flat_map g (take (Z.to_nat (n - zlen done')) todo)) else UB.
Proof.
  revert done' todo. induction fuel as [|fuel IH]; intros dn todo Ha Hn Hf; [lia|]. cbn [for_each].
  pose proof (zlen_nonneg dn) as H0. destruct (Z.ltb_spec (zlen dn) n) as [Hlt|Hge].
  - destruct todo as [|x todo].
    + rewrite znth_oob by (subst a; rewrite app_nil_r; lia). cbn [bind].
      destruct (Z.leb_spec n (zlen a)) as [Hle|]; [|done]. subst a. rewrite app_nil_r in Hle. lia.
    + assert (Ex : znth a (zlen dn) = Ret x) by (subst a; apply znth_middle).
      rewrite Ex. cbn [bind]. rewrite body_spec.
      replace (Z.to_nat (n - zlen dn)) with (S (Z.to_nat (n - zlen (dn ++ [x])))) by
        (rewrite zlen_app, zlen_cons, zlen_nil; lia).
      cbn [take forallb flat_map]. destruct (ok x); cbn [bind andb].
      * replace (zlen dn + 1) with (zlen (dn ++ [x])) by (rewrite zlen_app, zlen_cons, zlen_nil; lia).
        rewrite (IH (dn ++ [x]) todo); [|by rewrite <- app_assoc| |];
          [|rewrite zlen_app, zlen_cons, zlen_nil; lia..].
        by destruct (n <=? zlen a), (forallb _ _).
      * by rewrite andb_false_r.
  - replace n with (zlen dn) by lia. rewrite Z.sub_diag. cbn [Z.to_nat take forallb flat_map].
    rewrite (proj2 (Z.leb_le _ _)); [done|]. subst a. rewrite zlen_app. pose proof (zlen_nonneg todo). lia.
Qed.

Lemma for_count_spec (a : list A) n :
  for_count body a n =
    if (n <=? zlen a) && forallb ok (take (Z.to_nat n) a)
    then Ret (flat_map g (take (Z.to_nat n) a)) else UB.
Proof.
  unfold for_count. destruct (Z.ltb_spec n 0) as [Hn|Hn].
  - cbn [for_each]. rewrite (proj2 (Z.ltb_ge _ _)) by lia. replace (Z.to_nat n) with 0%nat by lia.
    cbn [take forallb flat_map]. pose proof (zlen_nonneg a). by rewrite (proj2 (Z.leb_le _ _)) by lia.
  - pose proof (for_each_spec a [] a (S (Z.to_nat n)) n eq_refl) as E. rewrite zlen_nil, Z.sub_0_r in E.
    apply E; lia.
Qed.
End ForEach.

Section Shown.
Context (toStruct : Z -> date_parts).

(** The bytes the program reads of a field, and the line it prints. *)
Definition width (f : UA_DataValue) : Z :=
  match value_type (value f) with
  | Some TypeByte => 1 | Some TypeUInt32 => 4 | Some TypeDateTime => 8 | _ => 0
  end.

Definition field_line (f : UA_DataValue) : list log_line :=
  let v := le_decode (take (Z.to_nat (width f)) (value_data (value f))) in
  match value_type (value f) with
  | Some TypeByte => [ContentByte v]
  | Some TypeUInt32 => [ContentUInt32 v]
  | Some TypeDateTime => [ContentDateTime (toStruct (i64 v))]
  | _ => []
  end.

Definition field_readable (f : UA_DataValue) : bool := width f <=? zlen (value_data (value f)).

(** The fields that the program visits: those of the key frames that are not
    raw, in the order of the message. *)
Definition shown_frame (dsm : UA_DataSetMessage) : option frame_data :=
  match dataSetMessageType (header dsm), fieldEncoding (header dsm) with
  | UA_DATASETMESSAGE_DATAKEYFRAME, UA_FIELDENCODING_RAWDATA => None
  | UA_DATASETMESSAGE_DATAKEYFRAME, _ => Some (data dsm)
  | _, _ => None
  end.

Definition message_readable (dsm : UA_DataSetMessage) : bool :=
  match shown_frame dsm with
  | Some (keyFrameData k) =>
      (fieldCount k <=? zlen (dataSetFields k)) &&
      forallb field_readable (take (Z.to_nat (fieldCount k)) (dataSetFields k))
  | Some (deltaFrameData _) => false
  | None => true
  end.

Definition message_lines (dsm : UA_DataSetMessage) : list log_line :=
  match shown_frame dsm with
  | Some (keyFrameData k) => flat_map field_line (take (Z.to_nat (fieldCount k)) (dataSetFields k))
  | _ => []
  end.

Definition visited (nm : UA_NetworkMessage) : list UA_DataSetMessage :=
  match networkMessageType nm with
  | UA_NETWORKMESSAGE_DATASET => take (Z.to_nat (count (payloadHeader nm))) (dataSetMessages (payload nm))
  | _ => []
  end.

(** The arrays and values of a message are as long as the program takes them to be. *)
Definition readable (nm : UA_NetworkMessage) : bool :=
  match networkMessageType nm with
  | UA_NETWORKMESSAGE_DATASET =>
      (count (payloadHeader nm) <=? zlen (dataSetMessages (payload nm))) &&
      forallb message_readable (visited nm)
  | _ => true
  end.

Lemma load_spec n bs : load n bs = if n <=? zlen bs then Ret (le_decode (take (Z.to_nat n) bs)) else UB.
Proof. unfold load. rewrite Z.ltb_antisym. by destruct (n <=? zlen bs). Qed.

Lemma print_field_spec f :
  print_field toStruct f = if field_readable f then Ret (field_line f) else UB.
Proof.
  unfold print_field, field_readable, field_line, width. rewrite !load_spec.
  pose proof (zlen_nonneg (value_data (value f))).
  destruct (value_type (value f)) as [[]|]; repeat (case_decide; [|try done]); try done;
    try (by destruct (_ <=? _)); by rewrite (proj2 (Z.leb_le _ _)) by lia.
Qed.

Lemma print_message_spec dsm :
  print_message toStruct dsm = if message_readable dsm then Ret (message_lines dsm) else UB.
Proof.
  unfold print_message, message_readable, message_lines, shown_frame.
  destruct (dataSetMessageType _); [|case_decide; done..]. case_decide as H1; [done|].
  destruct (fieldEncoding _); case_decide as H2; try done; destruct (data dsm) as [k|]; try done;
    apply for_count_spec; apply print_field_spec.
Qed.
End Shown.

Section CallbackProps.
Context (decode : list Z -> UA_NetworkMessage -> UA_NetworkMessage * UA_StatusCode).
Context (toStruct : Z -> date_parts).

Definition decoded (buffer : list Z) : UA_NetworkMessage := (decode buffer zero_message).1.

(** What handling one message shows. *)
Definition callback_trace (buffer : list Z) : list action :=
  Log (MessageLength (zlen buffer)) ::
  (Log <$> flat_map (message_lines toStruct) (visited (decoded buffer))) ++ [ClearMessage].

Lemma callback_spec buffer :
  customDecodeAndProcessCallback decode toStruct buffer =
    if readable (decoded buffer) then Ret (callback_trace buffer, UA_STATUSCODE_GOOD) else UB.
Proof.
  unfold customDecodeAndProcessCallback, callback_trace, readable, visited. fold (decoded buffer).
  set (nm := decoded buffer). pose proof (zlen_nonneg (dataSetMessages (payload nm))).
  destruct (networkMessageType nm); case_decide as Ht; try done; try (by destruct Ht; intros).
  rewrite (for_count_spec _ _ _ (print_message_spec toStruct)).
  destruct (payloadHeaderEnabled nm && _) eqn:E; [|by destruct (_ <=? zlen _), (forallb _ _)].
  apply andb_true_iff in E as [_ E%Z.ltb_lt].
  replace (Z.to_nat (count (payloadHeader nm))) with 0%nat by lia.
  by rewrite (proj2 (Z.leb_le _ _)) by lia.
Qed.

Lemma receive_spec buffers :
  receive decode toStruct buffers =
    if forallb (readable ∘ decoded) buffers then Ret (flat_map callback_trace buffers) else UB.
Proof.
  induction buffers as [|b bs IH]; [done|]. cbn [receive forallb flat_map]. rewrite callback_spec, IH.
  cbn [compose]. destruct (readable (decoded b)); cbn [bind andb]; [|done]. by destruct (forallb _ _).
Qed.

(** What one call of [subscriberListen] shows. *)
Definition listen_trace (t : sub_tick) : list action :=
  if alloc_status t =? UA_STATUSCODE_GOOD then flat_map callback_trace (received t) ++ [ClearBuffer]
  else [Log BufferAllocationFailed].

Definition tick_readable (t : sub_tick) : bool :=
  negb (alloc_status t =? UA_STATUSCODE_GOOD) || forallb (readable ∘ decoded) (received t).

Lemma listen_spec t :
  subscriberListen decode toStruct t =
    if tick_readable t then
      Ret (listen_trace t,
           if alloc_status t =? UA_STATUSCODE_GOOD then receive_status t else alloc_status t)
    else UB.
Proof.
  unfold subscriberListen, tick_readable, listen_trace. destruct (_ =? _); cbn [negb orb]; [|done].
  rewrite receive_spec. by destruct (forallb _ _).
Qed.

Lemma field_line_content f l : In l (field_line toStruct f) -> l <> MessageReceiveFailed.
Proof.
  unfold field_line. cbv zeta.
  destruct (value_type (value f)) as [[]|]; cbn; [intros [<-|[]]; done..|done|done].
Qed.

(** A failed receive is not reported. *)
Lemma listen_never_reports t : ~ In (Log MessageReceiveFailed) (listen_trace t).
Proof.
  unfold listen_trace. step_if; [|by intros [|[]]]. rewrite in_app_iff. intros [Hin|[|[]]]; [|done].
  apply in_flat_map in Hin as (b & _ & [|Hin]); [done|].
  rewrite in_app_iff in Hin. destruct Hin as [Hin|[|[]]]; [|done].
  apply in_map_iff in Hin as (l & [= ->] & Hl). apply in_flat_map in Hl as (m & _ & Hl).
  unfold message_lines in Hl. destruct (shown_frame m) as [[k|]|]; [|done..].
  apply in_flat_map in Hl as (f & _ & Hl). by apply (field_line_content f) in Hl.
Qed.

Lemma loop_spec ticks stop :
  Forall (fun t => sub_signal t = false /\ tick_readable t = true) ticks -> sub_signal stop = true ->
  subscriber_loop decode toStruct (ticks ++ [stop]) true =
    Ret (flat_map listen_trace ticks ++ [Log ReceivedCtrlC]).
Proof.
  intros Ht Hs. induction Ht as [|t ticks [Hsig Hr] _ IH]; cbn [app subscriber_loop].
  - by rewrite Hs.
  - rewrite Hsig, listen_spec, Hr. cbn [bind]. rewrite IH. cbn [bind flat_map app].
    by rewrite <- app_assoc.
Qed.
End CallbackProps.

(** ** Properties *)

(** C38: the callback prints, for a message whose arrays and values are as long as
    it takes them to be, the message length and then exactly the bytes, unsigned
    integers and dates of the key frames that are not raw, in order; it clears the
    message and reports success.  In every other case it reads outside an object:
    whether the decoder failed is not looked at, so nothing but the decoder's own
    care keeps a broken message from it. *)
Theorem callback_prints_key_frames decode toStruct buffer :
  let nm := (decode buffer zero_message).1 in
  customDecodeAndProcessCallback decode toStruct buffer =
    if readable nm then
      Ret (Log (MessageLength (zlen buffer)) ::
           (Log <$> flat_map (message_lines toStruct) (visited nm)) ++ [ClearMessage],
           UA_STATUSCODE_GOOD)
    else UB.
Proof. apply callback_spec. Qed.

(** The subscriber as a program: with a device name and a channel it registers,
    prints every message it receives in the order of arrival until it is
    interrupted, goes on after a failed allocation and after every failed
    receive, which it never reports, closes the channel and exits with 0. *)
Theorem subscriber_prints_until_interrupt decode toStruct prog device channel ticks stop :
  device <> "-h"%string -> (forall c, channel c = true) ->
  Forall (fun t => sub_signal t = false /\ tick_readable decode t = true) ticks ->
  sub_signal stop = true ->
  exists c, cc_interface c = device /\ cc_url c = ethernet_url /\
    subscriber_main decode toStruct [prog; device] channel (ticks ++ [stop]) =
      Ret ([CreateChannel c; Regist; Log (ListeningOn device)] ++
           flat_map (listen_trace decode toStruct) ticks ++ [Log ReceivedCtrlC; CloseChannel], 0) /\
    Log MessageReceiveFailed ∉ flat_map (listen_trace decode toStruct) ticks.
Proof.
  intros Hd Hc Ht Hs. eexists (mk_connection_config _ _ _ device _). split_and!; [done| | |].
  2: { unfold subscriber_main. change (znth [prog; device] 0) with (Ret prog).
       change (znth [prog; device] 1) with (Ret device). cbn [bind].
       change (negb (zlen [prog; device] =? 2)) with false. cbv iota.
       destruct (String.eqb_spec device "-h") as [|_]; [done|]. rewrite Hc, loop_spec by done.
       cbn [bind]. by rewrite <- !app_assoc. }
  - done.
  - intros Hin. apply list_elem_of_In, in_flat_map in Hin as (t & _ & Hin).
    by apply (listen_never_reports _ _ _ Hin).
Qed.

(** ** Witnesses *)

Definition demo_header : UA_DataSetMessageHeader :=
  mk_dsm_header true UA_FIELDENCODING_VARIANT false false false false false
    UA_DATASETMESSAGE_DATAKEYFRAME false 0 0 0 0 0 0.
Definition demo_fields : list UA_DataValue :=
  [mk_data_value (mk_variant (Some TypeUInt32) [1; 2; 0; 0]);
   mk_data_value (mk_variant (Some (TypeOther 11)) []);
   mk_data_value (mk_variant (Some TypeByte) [9])].

(** A decoder that knows one message: one key frame with the fields above. *)
Definition demo_decode (fields : list UA_DataValue) (buffer : list Z) (nm : UA_NetworkMessage) :
    UA_NetworkMessage * UA_StatusCode :=
  let dsm := mk_data_set_message demo_header (keyFrameData (mk_key_frame (zlen fields) fields [])) 0 in
  (mk_network_message 1 false [] false false true false false false false false false
     UA_NETWORKMESSAGE_DATASET 0 [] [] (groupHeader nm) (mk_payload_header 1 [62541]) 0 0 0 []
     (securityHeader nm) (mk_payload [] [dsm]) [], 0).
Definition demo_toStruct (t : Z) : date_parts := (t, 0, 0, 0, 0, 0).

(** An array of no elements has no byte to read: a value of the right type whose
    array is empty is read outside of any object. *)
Example empty_array_is_read :
  customDecodeAndProcessCallback (demo_decode [mk_data_value (mk_variant (Some TypeByte) [])])
    demo_toStruct [1] = UB.
Proof. reflexivity. Qed.

Lemma subscriber_prints_until_interrupt_witness :
  exists c, cc_interface c = "eth0"%string /\ cc_url c = ethernet_url /\
    subscriber_main (demo_decode demo_fields) demo_toStruct ["sub"; "eth0"]%string (fun _ => true)
      ([mk_sub_tick false 0 [[1; 2; 3]] 5] ++ [mk_sub_tick true 0 [] 0]) =
      Ret ([CreateChannel c; Regist; Log (ListeningOn "eth0")] ++
           [Log (MessageLength 3); Log (ContentUInt32 513); Log (ContentByte 9); ClearMessage; ClearBuffer] ++
           [Log ReceivedCtrlC; CloseChannel], 0) /\
    Log MessageReceiveFailed ∉
      [Log (MessageLength 3); Log (ContentUInt32 513); Log (ContentByte 9); ClearMessage; ClearBuffer].
Proof.
  apply (subscriber_prints_until_interrupt (demo_decode demo_fields) demo_toStruct "sub" "eth0"
    (fun _ => true) [mk_sub_tick false 0 [[1; 2; 3]] 5] (mk_sub_tick true 0 [] 0));
    [done|done| |reflexivity].
  apply Forall_cons. split; [split; reflexivity|constructor].
Defined.
