(* ===== verification/OpcUaPub.v ===== *)
(** * The OPC UA publisher (src/apps/opcua_pub.c)

    The publisher configures a server of open62541 and lets it run.  The model is
    the sequence of the calls it makes, with the configurations it passes and the
    node identifiers it carries from one call to the next through its global
    variables.  The answers of the server are an argument of the model.  Of the
    configurations, members that only say which member of a union is in use
    ([publisherIdType], [dataSetFieldType], [messageSettings.encoding]) are implied
    by the types here. *)

From S2P Require Import Prelude OpcUaSub.

(** ** Configurations *)

Inductive option_value := UInt32Option (v : Z) | BooleanOption (b : bool).

Record UA_PubSubConnectionConfig := mk_pub_connection {
  pc_name : string; pc_transportProfileUri : string; pc_enabled : bool;
  pc_interface : string; pc_url : string;
  pc_publisherId : Z;
  pc_connectionProperties : list (string * option_value)
}.

Inductive data_set_type := UA_PUBSUB_DATASET_PUBLISHEDITEMS.
Record UA_PublishedDataSetConfig := mk_data_set { pds_type : data_set_type; pds_name : string }.

Inductive published_variable := UA_NS0ID_SERVER_SERVERSTATUS_CURRENTTIME.
Inductive attribute_id := UA_ATTRIBUTEID_VALUE.
Record UA_DataSetFieldConfig := mk_field_config {
  fieldNameAlias : string; promotedField : bool;
  publishedVariable : published_variable; attributeId : attribute_id
}.

(** Bits of the content mask, as the standard numbers them. *)
Definition UA_UADPNETWORKMESSAGECONTENTMASK_PUBLISHERID : Z := 1.
Definition UA_UADPNETWORKMESSAGECONTENTMASK_GROUPHEADER : Z := 2.
Definition UA_UADPNETWORKMESSAGECONTENTMASK_WRITERGROUPID : Z := 4.
Definition UA_UADPNETWORKMESSAGECONTENTMASK_PAYLOADHEADER : Z := 64.

Inductive encoding_mime_type := UA_PUBSUB_ENCODING_UADP.
Record UA_WriterGroupConfig := mk_writer_group {
  wg_name : string; publishingInterval : Z; wg_enabled : bool; wg_writerGroupId : Z;
  encodingMimeType : encoding_mime_type; networkMessageContentMask : Z
}.

Record UA_DataSetWriterConfig := mk_writer { dsw_name : string; dataSetWriterId : Z; keyFrameCount : Z }.

Definition DEFAULT_SOCKET_PRIORITY : Z := 3.
Definition socketPriority : Z := DEFAULT_SOCKET_PRIORITY.
Definition enableSoTxtime : bool := true.

(** ** The calls *)

Section Publisher.
Context {NodeId : Type} (UA_NODEID_NULL : NodeId).

Inductive ua_call :=
  | UA_Server_new
  | UA_Server_getConfig
  | UA_ServerConfig_addPubSubTransportLayer (ethernet : bool)
  | UA_Server_addPubSubConnection (c : UA_PubSubConnectionConfig)
  | UA_Server_addPublishedDataSet (c : UA_PublishedDataSetConfig)
  | UA_Server_addDataSetField (pds : NodeId) (c : UA_DataSetFieldConfig)
  | UA_UadpWriterGroupMessageDataType_new
  | UA_Server_addWriterGroup (connection : NodeId) (c : UA_WriterGroupConfig)
  | UA_Server_setWriterGroupOperational (group : NodeId)
  | UA_UadpWriterGroupMessageDataType_delete
  | UA_Server_addDataSetWriter (group pds : NodeId) (c : UA_DataSetWriterConfig)
  | UA_Server_runUntilInterrupt
  | UA_Server_delete.

(** The status of a call after the calls before it (most recent last), and the
    identifier it stored, if it stored one. *)
Context (answer : list ua_call -> ua_call -> UA_StatusCode * option NodeId).

(** The global variables, which start zeroed, and the calls made so far. *)
Record pub_state := mk_pub_state {
  connectionIdent : NodeId; publishedDataSetIdent : NodeId; writerGroupIdent : NodeId;
  calls : list ua_call
}.

Definition issue (c : ua_call) (s : pub_state) : pub_state :=
  mk_pub_state (connectionIdent s) (publishedDataSetIdent s) (writerGroupIdent s) (calls s ++ [c]).

Definition stored (c : ua_call) (s : pub_state) (old : NodeId) : NodeId :=
  default old (answer (calls s) c).2.

Definition addPubSubConnection (transportProfile interface url : string) (s : pub_state) : pub_state :=
  let connectionConfig :=
    mk_pub_connection "UADP Connection 1" transportProfile true interface url 2234
      [("sockpriority", UInt32Option socketPriority); ("enablesotxtime", BooleanOption enableSoTxtime)]%string in
  let c := UA_Server_addPubSubConnection connectionConfig in
  let s' := issue c s in
  mk_pub_state (stored c s (connectionIdent s)) (publishedDataSetIdent s') (writerGroupIdent s') (calls s').

Definition addPublishedDataSet (s : pub_state) : pub_state :=
  let c := UA_Server_addPublishedDataSet (mk_data_set UA_PUBSUB_DATASET_PUBLISHEDITEMS "Demo PDS") in
  let s' := issue c s in
  mk_pub_state (connectionIdent s') (stored c s (publishedDataSetIdent s)) (writerGroupIdent s') (calls s').

Definition addDataSetField (s : pub_state) : pub_state :=
  let dataSetFieldConfig :=
    mk_field_config "Server localtime" false UA_NS0ID_SERVER_SERVERSTATUS_CURRENTTIME UA_ATTRIBUTEID_VALUE in
  issue (UA_Server_addDataSetField (publishedDataSetIdent s) dataSetFieldConfig) s.

Definition addWriterGroup (s : pub_state) : pub_state :=
  let s := issue UA_UadpWriterGroupMessageDataType_new s in
  let mask :=
    Z.lor UA_UADPNETWORKMESSAGECONTENTMASK_PUBLISHERID
      (Z.lor UA_UADPNETWORKMESSAGECONTENTMASK_GROUPHEADER
        (Z.lor UA_UADPNETWORKMESSAGECONTENTMASK_WRITERGROUPID
           UA_UADPNETWORKMESSAGECONTENTMASK_PAYLOADHEADER)) in
  let c := UA_Server_addWriterGroup (connectionIdent s)
             (mk_writer_group "Demo WriterGroup" 1 false 100 UA_PUBSUB_ENCODING_UADP mask) in
  let s' := issue c s in
  let s' := mk_pub_state (connectionIdent s') (publishedDataSetIdent s')
              (stored c s (writerGroupIdent s)) (calls s') in
  issue UA_UadpWriterGroupMessageDataType_delete
    (issue (UA_Server_setWriterGroupOperational (writerGroupIdent s')) s').

Definition addDataSetWriter (s : pub_state) : pub_state :=
  issue (UA_Server_addDataSetWriter (writerGroupIdent s) (publishedDataSetIdent s)
           (mk_writer "Demo DataSetWriter" 62541 10)) s.

(** [eth_uadp] is the macro [UA_ENABLE_PUBSUB_ETH_UADP] of the build. *)
Definition run (eth_uadp : bool) (transportProfile interface url : string) : list ua_call * Z :=
  let s := mk_pub_state UA_NODEID_NULL UA_NODEID_NULL UA_NODEID_NULL [] in
  let s := issue UA_Server_getConfig (issue UA_Server_new s) in
  let s := issue (UA_ServerConfig_addPubSubTransportLayer false) s in
  let s := if eth_uadp then issue (UA_ServerConfig_addPubSubTransportLayer true) s else s in
  let s := addPubSubConnection transportProfile interface url s in
  let s := addPublishedDataSet s in
  let s := addDataSetField s in
  let s := addWriterGroup s in
  let s := addDataSetWriter s in
  let retval := (answer (calls s) UA_Server_runUntilInterrupt).1 in
  let s := issue UA_Server_delete (issue UA_Server_runUntilInterrupt s) in
  (calls s, if retval =? UA_STATUSCODE_GOOD then EXIT_SUCCESS else EXIT_FAILURE).

(** The calls of the server, or the usage line, and the exit status. *)
Definition publisher_main (eth_uadp : bool) (argv : list string) : res ((string + list ua_call) * Z) :=
  let* progname := znth argv 0 in
  if negb (zlen argv =? 2) then Ret (inl progname, EXIT_FAILURE)
  else
    let* device := znth argv 1 in
    if String.eqb device "-h" then Ret (inl progname, EXIT_SUCCESS)
    else
      let '(cs, code) := run eth_uadp eth_uadp_profile device ethernet_url in Ret (inr cs, code).
End Publisher.
Arguments ua_call : clear implicits.

(** ** What a server promises

    The objects that exist after a sequence of calls, each with what it is
    attached to.  A server that keeps its documentation adds an object when the
    objects it is attached to exist, under an identifier not in use. *)
Section Laws.
Context {NodeId : Type}.

(** The objects a call refers to. *)
Definition refers (c : ua_call NodeId) : list NodeId :=
  match c with
  | UA_Server_addDataSetField pds _ => [pds]
  | UA_Server_addWriterGroup conn _ => [conn]
  | UA_Server_setWriterGroupOperational wg => [wg]
  | UA_Server_addDataSetWriter wg pds _ => [wg; pds]
  | _ => []
  end.

(** Whether a call asks for an object that is stored in a global variable. *)
Definition creates (c : ua_call NodeId) : bool :=
  match c with
  | UA_Server_addPubSubConnection _ | UA_Server_addPublishedDataSet _ | UA_Server_addWriterGroup _ _ => true
  | _ => false
  end.

(** The identifiers handed out along a sequence of calls. *)
Fixpoint handed_out (answer : list (ua_call NodeId) -> ua_call NodeId -> UA_StatusCode * option NodeId)
    (past todo : list (ua_call NodeId)) : list NodeId :=
  match todo with
  | [] => []
  | c :: todo => option_list (answer past c).2 ++ handed_out answer (past ++ [c]) todo
  end.

(** What the call at position [k] stored. *)
Definition stored_at (answer : list (ua_call NodeId) -> ua_call NodeId -> UA_StatusCode * option NodeId)
    (cs : list (ua_call NodeId)) (k : nat) : option NodeId :=
  c ← cs !! k; (answer (take k cs) c).2.

(** Every call is answered with success. *)
Definition all_good (answer : list (ua_call NodeId) -> ua_call NodeId -> UA_StatusCode * option NodeId)
    (cs : list (ua_call NodeId)) : Prop :=
  forall k c, cs !! k = Some c -> (answer (take k cs) c).1 = UA_STATUSCODE_GOOD.

(** A call of the set-up that has what it needs: the objects it refers to exist,
    and a connection over Ethernet has its transport layer. *)
Definition admissible (answer : list (ua_call NodeId) -> ua_call NodeId -> UA_StatusCode * option NodeId)
    (past : list (ua_call NodeId)) (c : ua_call NodeId) : Prop :=
  (forall i, i ∈ refers c -> i ∈ handed_out answer [] past) /\
  match c with
  | UA_Server_addPubSubConnection cfg =>
      pc_transportProfileUri cfg = eth_uadp_profile -> UA_ServerConfig_addPubSubTransportLayer true ∈ past
  | UA_Server_runUntilInterrupt => False
  | _ => True
  end.

Class ServerLaws (answer : list (ua_call NodeId) -> ua_call NodeId -> UA_StatusCode * option NodeId) := {
  law_good : forall past c, admissible answer past c -> (answer past c).1 = UA_STATUSCODE_GOOD;
  law_creates : forall past c, admissible answer past c -> creates c = true ->
    exists i, (answer past c).2 = Some i /\ i ∉ handed_out answer [] past
}.

Lemma handed_out_app answer todo todo' past :
  handed_out answer past (todo ++ todo') =
    handed_out answer past todo ++ handed_out answer (past ++ todo) todo'.
Proof.
  revert past. induction todo as [|c todo IH]; intros past; cbn [app handed_out];
    [by rewrite app_nil_r|]. rewrite IH, <- !app_assoc. done.
Qed.

Lemma stored_handed_out answer cs k m i :
  stored_at answer cs k = Some i -> (k < m)%nat -> i ∈ handed_out answer [] (take m cs).
Proof.
  unfold stored_at. intros (c & Hc & Hi)%bind_Some Hk.
  replace (take m cs) with (take k cs ++ c :: take (m - S k) (drop (S k) cs)).
  - rewrite handed_out_app. cbn [handed_out app]. rewrite Hi. set_solver.
  - rewrite <- (take_drop_middle cs k c) at 3 by done.
    rewrite take_app, take_take, Nat.min_r by lia. f_equal.
    apply lookup_lt_Some in Hc. rewrite length_take, Nat.min_l by lia.
    replace (m - k)%nat with (S (m - S k)) by lia. done.
Qed.
End Laws.

(** ** Properties *)

(** The set-up of a publisher on [device], up to the server's loop. *)
Definition set_up {NodeId} (eth_uadp : bool) (device : string) (conn pds wg : NodeId) : list (ua_call NodeId) :=
  [UA_Server_new; UA_Server_getConfig; UA_ServerConfig_addPubSubTransportLayer false] ++
  (if eth_uadp then [UA_ServerConfig_addPubSubTransportLayer true] else []) ++
  [UA_Server_addPubSubConnection
     (mk_pub_connection "UADP Connection 1" eth_uadp_profile true device ethernet_url 2234
        [("sockpriority"%string, UInt32Option 3); ("enablesotxtime"%string, BooleanOption true)]);
   UA_Server_addPublishedDataSet (mk_data_set UA_PUBSUB_DATASET_PUBLISHEDITEMS "Demo PDS");
   UA_Server_addDataSetField pds
     (mk_field_config "Server localtime" false UA_NS0ID_SERVER_SERVERSTATUS_CURRENTTIME UA_ATTRIBUTEID_VALUE);
   UA_UadpWriterGroupMessageDataType_new;
   UA_Server_addWriterGroup conn (mk_writer_group "Demo WriterGroup" 1 false 100 UA_PUBSUB_ENCODING_UADP 71);
   UA_Server_setWriterGroupOperational wg;
   UA_UadpWriterGroupMessageDataType_delete;
   UA_Server_addDataSetWriter wg pds (mk_writer "Demo DataSetWriter" 62541 10)].

Section PublisherProps.
Context {NodeId : Type} (null : NodeId).
Context (answer : list (ua_call NodeId) -> ua_call NodeId -> UA_StatusCode * option NodeId).

Lemma issue_calls c a b d cs :
  issue c (mk_pub_state a b d cs) = mk_pub_state (NodeId := NodeId) a b d (cs ++ [c]).
Proof. done. Qed.

Lemma connection_calls profile device url a b d cs :
  let c := UA_Server_addPubSubConnection
     (mk_pub_connection "UADP Connection 1" profile true device url 2234
        [("sockpriority"%string, UInt32Option 3); ("enablesotxtime"%string, BooleanOption true)]) in
  addPubSubConnection answer profile device url (mk_pub_state a b d cs) =
    mk_pub_state (default a (answer cs c).2) b d (cs ++ [c]).
Proof. done. Qed.

Lemma data_set_calls a b d cs :
  let c := UA_Server_addPublishedDataSet (mk_data_set UA_PUBSUB_DATASET_PUBLISHEDITEMS "Demo PDS") in
  addPublishedDataSet answer (mk_pub_state a b d cs) =
    mk_pub_state a (default b (answer cs c).2) d (cs ++ [c]).
Proof. done. Qed.

Lemma writer_group_calls a b d cs :
  let c := UA_Server_addWriterGroup a
             (mk_writer_group "Demo WriterGroup" 1 false 100 UA_PUBSUB_ENCODING_UADP 71) in
  let cs1 := cs ++ [UA_UadpWriterGroupMessageDataType_new] in
  let wg := default d (answer cs1 c).2 in
  addWriterGroup answer (mk_pub_state a b d cs) =
    mk_pub_state a b wg
      (((cs1 ++ [c]) ++ [UA_Server_setWriterGroupOperational wg]) ++ [UA_UadpWriterGroupMessageDataType_delete]).
Proof. done. Qed.

(** Whatever the server answers, the publisher makes the calls of a set-up, runs
    the server and deletes it; the identifiers are those the calls stored. *)
Lemma publisher_main_spec eth prog device :
  device <> "-h"%string ->
  exists conn pds wg,
    let cs := set_up eth device conn pds wg in
    let n := if eth then 4%nat else 3%nat in
    publisher_main null answer eth [prog; device] =
      Ret (inr (cs ++ [UA_Server_runUntilInterrupt; UA_Server_delete]),
           if (answer cs UA_Server_runUntilInterrupt).1 =? UA_STATUSCODE_GOOD then 0 else 1) /\
    conn = default null (stored_at answer cs n) /\
    pds = default null (stored_at answer cs (n + 1)) /\
    wg = default null (stored_at answer cs (n + 4)).
Proof.
  intros Hd. unfold publisher_main. change (znth [prog; device] 0) with (Ret prog).
  change (znth [prog; device] 1) with (Ret device). cbn [bind].
  change (negb (zlen [prog; device] =? 2)) with false. cbv iota.
  destruct (String.eqb_spec device "-h") as [|_]; [done|].
  unfold run. rewrite !issue_calls.
  match goal with |- context [addPubSubConnection _ _ _ _ ?s] =>
    replace s with
      (mk_pub_state null null null (take (if eth then 4 else 3) (set_up eth device null null null)))
      by (by destruct eth)
  end.
  rewrite connection_calls. remember (default null _) as conn eqn:E1.
  rewrite data_set_calls. remember (default null (answer _ (UA_Server_addPublishedDataSet _)).2) as pds eqn:E2.
  unfold addDataSetField. rewrite issue_calls. cbn [publishedDataSetIdent].
  rewrite writer_group_calls. remember (default null (answer _ (UA_Server_addWriterGroup _ _)).2) as wg eqn:E3.
  unfold addDataSetWriter. cbn [writerGroupIdent publishedDataSetIdent]. rewrite !issue_calls. cbn [calls].
  exists conn, pds, wg. destruct eth; (split; [reflexivity|]); (split; [exact E1|]); (split; [exact E2|exact E3]).
Qed.

(** A set-up whose identifiers are those its calls stored, on a server that keeps
    its documentation. *)
Lemma set_up_good device conn pds wg `{!ServerLaws answer} :
  let cs := set_up true device conn pds wg in
  conn = default null (stored_at answer cs 4) -> pds = default null (stored_at answer cs 5) ->
  wg = default null (stored_at answer cs 8) ->
  all_good answer cs /\ NoDup [conn; pds; wg].
Proof.
  intros cs E1 E2 E3.
  assert (creates_at : forall k c, cs !! k = Some c -> admissible answer (take k cs) c -> creates c = true ->
            exists i, stored_at answer cs k = Some i /\ i ∉ handed_out answer [] (take k cs)).
  { intros k c Hk Ha Hc. destruct (law_creates (take k cs) c Ha Hc) as (i & Hi & Hn).
    exists i. split; [|done]. unfold stored_at. by rewrite Hk. }
  destruct (creates_at 4%nat _ eq_refl) as (i & Hi & _); [|done|].
  { split; [by intros i ?%not_elem_of_nil|]. intros _. cbn. set_solver. }
  destruct (creates_at 5%nat _ eq_refl) as (j & Hj & Hnj); [|done|].
  { split; [by intros j ?%not_elem_of_nil|done]. }
  rewrite Hi in E1. rewrite Hj in E2. cbn in E1, E2. subst i j.
  destruct (creates_at 8%nat _ eq_refl) as (l & Hl & Hnl); [|done|].
  { split; [|done]. intros l ->%list_elem_of_singleton. by apply (stored_handed_out _ _ 4); [|lia]. }
  rewrite Hl in E3. cbn in E3. subst l. split.
  - intros k c Hk. apply law_good.
    assert (Hc : forall m, (4 < m)%nat -> conn ∈ handed_out answer [] (take m cs)) by
      (intros m Hm; by apply (stored_handed_out _ _ 4)).
    assert (Hp : forall m, (5 < m)%nat -> pds ∈ handed_out answer [] (take m cs)) by
      (intros m Hm; by apply (stored_handed_out _ _ 5)).
    assert (Hw : forall m, (8 < m)%nat -> wg ∈ handed_out answer [] (take m cs)) by
      (intros m Hm; by apply (stored_handed_out _ _ 8)).
    do 12 (destruct k as [|k]; [injection Hk as <-; (split; [cbn [refers]; intros x Hx|first [done|cbn; set_solver]]);
      rewrite ?elem_of_cons, elem_of_nil in Hx; destruct_or?; subst; (done || eauto with lia)|]).
    done.
  - rewrite !NoDup_cons, !not_elem_of_cons. split_and!; try apply not_elem_of_nil; [| | |apply NoDup_nil_2].
    + intros ->. by apply Hnj, (stored_handed_out _ _ 4); [|lia].
    + intros ->. by apply Hnl, (stored_handed_out _ _ 4); [|lia].
    + intros ->. by apply Hnl, (stored_handed_out _ _ 5); [|lia].
Qed.
End PublisherProps.

(** On a server that adds what it is asked to add when its parents exist, and
    with the Ethernet layer compiled in, the publisher makes exactly the calls of
    its set-up, all of them succeed, and the objects hang together: the field is
    in the data set, the writer group in the connection, and the writer joins that
    group with that data set.  It then runs the server until it is interrupted,
    deletes it, and exits with 0 exactly when the server's loop ended well. *)
Theorem publisher_sets_up_everything {NodeId} (null : NodeId) answer `{!ServerLaws answer} prog device :
  device <> "-h"%string ->
  exists conn pds wg,
    let cs := set_up true device conn pds wg in
    publisher_main null answer true [prog; device] =
      Ret (inr (cs ++ [UA_Server_runUntilInterrupt; UA_Server_delete]),
           if (answer cs UA_Server_runUntilInterrupt).1 =? UA_STATUSCODE_GOOD then 0 else 1) /\
    all_good answer cs /\ NoDup [conn; pds; wg].
Proof.
  intros Hd. destruct (publisher_main_spec null answer true prog device Hd) as (conn & pds & wg & E & E1 & E2 & E3).
  exists conn, pds, wg. split; [exact E|]. by apply (set_up_good null).
Qed.

(** A failed set-up is not noticed: when every call that adds an object fails
    and stores nothing, the publisher still passes the null identifier on, runs
    the server, and exits with 0 when the loop ends well. *)
Theorem publisher_hides_set_up_failures {NodeId} (null : NodeId) answer eth prog device :
  device <> "-h"%string ->
  (forall past c, creates c = true -> (answer past c).1 <> UA_STATUSCODE_GOOD /\ (answer past c).2 = None) ->
  (forall past, (answer past UA_Server_runUntilInterrupt).1 = UA_STATUSCODE_GOOD) ->
  publisher_main null answer eth [prog; device] =
    Ret (inr (set_up eth device null null null ++ [UA_Server_runUntilInterrupt; UA_Server_delete]), 0).
Proof.
  intros Hd Hfail Hrun.
  destruct (publisher_main_spec null answer eth prog device Hd) as (conn & pds & wg & E & E1 & E2 & E3).
  rewrite E, Hrun. change (UA_STATUSCODE_GOOD =? UA_STATUSCODE_GOOD) with true. cbv iota.
  assert (Hnone : forall cs k c, cs !! k = Some c -> creates c = true -> stored_at answer cs k = None).
  { intros cs k c Hk Hc. unfold stored_at. rewrite Hk. cbn. by apply Hfail. }
  destruct eth; (erewrite Hnone in E1 by done); (erewrite Hnone in E2 by done);
    (erewrite Hnone in E3 by done); cbn in E1, E2, E3; by subst.
Qed.

(** ** Witnesses *)

(** A server that numbers its objects by the position of the call, and refuses
    to attach anything to what it did not create. *)
Definition known (past : list (ua_call nat)) (i : nat) : bool :=
  match past !! i with Some c => creates c | None => false end.
Definition demo_answer (past : list (ua_call nat)) (c : ua_call nat) : UA_StatusCode * option nat :=
  if forallb (known past) (refers c) then (0, if creates c then Some (length past) else None)
  else (2147483648, None).

Lemma demo_handed_out todo : forall past i,
  i ∈ handed_out demo_answer past todo ->
  known (past ++ todo) i = true.
Proof.
  induction todo as [|c todo IH]; intros past i; cbn [handed_out]; [by intros ?%not_elem_of_nil|].
  rewrite elem_of_app. intros [Hi|Hi].
  - unfold demo_answer in Hi. destruct (forallb _ _); cbn in Hi; [|by apply not_elem_of_nil in Hi].
    destruct (creates c) eqn:Ec; cbn in Hi; [|by apply not_elem_of_nil in Hi].
    apply list_elem_of_singleton in Hi as ->. unfold known. by rewrite list_lookup_middle.
  - apply IH in Hi. by rewrite <- app_assoc in Hi.
Qed.

#[local] Instance demo_laws : ServerLaws demo_answer.
Proof.
  assert (Hok : forall past c, admissible demo_answer past c -> forallb (known past) (refers c) = true).
  { intros past c [Hr _]. apply forallb_forall. intros i Hi%list_elem_of_In.
    by apply (demo_handed_out past []), Hr. }
  split; intros past c Ha; unfold demo_answer at 1; rewrite (Hok _ _ Ha); [done|].
  intros ->. exists (length past). split; [done|]. intros Hin%demo_handed_out. unfold known in Hin.
  cbn [app] in Hin. by rewrite lookup_ge_None_2 in Hin by lia.
Qed.

Lemma publisher_sets_up_everything_witness :
  exists conn pds wg,
    let cs := set_up true "eth0" conn pds wg in
    publisher_main 0%nat demo_answer true ["pub"; "eth0"]%string =
      Ret (inr (cs ++ [UA_Server_runUntilInterrupt; UA_Server_delete]), 0) /\
    all_good demo_answer cs /\ NoDup [conn; pds; wg].
Proof. apply (publisher_sets_up_everything 0%nat demo_answer "pub" "eth0"). done. Defined.

Lemma publisher_hides_set_up_failures_witness :
  publisher_main 0%nat (fun _ c => (if creates c then 2147483648 else 0, None)) true ["pub"; "eth0"]%string =
    Ret (inr (set_up true "eth0" 0%nat 0%nat 0%nat ++ [UA_Server_runUntilInterrupt; UA_Server_delete]), 0).
Proof.
  apply (publisher_hides_set_up_failures 0%nat (fun _ c => (if creates c then 2147483648 else 0, None)) true
    "pub" "eth0"); [done| |reflexivity].
  intros past c Hc. rewrite Hc. split; [|reflexivity]. discriminate.
Defined.
